(* ===== verification/_CoqProject ===== *)
-Q . S2P
Prelude.v
Cstring.v
Inet.v
Stream.v
Scanf.v
OrdMap.v
Pod.v
Ostream.v
Device.v
Packet.v
Inode.v
Process.v
Handle.v
Logger.v
Transport.v
Protocol.v
Capture.v
Api.v
Singleton.v
Clock.v
Frame.v
Rows.v
Ledger.v
Figures.v
Session.v
Connection.v
Stable.v
Client.v
