(* ===== verification/Prelude.v ===== *)
(** * A verification of the capture library

    The library watches the processes of a Linux host.  It opens a libpcap
    capture on every network device that is up, resolves each packet to the
    process that holds its socket, reads the processes' resources from [/proc],
    and reports both to the host program through two callbacks.  The host calls
    three C functions: [CaptureInit], [CaptureUpdate], [CaptureExit].

    ** The parts, and where they are modelled

    Paths are relative to the repository; a Module or Section of a file has the
    name of the class it models and its definitions have the names of the
    methods.  Overloads carry a suffix ([Init4], [Init6], [Contains4], ...).

    - [Prelude] (this file): tactics, hint databases, fixed-width integers, the
      effect monad [M] and its Hoare rules.
    - [Cstring], [Inet], [Stream], [Scanf], [OrdMap], [Ostream]: what the
      program uses of the C and C++ standard libraries.  C strings, [strncpy],
      numerals; [in_addr], [in6_addr], [inet_ntop]; [std::fstream] with [getline]
      and the [while (!s.eof())] loop; [sscanf]; [std::set] and [std::map] over
      pids; insertion into [std::ostream].
    - [Pod]: src/export/capture_errors.h, src/export/capture_pod.h, and the
      record [Os] of what the operating system answers.
    - [Device]: src/local_addr.h (Module [LocalAddr]), src/cap_device.h and .cpp
      (Module [CapDevice]), src/cap_ifaddrs.h and .cpp (Module [CapIfaddrs]),
      the two [CaptureCxx::Contains] of src/capturecxx.h.
    - [Packet]: src/cap_packet.h and .cpp (Module [CapPacket]).
    - [Inode]: src/cap_inode_helper.h and .cpp (Module [CapInodeHelper]).
    - [Process]: src/cap_process.h and .cpp (Module [CapProcess]).
    - [Handle]: src/cap_handle.h and .cpp (Module [CapHandle]), libpcap's
      interface (class [Pcap]).
    - [Logger]: src/utils/logger.hpp (Module [Logger]), over spdlog and fmt.
    - [Transport]: the state of src/capturecxx.h and the packet side of
      src/capturecxx.cpp, [ProcessTcp] and [ProcessUdp] (Module [CaptureCxx]).
    - [Protocol]: src/cap_protocol.h and .cpp (Module [CapProtocol]), against a
      class [Transport] of segment handlers whose promise is [TransportOk].
      [capture_transport] is the capture's own instance.
    - [Capture]: the rest of src/capturecxx.cpp, [Init], [Update] and their
      helpers.
    - [Api]: src/libcapture.cpp and the step relation of a host's calls.
    - [Singleton]: src/utils/singleton.h (Module [Singleton]) over a store of
      objects, and the exported functions on the reference that [Get] gives them.
    - [Clock]: a class of the operations that never turn the clock back, with an
      instance for each of them.
    - [Frame]: what one frame is and does.  [dissect] takes its bytes apart,
      [resolve] finds the process it arrives at, [accept] is the state after it;
      the dispatch of all handles is a sequence of such steps ([absorbs]), and
      what the handles delivered, each at an instant of its own within the
      update, is [delivered].
    - [Rows]: the packet table as a function of what arrived ([fill]).
    - [Ledger]: the specification of an update.  A ledger maps a pid to the bytes
      it sent and received; [credit] says what one frame does to it; [prune] and
      [reset] what the comparison with the living and an initialisation do.
      [table] abstracts a state of the capture to its ledger.  The record
      [updated] has the phases of an update, for the theorems here and in the
      files below.
    - [Figures]: the processes that an update reads again.
    - [Session]: the specification of a whole use of the library: a book of the
      ledger, of the packet rows, and of what the two callbacks have been told,
      with an entry for each call; [booked] is a run and its book side by side.
    - [Connection]: the specification of a connection ([holds], [unheld],
      [carries]) and the theorem that leads from the files of the system to the
      ledger.
    - [Stable]: uses of the library on a host whose processes do not change.
    - [Client]: examples/exa_capture.cpp, its callbacks and its main loop; the
      packet printer of README.md; the tests test/test_capprocess.cpp and
      test/test_capturecxx.cpp.

    ** How they interact

    [Update] refreshes [pids] from [/proc], has [CapInodeHelper] rebuild its two
    maps (packet key to socket inode, inode to pid), and dispatches every
    handle.  libpcap calls [CapHandle::HandlePacket], which calls
    [CapProtocol::Parse] on the frame; the parser puts the addresses in the
    handle's context and calls [ProcessTcp] or [ProcessUdp], which build a
    [CapPacket], look up the pid of its [Hash], charge the packet to the
    [CapProcess] (creating it if it is new) and store a row of the packet table.
    Then [Update] parses the processes, compares them with the pids, and calls
    the callbacks.  The instances of [CapInodeHelper] and [Logger], which only the
    capture uses, are fields of the state [CaptureCxx.t]; a method of one runs
    there through [zoom].  The instance of [CaptureCxx] itself is made by the
    first exported function that is called ([Singleton]).  The
    calls made to the callbacks are the list [events]; [Client] gives one host's
    callbacks their effects.

    ** Conventions

    - A method is a function of the object's state in the monad [M S A]: a state,
      a clock, and an outcome.  [Done] is a return; [Throws] an exception that
      leaves the library; [Undef] an undefined behaviour (a read outside the
      captured bytes, an overflow of a [char] array, a null dereference, a read
      of a variable that nothing has stored);
      [Diverges] a loop that does not end.
    - Each system call reads the [Os] in force at the current clock and advances
      the clock ([sys]); libpcap's functions likewise ([pcall]).  Between two
      calls the system may change in any way, unless a theorem says otherwise.
    - Integers are [Z] at the width of their C++ type: [u32], [u64], [i32] are
      the conversions written where the code stores or adds.  Doubles are the
      Standard Library's [spec_float] at binary64.
    - Packets are lists of bytes, as long as what was captured: a read past
      [caplen] is [Undef OobRead].
    - What the code leaves indeterminate until an [Init] has some fixed value;
      no definition reads it before.  The one local variable that the code reads
      whether or not it was stored, the network number in [OpenLive], is an
      [option] ([read_local]).

    ** Parameters

    Code outside the repository is a class: [Ntop6] (the text of an IPv6
    address, with the laws [Ntop6Ok]), [Pcap] (libpcap, [PcapOk] being what its
    manual says of [pcap_dispatch]), [Env] (the operating system at each
    instant), [Spdlog] (whether a log file opens), [Fmt] (the text spdlog and fmt
    make of a message).  Each is instantiated by concrete functions for the
    witnesses: [full_ntop6], [short_ntop6], [sample_pcap], [app_env], [app_log],
    [plain_fmt].  [PcapErr] (the text of a capture's last error) and what
    [spdlog::shutdown] does are parameters that no theorem concerns.

    What the program expects of its host is the record [steady_host]: names that
    fit their array, lines that fit the readers' buffer, pids below the limit,
    complete packets.  What it expects of a configuration is [well_called]: a log
    file, and no filter unless the network numbers can be looked up.  [steady os] adds that the answers stay the same.

    ** Fuel and termination

    [read_lines] runs the [eof] loop with the length of the file plus two as
    fuel; every turn consumes a character or sets a flag, and
    [read_lines_spec] shows that the fuel is enough: the loop equals a reference
    definition that splits the file into lines, and diverges only when a line
    does not fit the 1024-byte buffer and none before it ended the loop.
    [parse_fmt] has the length of the format plus one.  The example's endless
    loop is unrolled any number of times ([turns]).  All other loops are
    structural.

    ** What the theorems show

    - The whole library ([Api]): an invariant of every reachable state
      ([reachable_inv]); what every callback of every run is given
      ([reachable_events_typed]); under stated conditions on the environment no
      call has undefined behaviour ([calls_are_safe]), and every sequence of
      calls returns ([calls_return]).  The exported functions, each on the object
      that [Get] refers it to, behave as methods of one object that was there from
      the start ([host_is_session]).
    - Refinement ([Ledger], [Session]): an update is a step of the ledger, which
      it reports row by row ([Update_refines]), and so is an initialisation
      ([Init_refines]); every run makes the entries of a book call by call, so that
      the host is told exactly its notices ([runs_refine]); hence no byte is counted twice, in any
      table ever reported ([reports_accounted]).
    - One update ([Ledger], [Figures]): the account of a process
      ([Update_accounts]), the packet table and its announcement
      ([Update_packet_table]), the figures that are not read again
      ([Update_keeps_figures]) and those that are ([Update_rereads]).
    - A stable host ([Stable]): over any number of updates nobody is lost, and
      every byte that arrives is in the table ([living_processes_kept]); when the
      sockets are stable too, the table is exactly what the connections of each
      process carried ([connections_counted]).
    - From end to end ([Connection]): the segments of a connection are charged to
      the process that holds its socket, and to nobody when none does
      ([connections_charged]).
    - The loop every reader is built on ([Stream]) equals its reference
      definition ([read_lines_reference]).
    - From a frame to a process ([Protocol], [Transport], [Packet]): frames are
      parsed as they are printed; the bytes read are exactly known; traffic is
      conserved and charged to the right process and direction; both directions
      of a connection share a key, and keys identify connections, in both
      families.
    - From a connection to a pid ([Inode]): the rows of [/proc/net] are read in
      the form the kernel prints them, over IPv4, IPv6 and dual-stack sockets;
      refresh followed by lookup finds the process that holds the connection.
    - A process ([Process]): what [ParseProc] leaves in the record, on live
      processes and on failures; totals of its traffic; well-formedness.
    - The update ([Capture]): pids, CPU totals, the comparison of processes with
      pids, the reports, ownership of captures.
    - The host ([Client], [Logger]): the example completes any number of turns
      and reads nothing beyond what it is given ([main_runs]); its lines are
      those of [Info]; which messages the configured logger lets pass.
    - Behaviour that differs from what the code means to do is stated as it is:
      the network number that is read after a failed lookup, the packet callback's size, the comparison loop of [Update], the reuse
      branch of [ProcessUdp], the key without a colon, the lines that are too
      long, command names with blanks, groups without a name, 15-character
      addresses, the stale key of [Invert], the figures that are not read again
      and the percentages of those that are, packet rows of earlier updates,
      connections between two addresses of the host, the README's packet printer.

    ** Not modelled

    What spdlog and fmt make of a message and the source location it carries (a
    pointer that [GetShortName] leaves dangling); the text of the error buffers;
    heap allocation failure; src/utils/obj_pool.h (empty), src/utils/nocopy.h (a
    base class that deletes the copy operations), the enum [CapPacketType], which
    nothing uses; the union [ParseType], of which no line of a file fills two
    members, so that its zeroed bytes are the defaults of [status_line] and
    [io_line]; the empty test of the devices and the main function of the tests.  Two threads calling at once are excluded by
    src/libcapture.cpp (the user ensures thread safety), and a callback that
    calls the library is not considered.

    The copies of packets that [captureAll] asks for are made by the model, but
    nothing sets the flag, so that no theorem concerns how long they live.  The
    book of [Session] has the traffic of the processes and not their other
    figures: [Update_keeps_figures], [Update_rereads] and [ParseProc_live] say
    what these are. *)

From Stdlib Require Export ZArith Lia Ascii String List.
From stdpp Require Export base tactics decidable list gmap strings.

#[global] Open Scope Z_scope.

(** Appending to an explicit character computes. *)
#[global] Arguments String.append !_ _ / : simpl nomatch.

(** ** Tactics and hint databases of the development *)

Create HintDb cap.
Create Rewrite HintDb cap.

(** Destructs the innermost scrutinee of the goal, remembering the equation. *)
Ltac case_scrutinee :=
  match goal with
  | |- context [match ?x with _ => _ end] =>
      lazymatch x with
      | context [match _ with _ => _ end] => fail
      | _ => destruct x eqn:?
      end
  end.

(** Turns boolean comparisons of the context into arithmetic facts. *)
Ltac bool_to_prop :=
  repeat match goal with
  | H : (_ =? _)%Z = true |- _ => apply Z.eqb_eq in H
  | H : (_ =? _)%Z = false |- _ => apply Z.eqb_neq in H
  | H : (_ <? _)%Z = true |- _ => apply Z.ltb_lt in H
  | H : (_ <? _)%Z = false |- _ => apply Z.ltb_ge in H
  | H : (_ <=? _)%Z = true |- _ => apply Z.leb_le in H
  | H : (_ <=? _)%Z = false |- _ => apply Z.leb_gt in H
  | H : (_ <? _)%nat = true |- _ => apply Nat.ltb_lt in H
  | H : (_ <? _)%nat = false |- _ => apply Nat.ltb_ge in H
  | H : (_ <=? _)%nat = true |- _ => apply Nat.leb_le in H
  | H : (_ <=? _)%nat = false |- _ => apply Nat.leb_gt in H
  | H : (_ && _)%bool = true |- _ => apply andb_prop in H as [? ?]
  | H : negb _ = true |- _ => apply negb_true_iff in H
  | H : negb _ = false |- _ => apply negb_false_iff in H
  end.

(** ** Fixed-width integers

    A machine integer is its value in [Z]; the functions below are the
    conversions C++ performs when a value is stored in a variable of the
    width: reduction modulo [2^w], two's complement for the signed types. *)

Definition u8 (z : Z) : Z := z mod 2 ^ 8.
Definition u16 (z : Z) : Z := z mod 2 ^ 16.
Definition u32 (z : Z) : Z := z mod 2 ^ 32.
Definition u64 (z : Z) : Z := z mod 2 ^ 64.
Definition i32 (z : Z) : Z := (z + 2 ^ 31) mod 2 ^ 32 - 2 ^ 31.
Definition i64 (z : Z) : Z := (z + 2 ^ 63) mod 2 ^ 64 - 2 ^ 63.

Lemma u32_id z : 0 <= z < 2 ^ 32 -> u32 z = z.
Proof. apply Z.mod_small. Qed.

Lemma u64_id z : 0 <= z < 2 ^ 64 -> u64 z = z.
Proof. apply Z.mod_small. Qed.

Lemma i32_id z : - 2 ^ 31 <= z < 2 ^ 31 -> i32 z = z.
Proof. intros H. unfold i32. rewrite Z.mod_small; lia. Qed.

Lemma i64_id z : - 2 ^ 63 <= z < 2 ^ 63 -> i64 z = z.
Proof. intros H. unfold i64. rewrite Z.mod_small; lia. Qed.

Lemma u32_range z : 0 <= u32 z < 2 ^ 32.
Proof. apply Z.mod_pos_bound. lia. Qed.

Lemma u64_range z : 0 <= u64 z < 2 ^ 64.
Proof. apply Z.mod_pos_bound. lia. Qed.

Lemma i32_range z : - 2 ^ 31 <= i32 z < 2 ^ 31.
Proof. unfold i32. pose proof (Z.mod_pos_bound (z + 2 ^ 31) (2 ^ 32) ltac:(lia)). lia. Qed.

Lemma u32_i32 z : u32 (i32 z) = u32 z.
Proof.
  unfold u32, i32. rewrite Zminus_mod, Zmod_mod, <- Zminus_mod.
  f_equal. lia.
Qed.

#[export] Hint Rewrite u32_id u64_id i32_id i64_id using lia : cap.
#[export] Hint Resolve u32_range u64_range : cap.

(** ** Little-endian decoding

    The host is little-endian: word [k] of an address in memory is its bytes
    [4k .. 4k+3], least significant first. *)

Definition bytes_of_u32 (z : Z) : list Z :=
  [z mod 256; (z / 256) mod 256; (z / 65536) mod 256; (z / 16777216) mod 256].

Definition u32_of_bytes (b0 b1 b2 b3 : Z) : Z :=
  b0 + b1 * 256 + b2 * 65536 + b3 * 16777216.

Lemma u32_of_bytes_of_u32 z :
  0 <= z < 2 ^ 32 ->
  u32_of_bytes (z mod 256) ((z / 256) mod 256)
               ((z / 65536) mod 256) ((z / 16777216) mod 256) = z.
Proof.
  intros Hz. unfold u32_of_bytes.
  pose proof (Z.div_mod z 256 ltac:(lia)).
  pose proof (Z.div_mod (z / 256) 256 ltac:(lia)) as H1.
  pose proof (Z.div_mod (z / 65536) 256 ltac:(lia)) as H2.
  rewrite Z.div_div in H1 by lia. change (256 * 256) with 65536 in H1.
  rewrite Z.div_div in H2 by lia. change (65536 * 256) with 16777216 in H2.
  rewrite (Z.mod_small (z / 16777216)).
  - lia.
  - split; [apply Z.div_pos; lia | apply Z.div_lt_upper_bound; lia].
Qed.

Lemma u32_of_bytes_range b0 b1 b2 b3 :
  0 <= b0 < 256 -> 0 <= b1 < 256 -> 0 <= b2 < 256 -> 0 <= b3 < 256 ->
  0 <= u32_of_bytes b0 b1 b2 b3 < 2 ^ 32.
Proof. unfold u32_of_bytes. lia. Qed.

(** ** Outcomes and the state monad

    A call returns, throws an exception (of the C++ standard library or of
    spdlog), reaches behaviour the language leaves undefined, or does not return. *)

Inductive exn := InvalidArgument | OutOfRange | SpdlogEx.

Inductive ub := OobRead | BufferOverflow | NullDeref | Indeterminate.

Inductive outcome (A : Type) :=
  | Done (a : A)
  | Throws (e : exn)
  | Undef (u : ub)
  | Diverges.
Arguments Done {A} a.
Arguments Throws {A} e.
Arguments Undef {A} u.
Arguments Diverges {A}.

(** A computation over an object of type [S]: it receives the object and the
    number of environment calls made so far, and returns both updated. *)
Definition M (S A : Type) : Type := S -> nat -> outcome (A * S * nat).

#[global] Instance M_ret {S} : MRet (M S) := fun A a s t => Done (a, s, t).

#[global] Instance M_bind {S} : MBind (M S) := fun A B f m s t =>
  match m s t with
  | Done (a, s', t') => f a s' t'
  | Throws e => Throws e
  | Undef u => Undef u
  | Diverges => Diverges
  end.

Definition get {S} : M S S := fun s t => Done (s, s, t).
Definition put {S} (s : S) : M S () := fun _ t => Done ((), s, t).
Definition modify {S} (f : S -> S) : M S () := fun s t => Done ((), f s, t).
Definition throw {S A} (e : exn) : M S A := fun _ _ => Throws e.
Definition undef {S A} (u : ub) : M S A := fun _ _ => Undef u.
Definition diverge {S A} : M S A := fun _ _ => Diverges.

(** Runs a method of an object of type [T] that is found in (and written back
    to) a larger state [S]. *)
Definition zoom {S T A} (prj : S -> T) (upd : T -> S -> S) (m : M T A) : M S A :=
  fun s t =>
    match m (prj s) t with
    | Done (a, x, t') => Done (a, upd x s, t')
    | Throws e => Throws e
    | Undef u => Undef u
    | Diverges => Diverges
    end.

(** Runs a method on an object the caller owns, and returns the object. *)
Definition run_on {S T A} (x : T) (m : M T A) : M S (A * T) :=
  fun s t =>
    match m x t with
    | Done (a, x', t') => Done (a, x', s, t')
    | Throws e => Throws e
    | Undef u => Undef u
    | Diverges => Diverges
    end.

Fixpoint for_each {S A} (l : list A) (body : A -> M S ()) : M S () :=
  match l with
  | [] => mret ()
  | x :: l => body x ;; for_each l body
  end.

(** ** Postconditions

    [wpx bad m Q s t]: run in [s] at time [t], [m] either returns in a state
    that satisfies [Q], or does not return in a way [bad] allows.  [wp] is
    total correctness, [wlp] partial correctness, and [safe] is partial
    correctness without undefined behaviour. *)
Inductive failure := Threw (e : exn) | Undefined (u : ub) | Diverged.

Definition wpx {S A} (bad : failure -> Prop) (m : M S A) (Q : A -> S -> nat -> Prop)
    (s : S) (t : nat) : Prop :=
  match m s t with
  | Done (a, s', t') => Q a s' t'
  | Throws e => bad (Threw e)
  | Undef u => bad (Undefined u)
  | Diverges => bad Diverged
  end.

Definition defined (f : failure) : Prop := match f with Undefined _ => False | _ => True end.

Abbreviation wp := (wpx (fun _ => False)).
Abbreviation wlp := (wpx (fun _ => True)).
Abbreviation safe := (wpx defined).

Section wpx_rules.
Context {S : Type} (bad : failure -> Prop).

Lemma wpx_ret {A} (a : A) (Q : A -> S -> nat -> Prop) s t :
  Q a s t -> wpx bad (mret a) Q s t.
Proof. done. Qed.

Lemma wpx_bind {A B} (m : M S A) (f : A -> M S B) Q s t :
  wpx bad m (fun a s' t' => wpx bad (f a) Q s' t') s t -> wpx bad (m ≫= f) Q s t.
Proof.
  unfold wpx, mbind, M_bind. by destruct (m s t) as [[[??]?]| | |].
Qed.

Lemma wpx_mono {A} (m : M S A) (Q Q' : A -> S -> nat -> Prop) s t :
  wpx bad m Q s t -> (forall a s' t', Q a s' t' -> Q' a s' t') -> wpx bad m Q' s t.
Proof. unfold wpx. destruct (m s t) as [[[??]?]| | |]; naive_solver. Qed.

Lemma wpx_get (Q : S -> S -> nat -> Prop) s t : Q s s t -> wpx bad get Q s t.
Proof. done. Qed.

Lemma wpx_put x (Q : () -> S -> nat -> Prop) s t : Q () x t -> wpx bad (put x) Q s t.
Proof. done. Qed.

Lemma wpx_modify f (Q : () -> S -> nat -> Prop) s t :
  Q () (f s) t -> wpx bad (modify f) Q s t.
Proof. done. Qed.

Lemma wpx_zoom {T A} prj upd (m : M T A) (Q : A -> S -> nat -> Prop) s t :
  wpx bad m (fun a x t' => Q a (upd x s) t') (prj s) t ->
  wpx bad (zoom prj upd m) Q s t.
Proof. unfold wpx, zoom. by destruct (m (prj s) t) as [[[??]?]| | |]. Qed.

Lemma wpx_run_on {T A} (x : T) (m : M T A) (Q : A * T -> S -> nat -> Prop) s t :
  wpx bad m (fun a x' t' => Q (a, x') s t') x t -> wpx bad (run_on x m) Q s t.
Proof. unfold wpx, run_on. by destruct (m x t) as [[[??]?]| | |]. Qed.

(** The loop rule: an invariant kept by every iteration. *)
Lemma wpx_for_each {A} (I : S -> Prop) (l : list A) body s t :
  I s ->
  (forall x s t, x ∈ l -> I s -> wpx bad (body x) (fun _ s' _ => I s') s t) ->
  wpx bad (for_each l body) (fun _ s' _ => I s') s t.
Proof.
  revert s t. induction l as [|x l IH]; intros s t Hs Hbody; [done|].
  simpl. apply wpx_bind. eapply wpx_mono; [apply Hbody; [left|done]|].
  intros [] s' t' Hs'. apply IH; [done|]. intros. apply Hbody; [by right|done].
Qed.
End wpx_rules.

Lemma wlp_elim {S A} (m : M S A) Q s t a s' t' :
  wlp m Q s t -> m s t = Done (a, s', t') -> Q a s' t'.
Proof. unfold wpx. intros H Hm. by rewrite Hm in H. Qed.

Lemma wlp_intro {S A} (m : M S A) (Q : A -> S -> nat -> Prop) s t :
  (forall a s' t', m s t = Done (a, s', t') -> Q a s' t') -> wlp m Q s t.
Proof. unfold wpx. destruct (m s t) as [[[??]?]| | |]; auto. Qed.

(** A returning run is the run there is. *)
Lemma wlp_run {S A} (m : M S A) (Q : A -> S -> nat -> Prop) s t :
  wlp m Q s t -> wlp m (fun a s' t' => Q a s' t' /\ m s t = Done (a, s', t')) s t.
Proof. unfold wpx. by destruct (m s t) as [[[??]?]| | |]. Qed.

Lemma wpx_and {S A} bad (m : M S A) (Q1 Q2 : A -> S -> nat -> Prop) s t :
  wpx bad m Q1 s t -> wlp m Q2 s t -> wpx bad m (fun a s t => Q1 a s t /\ Q2 a s t) s t.
Proof. unfold wpx. by destruct (m s t) as [[[??]?]| | |]. Qed.

Lemma wp_elim {S A} (m : M S A) Q s t :
  wp m Q s t -> exists a s' t', m s t = Done (a, s', t') /\ Q a s' t'.
Proof. unfold wpx. destruct (m s t) as [[[a s']t']| | |]; naive_solver. Qed.

(** The idiom [ret = m(); if (ret != 0) return ret; k]. *)
Lemma wpx_or_return {S} bad (m : M S Z) (k : Z -> M S Z) (Q : Z -> S -> nat -> Prop) s t :
  wpx bad m Q s t ->
  (forall s' t', Q 0 s' t' -> wpx bad (k 0) Q s' t') ->
  wpx bad (ret ← m; if negb (ret =? 0) then mret ret else k ret) Q s t.
Proof.
  intros Hm Hk. apply wpx_bind. eapply wpx_mono; [apply Hm|]. intros ret s' t' HQ.
  destruct (Z.eqb_spec ret 0) as [->|]; [by apply Hk|by apply wpx_ret].
Qed.

(** Rewriting a run: a bind whose first computation returns. *)
Lemma bind_Done {S A B} (m : M S A) (f : A -> M S B) s t a s' t' :
  m s t = Done (a, s', t') -> (m ≫= f) s t = f a s' t'.
Proof. unfold mbind, M_bind. by intros ->. Qed.

Lemma bind_assoc {S A B C} (m : M S A) (f : A -> M S B) (g : B -> M S C) s t :
  ((m ≫= f) ≫= g) s t = (m ≫= (fun a => f a ≫= g)) s t.
Proof. unfold mbind, M_bind. by destruct (m s t) as [[[??]?]| | |]. Qed.

(** A run that is known to return. *)
Lemma returns_inv {S A} (o : outcome (A * S * nat)) (P : A -> S -> Prop) :
  match o with Done (a, s, _) => P a s | _ => False end ->
  exists a s t, o = Done (a, s, t) /\ P a s.
Proof. destruct o as [[[a s] t]| | |]; [|done..]. intros. by exists a, s, t. Qed.

(** One step of a postcondition proof. *)
Ltac wp_step :=
  lazymatch goal with
  | |- wpx _ (_ ≫= _) _ _ _ => apply wpx_bind
  | |- wpx _ (mret _) _ _ _ => apply wpx_ret
  | |- wpx _ get _ _ _ => apply wpx_get
  | |- wpx _ (put _) _ _ _ => apply wpx_put
  | |- wpx _ (modify _) _ _ _ => apply wpx_modify
  | |- wpx _ (zoom _ _ _) _ _ _ => apply wpx_zoom
  | |- wpx _ (run_on _ _) _ _ _ => apply wpx_run_on
  | |- wpx _ (if ?b then _ else _) _ _ _ => destruct b eqn:?
  | |- wpx _ (match ?x with _ => _ end) _ _ _ => destruct x eqn:?
  end.

Ltac wp_steps := repeat wp_step.
