(* ===== verification/Cstring.v ===== *)
(** C strings, decimal and hexadecimal text, fixed-size [char] arrays, the
    presentation form of addresses: the parts of the C and C++ standard
    libraries the program builds its keys and records with. *)

From S2P Require Import Prelude.

Definition NUL : ascii := "000".
Definition NEWLINE : ascii := "010".

(** ** C strings *)

(** What a [const char *] function sees of a buffer: the bytes before the
    first NUL. *)
Fixpoint c_str (s : string) : string :=
  match s with
  | "" => ""
  | String c s => if decide (c = NUL) then "" else String c (c_str s)
  end.

(** [isspace] in the C locale. *)
Definition is_space (c : ascii) : bool :=
  let n := Z.of_nat (nat_of_ascii c) in ((9 <=? n) && (n <=? 13)) || (n =? 32).

Fixpoint skip_space (s : string) : string :=
  match s with
  | "" => ""
  | String c s' => if is_space c then skip_space s' else s
  end.

(** Splits a string at its first character that fails [p], or after [k]
    characters, whichever comes first. *)
Fixpoint span (p : ascii -> bool) (k : nat) (s : string) : string * string :=
  match k, s with
  | S k, String c s' =>
      if p c then let '(a, r) := span p k s' in (String c a, r) else ("", s)
  | _, _ => ("", s)
  end.

Fixpoint str_forall (p : ascii -> bool) (s : string) : bool :=
  match s with
  | "" => true
  | String c s => p c && str_forall p s
  end.

(** The first character, if any, fails [p]: what delimits a token. *)
Definition stops (p : ascii -> bool) (s : string) : bool :=
  match s with
  | "" => true
  | String c _ => negb (p c)
  end.

Lemma str_app_assoc (a b c : string) : (a +:+ b) +:+ c = a +:+ (b +:+ c).
Proof. induction a as [|x a IH]; [done|]. simpl. by rewrite IH. Qed.

Lemma str_app_nil_r (a : string) : a +:+ "" = a.
Proof. induction a as [|x a IH]; [done|]. simpl. by rewrite IH. Qed.

Lemma str_length_app (a b : string) :
  String.length (a +:+ b) = (String.length a + String.length b)%nat.
Proof. induction a as [|x a IH]; [done|]. simpl. by rewrite IH. Qed.

Lemma str_app_cons c (a b : string) : String c a +:+ b = String c (a +:+ b).
Proof. done. Qed.

Lemma str_app_inj_l (a b c : string) : a +:+ b = a +:+ c -> b = c.
Proof. induction a as [|x a IH]; [done|]. simpl. intros [=]; auto. Qed.

Lemma str_forall_app p a b : str_forall p (a +:+ b) = str_forall p a && str_forall p b.
Proof. induction a as [|x a IH]; [done|]. simpl. by rewrite IH, andb_assoc. Qed.

Lemma str_forall_impl (p q : ascii -> bool) s :
  (forall c, p c = true -> q c = true) -> str_forall p s = true -> str_forall q s = true.
Proof.
  intros Hpq. induction s as [|c s IH]; [done|]. simpl.
  intros [??]%andb_prop. rewrite Hpq by done. auto.
Qed.

(** Two strings that agree up to a delimiter occurring in neither prefix agree
    on both sides of it. *)
Lemma str_split_inj (p : ascii -> bool) a a' b b' :
  str_forall p a = true -> str_forall p a' = true ->
  stops p b = true -> stops p b' = true ->
  a +:+ b = a' +:+ b' -> a = a' /\ b = b'.
Proof.
  revert a'. induction a as [|x a IH]; intros [|y a'] Ha Ha' Hb Hb' Heq; simpl in *.
  - done.
  - subst b. simpl in *. by destruct (p y).
  - subst b'. simpl in *. by destruct (p x).
  - apply andb_prop in Ha as [_ Ha], Ha' as [_ Ha']. injection Heq as <- Heq.
    by destruct (IH a' Ha Ha' Hb Hb' Heq) as [<- <-].
Qed.

Lemma span_app p k a b :
  str_forall p a = true -> stops p b = true -> (String.length a <= k)%nat ->
  span p k (a +:+ b) = (a, b).
Proof.
  revert k. induction a as [|c a IH]; intros k Ha Hb Hk; simpl.
  - destruct k, b; simpl in *; [done..|]. by destruct (p a).
  - destruct k; simpl in *; [lia|].
    apply andb_prop in Ha as [-> Ha]. rewrite IH by (done || lia). done.
Qed.

(** A width limit reached exactly. *)
Lemma span_exact p a b :
  str_forall p a = true -> span p (String.length a) (a +:+ b) = (a, b).
Proof.
  induction a as [|c a IH]; simpl; [by destruct b|].
  intros [-> Ha]%andb_prop. by rewrite IH.
Qed.

Lemma skip_space_app a b : str_forall is_space a = true -> skip_space (a +:+ b) = skip_space b.
Proof. induction a as [|c a IH]; [done|]. simpl. intros [-> ?]%andb_prop. auto. Qed.

Lemma skip_space_stop s : stops is_space s = true -> skip_space s = s.
Proof. destruct s as [|c s]; [done|]. simpl. by intros ->%negb_true_iff. Qed.

Definition not_nul (c : ascii) : bool := negb (bool_decide (c = NUL)).

Lemma c_str_app a b : str_forall not_nul a = true -> c_str (a +:+ b) = a +:+ c_str b.
Proof.
  induction a as [|c a IH]; [done|]. simpl. intros [Hc Ha]%andb_prop.
  unfold not_nul in Hc. rewrite negb_true_iff, bool_decide_eq_false in Hc.
  rewrite decide_False by done. by rewrite IH.
Qed.

Lemma c_str_id s : str_forall not_nul s = true -> c_str s = s.
Proof.
  intros H. rewrite <- (str_app_nil_r s) at 1. rewrite c_str_app by done.
  apply str_app_nil_r.
Qed.

Lemma c_str_not_nul s : str_forall not_nul (c_str s) = true.
Proof.
  induction s as [|c s IH]; [done|]. simpl. destruct (decide _) as [|Hc]; [done|].
  simpl. rewrite IH, andb_true_r. unfold not_nul. by rewrite bool_decide_eq_false_2.
Qed.

Lemma c_str_idemp s : c_str (c_str s) = c_str s.
Proof. apply c_str_id, c_str_not_nul. Qed.

(** ** Numerals *)

Definition digit_char (d : Z) : ascii :=
  ascii_of_nat (Z.to_nat (if d <? 10 then 48 + d else 55 + d)).

(** The value of a digit in some base up to 16, upper or lower case. *)
Definition digit_val (c : ascii) : option Z :=
  let n := Z.of_nat (nat_of_ascii c) in
  if (48 <=? n) && (n <=? 57) then Some (n - 48)
  else if (65 <=? n) && (n <=? 70) then Some (n - 55)
  else if (97 <=? n) && (n <=? 102) then Some (n - 87)
  else None.

Definition is_digit (b : Z) (c : ascii) : bool :=
  match digit_val c with Some d => d <? b | None => false end.

Definition digits_value (b : Z) (acc : Z) (ds : list Z) : Z :=
  fold_left (fun a d => a * b + d) ds acc.

Definition numeral (ds : list Z) : string := string_of_list_ascii (map digit_char ds).

(** Digits of [n] in base [b], most significant first. *)
Fixpoint digits_of (fuel : nat) (b n : Z) : list Z :=
  match fuel with
  | O => []
  | S f => if n <? b then [n] else digits_of f b (n / b) ++ [n mod b]
  end.

Definition digits (b n : Z) : list Z := digits_of (S (Z.to_nat (Z.log2 n))) b n.

(** [std::to_string] on the integer types. *)
Definition to_string (n : Z) : string :=
  if n <? 0 then String "-" (numeral (digits 10 (- n))) else numeral (digits 10 n).

(** The [w] low digits of [n] in base 16: what [%0wX] prints of a value that
    fits. *)
Fixpoint hex_digits (w : nat) (n : Z) : list Z :=
  match w with
  | O => []
  | S w => hex_digits w (n / 16) ++ [n mod 16]
  end.

Definition hex_fixed (w : nat) (n : Z) : string := numeral (hex_digits w n).

#[global] Arguments hex_fixed : simpl never.
#[global] Arguments to_string : simpl never.

Definition digit_in (b d : Z) : Prop := 0 <= d < b.

Lemma digit_val_char d : 0 <= d < 16 -> digit_val (digit_char d) = Some d.
Proof.
  intros H.
  assert (d = 0 \/ d = 1 \/ d = 2 \/ d = 3 \/ d = 4 \/ d = 5 \/ d = 6 \/ d = 7 \/ d = 8 \/
    d = 9 \/ d = 10 \/ d = 11 \/ d = 12 \/ d = 13 \/ d = 14 \/ d = 15) as Hd by lia.
  by repeat destruct Hd as [->|Hd]; subst.
Qed.

Lemma is_digit_char b d : 0 <= d < b -> b <= 16 -> is_digit b (digit_char d) = true.
Proof.
  intros Hd Hb. unfold is_digit. rewrite digit_val_char by lia. apply Z.ltb_lt. lia.
Qed.

Lemma str_forall_numeral b ds :
  b <= 16 -> Forall (digit_in b) ds -> str_forall (is_digit b) (numeral ds) = true.
Proof.
  intros Hb. induction 1 as [|d ds Hd _ IH]; [done|].
  unfold numeral in *. simpl. by rewrite IH, is_digit_char.
Qed.

Lemma length_numeral ds : String.length (numeral ds) = length ds.
Proof. unfold numeral. induction ds as [|d ds IH]; [done|]. simpl. by rewrite IH. Qed.

Lemma digits_value_app b acc ds ds' :
  digits_value b acc (ds ++ ds') = digits_value b (digits_value b acc ds) ds'.
Proof. apply fold_left_app. Qed.

Lemma digits_of_in b fuel n :
  1 < b -> 0 <= n -> Forall (digit_in b) (digits_of fuel b n).
Proof.
  intros Hb. revert n. induction fuel as [|f IH]; intros n Hn; simpl; [done|].
  destruct (Z.ltb_spec n b).
  - repeat constructor; lia.
  - apply Forall_app. split; [apply IH, Z.div_pos; lia|].
    repeat constructor; apply Z.mod_pos_bound; lia.
Qed.

Lemma digits_of_value b fuel n :
  1 < b -> 0 <= n < 2 ^ Z.of_nat fuel -> digits_value b 0 (digits_of fuel b n) = n.
Proof.
  intros Hb. revert n. induction fuel as [|f IH]; intros n Hn; simpl.
  - simpl in Hn. change (2 ^ Z.of_nat 0) with 1 in Hn. unfold digits_value. simpl. lia.
  - destruct (Z.ltb_spec n b); [unfold digits_value; simpl; lia|].
    rewrite digits_value_app, IH.
    + unfold digits_value. simpl. rewrite (Z.div_mod n b) at 3 by lia. lia.
    + split; [apply Z.div_pos; lia|].
      rewrite Nat2Z.inj_succ, Z.pow_succ_r in Hn by lia.
      apply Z.div_lt_upper_bound; nia.
Qed.

Lemma digits_fuel n : 0 <= n -> n < 2 ^ Z.of_nat (S (Z.to_nat (Z.log2 n))).
Proof.
  intros Hn. rewrite Nat2Z.inj_succ, Z2Nat.id by apply Z.log2_nonneg.
  destruct (Z.eq_dec n 0) as [->|]; [done|]. apply Z.log2_spec. lia.
Qed.

Lemma digits_spec b n :
  1 < b -> 0 <= n ->
  Forall (digit_in b) (digits b n) /\ digits_value b 0 (digits b n) = n.
Proof.
  intros Hb Hn. split; [by apply digits_of_in|].
  apply digits_of_value; [done|]. split; [done|]. by apply digits_fuel.
Qed.

Lemma digits_of_nonempty fuel b n : digits_of (S fuel) b n <> [].
Proof.
  simpl. destruct (n <? b); [done|]. intros H. by apply app_eq_nil in H as [_ ?].
Qed.

Lemma digits_of_length fuel b n k :
  1 < b -> (0 < k)%nat -> 0 <= n < b ^ Z.of_nat k -> (length (digits_of fuel b n) <= k)%nat.
Proof.
  intros Hb. revert n k. induction fuel as [|f IH]; intros n k Hk Hn; simpl; [lia|].
  destruct (Z.ltb_spec n b); [simpl; lia|].
  rewrite length_app. simpl. destruct k as [|[|k]]; [lia| |].
  - change (Z.of_nat 1) with 1 in Hn. lia.
  - enough (length (digits_of f b (n / b)) <= S k)%nat by lia.
    apply IH; [lia|]. split; [apply Z.div_pos; lia|].
    rewrite Nat2Z.inj_succ, Z.pow_succ_r in Hn by lia.
    apply Z.div_lt_upper_bound; lia.
Qed.

Lemma hex_digits_in w n : Forall (digit_in 16) (hex_digits w n).
Proof.
  revert n. induction w as [|w IH]; intros n; simpl; [done|].
  apply Forall_app. split; [done|]. repeat constructor; apply Z.mod_pos_bound; lia.
Qed.

Lemma hex_digits_length w n : length (hex_digits w n) = w.
Proof.
  revert n. induction w as [|w IH]; intros n; simpl; [done|].
  rewrite length_app, IH. simpl. lia.
Qed.

Lemma hex_digits_value w n :
  0 <= n < 16 ^ Z.of_nat w -> digits_value 16 0 (hex_digits w n) = n.
Proof.
  revert n. induction w as [|w IH]; intros n Hn; simpl.
  - change (16 ^ Z.of_nat 0) with 1 in Hn. unfold digits_value. simpl. lia.
  - rewrite digits_value_app, IH.
    + unfold digits_value. simpl. rewrite (Z.div_mod n 16) at 3 by lia. lia.
    + rewrite Nat2Z.inj_succ, Z.pow_succ_r in Hn by lia.
      split; [apply Z.div_pos; lia | apply Z.div_lt_upper_bound; lia].
Qed.

Lemma hex_fixed_digits w n : str_forall (is_digit 16) (hex_fixed w n) = true.
Proof. apply str_forall_numeral; [done|]. apply hex_digits_in. Qed.

Lemma length_hex_fixed w n : String.length (hex_fixed w n) = w.
Proof. unfold hex_fixed. by rewrite length_numeral, hex_digits_length. Qed.

Lemma to_string_digits n : 0 <= n -> str_forall (is_digit 10) (to_string n) = true.
Proof.
  intros Hn. unfold to_string. destruct (Z.ltb_spec n 0); [lia|].
  apply str_forall_numeral; [done|]. by apply digits_spec.
Qed.

Lemma to_string_nonneg n : 0 <= n -> to_string n = numeral (digits 10 n).
Proof. intros. unfold to_string. destruct (Z.ltb_spec n 0); [lia|done]. Qed.

Lemma is_digit_10_16 c : is_digit 10 c = true -> is_digit 16 c = true.
Proof. unfold is_digit. destruct (digit_val c); [|done]. rewrite !Z.ltb_lt. lia. Qed.

(** Reading digits back: the value a scanner accumulates. *)
Fixpoint read_digits (b acc : Z) (s : string) : Z :=
  match s with
  | "" => acc
  | String c s => read_digits b (acc * b + default 0 (digit_val c)) s
  end.

Lemma read_digits_nonneg b acc s : 0 <= b -> 0 <= acc -> 0 <= read_digits b acc s.
Proof.
  revert acc. induction s as [|c s IH]; intros acc Hb Ha; [done|]. simpl. apply IH; [done|].
  assert (0 <= default 0 (digit_val c)); [|nia]. unfold digit_val.
  destruct (Z.leb_spec 48 (Z.of_nat (nat_of_ascii c)));
    destruct (Z.leb_spec 65 (Z.of_nat (nat_of_ascii c)));
    destruct (Z.leb_spec 97 (Z.of_nat (nat_of_ascii c)));
    repeat (destruct (_ <=? _)); simpl; lia.
Qed.

Lemma read_digits_numeral b acc ds :
  b <= 16 -> Forall (digit_in b) ds ->
  read_digits b acc (numeral ds) = digits_value b acc ds.
Proof.
  intros Hb H. revert acc. induction H as [|d ds Hd _ IH]; intros acc; [done|].
  unfold numeral, digit_in in *. cbn. rewrite digit_val_char by lia. apply IH.
Qed.

Lemma read_digits_to_string n : 0 <= n -> read_digits 10 0 (to_string n) = n.
Proof.
  intros Hn. rewrite to_string_nonneg by done.
  destruct (digits_spec 10 n) as [??]; [lia..|]. by rewrite read_digits_numeral.
Qed.

Lemma read_digits_hex_fixed w n :
  0 <= n < 16 ^ Z.of_nat w -> read_digits 16 0 (hex_fixed w n) = n.
Proof.
  intros Hn. unfold hex_fixed. rewrite read_digits_numeral by (done || apply hex_digits_in).
  by apply hex_digits_value.
Qed.

Lemma to_string_inj n m : 0 <= n -> 0 <= m -> to_string n = to_string m -> n = m.
Proof.
  intros Hn Hm Heq. rewrite <- (read_digits_to_string n), <- (read_digits_to_string m) by done.
  by rewrite Heq.
Qed.

Lemma to_string_length n k :
  (0 < k)%nat -> 0 <= n < 10 ^ Z.of_nat k -> (String.length (to_string n) <= k)%nat.
Proof.
  intros Hk Hn. rewrite to_string_nonneg, length_numeral by lia.
  by apply digits_of_length.
Qed.

Lemma to_string_cons n :
  0 <= n -> exists c s, to_string n = String c s /\ is_digit 10 c = true.
Proof.
  intros Hn. pose proof (to_string_digits n Hn) as Hd.
  rewrite to_string_nonneg in * by done. unfold digits in *.
  destruct (digits_of _ 10 n) as [|d ds] eqn:E; [by apply digits_of_nonempty in E|].
  eexists _, _. split; [done|]. simpl in Hd. by apply andb_prop in Hd as [? _].
Qed.

(** Occurrences of a character. *)
Fixpoint occurrences (c : ascii) (s : string) : nat :=
  match s with
  | "" => 0
  | String x s => (if decide (x = c) then 1 else 0) + occurrences c s
  end%nat.

Lemma occurrences_app c a b : occurrences c (a +:+ b) = (occurrences c a + occurrences c b)%nat.
Proof. induction a as [|x a IH]; [done|]. simpl. rewrite IH. lia. Qed.

Lemma occurrences_none p c s : p c = false -> str_forall p s = true -> occurrences c s = 0%nat.
Proof.
  intros Hc. induction s as [|x s IH]; [done|]. simpl. intros [Hx Hs]%andb_prop.
  rewrite IH, decide_False by (done || congruence). done.
Qed.

Lemma occurrences_dec c n : 0 <= n -> is_digit 10 c = false -> occurrences c (to_string n) = 0%nat.
Proof. intros Hn Hc. eapply occurrences_none; [apply Hc|]. by apply to_string_digits. Qed.

(** ** Fixed-size [char] arrays *)

Fixpoint str_take (n : nat) (s : string) : string :=
  match n, s with
  | S n, String c s => String c (str_take n s)
  | _, _ => ""
  end.

(** [memset(a, 0, n)] on a [char[n]]. *)
Definition zeroed (n : nat) : list ascii := repeat NUL n.

(** [strncpy(dst, src, n)]: at most [n] characters of the C string [src],
    padded with NULs up to [n]; the rest of [dst] keeps its contents. *)
Definition strncpy (dst : list ascii) (src : string) (n : nat) : list ascii :=
  take n (list_ascii_of_string (c_str src) ++ repeat NUL n) ++ drop n dst.

(** The C string held by an array. *)
Definition array_str (a : list ascii) : string := c_str (string_of_list_ascii a).

Lemma length_strncpy dst src n :
  (n <= length dst)%nat -> length (strncpy dst src n) = length dst.
Proof.
  intros H. unfold strncpy.
  rewrite length_app, length_take, length_app, repeat_length, length_drop. lia.
Qed.

Lemma str_take_ge n s : (String.length s <= n)%nat -> str_take n s = s.
Proof.
  revert n. induction s as [|c s IH]; intros [|n] H; simpl in *; try done; [lia|].
  by rewrite IH by lia.
Qed.

Lemma str_forall_take p n s : str_forall p s = true -> str_forall p (str_take n s) = true.
Proof.
  revert n. induction s as [|c s IH]; intros [|n]; simpl; try done.
  intros [-> ?]%andb_prop. simpl. auto.
Qed.

Lemma length_str_take n s : (String.length (str_take n s) <= n)%nat.
Proof.
  revert s. induction n as [|n IH]; intros [|c s]; simpl; try lia.
  specialize (IH s). lia.
Qed.

Lemma c_str_nuls n : c_str (string_of_list_ascii (repeat NUL n)) = "".
Proof. by destruct n. Qed.

Lemma string_of_list_ascii_app l l' :
  string_of_list_ascii (l ++ l') = string_of_list_ascii l +:+ string_of_list_ascii l'.
Proof. induction l as [|c l IH]; [done|]. simpl. by rewrite IH. Qed.

Lemma strncpy_chars s n k :
  c_str (string_of_list_ascii (take n (list_ascii_of_string s ++ repeat NUL n) ++ repeat NUL k))
  = c_str (str_take n s).
Proof.
  revert n k. induction s as [|c s IH]; intros n k; simpl.
  - rewrite take_ge by (rewrite repeat_length; lia).
    rewrite <- repeat_app, c_str_nuls. by destruct n.
  - destruct n as [|n]; simpl; [apply c_str_nuls|].
    destruct (decide (c = NUL)); [done|].
    f_equal. rewrite <- (IH n k). f_equal. f_equal. f_equal.
    rewrite repeat_cons, app_assoc, take_app_le; [done|].
    rewrite length_app, repeat_length. lia.
Qed.

(** A copy into a zeroed array that leaves room for the terminator holds the
    longest prefix that fits. *)
Lemma strncpy_zeroed N src n :
  (n <= N)%nat -> array_str (strncpy (zeroed N) src n) = str_take n (c_str src).
Proof.
  intros H. unfold array_str, strncpy, zeroed.
  replace (drop n (repeat NUL N)) with (repeat NUL (N - n)).
  - rewrite strncpy_chars. apply c_str_id, str_forall_take, c_str_not_nul.
  - replace N with (n + (N - n))%nat at 2 by lia.
    rewrite repeat_app, drop_app_ge; rewrite repeat_length; [|lia].
    by rewrite Nat.sub_diag, drop_0.
Qed.

Lemma strncpy_fits N src n :
  (String.length (c_str src) <= n)%nat -> (n <= N)%nat ->
  array_str (strncpy (zeroed N) src n) = c_str src.
Proof. intros. rewrite strncpy_zeroed, str_take_ge; done. Qed.

#[global] Arguments str_take : simpl never.
