(* ===== verification/Inet.v ===== *)
(** Internet addresses in memory and their presentation form.

    An [in_addr] is its [s_addr]; an [in6_addr] is its four words
    [s6_addr32].  Words are little-endian, so the bytes of an address in
    network order are the bytes of its words, least significant first. *)

From S2P Require Import Prelude Cstring.

Definition AF_UNSPEC : Z := 0.
Definition AF_INET : Z := 2.
Definition AF_INET6 : Z := 10.

Record in6_addr := mk_in6 { w0 : Z; w1 : Z; w2 : Z; w3 : Z }.

#[export] Instance in6_addr_eq_dec : EqDecision in6_addr.
Proof. solve_decision. Defined.

Definition in6_zero : in6_addr := mk_in6 0 0 0 0.

Definition in6_bytes (a : in6_addr) : list Z :=
  bytes_of_u32 (w0 a) ++ bytes_of_u32 (w1 a) ++ bytes_of_u32 (w2 a) ++ bytes_of_u32 (w3 a).

Definition word32 (z : Z) : Prop := 0 <= z < 2 ^ 32.
Definition in6_ok (a : in6_addr) : Prop :=
  word32 (w0 a) /\ word32 (w1 a) /\ word32 (w2 a) /\ word32 (w3 a).

(** [ntohs] of the 16-bit value held by two consecutive bytes of memory. *)
Definition ntohs (b0 b1 : Z) : Z := b0 * 256 + b1.

(** The dotted-decimal form of an IPv4 address. *)
Definition ntop4 (a : Z) : string :=
  match bytes_of_u32 a with
  | [b0; b1; b2; b3] =>
      to_string b0 +:+ "." +:+ to_string b1 +:+ "." +:+ to_string b2 +:+ "." +:+ to_string b3
  | _ => ""
  end.

(** The text [inet_ntop] gives an IPv6 address is the C library's choice: a
    parameter. *)
Class Ntop6 := ntop6 : in6_addr -> string.

(** What POSIX documents of it: it fits [INET6_ADDRSTRLEN] bytes with its
    terminator, it is made of hexadecimal digits, colons and dots, with a colon
    in every one of its forms, and it denotes its address. *)
Definition presentation_char (c : ascii) : bool :=
  is_digit 16 c || bool_decide (c = ":"%char) || bool_decide (c = "."%char).

Class Ntop6Ok `{Ntop6} : Prop := {
  ntop6_length : forall a, (String.length (ntop6 a) <= 45)%nat;
  ntop6_chars : forall a, str_forall presentation_char (ntop6 a) = true;
  ntop6_colon : forall a, occurrences ":" (ntop6 a) <> 0%nat;
  ntop6_inj : forall a b, in6_ok a -> in6_ok b -> ntop6 a = ntop6 b -> a = b
}.

(** [inet_ntop(af, src, dst, size)] on a [dst] whose contents read as [old]:
    when the text and its terminator do not fit in [size] bytes the call fails
    with [ENOSPC] and leaves [dst] alone. *)
Definition inet_ntop (text : string) (size : nat) (old : string) : string :=
  if (String.length text <? size)%nat then text else old.

Lemma inet_ntop_fits text size old :
  (String.length text < size)%nat -> inet_ntop text size old = text.
Proof. intros H. unfold inet_ntop. by apply Nat.ltb_lt in H as ->. Qed.

Lemma byte_range z : 0 <= z mod 256 < 256.
Proof. apply Z.mod_pos_bound. lia. Qed.

Lemma to_string_byte_length z : (String.length (to_string (z mod 256)) <= 3)%nat.
Proof. pose proof (byte_range z). apply to_string_length; lia. Qed.

Lemma ntop4_length a : (String.length (ntop4 a) <= 15)%nat.
Proof.
  unfold ntop4, bytes_of_u32. rewrite !str_length_app. simpl.
  pose proof (to_string_byte_length a).
  pose proof (to_string_byte_length (a / 256)).
  pose proof (to_string_byte_length (a / 65536)).
  pose proof (to_string_byte_length (a / 16777216)). lia.
Qed.

Lemma presentation_digits s :
  str_forall (is_digit 10) s = true -> str_forall presentation_char s = true.
Proof.
  apply str_forall_impl. intros c Hc. unfold presentation_char.
  by rewrite (is_digit_10_16 c Hc).
Qed.

Lemma ntop4_chars a : str_forall presentation_char (ntop4 a) = true.
Proof.
  unfold ntop4, bytes_of_u32.
  rewrite !str_forall_app, !andb_true_iff.
  repeat split; apply presentation_digits || idtac; try done;
    apply to_string_digits, byte_range.
Qed.

Lemma ntop4_no_colon a : occurrences ":" (ntop4 a) = 0%nat.
Proof.
  unfold ntop4, bytes_of_u32.
  rewrite !occurrences_app, !occurrences_dec by (done || apply byte_range). done.
Qed.

(** Numbers separated by a character that is not a digit are separated
    unambiguously. *)
Lemma digits_split_inj x y c r r' :
  str_forall (is_digit 10) x = true -> str_forall (is_digit 10) y = true ->
  is_digit 10 c = false ->
  x +:+ String c r = y +:+ String c r' -> x = y /\ r = r'.
Proof.
  intros Hx Hy Hc Heq.
  destruct (str_split_inj (is_digit 10) x y (String c r) (String c r')) as [-> Hr];
    simpl; rewrite ?Hc; try done.
  by injection Hr.
Qed.

Lemma ntop4_inj a b : word32 a -> word32 b -> ntop4 a = ntop4 b -> a = b.
Proof.
  intros Ha Hb Heq. unfold ntop4, bytes_of_u32 in Heq.
  assert (forall z, str_forall (is_digit 10) (to_string (z mod 256)) = true) as Hd.
  { intros z. apply to_string_digits, byte_range. }
  assert (forall x y, to_string (x mod 256) = to_string (y mod 256) -> x mod 256 = y mod 256) as Hinj.
  { intros x y. apply to_string_inj; apply byte_range. }
  apply digits_split_inj in Heq as [E0 Heq]; [|done..].
  apply digits_split_inj in Heq as [E1 Heq]; [|done..].
  apply digits_split_inj in Heq as [E2 E3]; [|done..].
  apply Hinj in E0, E1, E2, E3.
  rewrite <- (u32_of_bytes_of_u32 a), <- (u32_of_bytes_of_u32 b) by done.
  by rewrite E0, E1, E2, E3.
Qed.

Lemma presentation_not_nul c : presentation_char c = true -> not_nul c = true.
Proof.
  unfold not_nul. intros H. apply negb_true_iff, bool_decide_eq_false.
  intros ->. discriminate.
Qed.

(** ** A presentation function that satisfies the documented laws

    The full form, eight groups of four hexadecimal digits; the concrete
    instances of the development use it. *)

Lemma str_app_inj_length a a' b b' :
  String.length a = String.length a' -> a +:+ b = a' +:+ b' -> a = a' /\ b = b'.
Proof.
  revert a'. induction a as [|c a IH]; intros [|c' a']; simpl; try done.
  intros [= Hl] [= -> Heq]. by destruct (IH a' Hl Heq) as [-> ->].
Qed.

Lemma hex_fixed_inj w n m :
  0 <= n < 16 ^ Z.of_nat w -> 0 <= m < 16 ^ Z.of_nat w ->
  hex_fixed w n = hex_fixed w m -> n = m.
Proof.
  intros Hn Hm Heq. rewrite <- (read_digits_hex_fixed w n), <- (read_digits_hex_fixed w m) by done.
  by rewrite Heq.
Qed.

Definition word_text (z : Z) : string :=
  match bytes_of_u32 z with
  | [b0; b1; b2; b3] => hex_fixed 4 (ntohs b0 b1) +:+ ":" +:+ hex_fixed 4 (ntohs b2 b3)
  | _ => ""
  end.

Definition full_text (a : in6_addr) : string :=
  word_text (w0 a) +:+ ":" +:+ word_text (w1 a) +:+ ":" +:+ word_text (w2 a) +:+ ":" +:+ word_text (w3 a).

Lemma length_word_text z : String.length (word_text z) = 9%nat.
Proof. unfold word_text, bytes_of_u32. rewrite !str_length_app, !length_hex_fixed. done. Qed.

Lemma word_text_inj a b : word32 a -> word32 b -> word_text a = word_text b -> a = b.
Proof.
  intros Ha Hb Heq. unfold word_text, bytes_of_u32, ntohs in Heq.
  pose proof (byte_range a). pose proof (byte_range (a / 256)).
  pose proof (byte_range (a / 65536)). pose proof (byte_range (a / 16777216)).
  pose proof (byte_range b). pose proof (byte_range (b / 256)).
  pose proof (byte_range (b / 65536)). pose proof (byte_range (b / 16777216)).
  apply str_app_inj_length in Heq as [E1 E2]; [|by rewrite !length_hex_fixed].
  apply (str_app_inj_l ":") in E2.
  apply hex_fixed_inj in E1, E2; [|cbn; lia..].
  rewrite <- (u32_of_bytes_of_u32 a), <- (u32_of_bytes_of_u32 b) by done.
  f_equal; lia.
Qed.

Lemma word_text_chars z : str_forall presentation_char (word_text z) = true.
Proof.
  unfold word_text, bytes_of_u32.
  assert (forall n, str_forall presentation_char (hex_fixed 4 n) = true) as Hhex.
  { intros n. eapply str_forall_impl, hex_fixed_digits. intros c Hc.
    unfold presentation_char. by rewrite Hc. }
  by rewrite !str_forall_app, !Hhex.
Qed.

Definition full_ntop6 : Ntop6 := full_text.

Lemma full_ntop6_ok : @Ntop6Ok full_ntop6.
Proof.
  split; unfold ntop6, full_ntop6, full_text.
  - intros a. rewrite !str_length_app, !length_word_text. simpl. lia.
  - intros a. by rewrite !str_forall_app, !word_text_chars.
  - intros a. rewrite !occurrences_app. simpl. lia.
  - intros [a0 a1 a2 a3] [b0 b1 b2 b3] (?&?&?&?) (?&?&?&?) Heq. cbn [w0 w1 w2 w3] in *.
    apply str_app_inj_length in Heq as [E0 Heq%(str_app_inj_l ":")]; [|by rewrite !length_word_text].
    apply str_app_inj_length in Heq as [E1 Heq%(str_app_inj_l ":")]; [|by rewrite !length_word_text].
    apply str_app_inj_length in Heq as [E2 E3%(str_app_inj_l ":")]; [|by rewrite !length_word_text].
    apply word_text_inj in E0, E1, E2, E3; [|done..]. by subst.
Qed.

(** A presentation function with two short forms, as [inet_ntop] gives them:
    1::2:3 and 1::2. *)
Definition addr_1_2_3 : in6_addr := mk_in6 256 0 0 50332160.
Definition addr_1_2 : in6_addr := mk_in6 256 0 0 33554432.

Definition short_ntop6 : Ntop6 := fun a =>
  if decide (a = addr_1_2_3) then "1::2:3" else if decide (a = addr_1_2) then "1::2" else full_text a.

Lemma full_text_length a : String.length (full_text a) = 39%nat.
Proof. unfold full_text. rewrite !str_length_app, !length_word_text. done. Qed.

Lemma short_ntop6_ok : @Ntop6Ok short_ntop6.
Proof.
  destruct full_ntop6_ok as [Hl Hc Hn Hi]. split; unfold ntop6, short_ntop6.
  - intros a. repeat case_decide; [simpl; lia|simpl; lia|apply Hl].
  - intros a. repeat case_decide; [done|done|apply Hc].
  - intros a. repeat case_decide; [done|done|apply Hn].
  - intros a b Ha Hb Heq. pose proof (full_text_length a) as La. pose proof (full_text_length b) as Lb.
    repeat case_decide; try (by subst); try done; try (by rewrite <- Heq in Lb); try (by rewrite Heq in La).
    by apply Hi.
Qed.
