(* ===== verification/Stream.v ===== *)
(** [std::fstream] as the program reads with it: [getline] into a buffer, the
    [while (!s.eof())] loop every parser of the program is built on, and
    [operator>>] into a string.

    The loop is modelled with fuel, exactly as written; [read_lines_spec] gives
    the reference definition it is equivalent to, and says when it does not
    terminate. *)

From S2P Require Import Prelude Cstring.

(** An input stream: the unread bytes and the two state bits that matter. *)
Record ifstream := mk_ifstream { unread : string; eofbit : bool; failbit : bool }.

Definition ifs_open (content : string) : ifstream := mk_ifstream content false false.

(** Why an extraction stopped. *)
Inductive stop := StopEof | StopDelim | StopFull.

#[export] Instance stop_eq_dec : EqDecision stop.
Proof. solve_decision. Defined.

(** Extracts characters up to a newline, storing at most [room] of them.  The
    three conditions are tested in the order of the C++ standard. *)
Fixpoint extract_line (room : nat) (s : string) {struct s} : string * string * stop :=
  match s with
  | "" => ("", "", StopEof)
  | String c s' =>
      if decide (c = NEWLINE) then ("", s', StopDelim)
      else match room with
           | O => ("", s, StopFull)
           | S room =>
               let '(line, rest, why) := extract_line room s' in
               (String c line, rest, why)
           end
  end.

(** [s.getline(buffer, n)]: the contents of [buffer] and the stream after the
    call.  A stream whose state is not good extracts nothing, sets [failbit]
    and stores an empty line. *)
Definition getline (n : nat) (s : ifstream) : string * ifstream :=
  if eofbit s || failbit s then ("", mk_ifstream (unread s) (eofbit s) true)
  else
    let '(line, rest, why) := extract_line (n - 1) (unread s) in
    match why with
    | StopEof => (line, mk_ifstream rest true (bool_decide (line = "")))
    | StopDelim => (line, mk_ifstream rest false false)
    | StopFull => (line, mk_ifstream rest false true)
    end.

(** Every reader of the program uses a buffer of this size. *)
Definition BUFFER_SIZE : nat := 1024.

(** The reading loop [while (!s.eof()) { s.getline(buffer, size); if
    (strcmp(buffer, "") == 0) continue; body }]; [body] returns whether it
    breaks out of the loop. *)
Fixpoint read_loop {S} (fuel : nat) (s : ifstream) (body : string -> M S bool) : M S () :=
  match fuel with
  | O => diverge
  | S fuel =>
      if eofbit s then mret ()
      else
        let '(buffer, s') := getline BUFFER_SIZE s in
        if decide (c_str buffer = "") then read_loop fuel s' body
        else
          brk ← body (c_str buffer);
          if brk : bool then mret () else read_loop fuel s' body
  end.

(** The loop over a freshly opened file. *)
Definition read_lines {S} (content : string) (body : string -> M S bool) : M S () :=
  read_loop (String.length content + 2) (ifs_open content) body.

(** ** Reference definition *)

(** The lines of a file, and whether one of them is too long for the buffer;
    the line that is too long contributes its first characters, and nothing
    after it is read. *)
Fixpoint split_lines (room : nat) (cur : string) (k : nat) (s : string) : list string * bool :=
  match s with
  | "" => ([cur], false)
  | String c s' =>
      if decide (c = NEWLINE) then
        let '(ls, b) := split_lines room "" room s' in (cur :: ls, b)
      else match k with
           | O => ([cur], true)
           | S k => split_lines room (cur +:+ String c "") k s'
           end
  end.

Definition lines_of (content : string) : list string * bool :=
  split_lines (BUFFER_SIZE - 1) "" (BUFFER_SIZE - 1) content.

(** Runs [body] on the non-empty lines until it breaks. *)
Fixpoint each_line {S} (ls : list string) (body : string -> M S bool) : M S bool :=
  match ls with
  | [] => mret false
  | l :: ls =>
      if decide (c_str l = "") then each_line ls body
      else
        brk ← body (c_str l);
        if brk : bool then mret true else each_line ls body
  end.

(** What the reading loop computes: the body on each line in order; if no line
    breaks out and some line overflows the buffer, the loop never ends. *)
Definition read_spec {S} (content : string) (body : string -> M S bool) : M S () :=
  let '(ls, overlong) := lines_of content in
  brk ← each_line ls body;
  if brk : bool then mret () else if overlong : bool then diverge else mret ().

(** ** The loop meets its reference definition *)

Definition prepend (l : string) (r : list string * bool) : list string * bool :=
  match r with
  | (x :: ls, b) => ((l +:+ x) :: ls, b)
  | ([], b) => ([], b)
  end.

Lemma split_lines_cons room cur k s : exists x ls b, split_lines room cur k s = (x :: ls, b).
Proof.
  revert cur k. induction s as [|c s IH]; intros cur k; simpl; [eauto|].
  destruct (decide _); [destruct (split_lines room "" room s); eauto|].
  destruct k; eauto.
Qed.

Lemma split_lines_cur room cur k s :
  split_lines room cur k s = prepend cur (split_lines room "" k s).
Proof.
  revert cur k. induction s as [|c s IH]; intros cur k; simpl; [by rewrite str_app_nil_r|].
  destruct (decide _).
  - destruct (split_lines room "" room s) as [ls b]. simpl. by rewrite str_app_nil_r.
  - destruct k as [|k]; [simpl; by rewrite str_app_nil_r|].
    rewrite (IH (cur +:+ String c "")), (IH (String c "")).
    destruct (split_lines room "" k s) as [[|x ls] b]; [done|]. simpl.
    by rewrite str_app_assoc.
Qed.

(** One extraction is the head of [split_lines]. *)
Lemma extract_split room k s :
  split_lines room "" k s =
    match extract_line k s with
    | (line, rest, StopEof) => ([line], false)
    | (line, rest, StopDelim) =>
        let '(ls, b) := split_lines room "" room rest in (line :: ls, b)
    | (line, rest, StopFull) => ([line], true)
    end.
Proof.
  revert k. induction s as [|c s IH]; intros k; simpl; [done|].
  destruct (decide _); [done|]. destruct k as [|k]; [done|].
  rewrite split_lines_cur. simpl String.append. rewrite IH.
  destruct (extract_line k s) as [[line rest] []]; [done| |done].
  simpl.
  by destruct (split_lines room "" room rest).
Qed.

Lemma extract_line_length k s line rest why :
  extract_line k s = (line, rest, why) ->
  (String.length rest + (if decide (why = StopDelim) then 1 else 0) <= String.length s)%nat.
Proof.
  revert k line. induction s as [|c s IH]; intros k line; simpl.
  - intros [= <- <- <-]. simpl. lia.
  - destruct (decide (c = NEWLINE)); [intros [= <- <- <-]; simpl; lia|].
    destruct k as [|k]; [intros [= <- <- <-]; simpl; lia|].
    destruct (extract_line k s) as [[l r] w] eqn:E. intros [= <- <- <-].
    specialize (IH _ _ E). lia.
Qed.

(** A stream that failed without reaching the end of its file is never read
    again, and its [eofbit] is never set: the loop spins. *)
Lemma read_loop_stuck {S} fuel rest (body : string -> M S bool) s t :
  read_loop fuel (mk_ifstream rest false true) body s t = Diverges.
Proof. induction fuel as [|fuel IH]; [done|]. apply IH. Qed.

Lemma read_loop_eof {S} fuel rest f (body : string -> M S bool) :
  read_loop (Datatypes.S fuel) (mk_ifstream rest true f) body = mret ().
Proof. done. Qed.

(** The body on a line, then a continuation that knows whether to stop. *)
Lemma each_line_cons {S} l ls (body : string -> M S bool) (k : bool -> M S ()) s t :
  (each_line (l :: ls) body ≫= k) s t =
    if decide (c_str l = "") then (each_line ls body ≫= k) s t
    else (body (c_str l) ≫= (fun brk : bool =>
            if brk then k true else each_line ls body ≫= k)) s t.
Proof.
  simpl. destruct (decide _); [done|]. rewrite bind_assoc.
  unfold mbind, M_bind, mret, M_ret.
  destruct (body (c_str l) s t) as [[[[] ?]?]| | |]; done.
Qed.

Lemma bind_ext {S A B} (m : M S A) (f g : A -> M S B) s t :
  (forall a s t, f a s t = g a s t) -> (m ≫= f) s t = (m ≫= g) s t.
Proof. intros H. unfold mbind, M_bind. destruct (m s t) as [[[??]?]| | |]; auto. Qed.

Lemma read_loop_spec_gen {S} fuel content (body : string -> M S bool) s t :
  (String.length content + 2 <= fuel)%nat ->
  read_loop fuel (ifs_open content) body s t = read_spec content body s t.
Proof.
  unfold read_spec, lines_of.
  revert content s t. induction fuel as [|fuel IH]; intros content s t Hfuel; [lia|].
  rewrite extract_split. simpl. unfold getline. simpl.
  destruct (extract_line 1023 content) as [[line rest] why] eqn:E.
  pose proof (extract_line_length _ _ _ _ _ E) as Hlen.
  destruct why; cbv iota beta.
  - rewrite each_line_cons. destruct (decide (c_str line = "")).
    + destruct fuel; [lia|]. done.
    + apply bind_ext. intros [] s' t'; [done|]. destruct fuel; [lia|]. done.
  - rewrite decide_True in Hlen by done.
    specialize (IH rest). unfold BUFFER_SIZE in IH. simpl in IH.
    destruct (split_lines 1023 "" 1023 rest) as [ls b] eqn:Els.
    rewrite each_line_cons.
    destruct (decide (c_str line = "")); [apply IH; lia|].
    apply bind_ext. intros [] s' t'; [done|]. apply IH. lia.
  - rewrite each_line_cons. destruct (decide (c_str line = "")); [apply read_loop_stuck|].
    apply bind_ext. intros [] s' t'; [done|]. apply read_loop_stuck.
Qed.

Lemma read_lines_spec {S} content (body : string -> M S bool) s t :
  read_lines content body s t = read_spec content body s t.
Proof. by apply read_loop_spec_gen. Qed.

(** C21: the loop every reader of the program is built on is equivalent to its
    reference definition, whatever the file holds and whatever the body does,
    on the state and the clock as well: the body is run on the non-empty lines in
    order, each up to its first NUL, until it breaks out; a file without a final
    newline, an empty file and blank lines included.  The loop does not end
    exactly when no line breaks out and one of them does not fit the buffer. *)
Theorem read_lines_reference {S} content (body : string -> M S bool) s t :
  read_lines content body s t =
    (let '(ls, overlong) := lines_of content in
     brk ← each_line ls body;
     if brk : bool then mret () else if overlong : bool then diverge else mret ()) s t.
Proof. exact (read_lines_spec content body s t). Qed.

(** ** Rules for the loop *)

(** The lines the body sees: up to their first NUL, and not empty. *)
Definition text_lines (ls : list string) : list string := filter (fun l => l <> "") (map c_str ls).

(** A body that breaks at the first line it sees breaks out of the loop. *)
Lemma each_line_first {S} l rest (body : string -> M S bool) ls s t :
  text_lines ls = l :: rest ->
  (forall s t, wlp (body l) (fun brk _ _ => brk = true) s t) ->
  wlp (each_line ls body) (fun brk _ _ => brk = true) s t.
Proof.
  intros Hls Hbody. unfold text_lines in Hls. induction ls as [|l1 ls IH]; [done|].
  simpl in *. destruct (decide (c_str l1 = "")) as [E|E].
  - rewrite filter_cons_False in Hls by (intros ?; done). by apply IH.
  - rewrite filter_cons_True in Hls by done. injection Hls as -> _. apply wpx_bind.
    eapply wpx_mono; [apply Hbody|]. by intros brk s1 t1 ->.
Qed.

(** When the loop ends: every line fits the buffer, or the body breaks at the
    first one. *)
Definition loop_ends {S} (content : string) (body : string -> M S bool) : Prop :=
  snd (lines_of content) = false \/
  exists l rest, text_lines (fst (lines_of content)) = l :: rest /\
    forall s t, wlp (body l) (fun brk _ _ => brk = true) s t.

(** An invariant of the body is one of the loop, which may run for ever when
    that is not excluded. *)
Lemma wpx_read_lines {S} (bad : failure -> Prop) (I : S -> Prop) content
    (body : string -> M S bool) s t :
  bad Diverged \/ loop_ends content body -> I s ->
  (forall l s t, l ∈ text_lines (fst (lines_of content)) -> I s ->
     wpx bad (body l) (fun _ s' _ => I s') s t) ->
  wpx bad (read_lines content body) (fun _ s' _ => I s') s t.
Proof.
  intros Hdiv Hs Hbody. unfold wpx. rewrite read_lines_spec. unfold read_spec.
  unfold loop_ends in Hdiv. destruct (lines_of content) as [ls overlong]. simpl in Hbody, Hdiv.
  change (wpx bad (brk ← each_line ls body;
    if brk : bool then mret () else if overlong : bool then diverge else mret ())
    (fun _ s' _ => I s') s t).
  apply wpx_bind. apply wpx_mono with (Q := fun brk s' _ => I s' /\
    (bad Diverged \/ overlong = false \/ brk = true)).
  2: { intros [] s1 t1 [H1 Hd]; [done|]. destruct overlong; [|done]. by destruct Hd as [|[|]]. }
  assert (wpx bad (each_line ls body) (fun _ s' _ => I s') s t) as Hall.
  { clear Hdiv. revert s t Hs Hbody. unfold text_lines.
    induction ls as [|l ls IH]; intros s t Hs Hbody; [done|]. simpl in *.
    destruct (decide (c_str l = "")) as [E|E].
    + rewrite filter_cons_False in Hbody by (intros ?; done). by apply IH.
    + rewrite filter_cons_True in Hbody by done. apply wpx_bind.
      eapply wpx_mono; [apply Hbody; [left|done]|]. intros [] s1 t1 H1; [done|].
      apply IH; [done|]. intros. apply Hbody; [by right|done]. }
  destruct Hdiv as [|[|(l & rest & Hl & Hbrk)]].
  1,2: by (eapply wpx_mono; [exact Hall|]; auto).
  eapply wpx_mono; [apply (wpx_and _ _ _ _ _ _ Hall (each_line_first _ _ _ _ s t Hl Hbrk))|].
  intros brk s1 t1 [? ?]. auto.
Qed.

(** A body that always returns without breaking, on a file whose lines all fit:
    the loop folds the body's effect over the non-empty lines. *)
Lemma each_line_total {S} (f : S -> string -> S) (body : string -> M S bool) ls s t :
  Forall (fun l => forall s t, body l s t = Done (false, f s l, t)) (text_lines ls) ->
  each_line ls body s t = Done (false, fold_left f (text_lines ls) s, t).
Proof.
  unfold text_lines. revert s. induction ls as [|l ls IH]; intros s; [done|].
  simpl. destruct (decide (c_str l = "")) as [E|E].
  - rewrite filter_cons_False by (intros ?; done). apply IH.
  - rewrite filter_cons_True by done. intros Hall. inversion Hall as [|?? Hl Hls]; subst.
    cbv [mbind M_bind]. rewrite Hl. by apply IH.
Qed.

Lemma read_lines_total {S} (f : S -> string -> S) (body : string -> M S bool) content s t :
  Forall (fun l => forall s t, body l s t = Done (false, f s l, t))
    (text_lines (fst (lines_of content))) ->
  read_lines content body s t =
    if snd (lines_of content) then Diverges
    else Done ((), fold_left f (text_lines (fst (lines_of content))) s, t).
Proof.
  intros Hbody. rewrite read_lines_spec. unfold read_spec.
  destruct (lines_of content) as [ls overlong]. cbv [mbind M_bind].
  rewrite (each_line_total f) by done. by destruct overlong.
Qed.

(** The lines of a text put together from lines that fit. *)
Definition unlines (ls : list string) : string :=
  foldr (fun l s => l +:+ String NEWLINE s) "" ls.

Definition not_newline (c : ascii) : bool := negb (bool_decide (c = NEWLINE)).

Definition fits (l : string) : Prop :=
  str_forall not_newline l = true /\ (String.length l < BUFFER_SIZE)%nat.

Lemma split_lines_line room k l s :
  str_forall not_newline l = true -> (String.length l <= k)%nat ->
  split_lines room "" k (l +:+ String NEWLINE s) =
    let '(ls, b) := split_lines room "" room s in (l :: ls, b).
Proof.
  enough (forall cur, str_forall not_newline l = true -> (String.length l <= k)%nat ->
    split_lines room cur k (l +:+ String NEWLINE s) =
      let '(ls, b) := split_lines room "" room s in ((cur +:+ l) :: ls, b)) as H by apply (H "").
  revert k. induction l as [|c l IH]; intros k cur Hl Hk; simpl.
  - by rewrite str_app_nil_r.
  - simpl in Hl. apply andb_prop in Hl as [Hc Hl]. unfold not_newline in Hc.
    rewrite negb_true_iff, bool_decide_eq_false in Hc. rewrite decide_False by done.
    simpl in Hk. destruct k as [|k]; [lia|]. rewrite IH by (done || lia).
    by rewrite str_app_assoc.
Qed.

Lemma lines_of_unlines ls : Forall fits ls -> lines_of (unlines ls) = (ls ++ [""], false).
Proof.
  unfold lines_of, fits, BUFFER_SIZE. change (1024 - 1)%nat with 1023%nat.
  induction 1 as [|l ls [Hnl Hlen] _ IH]; [done|]. cbn [unlines foldr].
  rewrite split_lines_line by (done || lia). unfold unlines in IH. by rewrite IH.
Qed.

(** Lines without NULs, none of them empty. *)
Definition plain (l : string) : Prop := fits l /\ str_forall not_nul l = true /\ l <> "".

Lemma text_lines_plain ls : Forall plain ls -> text_lines (ls ++ [""]) = ls.
Proof.
  unfold text_lines. induction 1 as [|l ls (_ & Hn & Hne) _ IH]; [done|].
  simpl. rewrite c_str_id by done. by rewrite filter_cons_True, IH.
Qed.

Lemma read_lines_unlines {S} (f : S -> string -> S) (body : string -> M S bool) ls s t :
  Forall (fun l => forall s t, body l s t = Done (false, f s l, t)) ls -> Forall plain ls ->
  read_lines (unlines ls) body s t = Done ((), fold_left f ls s, t).
Proof.
  intros Hbody Hls.
  assert (lines_of (unlines ls) = (ls ++ [""], false)) as Hl
    by (apply lines_of_unlines; eapply Forall_impl; [apply Hls|]; by intros ? [? _]).
  rewrite (read_lines_total f); rewrite Hl; simpl; by rewrite text_lines_plain.
Qed.
