(* ===== verification/Scanf.v ===== *)
(** [sscanf] for the directives the program uses: [%d], [%u], [%X], [%ld],
    [%lu], [%s] and [%[set]], with assignment suppression and field widths.

    A format is parsed into directives by [parse_fmt], so the format strings of
    the definitions are the source's own; [sscanf] interprets them as the C
    library does, its return value and end-of-input rule included. *)

From S2P Require Import Prelude Cstring.

(** ** Directives *)

Inductive conv :=
  | CInt           (* d *)
  | CUint          (* u *)
  | CHex           (* X *)
  | CStr           (* s *)
  | CSet (set : list (ascii * ascii)).

Inductive dir :=
  | DSpace
  | DLit (c : ascii)
  | DConv (suppress : bool) (width : option nat) (long : bool) (c : conv).

(** The decimal field width at the head of a conversion. *)
Fixpoint parse_width (acc : option nat) (s : string) : option nat * string :=
  match s with
  | String c s' =>
      if is_digit 10 c then
        parse_width (Some (10 * default 0%nat acc + Z.to_nat (default 0%Z (digit_val c)))%nat) s'
      else (acc, s)
  | "" => (acc, "")
  end.

(** The ranges of a scan set up to its closing bracket. *)
Fixpoint parse_set (fuel : nat) (acc : list (ascii * ascii)) (s : string) :
    option (list (ascii * ascii) * string) :=
  match fuel with
  | O => None
  | S fuel =>
      match s with
      | "" => None
      | String "]" s => Some (acc, s)
      | String a (String "-" (String b s)) => parse_set fuel (acc ++ [(a, b)]) s
      | String a s => parse_set fuel (acc ++ [(a, a)]) s
      end
  end.

Definition parse_conv (suppress : bool) (width : option nat) (s : string) :
    option (dir * string) :=
  match s with
  | String "d" s => Some (DConv suppress width false CInt, s)
  | String "u" s => Some (DConv suppress width false CUint, s)
  | String "X" s => Some (DConv suppress width false CHex, s)
  | String "s" s => Some (DConv suppress width false CStr, s)
  | String "l" (String "d" s) => Some (DConv suppress width true CInt, s)
  | String "l" (String "u" s) => Some (DConv suppress width true CUint, s)
  | String "[" s =>
      '(set, s) ← parse_set (S (String.length s)) [] s;
      Some (DConv suppress width false (CSet set), s)
  | _ => None
  end.

Fixpoint parse_fmt_go (fuel : nat) (s : string) : option (list dir) :=
  match fuel with
  | O => None
  | S fuel =>
      match s with
      | "" => Some []
      | String "%" s =>
          let '(suppress, s) :=
            match s with String "*" s => (true, s) | _ => (false, s) end in
          let '(width, s) := parse_width None s in
          '(d, s) ← parse_conv suppress width s;
          ds ← parse_fmt_go fuel s;
          Some (d :: ds)
      | String c s =>
          ds ← parse_fmt_go fuel s;
          Some ((if is_space c then DSpace else DLit c) :: ds)
      end
  end.

(** The directives of a format; none of the program's formats is outside the
    supported language (an unsupported one has no directives). *)
Definition parse_fmt (s : string) : list dir := default [] (parse_fmt_go (S (String.length s)) s).

(** ** Conversions *)

(** An assigned value, already converted to the width its length modifier
    says. *)
Inductive sval := VInt (z : Z) | VStr (s : string).

Inductive conv_result :=
  | CvOk (v : sval) (rest : string)
  | CvFail                              (* matching failure *)
  | CvEof.                              (* input failure *)

(** The optional sign of a number and the width left after it. *)
Definition take_sign (k : nat) (s : string) : bool * nat * string :=
  match k, s with
  | S k', String "-" s' => (true, k', s')
  | S k', String "+" s' => (false, k', s')
  | _, _ => (false, k, s)
  end.

(** The optional [0x] of a hexadecimal number. *)
Definition take_0x (b : Z) (k : nat) (s : string) : nat * string :=
  match k, s with
  | S (S k'), String "0" (String x s') =>
      if (b =? 16) && (bool_decide (x = "x"%char) || bool_decide (x = "X"%char))
      then (k', s') else (k, s)
  | _, _ => (k, s)
  end.

(** The number at the head of [s]: its value, or nothing when there is no
    digit. *)
Definition scan_number (b : Z) (width : option nat) (s : string) : option (Z * string) :=
  let k := match width with Some w => w | None => String.length s end in
  let '(neg, k, s) := take_sign k s in
  let '(k, s) := take_0x b k s in
  let '(ds, rest) := span (is_digit b) k s in
  if decide (ds = "") then None
  else let v := read_digits b 0 ds in Some (if neg : bool then - v else v, rest).

(** [strtol] and [strtoul] saturate; the result is stored at the width of the
    argument. *)
Definition strtol (v : Z) : Z := Z.max (- 2 ^ 63) (Z.min v (2 ^ 63 - 1)).
Definition strtoul (v : Z) : Z := if 2 ^ 64 <=? Z.abs v then 2 ^ 64 - 1 else u64 v.
Definition store_int (long : bool) (v : Z) : Z := if long then strtol v else i32 (strtol v).
Definition store_uint (long : bool) (v : Z) : Z := if long then strtoul v else u32 (strtoul v).

Definition in_set (set : list (ascii * ascii)) (c : ascii) : bool :=
  existsb (fun '(a, b) =>
    (nat_of_ascii a <=? nat_of_ascii c)%nat && (nat_of_ascii c <=? nat_of_ascii b)%nat) set.

Definition scan_token (p : ascii -> bool) (width : option nat) (s : string) : conv_result :=
  let k := match width with Some w => w | None => String.length s end in
  let '(tok, rest) := span p k s in
  if decide (tok = "") then CvFail else CvOk (VStr tok) rest.

Definition not_space (c : ascii) : bool := negb (is_space c).

Definition scan_int (b : Z) (store : Z -> Z) (width : option nat) (s : string) : conv_result :=
  match skip_space s with
  | "" => CvEof
  | s' =>
      match scan_number b width s' with
      | Some (v, rest) => CvOk (VInt (store v)) rest
      | None => CvFail
      end
  end.

Definition convert (c : conv) (long : bool) (width : option nat) (s : string) : conv_result :=
  match c with
  | CInt => scan_int 10 (store_int long) width s
  | CUint => scan_int 10 (store_uint long) width s
  | CHex => scan_int 16 (store_uint long) width s
  | CStr =>
      match skip_space s with
      | "" => CvEof
      | s' => scan_token not_space width s'
      end
  | CSet set =>
      match s with
      | "" => CvEof
      | _ => scan_token (in_set set) width s
      end
  end.

(** ** The scanner *)

Inductive scan_end := ScanDone | MatchFailure | InputFailure.

Fixpoint scan (ds : list dir) (s : string) : list sval * scan_end :=
  match ds with
  | [] => ([], ScanDone)
  | DSpace :: ds => scan ds (skip_space s)
  | DLit c :: ds =>
      match s with
      | "" => ([], InputFailure)
      | String c' s' => if decide (c = c') then scan ds s' else ([], MatchFailure)
      end
  | DConv suppress width long c :: ds =>
      match convert c long width s with
      | CvEof => ([], InputFailure)
      | CvFail => ([], MatchFailure)
      | CvOk v rest =>
          let '(vs, e) := scan ds rest in
          (if suppress then vs else v :: vs, e)
      end
  end.

Definition EOF : Z := -1.

(** The value [sscanf] returns: the number of assignments, or [EOF] when the
    input ends before the first of them. *)
Definition scan_return (r : list sval * scan_end) : Z :=
  match r with
  | ([], InputFailure) => EOF
  | (vs, _) => Z.of_nat (length vs)
  end.

Definition sscanf (s fmt : string) : Z * list sval :=
  let r := scan (parse_fmt fmt) (c_str s) in (scan_return r, fst r).

#[global] Arguments sscanf : simpl never.

(** The value of the [i]-th argument after the call: the one assigned, or what
    it held before. *)
Definition arg_int (i : nat) (old : Z) (vs : list sval) : Z :=
  match vs !! i with Some (VInt z) => z | _ => old end.
Definition arg_str (i : nat) (old : string) (vs : list sval) : string :=
  match vs !! i with Some (VStr s) => s | _ => old end.

(** ** Scanning printed text

    [scans ds s vs e] is the statement [scan ds s = (vs, e)]; the rules below
    follow one directive each, and the conversion lemmas say what each
    conversion reads back from the text [printf] produces. *)

Definition scans (ds : list dir) (s : string) (vs : list sval) (e : scan_end) : Prop :=
  scan ds s = (vs, e).

Lemma scans_nil s : scans [] s [] ScanDone.
Proof. done. Qed.

Lemma scans_space ds s vs e : scans ds (skip_space s) vs e -> scans (DSpace :: ds) s vs e.
Proof. done. Qed.

Lemma scans_lit ds c s vs e : scans ds s vs e -> scans (DLit c :: ds) (String c s) vs e.
Proof. unfold scans. simpl. by rewrite decide_True. Qed.

Lemma scans_lit_mismatch ds c c' s :
  c <> c' -> scans (DLit c :: ds) (String c' s) [] MatchFailure.
Proof. intros H. unfold scans. simpl. by rewrite decide_False. Qed.

Lemma scans_conv ds w l c s v rest vs e :
  convert c l w s = CvOk v rest -> scans ds rest vs e ->
  scans (DConv false w l c :: ds) s (v :: vs) e.
Proof. unfold scans. simpl. by intros -> ->. Qed.

Lemma scans_skip ds w l c s v rest vs e :
  convert c l w s = CvOk v rest -> scans ds rest vs e ->
  scans (DConv true w l c :: ds) s vs e.
Proof. unfold scans. simpl. by intros -> ->. Qed.

Lemma sscanf_scans s fmt ds vs e :
  parse_fmt fmt = ds -> scans ds (c_str s) vs e -> sscanf s fmt = (scan_return (vs, e), vs).
Proof. unfold scans, sscanf. by intros -> ->. Qed.

(** A number ends where no longer number could continue. *)
Definition number_end (s : string) : bool :=
  match s with
  | "" => true
  | String c _ => negb (is_digit 16 c || bool_decide (c = "x"%char) || bool_decide (c = "X"%char))
  end.

Lemma digit_not_space c : is_digit 16 c = true -> is_space c = false.
Proof. by destruct c as [[] [] [] [] [] [] [] []]. Qed.

Lemma digit_not_nul c : is_digit 16 c = true -> not_nul c = true.
Proof. by destruct c as [[] [] [] [] [] [] [] []]. Qed.

Lemma take_sign_digit k c s :
  is_digit 16 c = true -> take_sign k (String c s) = (false, k, String c s).
Proof. by destruct k, c as [[] [] [] [] [] [] [] []]. Qed.

Lemma take_0x_not b k s :
  (forall c s', s = String "0" (String c s') -> c <> "x"%char /\ c <> "X"%char) ->
  take_0x b k s = (k, s).
Proof.
  intros H. unfold take_0x. destruct k as [|[|k]]; try done.
  destruct s as [|c [|c' s]]; try done; destruct c as [[] [] [] [] [] [] [] []]; try done.
  destruct (H c' s eq_refl) as [H1 H2].
  rewrite !bool_decide_eq_false_2 by done. by rewrite andb_false_r.
Qed.

Lemma str_forall_digit_16 b s :
  (b = 10 \/ b = 16) -> str_forall (is_digit b) s = true -> str_forall (is_digit 16) s = true.
Proof. intros [->| ->]; [|done]. apply str_forall_impl, is_digit_10_16. Qed.

Lemma number_end_stops b s : (b = 10 \/ b = 16) -> number_end s = true -> stops (is_digit b) s = true.
Proof.
  intros Hb. destruct s as [|c s]; [done|]. simpl. rewrite !negb_true_iff, !orb_false_iff.
  intros [[H _] _]. destruct Hb as [->| ->]; [|done].
  destruct (is_digit 10 c) eqn:E; [|done]. by rewrite (is_digit_10_16 c E) in H.
Qed.

Lemma scan_number_token b width tok rest :
  (b = 10 \/ b = 16) -> tok <> "" -> str_forall (is_digit b) tok = true ->
  match width with Some w => w = String.length tok | None => number_end rest = true end ->
  scan_number b width (tok +:+ rest) = Some (read_digits b 0 tok, rest).
Proof.
  intros Hb Hne Htok Hw.
  pose proof (str_forall_digit_16 b tok Hb Htok) as H16.
  destruct tok as [|c tok]; [done|]. simpl in H16. apply andb_prop in H16 as [Hc H16].
  assert (forall k, (if decide (width = None) then (String.length (String c tok) <= k)%nat
                     else k = String.length (String c tok)) ->
    take_0x b k (String c tok +:+ rest) = (k, String c tok +:+ rest)) as H0x.
  { intros k Hk. destruct tok as [|c' tok].
    - destruct width as [w|]; simpl in Hk; [subst k; done|].
      simpl. apply take_0x_not. intros c' s' [= -> ->]. simpl in Hw.
      split; intros ->; done.
    - apply take_0x_not. intros c'' s' [= -> <- _]. simpl in H16.
      apply andb_prop in H16 as [H16 _]. split; intros ->; done. }
  unfold scan_number. rewrite str_app_cons, take_sign_digit by done.
  rewrite <- str_app_cons. destruct width as [w|].
  - subst w. rewrite H0x by done. rewrite span_exact by done. by rewrite decide_False.
  - rewrite H0x by (simpl; rewrite str_length_app; simpl; lia).
    rewrite span_app; [by rewrite decide_False|done| |].
    + by apply number_end_stops.
    + simpl. rewrite str_length_app. lia.
Qed.

Lemma skip_space_digit s t :
  s <> "" -> str_forall (is_digit 16) s = true -> skip_space (s +:+ t) = s +:+ t.
Proof.
  destruct s as [|c s]; [done|]. simpl. intros _ [Hc _]%andb_prop.
  by rewrite (digit_not_space c Hc).
Qed.

Lemma scan_int_token b store width sp tok rest :
  (b = 10 \/ b = 16) -> str_forall is_space sp = true ->
  tok <> "" -> str_forall (is_digit b) tok = true ->
  match width with Some w => w = String.length tok | None => number_end rest = true end ->
  scan_int b store width (sp +:+ (tok +:+ rest)) = CvOk (VInt (store (read_digits b 0 tok))) rest.
Proof.
  intros Hb Hsp Hne Htok Hw. unfold scan_int. rewrite skip_space_app by done.
  rewrite skip_space_digit by eauto using str_forall_digit_16.
  pose proof (scan_number_token b width tok rest Hb Hne Htok Hw) as Hnum.
  destruct tok as [|c tok]; [done|]. simpl in *. by rewrite Hnum.
Qed.

Lemma to_string_nonempty n : 0 <= n -> to_string n <> "".
Proof. intros Hn. by destruct (to_string_cons n Hn) as (c & s & -> & _). Qed.

(** [%d], [%u], [%ld], [%lu] read back a printed non-negative number. *)
Lemma scan_int_dec store sp n rest :
  str_forall is_space sp = true -> 0 <= n -> number_end rest = true ->
  scan_int 10 store None (sp +:+ (to_string n +:+ rest)) = CvOk (VInt (store n)) rest.
Proof.
  intros Hsp Hn Hr. rewrite scan_int_token; eauto using to_string_nonempty, to_string_digits.
  by rewrite read_digits_to_string.
Qed.

(** [%X] reads back a number printed with [%0wX]. *)
Lemma scan_int_hex store width w sp n rest :
  str_forall is_space sp = true -> (0 < w)%nat -> 0 <= n < 16 ^ Z.of_nat w ->
  match width with Some k => k = w | None => number_end rest = true end ->
  scan_int 16 store width (sp +:+ (hex_fixed w n +:+ rest)) = CvOk (VInt (store n)) rest.
Proof.
  intros Hsp Hw Hn Hr. rewrite scan_int_token; eauto using hex_fixed_digits.
  - by rewrite read_digits_hex_fixed.
  - intros H. apply (f_equal String.length) in H. rewrite length_hex_fixed in H. simpl in H. lia.
  - destruct width; [|done]. by rewrite length_hex_fixed.
Qed.

Lemma store_uint32 n : 0 <= n < 2 ^ 32 -> store_uint false n = n.
Proof.
  intros Hn. unfold store_uint, strtoul.
  destruct (Z.leb_spec (2 ^ 64) (Z.abs n)); [lia|]. rewrite u64_id, u32_id by lia. done.
Qed.

Lemma store_int64 n : - 2 ^ 63 <= n < 2 ^ 63 -> store_int true n = n.
Proof. intros Hn. unfold store_int, strtol. lia. Qed.

Lemma store_uint64 n : 0 <= n < 2 ^ 64 -> store_uint true n = n.
Proof.
  intros Hn. unfold store_uint, strtoul.
  destruct (Z.leb_spec (2 ^ 64) (Z.abs n)); [lia|]. by apply u64_id.
Qed.

Lemma store_int32 n : - 2 ^ 31 <= n < 2 ^ 31 -> store_int false n = n.
Proof. intros Hn. unfold store_int, strtol. rewrite i32_id; lia. Qed.

(** Tokens: [%s] and [%[set]]. *)
Lemma scan_token_app p width tok rest :
  tok <> "" -> str_forall p tok = true -> stops p rest = true ->
  match width with Some w => (String.length tok <= w)%nat | None => True end ->
  scan_token p width (tok +:+ rest) = CvOk (VStr tok) rest.
Proof.
  intros Hne Htok Hrest Hw. unfold scan_token. rewrite span_app; [by rewrite decide_False|done..|].
  destruct width; [done|]. rewrite str_length_app. lia.
Qed.

(** ** Bounds of what is stored *)

Lemma span_length p k s : (String.length (fst (span p k s)) <= k)%nat.
Proof.
  revert s. induction k as [|k IH]; intros [|c s]; simpl; try lia.
  destruct (p c); simpl; [|lia]. specialize (IH s). destruct (span p k s). simpl in *. lia.
Qed.

(** A width bounds the token a conversion stores. *)
Lemma convert_str_width c l w s tok rest :
  convert c l (Some w) s = CvOk (VStr tok) rest -> (String.length tok <= w)%nat.
Proof.
  assert (forall p s, scan_token p (Some w) s = CvOk (VStr tok) rest ->
    (String.length tok <= w)%nat) as Htok.
  { intros p s'. unfold scan_token. pose proof (span_length p w s').
    destruct (span p w s'). destruct (decide _); [done|]. by intros [= -> ->]. }
  assert (forall b st s, scan_int b st (Some w) s <> CvOk (VStr tok) rest) as Hint.
  { intros b st s' H. unfold scan_int in H. destruct (skip_space s'); [done|].
    by destruct (scan_number _ _ _) as [[??]|]. }
  destruct c; simpl; intros H; try (by apply Hint in H).
  - destruct (skip_space s); [done|]. eauto.
  - destruct s; [done|]. eauto.
Qed.

(** Tokens are not skipped as blanks. *)
Lemma skip_space_hex w n t : (0 < w)%nat -> skip_space (hex_fixed w n +:+ t) = hex_fixed w n +:+ t.
Proof.
  intros Hw. apply skip_space_digit, hex_fixed_digits. intros H.
  apply (f_equal String.length) in H. rewrite length_hex_fixed in H. simpl in H. lia.
Qed.

Lemma skip_space_dec n t : 0 <= n -> skip_space (to_string n +:+ t) = to_string n +:+ t.
Proof.
  intros Hn. apply skip_space_digit; [by apply to_string_nonempty|].
  eapply str_forall_impl, to_string_digits; [apply is_digit_10_16|done].
Qed.

(** Conversions at a token. *)
Lemma convert_dec l n rest :
  0 <= n -> number_end rest = true ->
  convert CInt l None (to_string n +:+ rest) = CvOk (VInt (store_int l n)) rest.
Proof. intros. by apply (scan_int_dec _ ""). Qed.

Lemma convert_udec l n rest :
  0 <= n -> number_end rest = true ->
  convert CUint l None (to_string n +:+ rest) = CvOk (VInt (store_uint l n)) rest.
Proof. intros. by apply (scan_int_dec _ ""). Qed.

Lemma convert_dec_long n rest :
  0 <= n < 2 ^ 63 -> number_end rest = true ->
  convert CInt true None (to_string n +:+ rest) = CvOk (VInt n) rest.
Proof. intros. rewrite convert_dec by (done || lia). by rewrite store_int64 by lia. Qed.

Lemma hex_word w n : (w <= 8)%nat -> 0 <= n < 16 ^ Z.of_nat w -> 0 <= n < 2 ^ 32.
Proof.
  intros Hw Hn. pose proof (Z.pow_le_mono_r 16 (Z.of_nat w) 8 ltac:(lia) ltac:(lia)).
  change (16 ^ 8) with (2 ^ 32) in *. lia.
Qed.

Lemma convert_hex w n rest :
  (0 < w <= 8)%nat -> 0 <= n < 16 ^ Z.of_nat w -> number_end rest = true ->
  convert CHex false None (hex_fixed w n +:+ rest) = CvOk (VInt n) rest.
Proof.
  intros [? Hw] Hn Hr. rewrite <- (store_uint32 n) at 2 by eauto using hex_word.
  by apply (scan_int_hex _ None w "").
Qed.

Lemma convert_hex_width w n rest :
  (0 < w <= 8)%nat -> 0 <= n < 16 ^ Z.of_nat w ->
  convert CHex false (Some w) (hex_fixed w n +:+ rest) = CvOk (VInt n) rest.
Proof.
  intros [? Hw] Hn. rewrite <- (store_uint32 n) at 2 by eauto using hex_word.
  by apply (scan_int_hex _ (Some w) w "").
Qed.

(** Follows one directive over printed text. *)
Ltac scan_step :=
  lazymatch goal with
  | |- scans [] _ _ _ => apply scans_nil
  | |- scans (DSpace :: _) _ _ _ => apply scans_space; cbn [skip_space];
      try change (is_space " ") with true; cbv iota
  | |- scans (DLit _ :: _) _ _ _ => apply scans_lit
  | |- scans (DConv true _ _ _ :: _) _ _ _ => eapply scans_skip
  | |- scans (DConv false _ _ _ :: _) _ _ _ => eapply scans_conv
  end.

(** A negative number. *)
Lemma scan_number_neg b c s v rest :
  is_digit 16 c = true -> scan_number b None (String c s) = Some (v, rest) ->
  scan_number b None (String "-" (String c s)) = Some (- v, rest).
Proof.
  intros Hc. unfold scan_number. rewrite take_sign_digit by done.
  change (take_sign (String.length (String "-" (String c s))) (String "-" (String c s)))
    with (true, String.length (String c s), String c s). cbv iota beta zeta.
  destruct (take_0x _ _ _) as [k s']. destruct (span _ _ _) as [ds r].
  destruct (decide _); [done|]. by intros [= <- <-].
Qed.

Lemma convert_int l n rest :
  number_end rest = true ->
  convert CInt l None (to_string n +:+ rest) = CvOk (VInt (store_int l n)) rest.
Proof.
  intros Hr. destruct (Z.le_gt_cases 0 n) as [|Hn]; [by apply convert_dec|].
  assert (to_string n = String "-" (to_string (- n))) as ->.
  { rewrite (to_string_nonneg (- n)) by lia. unfold to_string.
    destruct (Z.ltb_spec n 0); [done|lia]. }
  pose proof (scan_number_token 10 None (to_string (- n)) rest) as Hnum.
  rewrite read_digits_to_string in Hnum by lia.
  specialize (Hnum (or_introl eq_refl) (to_string_nonempty (- n) ltac:(lia))
    (to_string_digits (- n) ltac:(lia)) Hr).
  destruct (to_string_cons (- n) ltac:(lia)) as (c & s & Hc & Hdig). rewrite Hc in *.
  rewrite !str_app_cons in *. unfold convert, scan_int. cbn [skip_space].
  change (is_space "-") with false. cbv iota.
  erewrite scan_number_neg; [|by apply is_digit_10_16|apply Hnum]. by rewrite Z.opp_involutive.
Qed.

(** ** Ranges of what is stored *)

(** Every assigned value comes from one of the format's conversions. *)
Lemma scan_values ds s :
  Forall (fun v => exists w l c s' rest,
    DConv false w l c ∈ ds /\ convert c l w s' = CvOk v rest) (fst (scan ds s)).
Proof.
  assert (forall d ds vs,
    Forall (fun v => exists w l c s' rest,
      DConv false w l c ∈ ds /\ convert c l w s' = CvOk v rest) vs ->
    Forall (fun v => exists w l c s' rest,
      DConv false w l c ∈ d :: ds /\ convert c l w s' = CvOk v rest) vs) as Hweak.
  { intros d ds0 vs H. eapply Forall_impl; [apply H|].
    intros v (w & l & c & s' & r & Hin & Hc). exists w, l, c, s', r. split; [by right|done]. }
  revert s. induction ds as [|[|c|sup w l c] ds IH]; intros s; simpl; [done|auto| |].
  - destruct s as [|c' s]; [done|]. destruct (decide _); [auto|done].
  - destruct (convert c l w s) as [v rest| |] eqn:Hc; [|done..].
    specialize (IH rest). destruct (scan ds rest) as [vs e]. simpl in *.
    destruct sup; [auto|]. constructor; [|auto]. exists w, l, c, s, rest. split; [left|done].
Qed.

Definition u32_val (v : sval) : Prop :=
  match v with VInt z => 0 <= z < 2 ^ 32 | VStr _ => True end.

Lemma convert_u32 w s v rest : convert CUint false w s = CvOk v rest -> u32_val v.
Proof.
  unfold convert, scan_int. destruct (skip_space s); [done|].
  destruct (scan_number _ _ _) as [[z r]|]; [|done]. intros [= <- _]. apply u32_range.
Qed.

Lemma arg_u32 i old vs : Forall u32_val vs -> 0 <= old < 2 ^ 32 -> 0 <= arg_int i old vs < 2 ^ 32.
Proof.
  intros Hvs Hold. unfold arg_int. destruct (vs !! i) as [[z|]|] eqn:E; [|done..].
  apply (Forall_lookup_1 _ _ _ _ Hvs E).
Qed.

(** A return value of 0 means nothing was assigned. *)
Lemma scan_return_zero r : scan_return r = 0 -> fst r = [].
Proof. destruct r as [[|v vs] []]; simpl; try done; lia. Qed.

(** A format whose only conversions are [%u] stores 32-bit values. *)
Definition unsigned_only (ds : list dir) : bool :=
  forallb (fun d => match d with
                    | DConv false _ l CUint => negb l
                    | DConv false _ _ _ => false
                    | _ => true
                    end) ds.

Lemma sscanf_unsigned s fmt :
  unsigned_only (parse_fmt fmt) = true -> Forall u32_val (snd (sscanf s fmt)).
Proof.
  change (snd (sscanf s fmt)) with (fst (scan (parse_fmt fmt) (c_str s))).
  intros Hu. eapply Forall_impl; [apply scan_values|].
  intros v (w & l & c & s' & r & Hin & Hc). unfold unsigned_only in Hu.
  rewrite forallb_forall in Hu. apply list_elem_of_In, Hu in Hin.
  destruct c; try done. apply negb_true_iff in Hin as ->. by apply convert_u32 in Hc.
Qed.
