(* ===== verification/OrdMap.v ===== *)
(** [std::set<pid_t>] and [std::map<pid_t, V>]: containers the program iterates
    in key order, as strictly ascending lists. *)

From Stdlib Require Import Sorting.Sorted.
From stdpp Require Import sorting.
From S2P Require Import Prelude.

Definition ascending (l : list Z) : Prop := StronglySorted Z.lt l.

Lemma ascending_cons x l : ascending (x :: l) <-> (forall y, y ∈ l -> x < y) /\ ascending l.
Proof. unfold ascending. rewrite StronglySorted_cons, Forall_forall. done. Qed.

Lemma ascending_app l1 l2 :
  ascending (l1 ++ l2) <->
  (forall x y, x ∈ l1 -> y ∈ l2 -> x < y) /\ ascending l1 /\ ascending l2.
Proof. apply StronglySorted_app. Qed.

(** [std::set::insert]. *)
Fixpoint set_insert (k : Z) (l : list Z) : list Z :=
  match l with
  | [] => [k]
  | x :: l' => if k <? x then k :: l else if k =? x then l else x :: set_insert k l'
  end.

Section map.
Context {V : Type}.

Definition keys (m : list (Z * V)) : list Z := map fst m.

(** [std::map::find]. *)
Fixpoint map_find (k : Z) (m : list (Z * V)) : option V :=
  match m with
  | [] => None
  | (x, v) :: m => if k =? x then Some v else map_find k m
  end.

(** [m[k] = v]. *)
Fixpoint map_set (k : Z) (v : V) (m : list (Z * V)) : list (Z * V) :=
  match m with
  | [] => [(k, v)]
  | (x, w) :: m' =>
      if k <? x then (k, v) :: m else if k =? x then (k, v) :: m' else (x, w) :: map_set k v m'
  end.

Lemma map_find_set_eq k v m : map_find k (map_set k v m) = Some v.
Proof.
  induction m as [|[x w] m IH]; simpl; [by rewrite Z.eqb_refl|].
  destruct (Z.ltb_spec k x); simpl; [by rewrite Z.eqb_refl|].
  destruct (Z.eqb_spec k x); simpl; [by rewrite Z.eqb_refl|].
  destruct (Z.eqb_spec k x); [lia|done].
Qed.

Lemma map_find_set_ne k k' v m : k <> k' -> map_find k (map_set k' v m) = map_find k m.
Proof.
  intros Hne. induction m as [|[x w] m IH]; simpl.
  - destruct (Z.eqb_spec k k'); [lia|done].
  - destruct (Z.ltb_spec k' x); simpl; [destruct (Z.eqb_spec k k'); [lia|done]|].
    destruct (Z.eqb_spec k' x); simpl.
    + subst x. destruct (Z.eqb_spec k k'); [lia|done].
    + destruct (k =? x); [done|apply IH].
Qed.

Lemma elem_of_keys_set k k' v m : k ∈ keys (map_set k' v m) <-> k = k' \/ k ∈ keys m.
Proof.
  induction m as [|[x w] m IH]; simpl; [set_solver|].
  destruct (Z.ltb_spec k' x); simpl; [set_solver|].
  destruct (Z.eqb_spec k' x); simpl; [subst; set_solver|]. set_solver.
Qed.

Lemma ascending_set k v m : ascending (keys m) -> ascending (keys (map_set k v m)).
Proof.
  unfold ascending. induction m as [|[x w] m IH]; simpl; intros Hm; [repeat constructor|].
  inversion Hm as [|?? Hm' Hx]; subst.
  destruct (Z.ltb_spec k x); simpl.
  - constructor; [by constructor|]. constructor; [done|].
    eapply Forall_impl; [apply Hx|]. simpl. lia.
  - destruct (Z.eqb_spec k x); simpl; [subst; by constructor|].
    constructor; [by apply IH|]. apply Forall_forall. intros y [->|Hy]%elem_of_keys_set; [lia|].
    rewrite Forall_forall in Hx. by apply Hx.
Qed.

Lemma map_find_None k m : map_find k m = None <-> k ∉ keys m.
Proof.
  induction m as [|[x w] m IH]; simpl; [set_solver|].
  destruct (Z.eqb_spec k x); [set_solver|]. set_solver.
Qed.

Lemma map_find_elem k v m : map_find k m = Some v -> (k, v) ∈ m.
Proof.
  induction m as [|[x w] m IH]; simpl; [done|].
  destruct (Z.eqb_spec k x); [intros [= ->]; subst; left|]. right. auto.
Qed.

Lemma elem_map_find k v m : ascending (keys m) -> (k, v) ∈ m -> map_find k m = Some v.
Proof.
  unfold ascending. induction m as [|[x w] m IH]; simpl; [by intros _ ?%elem_of_nil|].
  intros Hm [[= -> ->]|Hin]%elem_of_cons; [by rewrite Z.eqb_refl|].
  inversion Hm as [|?? Hm' Hx]; subst. destruct (Z.eqb_spec k x) as [->|]; [|auto].
  rewrite Forall_forall in Hx. specialize (Hx x). exfalso.
  enough (x < x) by lia. apply Hx. unfold keys.
  apply list_elem_of_In, in_map_iff. exists (x, v). split; [done|]. by apply list_elem_of_In.
Qed.

(** Updating a present key replaces its value in place. *)
Lemma map_set_keys k v m : ascending (keys m) -> k ∈ keys m -> keys (map_set k v m) = keys m.
Proof.
  unfold ascending. induction m as [|[x w] m IH]; simpl; [set_solver|].
  intros Hm Hk. inversion Hm as [|?? Hm' Hx]; subst. rewrite Forall_forall in Hx.
  destruct (Z.ltb_spec k x).
  - exfalso. apply elem_of_cons in Hk as [->|Hk]; [lia|]. specialize (Hx k Hk). lia.
  - destruct (Z.eqb_spec k x); simpl; [by subst|].
    f_equal. apply IH; [done|]. set_solver.
Qed.

Lemma Forall_map_set (P : Z * V -> Prop) k v m :
  P (k, v) -> Forall P m -> Forall P (map_set k v m).
Proof.
  intros Hv. induction 1 as [|[x w] m Hx Hm IH]; simpl; [by repeat constructor|].
  destruct (k <? x); [by repeat constructor|]. destruct (k =? x); by constructor.
Qed.
End map.

Lemma elem_of_set_insert k k' l : k ∈ set_insert k' l <-> k = k' \/ k ∈ l.
Proof.
  induction l as [|x l IH]; simpl; [set_solver|].
  destruct (Z.ltb_spec k' x); [set_solver|]. destruct (Z.eqb_spec k' x); set_solver.
Qed.

Lemma ascending_set_insert k l : ascending l -> ascending (set_insert k l).
Proof.
  unfold ascending. induction l as [|x l IH]; simpl; intros Hl; [repeat constructor|].
  inversion Hl as [|?? Hl' Hx]; subst.
  destruct (Z.ltb_spec k x).
  - constructor; [done|]. constructor; [done|]. eapply Forall_impl; [apply Hx|]. simpl. lia.
  - destruct (Z.eqb_spec k x); [by subst|].
    constructor; [by apply IH|]. apply Forall_forall. intros y [->|Hy]%elem_of_set_insert; [lia|].
    rewrite Forall_forall in Hx. by apply Hx.
Qed.

Lemma ascending_NoDup l : ascending l -> NoDup l.
Proof.
  unfold ascending. induction 1 as [|x l Hl IH Hx]; constructor; [|done].
  intros Hin. rewrite Forall_forall in Hx. specialize (Hx x Hin). lia.
Qed.

(** Two ascending lists with the same elements are equal. *)
Lemma ascending_ext l l' : ascending l -> ascending l' -> (forall x, x ∈ l <-> x ∈ l') -> l = l'.
Proof.
  unfold ascending. intros Hl. revert l'. induction Hl as [|x l Hl IH Hx]; intros l' Hl' Heq.
  - destruct l' as [|y l']; [done|]. exfalso. specialize (Heq y). set_solver.
  - destruct Hl' as [|y l' Hl' Hy]; [exfalso; specialize (Heq x); set_solver|].
    rewrite Forall_forall in Hx, Hy.
    assert (x = y) as ->.
    { destruct (Heq x) as [H1 _], (Heq y) as [_ H2].
      destruct (proj1 (elem_of_cons _ _ _) (H1 ltac:(left))) as [->|Hxl]; [done|].
      destruct (proj1 (elem_of_cons _ _ _) (H2 ltac:(left))) as [->|Hyl]; [done|].
      specialize (Hx y Hyl). specialize (Hy x Hxl). lia. }
    f_equal. apply IH; [done|]. intros z. specialize (Heq z). split; intros Hz.
    + destruct (proj1 (elem_of_cons _ _ _) (proj1 Heq ltac:(by right))) as [->|]; [|done].
      specialize (Hx y Hz). lia.
    + destruct (proj1 (elem_of_cons _ _ _) (proj2 Heq ltac:(by right))) as [->|]; [|done].
      specialize (Hy y Hz). lia.
Qed.
