(* ===== verification/Pod.v ===== *)
(** The exported plain data: error codes ([export/capture_errors.h]) and the
    records handed to the callbacks ([export/capture_pod.h]); and the
    environment the program reads, the operating system. *)

From Stdlib Require Import Floats.SpecFloat.
From S2P Require Import Prelude Cstring.

(** ** Error codes *)

Definition CAP_SUCCESS : Z := 0.
Definition CAP_DEVICE_INIT : Z := 1.
Definition CAP_OPEN_DEVICE : Z := 2.
Definition CAP_COMPILE : Z := 3.
Definition CAP_FILTER : Z := 4.
Definition CAP_HANDLE_INIT : Z := 5.
Definition CAP_OPEN_DIR : Z := 6.
Definition CAP_PROCESS_INIT : Z := 35.
Definition CAP_PROCESS_FORMAT : Z := 36.
Definition CAP_PROCESS_OPEN : Z := 37.
Definition CAP_PROCESS_OPEN_DIR : Z := 38.
Definition CAP_NET_UNMATCH : Z := 41.
Definition CAP_NET_UNKNOW : Z := 41.
Definition CAP_FIND_IP : Z := 43.
Definition CAP_FIND_INODE : Z := 44.

(** ** Records of the callbacks *)

Definition CAPTURE_COMMAN_SIZE : nat := 128.
Definition CAPTURE_CMDLINE_SIZE : nat := 512.

(** A [double], as the IEEE 754 binary64 value it holds. *)
Abbreviation double := spec_float.

Inductive LoopType := SELECT | EPOLL | NONE.

(** [errorbuf] is the array it points to, if any; neither it nor [loop] is
    read. *)
Record CaptureInitt := mk_CaptureInitt {
  ci_logfile : option string;
  ci_ms : Z;
  ci_snaplen : Z;
  ci_promise : Z;
  ci_fliter : option string;
  ci_errorbuf : option (list ascii);
  ci_loop : LoopType
}.

Record Process_t := mk_Process_t {
  p_name : list ascii;
  p_cmdline : list ascii;
  p_user : list ascii;
  p_group : list ascii;
  p_pid : Z;
  p_uid : Z;
  p_gid : Z;
  p_fdCnt : Z;
  p_memory : Z;
  p_cpuPercent : double;
  p_memPercent : double;
  p_ioRead : Z;
  p_ioWrite : Z;
  p_recv : Z;
  p_send : Z
}.

(** [memset(&data, 0, sizeof(Process_t))]. *)
Definition Process_zero : Process_t :=
  mk_Process_t (zeroed CAPTURE_COMMAN_SIZE) (zeroed CAPTURE_CMDLINE_SIZE)
    (zeroed CAPTURE_COMMAN_SIZE) (zeroed CAPTURE_COMMAN_SIZE)
    0 0 0 0 0 (S754_zero false) (S754_zero false) 0 0 0 0.

Inductive PacketType := P_TCP | P_UDP.

(** [packet] is null or points to a heap copy of the captured bytes. *)
Record Packet_t := mk_Packet_t {
  k_hash : list ascii;
  k_family : PacketType;
  k_packet : option (list Z);
  k_packetSize : Z
}.

Definition Packet_zero : Packet_t := mk_Packet_t (zeroed CAPTURE_COMMAN_SIZE) P_TCP None 0.

Inductive CaptureAction := ACTION_UPDATE | ACTION_REMOVE.

(** What the host application observes: the calls of its two callbacks, with
    the array that is passed and the size that is announced for it. *)
Inductive event :=
  | ProcessEvent (action : CaptureAction) (data : list Process_t) (size : Z)
  | PacketEvent (data : list Packet_t) (size : Z).

(** ** The operating system *)

Inductive d_type := DT_DIR | DT_LNK | DT_OTHER.

#[export] Instance d_type_eq_dec : EqDecision d_type.
Proof. solve_decision. Defined.

Record dirent := mk_dirent { d_name : string; d_kind : d_type }.

(** The socket address of an interface, by family. *)
Inductive sockaddr :=
  | SaInet (s_addr : Z)
  | SaInet6 (a0 a1 a2 a3 : Z)
  | SaOther (family : Z).

Record ifaddrs := mk_ifaddrs {
  ifa_name : option string;
  ifa_flags : Z;
  ifa_addr : option sockaddr
}.

(** What the system answers at one instant.  Opening a file gives its bytes,
    opening a directory its entries in order; [None] is a failed call. *)
Record Os := mk_Os {
  os_file : string -> option string;
  os_opendir : string -> option (list dirent);
  os_readlink : string -> option string;
  os_getpwuid : Z -> option (option string);
  os_getgrgid : Z -> option (option string);
  os_getifaddrs : option (list ifaddrs)
}.

(** The environment answers each call from the state the system has at that
    moment: processes come and go between two calls. *)
Class Env := env_at : nat -> Os.

(** One call: answered at the current time, which then advances. *)
Definition sys `{Env} {S A} (f : Os -> A) : M S A := fun s t => Done (f (env_at t), s, Datatypes.S t).

Lemma wpx_sys `{Env} {S A} bad (f : Os -> A) (Q : A -> S -> nat -> Prop) s t :
  Q (f (env_at t)) s (Datatypes.S t) -> wpx bad (sys f) Q s t.
Proof. done. Qed.

Ltac wp_sys_step :=
  first [ wp_step
        | lazymatch goal with |- wpx _ (sys _) _ _ _ => apply wpx_sys end ].
Ltac wp_sys := repeat wp_sys_step.
