(* ===== verification/Ostream.v ===== *)
(** [std::ostream] as the program uses it: insertion of characters, C strings,
    integers and doubles, with the default flags. *)

From Stdlib Require Import Floats.SpecFloat.
From S2P Require Import Prelude Cstring Pod.

(** ** Doubles

    The default format of a [double] is [%g] with six significant digits:
    correctly rounded from the exact value, ties to even, without trailing
    zeros, in scientific notation when the exponent is below -4 or above 5. *)

Definition PRECISION : nat := 6.

(** The smallest [k] with [10^k * num >= den], at most [fuel]; the smallest
    double is above [10^-324]. *)
Fixpoint leading_zeros (fuel : nat) (num den : Z) : Z :=
  match fuel with
  | O => 0
  | S fuel => if den <=? num then 0 else 1 + leading_zeros fuel (10 * num) den
  end.

(** The decimal exponent of [num / den]. *)
Definition exponent10 (num den : Z) : Z :=
  if den <=? num then Z.of_nat (length (digits 10 (num / den))) - 1
  else - leading_zeros 325 num den.

(** [num / den], rounded to an integer. *)
Definition round_even (num den : Z) : Z :=
  let q := num / den in
  let r := num mod den in
  match 2 * r ?= den with
  | Lt => q
  | Gt => q + 1
  | Eq => if Z.even q then q else q + 1
  end.

(** The six digits of [num / den], and the exponent of the first one. *)
Definition significant (num den : Z) : Z * Z :=
  let x := exponent10 num den in
  let shift := Z.of_nat PRECISION - 1 - x in
  let q := if 0 <=? shift then round_even (num * 10 ^ shift) den
           else round_even num (den * 10 ^ (- shift)) in
  if q =? 10 ^ Z.of_nat PRECISION then (q / 10, x + 1) else (q, x).

Fixpoint strip_zeros (ds : list Z) : list Z :=
  match ds with
  | [] => []
  | d :: ds =>
      match strip_zeros ds with
      | [] => if d =? 0 then [] else [d]
      | ds => d :: ds
      end
  end.

Definition fraction (ds : list Z) : string :=
  match strip_zeros ds with [] => "" | ds => "." +:+ numeral ds end.

Definition exponent_text (x : Z) : string :=
  (if x <? 0 then "e-" else "e+") +:+ (if Z.abs x <? 10 then "0" else "") +:+ to_string (Z.abs x).

Definition general (num den : Z) : string :=
  let '(q, x) := significant num den in
  let ds := digits 10 q in
  if (-4 <=? x) && (x <? Z.of_nat PRECISION) then
    if x <? 0 then "0" +:+ fraction (repeat 0 (Z.to_nat (- x - 1)) ++ ds)
    else numeral (take (Z.to_nat (x + 1)) ds) +:+ fraction (drop (Z.to_nat (x + 1)) ds)
  else numeral (take 1 ds) +:+ fraction (drop 1 ds) +:+ exponent_text x.

Definition sign_text (s : bool) : string := if s then "-" else "".

(** The sign of a NaN is not part of its value. *)
Definition double_text (d : double) : string :=
  match d with
  | S754_zero s => sign_text s +:+ "0"
  | S754_infinity s => sign_text s +:+ "inf"
  | S754_nan => "nan"
  | S754_finite s m e =>
      sign_text s +:+
      (if 0 <=? e then general (Zpos m * 2 ^ e) 1 else general (Zpos m) (2 ^ (- e)))
  end.

(** ** Insertion

    A stream is the text written to it. *)
Definition put_str (s : string) : M string () := modify (fun out => out +:+ s).

Definition put_int (n : Z) : M string () := put_str (to_string n).

Definition put_double (d : double) : M string () := put_str (double_text d).

(** A [char] array decays to a pointer, and is read up to its first NUL. *)
Definition put_array (a : list ascii) : M string () :=
  if decide (NUL ∈ a) then put_str (array_str a) else undef OobRead.

Definition endl : M string () := put_str (String NEWLINE "").

(** ** What the format gives *)

Example general_samples :
  map (fun '(num, den) => general num den)
    [(1, 1); (100, 1); (25, 2); (1, 3); (200, 3); (999999, 1); (9999995, 10); (1234567, 1);
     (1, 10000); (1, 100000); (5, 1000000); (1000005, 10); (1000015, 10)] =
    ["1"; "100"; "12.5"; "0.333333"; "66.6667"; "999999"; "1e+06"; "1.23457e+06";
     "0.0001"; "1e-05"; "5e-06"; "100000"; "100002"].
Proof. vm_compute. reflexivity. Qed.

Lemma put_then {B} s (k : () -> M string B) out t :
  (put_str s ≫= k) out t = k () (out +:+ s) t.
Proof. done. Qed.

(** An insertion that cannot go wrong appends its text. *)
Lemma put_array_ok a out t : NUL ∈ a -> put_array a out t = Done ((), out +:+ array_str a, t).
Proof. intros Ha. unfold put_array. by rewrite decide_True. Qed.

Lemma put_array_unterminated a out t : NUL ∉ a -> put_array a out t = Undef OobRead.
Proof. intros Ha. unfold put_array. by rewrite decide_False. Qed.
