(* ===== verification/Device.v ===== *)
(** Network devices: [local_addr.h] (Module [LocalAddr]), [cap_device.h] and
    [cap_device.cpp] (Module [CapDevice]), [cap_ifaddrs.h] and [cap_ifaddrs.cpp]
    (Module [CapIfaddrs]), and the device list's [Contains] of [capturecxx.h]. *)

From S2P Require Import Prelude Cstring Inet Pod.

Module LocalAddr.
(** [strV4] and [strV6] are the C strings the two arrays hold.  [addrV4] and
    [addrV6] are indeterminate until the [Init] of their family; they are
    read under that family only. *)
Record t := mk {
  addrV4 : Z;
  addrV6 : in6_addr;
  family : Z;
  strV4 : string;
  strV6 : string
}.

Definition new : t := mk 0 in6_zero 0 "" "".

Section ops.
Context `{Ntop6}.

(** [Init(in_addr_t)] gives [inet_ntop] 15 of the 16 bytes of [strV4]. *)
Definition Init4 (inAddrV4 : Z) : M t Z :=
  la ← get;
  put (mk inAddrV4 (addrV6 la) AF_INET
          (inet_ntop (ntop4 inAddrV4) 15 (strV4 la)) (strV6 la));;
  mret 0.

Definition Init6 (inAddrV6 : in6_addr) : M t Z :=
  la ← get;
  put (mk (addrV4 la) inAddrV6 AF_INET6 (strV4 la)
          (inet_ntop (ntop6 inAddrV6) 63 (strV6 la)));;
  mret 0.
End ops.

Definition GetStr (la : t) : string :=
  if family la =? AF_INET then strV4 la else strV6 la.

Definition Contains6 (la : t) (n_addr : in6_addr) : bool :=
  if family la =? AF_INET6 then bool_decide (addrV6 la = n_addr) else false.

Definition Contains4 (la : t) (n_addr : Z) : bool :=
  if (family la =? AF_INET) && (n_addr =? addrV4 la) then true else false.
End LocalAddr.

Definition IFF_UP : Z := 1.
Definition IFF_LOOPBACK : Z := 8.
Definition IFF_RUNNING : Z := 64.

Module CapIfaddrs.
(** [addr] is null or the list the system allocated. *)
Record t := mk { addr : option (list ifaddrs) }.

Definition new : t := mk None.

(** [getifaddrs(&addr)]. *)
Definition Init `{Env} : M t Z :=
  ifs ← sys (fun os => os_getifaddrs os);
  match ifs with
  | None => mret (-1)
  | Some l => put (mk (Some l));; mret 0
  end.

(** The destructor gives back the list [Init] was given, if any: what it hands
    to [freeifaddrs]. *)
Definition destroy (p : t) : list (list ifaddrs) :=
  match addr p with Some l => [l] | None => [] end.
End CapIfaddrs.

Module CapDevice.
Record t := mk {
  name : string;
  flags : Z;
  localAddr : option LocalAddr.t
}.

(** [flags] is indeterminate until [Init]. *)
Definition new : t := mk "" 0 None.

Section ops.
Context `{Ntop6}.

(** [Init] dereferences [addr->ifa_addr]. *)
Definition Init (addr : ifaddrs) : M t Z :=
  let nm := match ifa_name addr with None => "unknow device" | Some n => c_str n end in
  match ifa_addr addr with
  | None => undef NullDeref
  | Some sa =>
      '(_, la) ← run_on LocalAddr.new
        (match sa with
         | SaInet a => LocalAddr.Init4 a
         | SaInet6 a0 a1 a2 a3 => LocalAddr.Init6 (mk_in6 a0 a1 a2 a3)
         | SaOther _ => mret 0
         end);
      put (mk nm (ifa_flags addr) (Some la));;
      mret 0
  end.
End ops.

Definition UpRunning (d : t) : bool :=
  (Z.land (flags d) IFF_LOOPBACK =? 0)
  && negb (Z.land (flags d) IFF_UP =? 0)
  && negb (Z.land (flags d) IFF_RUNNING =? 0).

Definition GetName (d : t) : string := name d.

Definition GetLocalAddr (d : t) : string :=
  match localAddr d with Some la => LocalAddr.GetStr la | None => "" end.

(** The two [Contains] dereference [localAddr]. *)
Definition Contains6 {S} (d : t) (n_addr : in6_addr) : M S bool :=
  match localAddr d with
  | Some la => mret (LocalAddr.Contains6 la n_addr)
  | None => undef NullDeref
  end.

Definition Contains4 {S} (d : t) (n_addr : Z) : M S bool :=
  match localAddr d with
  | Some la => mret (LocalAddr.Contains4 la n_addr)
  | None => undef NullDeref
  end.

(** A device that went through [Init]. *)
Definition inited (d : t) : Prop := is_Some (localAddr d).

Lemma Init_wp `{Ntop6} addr (Q : Z -> t -> nat -> Prop) d t0 sa :
  ifa_addr addr = Some sa ->
  (forall d', inited d' -> flags d' = ifa_flags addr -> Q 0 d' t0) ->
  wp (Init addr) Q d t0.
Proof.
  intros Hsa HQ. unfold Init. rewrite Hsa. unfold LocalAddr.Init4, LocalAddr.Init6.
  destruct sa; repeat wp_step; (apply HQ; [by eexists|done]).
Qed.
End CapDevice.

(** [CaptureCxx::Contains], on the list of devices. *)
Fixpoint Contains6 {S} (devices : list CapDevice.t) (n_addr : in6_addr) : M S bool :=
  match devices with
  | [] => mret false
  | d :: devices =>
      b ← CapDevice.Contains6 d n_addr;
      if b : bool then mret true else Contains6 devices n_addr
  end.

Fixpoint Contains4 {S} (devices : list CapDevice.t) (n_addr : Z) : M S bool :=
  match devices with
  | [] => mret false
  | d :: devices =>
      b ← CapDevice.Contains4 d n_addr;
      if b : bool then mret true else Contains4 devices n_addr
  end.

(** ** Membership of an address in the list of devices *)

Definition devices_ok (devices : list CapDevice.t) : Prop := Forall CapDevice.inited devices.

(** The pure reading of the two loops. *)
Definition has_addr4 (devices : list CapDevice.t) (a : Z) : bool :=
  existsb (fun d => match CapDevice.localAddr d with
                    | Some la => LocalAddr.Contains4 la a
                    | None => false
                    end) devices.

Definition has_addr6 (devices : list CapDevice.t) (a : in6_addr) : bool :=
  existsb (fun d => match CapDevice.localAddr d with
                    | Some la => LocalAddr.Contains6 la a
                    | None => false
                    end) devices.

Lemma Contains4_spec {S} devices a (s : S) t :
  devices_ok devices -> Contains4 devices a s t = Done (has_addr4 devices a, s, t).
Proof.
  unfold devices_ok. induction 1 as [|d devices [la Hla] _ IH]; [done|].
  simpl. unfold CapDevice.Contains4. rewrite Hla.
  unfold mbind, M_bind, mret, M_ret in *. simpl.
  destruct (LocalAddr.Contains4 la a); [done|apply IH].
Qed.

Lemma Contains6_spec {S} devices a (s : S) t :
  devices_ok devices -> Contains6 devices a s t = Done (has_addr6 devices a, s, t).
Proof.
  unfold devices_ok. induction 1 as [|d devices [la Hla] _ IH]; [done|].
  simpl. unfold CapDevice.Contains6. rewrite Hla.
  unfold mbind, M_bind, mret, M_ret in *. simpl.
  destruct (LocalAddr.Contains6 la a); [done|apply IH].
Qed.

Lemma has_addr4_elem devices a :
  has_addr4 devices a = true <->
  exists d la, d ∈ devices /\ CapDevice.localAddr d = Some la /\
    LocalAddr.family la = AF_INET /\ LocalAddr.addrV4 la = a.
Proof.
  unfold has_addr4. rewrite existsb_exists. split.
  - intros (d & Hd & H). destruct (CapDevice.localAddr d) as [la|] eqn:Hla; [|done].
    unfold LocalAddr.Contains4 in H. destruct (_ && _) eqn:E; [|done]. bool_to_prop.
    exists d, la. rewrite list_elem_of_In. auto.
  - intros (d & la & Hd & Hla & Hf & Ha). exists d. rewrite <- list_elem_of_In.
    split; [done|]. rewrite Hla. unfold LocalAddr.Contains4.
    by rewrite Hf, Ha, !Z.eqb_refl.
Qed.

(** ** Properties *)

(** [LocalAddr::Init] keeps the text of an IPv4 address only when it has at
    most 14 characters: the call passes 15 as the size of a 16-byte array, so a
    15-character address such as 192.168.100.100 fails with [ENOSPC] and the
    device's local address stays the empty string. *)
Theorem LocalAddr_Init4_text `{Ntop6} a t :
  exists la, LocalAddr.Init4 a LocalAddr.new t = Done (0, la, t) /\
    LocalAddr.GetStr la =
      (if (String.length (ntop4 a) <=? 14)%nat then ntop4 a else "") /\
    forall b, LocalAddr.Contains4 la b = (b =? a).
Proof.
  eexists. split; [done|]. split.
  - unfold LocalAddr.GetStr, inet_ntop. simpl.
    destruct (Nat.ltb_spec (String.length (ntop4 a)) 15), (Nat.leb_spec (String.length (ntop4 a)) 14);
      done || lia.
  - intros b. unfold LocalAddr.Contains4. simpl. by destruct (b =? a).
Qed.
