(* ===== verification/Packet.v ===== *)
(** [cap_packet.h] and [cap_packet.cpp]: a captured packet, its direction and
    the key ([Hash]) under which its connection is looked up. *)

From S2P Require Import Prelude Cstring Inet Pod Device.

Inductive CapDir := Unknown | Incoming | Outgoing.

#[export] Instance CapDir_eq_dec : EqDecision CapDir.
Proof. solve_decision. Defined.

(** The text of an endpoint pair: [local:lport-remote:rport]. *)
Definition conn_key (local : string) (lport : Z) (remote : string) (rport : Z) : string :=
  local +:+ ":" +:+ to_string lport +:+ "-" +:+ remote +:+ ":" +:+ to_string rport.

Module CapPacket.
Record t := mk {
  sip6 : in6_addr;
  dip6 : in6_addr;
  sip : Z;
  dip : Z;
  sport : Z;
  dport : Z;
  len : Z;
  time : Z * Z;
  dir : CapDir;
  family : Z;
  hashstring : string
}.

(** [std::make_unique<CapPacket>()]: every field but [hashstring] is
    indeterminate until [Init]. *)
Definition new : t := mk in6_zero in6_zero 0 0 0 0 0 (0, 0) Unknown 0 "".

Definition set_dir (d : CapDir) (p : t) : t :=
  mk (sip6 p) (dip6 p) (sip p) (dip p) (sport p) (dport p) (len p) (time p) d
     (family p) (hashstring p).
Definition set_hashstring (h : string) (p : t) : t :=
  mk (sip6 p) (dip6 p) (sip p) (dip p) (sport p) (dport p) (len p) (time p) (dir p)
     (family p) h.

Section ops.
Context `{Ntop6}.
(** The devices of the capture singleton. *)
Context (devices : list CapDevice.t).

Definition IsOutgoing : M t bool :=
  p ← get;
  match dir p with
  | Outgoing => mret true
  | Incoming => mret false
  | Unknown =>
      islocal ← (if family p =? AF_INET then Contains4 devices (sip p)
                 else Contains6 devices (sip6 p));
      if islocal : bool then modify (set_dir Outgoing);; mret true
      else modify (set_dir Incoming);; mret false
  end.

(** [inet_ntop] into a zeroed [char[50]] with size 49, of the source and of
    the destination. *)
Definition source_text (p : t) : string :=
  if family p =? AF_INET then inet_ntop (ntop4 (sip p)) 49 ""
  else inet_ntop (ntop6 (sip6 p)) 49 "".
Definition dest_text (p : t) : string :=
  if family p =? AF_INET then inet_ntop (ntop4 (dip p)) 49 ""
  else inet_ntop (ntop6 (dip6 p)) 49 "".

Definition Hash : M t string :=
  p ← get;
  if decide (hashstring p = "") then
    let local := source_text p in
    let remote := dest_text p in
    out ← IsOutgoing;
    let h := if out : bool
      then local +:+ ":" +:+ to_string (sport p) +:+ "-" +:+ remote +:+ ":" +:+ to_string (dport p)
      else remote +:+ ":" +:+ to_string (dport p) +:+ "-" +:+ local +:+ ":" +:+ to_string (sport p) in
    modify (set_hashstring h);; mret h
  else mret (hashstring p).

Definition Init4 (isip isport idip idport ilen : Z) (itime : Z * Z) (idir : CapDir) : M t Z :=
  p ← get;
  put (mk (sip6 p) (dip6 p) isip idip isport idport ilen itime idir AF_INET (hashstring p));;
  _ ← Hash;
  mret 0.

Definition Init6 (isip : in6_addr) (isport : Z) (idip : in6_addr) (idport ilen : Z)
    (itime : Z * Z) (idir : CapDir) : M t Z :=
  p ← get;
  put (mk isip idip (sip p) (dip p) isport idport ilen itime idir AF_INET6 (hashstring p));;
  _ ← Hash;
  mret 0.

Definition Link (p : t) : string :=
  let local := source_text p in
  let remote := dest_text p in
  local +:+ ":" +:+ to_string (sport p) +:+ "-" +:+ remote +:+ ":" +:+ to_string (dport p).
End ops.

Definition Invert : M t CapDir :=
  p ← get;
  let d := match dir p with
           | Incoming => Outgoing
           | Outgoing => Incoming
           | Unknown => Unknown
           end in
  let p' := set_dir d p in
  put (if family p =? AF_INET then
         mk (sip6 p') (dip6 p') (dip p') (sip p') (dport p') (sport p') (len p') (time p') d
            (family p') (hashstring p')
       else if family p =? AF_INET6 then
         mk (dip6 p') (sip6 p') (sip p') (dip p') (dport p') (sport p') (len p') (time p') d
            (family p') (hashstring p')
       else p');;
  mret d.

Definition Sameinaddr (one other : Z) : bool := one =? other.
Definition Samein6addr (one other : in6_addr) : bool :=
  bool_decide (in6_bytes one = in6_bytes other).

Definition GetLen (p : t) : Z := len p.

(** The direction the program decides for a packet. *)
Definition outgoing (devices : list CapDevice.t) (p : t) : bool :=
  match dir p with
  | Outgoing => true
  | Incoming => false
  | Unknown => if family p =? AF_INET then has_addr4 devices (sip p) else has_addr6 devices (sip6 p)
  end.

Definition settled (devices : list CapDevice.t) (p : t) : t :=
  set_dir (if outgoing devices p then Outgoing else Incoming) p.

Section lemmas.
Context `{Ntop6}.

Lemma set_dir_id p : set_dir (dir p) p = p.
Proof. by destruct p. Qed.

Lemma IsOutgoing_spec devices p t0 :
  devices_ok devices ->
  IsOutgoing devices p t0 = Done (outgoing devices p, settled devices p, t0).
Proof.
  intros Hok. unfold IsOutgoing, settled, outgoing.
  destruct (dir p) eqn:Hdir; cbv [mbind M_bind get]; rewrite Hdir.
  - destruct (family p =? AF_INET).
    + rewrite Contains4_spec by done. by destruct (has_addr4 _ _).
    + rewrite Contains6_spec by done. by destruct (has_addr6 _ _).
  - by rewrite <- Hdir, set_dir_id.
  - by rewrite <- Hdir, set_dir_id.
Qed.

(** The key [Hash] computes: the device's side first. *)
Definition key_of (devices : list CapDevice.t) (p : t) : string :=
  if outgoing devices p then conn_key (source_text p) (sport p) (dest_text p) (dport p)
  else conn_key (dest_text p) (dport p) (source_text p) (sport p).

Lemma Hash_spec devices p t0 :
  devices_ok devices ->
  Hash devices p t0 =
    if decide (hashstring p = "") then
      Done (key_of devices p, set_hashstring (key_of devices p) (settled devices p), t0)
    else Done (hashstring p, p, t0).
Proof.
  intros Hok. unfold Hash. cbv [mbind M_bind get]. destruct (decide _); [|done].
  rewrite IsOutgoing_spec by done. unfold key_of, conn_key.
  by destruct (outgoing devices p).
Qed.

Lemma Init4_spec devices isip isport idip idport ilen itime idir t0 :
  devices_ok devices ->
  let p := mk in6_zero in6_zero isip idip isport idport ilen itime idir AF_INET "" in
  Init4 devices isip isport idip idport ilen itime idir new t0 =
    Done (0, set_hashstring (key_of devices p) (settled devices p), t0).
Proof.
  intros Hok p. unfold Init4. cbv [mbind M_bind get put].
  rewrite Hash_spec by done. rewrite decide_True by done. done.
Qed.

Lemma Init6_spec devices isip isport idip idport ilen itime idir t0 :
  devices_ok devices ->
  let p := mk isip idip 0 0 isport idport ilen itime idir AF_INET6 "" in
  Init6 devices isip isport idip idport ilen itime idir new t0 =
    Done (0, set_hashstring (key_of devices p) (settled devices p), t0).
Proof.
  intros Hok p. unfold Init6. cbv [mbind M_bind get put].
  rewrite Hash_spec by done. rewrite decide_True by done. done.
Qed.

Lemma source_text_v4 p : family p = AF_INET -> source_text p = ntop4 (sip p).
Proof.
  intros E. unfold source_text. rewrite E. simpl. apply inet_ntop_fits.
  pose proof (ntop4_length (sip p)). lia.
Qed.

Lemma dest_text_v4 p : family p = AF_INET -> dest_text p = ntop4 (dip p).
Proof.
  intros E. unfold dest_text. rewrite E. simpl. apply inet_ntop_fits.
  pose proof (ntop4_length (dip p)). lia.
Qed.

Lemma source_text_v6 `{!Ntop6Ok} p : family p = AF_INET6 -> source_text p = ntop6 (sip6 p).
Proof.
  intros E. unfold source_text. rewrite E. simpl. apply inet_ntop_fits.
  pose proof (ntop6_length (sip6 p)). lia.
Qed.

Lemma dest_text_v6 `{!Ntop6Ok} p : family p = AF_INET6 -> dest_text p = ntop6 (dip6 p).
Proof.
  intros E. unfold dest_text. rewrite E. simpl. apply inet_ntop_fits.
  pose proof (ntop6_length (dip6 p)). lia.
Qed.
End lemmas.
End CapPacket.

(** ** The key determines the connection *)

(** The last colon separates the port. *)
Lemma last_colon_inj a a' p p' :
  str_forall (is_digit 10) p = true -> str_forall (is_digit 10) p' = true ->
  a +:+ String ":" p = a' +:+ String ":" p' -> a = a' /\ p = p'.
Proof.
  intros Hp Hp'.
  assert (forall b q r, str_forall (is_digit 10) q = true -> q <> b +:+ String ":" r) as Hno.
  { intros b q r Hq ->. rewrite str_forall_app in Hq. simpl in Hq.
    by rewrite andb_false_r in Hq. }
  revert a'. induction a as [|x a IH]; intros [|y a']; simpl; intros Heq.
  - by injection Heq.
  - injection Heq as _ Heq. by apply Hno in Heq.
  - injection Heq as _ Heq. symmetry in Heq. by apply Hno in Heq.
  - injection Heq as -> Heq. by destruct (IH a' Heq) as [-> ->].
Qed.

Lemma presentation_colon_digits a n :
  str_forall presentation_char a = true -> 0 <= n ->
  str_forall presentation_char (a +:+ String ":" (to_string n)) = true.
Proof.
  intros Ha Hn. rewrite str_forall_app, Ha. simpl.
  by apply presentation_digits, to_string_digits.
Qed.

Lemma conn_key_inj a ap b bp a' ap' b' bp' :
  str_forall presentation_char a = true -> str_forall presentation_char a' = true ->
  str_forall presentation_char b = true -> str_forall presentation_char b' = true ->
  0 <= ap -> 0 <= ap' -> 0 <= bp -> 0 <= bp' ->
  conn_key a ap b bp = conn_key a' ap' b' bp' -> a = a' /\ ap = ap' /\ b = b' /\ bp = bp'.
Proof.
  intros Ha Ha' Hb Hb' ???? Heq. unfold conn_key in Heq. simpl in Heq.
  destruct (str_split_inj presentation_char (a +:+ String ":" (to_string ap))
    (a' +:+ String ":" (to_string ap')) (String "-" (b +:+ String ":" (to_string bp)))
    (String "-" (b' +:+ String ":" (to_string bp')))) as [E1 E2]; auto using presentation_colon_digits.
  { by rewrite !str_app_assoc. }
  injection E2 as E2.
  apply last_colon_inj in E1 as [-> E1], E2 as [-> E2]; auto using to_string_digits.
  apply to_string_inj in E1, E2; auto.
Qed.

(** ** Properties *)

(** A device with one IPv4 address, for the concrete instances. *)
Definition device4 (a : Z) : CapDevice.t :=
  CapDevice.mk "eth0" (IFF_UP + IFF_RUNNING)
    (Some (LocalAddr.mk a in6_zero AF_INET (inet_ntop (ntop4 a) 15 "") "")).

(** The two ends of a packet, in either family. *)
Inductive ends := Ends4 (src dst : Z) | Ends6 (src dst : in6_addr).

Definition swap_ends (e : ends) : ends :=
  match e with Ends4 src dst => Ends4 dst src | Ends6 src dst => Ends6 dst src end.

Definition ends_ok (e : ends) : Prop :=
  match e with
  | Ends4 src dst => word32 src /\ word32 dst
  | Ends6 src dst => in6_ok src /\ in6_ok dst
  end.

(** Whether the source is an address of a device. *)
Definition from_device (devices : list CapDevice.t) (e : ends) : bool :=
  match e with Ends4 src _ => has_addr4 devices src | Ends6 src _ => has_addr6 devices src end.

Definition src_text `{Ntop6} (e : ends) : string :=
  match e with Ends4 src _ => ntop4 src | Ends6 src _ => ntop6 src end.
Definition dst_text `{Ntop6} (e : ends) : string :=
  match e with Ends4 _ dst => ntop4 dst | Ends6 _ dst => ntop6 dst end.

(** The constructor of the packet's family. *)
Definition init_packet `{Ntop6} (devices : list CapDevice.t) (e : ends) (sport dport len : Z)
    (time : Z * Z) : M CapPacket.t Z :=
  match e with
  | Ends4 src dst => CapPacket.Init4 devices src sport dst dport len time Unknown
  | Ends6 src dst => CapPacket.Init6 devices src sport dst dport len time Unknown
  end.

Lemma init_packet_spec `{Ntop6Ok} devices e sp dp l ti t :
  devices_ok devices ->
  exists p, init_packet devices e sp dp l ti CapPacket.new t = Done (0, p, t) /\
    CapPacket.dir p = (if from_device devices e then Outgoing else Incoming) /\
    CapPacket.hashstring p = (if from_device devices e then conn_key (src_text e) sp (dst_text e) dp
                              else conn_key (dst_text e) dp (src_text e) sp).
Proof.
  intros Hok. destruct e; simpl; rewrite ?CapPacket.Init4_spec, ?CapPacket.Init6_spec by done;
    (eexists; split; [done|]);
    unfold CapPacket.settled, CapPacket.key_of, CapPacket.outgoing; simpl;
    rewrite ?CapPacket.source_text_v4, ?CapPacket.dest_text_v4, ?CapPacket.source_text_v6,
      ?CapPacket.dest_text_v6 by done; [destruct (has_addr4 _ _)|destruct (has_addr6 _ _)]; done.
Qed.

(** The texts of two ends of packets determine them: an IPv6 text has a colon,
    an IPv4 text none. *)
Lemma src_text_chars `{Ntop6Ok} e :
  str_forall presentation_char (src_text e) = true /\ str_forall presentation_char (dst_text e) = true.
Proof. destruct e; split; simpl; first [apply ntop4_chars | apply ntop6_chars]. Qed.

Lemma ends_text_inj `{Ntop6Ok} e e' :
  ends_ok e -> ends_ok e' -> src_text e = src_text e' -> dst_text e = dst_text e' -> e = e'.
Proof.
  assert (forall a b, ntop4 a <> ntop6 b) as Hne.
  { intros a b Heq. apply (ntop6_colon b). rewrite <- Heq. apply ntop4_no_colon. }
  destruct e, e'; simpl; intros [? ?] [? ?] Hs Hd;
    try (exfalso; eapply Hne; (exact Hs || (symmetry; exact Hs))).
  - apply ntop4_inj in Hs, Hd; congruence.
  - apply ntop6_inj in Hs, Hd; congruence.
Qed.

Lemma swap_ends_text `{Ntop6} e :
  src_text (swap_ends e) = dst_text e /\ dst_text (swap_ends e) = src_text e.
Proof. by destruct e. Qed.

Lemma swap_ends_ok e : ends_ok e -> ends_ok (swap_ends e).
Proof. destruct e; by intros []. Qed.

(** C27: the two directions of a connection between a device's address and a
    foreign one get the same key, the device's endpoint first, and the direction
    each packet is given is the one it travels in, in both families. *)
Theorem Hash_both_directions `{Ntop6Ok} devices e sp dp l1 l2 t1 t2 t :
  devices_ok devices -> from_device devices e = true -> from_device devices (swap_ends e) = false ->
  exists p q,
    init_packet devices e sp dp l1 t1 CapPacket.new t = Done (0, p, t) /\
    init_packet devices (swap_ends e) dp sp l2 t2 CapPacket.new t = Done (0, q, t) /\
    CapPacket.dir p = Outgoing /\ CapPacket.dir q = Incoming /\
    CapPacket.hashstring p = conn_key (src_text e) sp (dst_text e) dp /\
    CapPacket.hashstring q = CapPacket.hashstring p.
Proof.
  intros Hok Ha Hb.
  destruct (init_packet_spec devices e sp dp l1 t1 t Hok) as (p & Hp & Hdp & Hkp).
  destruct (init_packet_spec devices (swap_ends e) dp sp l2 t2 t Hok) as (q & Hq & Hdq & Hkq).
  rewrite Ha in Hdp, Hkp. rewrite Hb in Hdq, Hkq. destruct (swap_ends_text e) as [E1 E2].
  exists p, q. rewrite Hkq, Hkp, E1, E2. by do 5 (split; [done|]).
Qed.

Definition device6 (a : in6_addr) : CapDevice.t :=
  CapDevice.mk "eth0" (IFF_UP + IFF_RUNNING)
    (Some (LocalAddr.mk 0 a AF_INET6 "" (inet_ntop (full_text a) 45 ""))).

Lemma Hash_both_directions_witness :
  let a := mk_in6 32 0 0 16777216 in let b := mk_in6 32 0 0 33554432 in
  exists p q,
    @CapPacket.Init6 full_ntop6 [device6 a] a 80 b 5000 60 (0, 0) Unknown
      CapPacket.new 0%nat = Done (0, p, 0%nat) /\
    @CapPacket.Init6 full_ntop6 [device6 a] b 5000 a 80 90 (1, 0) Unknown
      CapPacket.new 0%nat = Done (0, q, 0%nat) /\
    CapPacket.dir p = Outgoing /\ CapPacket.dir q = Incoming /\
    CapPacket.hashstring p = conn_key (full_text a) 80 (full_text b) 5000 /\
    CapPacket.hashstring q = CapPacket.hashstring p.
Proof.
  intros a b.
  apply (@Hash_both_directions full_ntop6 full_ntop6_ok [device6 a] (Ends6 a b));
    [repeat constructor; by eexists | reflexivity | reflexivity].
Defined.

(** The ends of a packet, the device's side first. *)
Definition oriented (devices : list CapDevice.t) (e : ends) (sp dp : Z) : ends * Z * Z :=
  if from_device devices e then (e, sp, dp) else (swap_ends e, dp, sp).

Lemma oriented_key `{Ntop6Ok} devices e sp dp l ti t p :
  devices_ok devices -> ends_ok e -> 0 <= sp < 65536 -> 0 <= dp < 65536 ->
  init_packet devices e sp dp l ti CapPacket.new t = Done (0, p, t) ->
  exists e1 p1 p2, oriented devices e sp dp = (e1, p1, p2) /\ ends_ok e1 /\ 0 <= p1 /\ 0 <= p2 /\
    CapPacket.hashstring p = conn_key (src_text e1) p1 (dst_text e1) p2.
Proof.
  intros Hok He ?? Hp.
  destruct (init_packet_spec devices e sp dp l ti t Hok) as (p1 & Hp1 & _ & Hk).
  rewrite Hp1 in Hp. injection Hp as ->. rewrite Hk. unfold oriented.
  destruct (swap_ends_text e) as [E1 E2].
  destruct (from_device devices e); eexists _, _, _; (split; [done|]).
  - auto with lia.
  - rewrite E1, E2. split; [by apply swap_ends_ok|]. auto with lia.
Qed.

(** C28: two packets get the same key only when they belong to the same
    connection: their families and their endpoints agree, the device's side
    first. *)
Theorem Hash_identifies_connection `{Ntop6Ok} devices e sp dp e' sp' dp' l l' ti ti' t p q :
  devices_ok devices -> ends_ok e -> ends_ok e' ->
  0 <= sp < 65536 -> 0 <= dp < 65536 -> 0 <= sp' < 65536 -> 0 <= dp' < 65536 ->
  init_packet devices e sp dp l ti CapPacket.new t = Done (0, p, t) ->
  init_packet devices e' sp' dp' l' ti' CapPacket.new t = Done (0, q, t) ->
  CapPacket.hashstring p = CapPacket.hashstring q ->
  oriented devices e sp dp = oriented devices e' sp' dp'.
Proof.
  intros Hok He He' ???? Hp Hq Heq.
  destruct (oriented_key devices e sp dp l ti t p) as (e1 & a1 & a2 & -> & Ho1 & ? & ? & Hk); [done..|].
  destruct (oriented_key devices e' sp' dp' l' ti' t q) as (e2 & b1 & b2 & -> & Ho2 & ? & ? & Hk'); [done..|].
  rewrite Hk, Hk' in Heq. destruct (src_text_chars e1), (src_text_chars e2).
  apply conn_key_inj in Heq as (E1 & -> & E2 & ->); auto.
  by rewrite (ends_text_inj e1 e2).
Qed.

Lemma Hash_identifies_connection_witness :
  oriented [device4 16777343] (Ends4 16777343 33554442) 80 5000 =
  oriented [device4 16777343] (Ends4 33554442 16777343) 5000 80.
Proof.
  eapply (@Hash_identifies_connection full_ntop6 full_ntop6_ok [device4 16777343]
            (Ends4 16777343 33554442) 80 5000 (Ends4 33554442 16777343) 5000 80
            60 60 (0, 0) (0, 0) 0%nat);
    [repeat constructor; by eexists | split; split; lia | split; split; lia | lia | lia | lia | lia
    | reflexivity | reflexivity | reflexivity].
Defined.

(** Inverting a packet twice restores it, its direction included, whatever
    its family. *)
Theorem Invert_involutive p t :
  (CapPacket.Invert ;; CapPacket.Invert) p t = Done (CapPacket.dir p, p, t).
Proof.
  unfold CapPacket.Invert, mbind, M_bind, get, put, mret, M_ret.
  destruct p as [s6 d6 s d sp dp l ti di fam h]. simpl.
  destruct (fam =? AF_INET) eqn:E4; simpl; [rewrite E4; by destruct di|].
  destruct (fam =? AF_INET6) eqn:E6; simpl; rewrite E4, E6; by destruct di.
Qed.

(** The direction of a packet is decided once: after the first [IsOutgoing]
    every later call gives the same answer and changes nothing, even when the
    list of devices is another one. *)
Theorem IsOutgoing_settles `{Ntop6} devices devices' p t :
  devices_ok devices ->
  exists b p', CapPacket.IsOutgoing devices p t = Done (b, p', t) /\
    CapPacket.IsOutgoing devices' p' t = Done (b, p', t) /\
    CapPacket.dir p' = (if b then Outgoing else Incoming).
Proof.
  intros Hok. rewrite CapPacket.IsOutgoing_spec by done.
  exists (CapPacket.outgoing devices p), (CapPacket.settled devices p).
  unfold CapPacket.settled. by destruct (CapPacket.outgoing devices p).
Qed.

Lemma IsOutgoing_settles_witness :
  exists b p', CapPacket.IsOutgoing [device4 16777343] (CapPacket.set_dir Unknown CapPacket.new) 0%nat
      = Done (b, p', 0%nat) /\
    CapPacket.IsOutgoing [] p' 0%nat = Done (b, p', 0%nat) /\
    CapPacket.dir p' = (if b then Outgoing else Incoming).
Proof.
  apply (@IsOutgoing_settles full_ntop6 [device4 16777343] []).
  repeat constructor; by eexists.
Defined.

(** [Invert] does not clear the cached key: a packet that was hashed once
    keeps the key of its original orientation for good. *)
Theorem Invert_keeps_stale_key `{Ntop6} devices p t :
  CapPacket.hashstring p <> "" ->
  (CapPacket.Invert ;; CapPacket.Hash devices) p t =
    Done (CapPacket.hashstring p,
          match CapPacket.Invert p t with Done (_, p', _) => p' | _ => p end, t).
Proof.
  intros Hh. unfold CapPacket.Invert, CapPacket.Hash, mbind, M_bind, get, put, mret, M_ret.
  destruct p as [s6 d6 s d sp dp l ti di fam h]. simpl in *.
  destruct (fam =? AF_INET), (fam =? AF_INET6); simpl; by rewrite decide_False.
Qed.

Lemma Invert_keeps_stale_key_witness :
  (CapPacket.Invert ;; @CapPacket.Hash full_ntop6 []) (CapPacket.set_hashstring "k" CapPacket.new) 0%nat
  = Done ("k", CapPacket.set_hashstring "k" CapPacket.new, 0%nat).
Proof. apply (@Invert_keeps_stale_key full_ntop6 []). discriminate. Defined.
