(* ===== verification/Inode.v ===== *)
(** [cap_inode_helper.h] and [cap_inode_helper.cpp]: the two maps that lead
    from a packet's key to the socket inode (rows of [/proc/net/*]) and from
    the inode to the process that holds it (links of [/proc/<pid>/fd]). *)

From S2P Require Import Prelude Cstring Inet Stream Scanf Pod Device Packet.

(** The format of a row of [/proc/net/tcp] and its siblings. *)
Definition proc_net_fmt : string :=
  "%*d: %64[0-9A-Fa-f]:%X %64[0-9A-Fa-f]:%X %*X " +:+
  "%*X:%*X %*X:%*X %*X %*d %*d %ld %*512s" +:+ String NEWLINE "".

(** [sprintf(dirname, "/proc/%d/fd", pid)]. *)
Definition proc_path (pid : Z) (file : string) : string :=
  "/proc/" +:+ to_string pid +:+ "/" +:+ file.

Module CapInodeHelper.
Record t := mk {
  netToInodes : gmap string Z;
  inodeToPids : gmap Z Z
}.

Definition new : t := mk ∅ ∅.

(** [netToInodes[hash] = inode] and [inodeToPids[inode] = pid]. *)
Definition add_net (hash : string) (inode : Z) (h : t) : t :=
  mk (<[hash := u32 inode]> (netToInodes h)) (inodeToPids h).
Definition add_pid (inode pid : Z) (h : t) : t :=
  mk (netToInodes h) (<[inode := pid]> (inodeToPids h)).

Section ops.
Context `{Ntop6}.
Context (devices : list CapDevice.t).

(** The four words of [sscanf(s, "%08X%08X%08X%08X", ...)]. *)
Definition scan_in6 (s : string) : in6_addr :=
  let '(_, vs) := sscanf s "%08X%08X%08X%08X" in
  mk_in6 (arg_int 0 0 vs) (arg_int 1 0 vs) (arg_int 2 0 vs) (arg_int 3 0 vs).

(** The address of [sscanf(s, "%X", (unsigned int * )&ret)], the other words
    zero. *)
Definition scan_in4 (s : string) : in6_addr :=
  let '(_, vs) := sscanf s "%X" in mk_in6 (arg_int 0 0 vs) 0 0 0.

(** The family and the two addresses of a row. *)
Definition row_addresses (locAddr remAddr : string) : Z * in6_addr * in6_addr :=
  if (8 <? String.length locAddr)%nat then
    let localIn := scan_in6 locAddr in
    let remoteIn := scan_in6 remAddr in
    if (w0 localIn =? 0) && (w1 localIn =? 0) && (w2 localIn =? 0xFFFF0000)
    then (AF_INET, mk_in6 (w3 localIn) 0 0 0, mk_in6 (w3 remoteIn) 0 0 0)
    else (AF_INET6, localIn, remoteIn)
  else (AF_INET, scan_in4 locAddr, scan_in4 remAddr).

(** [inet_ntop(family, &addr, buf, 49)] into a zeroed [char[50]]. *)
Definition row_text (family : Z) (addr : in6_addr) : string :=
  if family =? AF_INET then inet_ntop (ntop4 (w0 addr)) 49 "" else inet_ntop (ntop6 addr) 49 "".

Definition ParseBuffer (buffer : string) : M t () :=
  let '(matches, vs) := sscanf buffer proc_net_fmt in
  let locAddr := arg_str 0 "" vs in
  let locPort := i32 (arg_int 1 0 vs) in
  let remAddr := arg_str 2 "" vs in
  let remPort := i32 (arg_int 3 0 vs) in
  let inode := u64 (arg_int 4 0 vs) in
  if negb (matches =? 5) then mret ()
  else if inode =? 0 then mret ()
  else
    let '(family, localRet, remoteRet) := row_addresses locAddr remAddr in
    let local := row_text family localRet in
    let remote := row_text family remoteRet in
    modify (add_net (local +:+ ":" +:+ to_string locPort +:+ "-" +:+
                     remote +:+ to_string remPort) inode);;
    for_each devices (fun d =>
      modify (add_net (CapDevice.GetLocalAddr d +:+ ":" +:+ to_string locPort +:+ "-" +:+
                       remote +:+ ":" +:+ to_string remPort) inode)).

Context `{Env}.

Definition Parse (file : string) : M t Z :=
  s ← sys (fun os => os_file os file);
  match s with
  | None => mret CAP_PROCESS_OPEN
  | Some content => read_lines content (fun buffer => ParseBuffer buffer;; mret false);; mret 0
  end.

Definition RefreshToInodes : M t Z :=
  ret ← Parse "/proc/net/tcp";
  if negb (ret =? 0) then mret ret else
  ret ← Parse "/proc/net/tcp6";
  if negb (ret =? 0) then mret ret else
  ret ← Parse "/proc/net/udp";
  if negb (ret =? 0) then mret ret else
  ret ← Parse "/proc/net/udp6";
  if negb (ret =? 0) then mret ret else
  mret ret.

(** One entry of a descriptor directory: [linkname] holds at most 79 bytes of
    the link. *)
Definition scan_fd (pid : Z) (dirname : string) (entry : dirent) : M t () :=
  match d_kind entry with
  | DT_LNK =>
      link ← sys (fun os => os_readlink os (dirname +:+ "/" +:+ d_name entry));
      match link with
      | None => mret ()
      | Some target =>
          let linkname := str_take 79 target in
          let '(n, vs) := sscanf linkname "socket:[ %d]" in
          let inode := u32 (arg_int 0 0 vs) in
          if negb (n =? 0) then modify (add_pid inode pid) else mret ()
      end
  | _ => mret ()
  end.

Fixpoint RefreshToPids (pids : list Z) : M t Z :=
  match pids with
  | [] => mret 0
  | pid :: pids =>
      let dirname := proc_path pid "fd" in
      dir ← sys (fun os => os_opendir os dirname);
      match dir with
      | None => mret CAP_PROCESS_OPEN_DIR
      | Some entries => for_each entries (scan_fd pid dirname);; RefreshToPids pids
      end
  end.

Definition Refresh (pids : list Z) : M t Z :=
  put new;;
  ret ← RefreshToInodes;
  if negb (ret =? 0) then mret ret else RefreshToPids pids.
End ops.

(** [GetPidByIp(hash, pid)]: the code, and [pid] after the call. *)
Definition GetPidByIp (h : t) (hash : string) (pid : Z) : Z * Z :=
  match netToInodes h !! hash with
  | None => (CAP_FIND_IP, pid)
  | Some inode =>
      match inodeToPids h !! inode with
      | None => (CAP_FIND_INODE, pid)
      | Some p => (0, p)
      end
  end.
End CapInodeHelper.

(** ** A row as the kernel prints it *)

(** The columns of a row; [r_la] and [r_ra] are the two addresses as
    hexadecimal text, [pad_*] the blanks the [%4d], [%5u] and [%8d] of the
    kernel put before a number. *)
Record net_row := mk_row {
  pad_sl : string; r_sl : Z;
  r_la : string; r_lport : Z;
  r_ra : string; r_rport : Z;
  r_st : Z; r_txq : Z; r_rxq : Z; r_tr : Z; r_when : Z; r_retr : Z;
  pad_uid : string; r_uid : Z;
  pad_timeout : string; r_timeout : Z;
  r_inode : Z;
  r_tail : string
}.

Definition print_row (r : net_row) : string :=
  pad_sl r +:+ (to_string (r_sl r) +:+ String ":" (String " "
  (r_la r +:+ String ":" (hex_fixed 4 (r_lport r) +:+ String " "
  (r_ra r +:+ String ":" (hex_fixed 4 (r_rport r) +:+ String " "
  (hex_fixed 2 (r_st r) +:+ String " "
  (hex_fixed 8 (r_txq r) +:+ String ":" (hex_fixed 8 (r_rxq r) +:+ String " "
  (hex_fixed 2 (r_tr r) +:+ String ":" (hex_fixed 8 (r_when r) +:+ String " "
  (hex_fixed 8 (r_retr r) +:+ String " "
  (pad_uid r +:+ (to_string (r_uid r) +:+ String " "
  (pad_timeout r +:+ (to_string (r_timeout r) +:+ String " "
  (to_string (r_inode r) +:+ r_tail r))))))))))))))))).

Definition hex_text (s : string) : Prop :=
  s <> "" /\ str_forall (is_digit 16) s = true /\ (String.length s <= 64)%nat.

Definition blank (s : string) : Prop := str_forall is_space s = true.

(** The columns are in the ranges of the kernel's types. *)
Record row_ok (r : net_row) : Prop := {
  ok_sl : blank (pad_sl r) /\ 0 <= r_sl r;
  ok_la : hex_text (r_la r);
  ok_ra : hex_text (r_ra r);
  ok_lport : 0 <= r_lport r < 65536;
  ok_rport : 0 <= r_rport r < 65536;
  ok_st : 0 <= r_st r < 256;
  ok_txq : 0 <= r_txq r < 2 ^ 32;
  ok_rxq : 0 <= r_rxq r < 2 ^ 32;
  ok_tr : 0 <= r_tr r < 256;
  ok_when : 0 <= r_when r < 2 ^ 32;
  ok_retr : 0 <= r_retr r < 2 ^ 32;
  ok_uid : blank (pad_uid r) /\ 0 <= r_uid r;
  ok_timeout : blank (pad_timeout r) /\ 0 <= r_timeout r;
  ok_inode : 0 < r_inode r < 2 ^ 32;
  ok_tail : number_end (r_tail r) = true
}.

(** ** Reading a row back *)

Lemma hex_in_set c :
  is_digit 16 c = true -> in_set [("0"%char, "9"%char); ("A"%char, "F"%char); ("a"%char, "f"%char)] c = true.
Proof. by destruct c as [[] [] [] [] [] [] [] []]. Qed.

Lemma hex_text_not_nul s : str_forall (is_digit 16) s = true -> str_forall not_nul s = true.
Proof. apply str_forall_impl, digit_not_nul. Qed.

Lemma blank_not_nul s : blank s -> str_forall not_nul s = true.
Proof. apply str_forall_impl. by intros [[] [] [] [] [] [] [] []]. Qed.

Lemma number_end_c_str s : number_end s = true -> number_end (c_str s) = true.
Proof. destruct s as [|c s]; [done|]. simpl. by destruct (decide _). Qed.

Lemma c_str_hex w n s : c_str (hex_fixed w n +:+ s) = hex_fixed w n +:+ c_str s.
Proof. apply c_str_app, hex_text_not_nul, hex_fixed_digits. Qed.

Lemma c_str_dec n s : 0 <= n -> c_str (to_string n +:+ s) = to_string n +:+ c_str s.
Proof.
  intros Hn. apply c_str_app, hex_text_not_nul.
  eapply str_forall_impl, to_string_digits; [apply is_digit_10_16|done].
Qed.

Lemma c_str_cons c s : c <> NUL -> c_str (String c s) = String c (c_str s).
Proof. intros H. simpl. by rewrite decide_False. Qed.

Definition with_tail (r : net_row) (tail : string) : net_row :=
  mk_row (pad_sl r) (r_sl r) (r_la r) (r_lport r) (r_ra r) (r_rport r) (r_st r)
    (r_txq r) (r_rxq r) (r_tr r) (r_when r) (r_retr r) (pad_uid r) (r_uid r)
    (pad_timeout r) (r_timeout r) (r_inode r) tail.

Lemma with_tail_ok r tail : row_ok r -> number_end tail = true -> row_ok (with_tail r tail).
Proof. by intros [] Ht; constructor. Qed.

Lemma c_str_print_row r :
  row_ok r -> c_str (print_row r) = print_row (with_tail r (c_str (r_tail r))).
Proof.
  intros [[? ?] (_ & ? & _) (_ & ? & _) ? ? ? ? ? ? ? ? [? ?] [? ?] ? ?].
  unfold print_row, with_tail. cbn [pad_sl r_sl r_la r_lport r_ra r_rport r_st r_txq r_rxq r_tr
    r_when r_retr pad_uid r_uid pad_timeout r_timeout r_inode r_tail].
  repeat first [ rewrite c_str_hex | rewrite c_str_dec by lia | rewrite c_str_cons by done
               | rewrite c_str_app by auto using blank_not_nul, hex_text_not_nul ].
  done.
Qed.

(** The format, parsed. *)
Lemma proc_net_dirs :
  parse_fmt proc_net_fmt =
  let set := [("0"%char, "9"%char); ("A"%char, "F"%char); ("a"%char, "f"%char)] in
  let int := DConv true None false CInt in
  let hex := DConv true None false CHex in
  [int; DLit ":"; DSpace; DConv false (Some 64%nat) false (CSet set); DLit ":";
   DConv false None false CHex; DSpace;
   DConv false (Some 64%nat) false (CSet set); DLit ":"; DConv false None false CHex; DSpace;
   hex; DSpace; hex; DLit ":"; hex; DSpace; hex; DLit ":"; hex; DSpace; hex; DSpace;
   int; DSpace; int; DSpace; DConv false None true CInt; DSpace;
   DConv true (Some 512%nat) false CStr; DSpace].
Proof. vm_compute. reflexivity. Qed.

Lemma convert_set_hex s w c rest :
  hex_text s -> (64 <= w)%nat -> is_digit 16 c = false -> in_set
    [("0"%char, "9"%char); ("A"%char, "F"%char); ("a"%char, "f"%char)] c = false ->
  convert (CSet [("0"%char, "9"%char); ("A"%char, "F"%char); ("a"%char, "f"%char)]) false (Some w)
    (s +:+ String c rest) = CvOk (VStr s) (String c rest).
Proof.
  intros (Hne & Hhex & Hlen) Hw Hc Hset. unfold convert.
  assert (str_forall (in_set [("0"%char, "9"%char); ("A"%char, "F"%char); ("a"%char, "f"%char)]) s
    = true) as Hs by (eapply str_forall_impl, Hhex; apply hex_in_set).
  pose proof (scan_token_app _ (Some w) s (String c rest) Hne Hs) as Htok.
  destruct s as [|x s]; [done|]. apply Htok; [cbn [stops]; by rewrite Hset|lia].
Qed.

(** What follows the inode assigns nothing. *)
Lemma scans_tail w l c s :
  exists e, scans [DSpace; DConv true w l c; DSpace] s [] e.
Proof.
  unfold scans. simpl. destruct (convert c l w (skip_space s)) as [v rest| |]; eauto.
Qed.

Lemma skip_space_hex_text s t : hex_text s -> skip_space (s +:+ t) = s +:+ t.
Proof. intros (? & ? & _). by apply skip_space_digit. Qed.

(** A number is followed by a delimiter in the format and in the row. *)
Ltac row_step :=
  scan_step;
  try rewrite skip_space_hex_text by done; try rewrite skip_space_hex by lia;
  try rewrite skip_space_app by done; try rewrite skip_space_dec by lia.

Lemma scans_row r :
  row_ok r ->
  exists e, scans (parse_fmt proc_net_fmt) (print_row r)
    [VStr (r_la r); VInt (r_lport r); VStr (r_ra r); VInt (r_rport r); VInt (r_inode r)] e.
Proof.
  intros [[Hp1 ?] Hla Hra ? ? ? ? ? ? ? ? [Hp2 ?] [Hp3 ?] ? Ht].
  destruct (scans_tail (Some 512%nat) false CStr (r_tail r)) as [e He]. exists e.
  rewrite proc_net_dirs. unfold print_row. cbv zeta.
  eapply scans_skip; [apply (scan_int_dec _ (pad_sl r)); done|].
  do 2 row_step. row_step; [by apply convert_set_hex|]. row_step.
  row_step; [apply convert_hex; [lia|simpl; lia|done]|]. row_step.
  row_step; [by apply convert_set_hex|]. row_step.
  row_step; [apply convert_hex; [lia|simpl; lia|done]|].
  do 6 (row_step; (row_step; [apply convert_hex; [lia|simpl; lia|done]|])).
  do 2 (row_step; (row_step; [by apply convert_dec|])).
  row_step; row_step; [apply convert_dec_long; [lia|done]|]. done.
Qed.

(** The scanner reads the columns of a row back: five assignments, whatever
    follows the inode. *)
Lemma sscanf_row r :
  row_ok r ->
  sscanf (print_row r) proc_net_fmt =
    (5, [VStr (r_la r); VInt (r_lport r); VStr (r_ra r); VInt (r_rport r); VInt (r_inode r)]).
Proof.
  intros Hok. unfold sscanf. rewrite c_str_print_row by done.
  destruct (scans_row (with_tail r (c_str (r_tail r)))) as [e He].
  { apply with_tail_ok; [done|]. destruct Hok. by apply number_end_c_str. }
  unfold scans in He. by rewrite He.
Qed.

(** The [%X] readings of an address column. *)
Lemma scan_in4_hex a : 0 <= a < 2 ^ 32 -> CapInodeHelper.scan_in4 (hex_fixed 8 a) = mk_in6 a 0 0 0.
Proof.
  intros Ha. unfold CapInodeHelper.scan_in4.
  assert (scans (parse_fmt "%X") (c_str (hex_fixed 8 a)) [VInt a] ScanDone) as Hs.
  { rewrite <- (str_app_nil_r (hex_fixed 8 a)), c_str_hex.
    eapply scans_conv; [apply convert_hex; [lia|simpl; lia|done]|done]. }
  by rewrite (sscanf_scans _ _ _ _ _ eq_refl Hs).
Qed.

Definition in6_text (a : in6_addr) : string :=
  hex_fixed 8 (w0 a) +:+ (hex_fixed 8 (w1 a) +:+ (hex_fixed 8 (w2 a) +:+ hex_fixed 8 (w3 a))).

Lemma scan_in6_hex a : in6_ok a -> CapInodeHelper.scan_in6 (in6_text a) = a.
Proof.
  intros (?&?&?&?). unfold word32 in *. unfold CapInodeHelper.scan_in6.
  assert (scans (parse_fmt "%08X%08X%08X%08X") (c_str (in6_text a))
    [VInt (w0 a); VInt (w1 a); VInt (w2 a); VInt (w3 a)] ScanDone) as Hs.
  { unfold in6_text. rewrite <- (str_app_nil_r (hex_fixed 8 (w3 a))), !c_str_hex.
    do 4 (eapply scans_conv; [apply convert_hex_width; [lia|simpl; lia]|]). done. }
  rewrite (sscanf_scans _ _ _ _ _ eq_refl Hs). by destruct a.
Qed.

Lemma hex_text_in4 a : hex_text (hex_fixed 8 a).
Proof.
  split; [|split; [apply hex_fixed_digits|rewrite length_hex_fixed; lia]].
  intros H. apply (f_equal String.length) in H. by rewrite length_hex_fixed in H.
Qed.

Lemma length_in6_text a : String.length (in6_text a) = 32%nat.
Proof. unfold in6_text. by rewrite !str_length_app, !length_hex_fixed. Qed.

Lemma hex_text_in6 a : hex_text (in6_text a).
Proof.
  split; [|split; [|rewrite length_in6_text; lia]].
  - intros H. apply (f_equal String.length) in H. by rewrite length_in6_text in H.
  - unfold in6_text. by rewrite !str_forall_app, !hex_fixed_digits.
Qed.

(** ** The net effect of a line, of a file, of a refresh *)

Section spec.
Context `{Ntop6}.

(** The keys a line contributes, and the inode they lead to. *)
Definition line_entry (devices : list CapDevice.t) (buffer : string) : option (list string * Z) :=
  let '(matches, vs) := sscanf buffer proc_net_fmt in
  let lport := to_string (i32 (arg_int 1 0 vs)) in
  let rport := to_string (i32 (arg_int 3 0 vs)) in
  let inode := u64 (arg_int 4 0 vs) in
  if negb (matches =? 5) || (inode =? 0) then None
  else
    let '(family, l, r) := CapInodeHelper.row_addresses (arg_str 0 "" vs) (arg_str 2 "" vs) in
    let local := CapInodeHelper.row_text family l in
    let remote := CapInodeHelper.row_text family r in
    Some ((local +:+ ":" +:+ lport +:+ "-" +:+ remote +:+ rport) ::
          map (fun d => CapDevice.GetLocalAddr d +:+ ":" +:+ lport +:+ "-" +:+ remote +:+ ":" +:+ rport)
              devices, inode).

Definition add_keys (ks : list string) (inode : Z) (m : gmap string Z) : gmap string Z :=
  fold_left (fun m k => <[k := u32 inode]> m) ks m.

Definition line_net (devices : list CapDevice.t) (m : gmap string Z) (buffer : string) : gmap string Z :=
  match line_entry devices buffer with
  | None => m
  | Some (ks, inode) => add_keys ks inode m
  end.

Lemma lookup_add_keys ks i m k :
  add_keys ks i m !! k = if decide (k ∈ ks) then Some (u32 i) else m !! k.
Proof.
  revert m. induction ks as [|k' ks IH]; intros m; [done|].
  change (add_keys (k' :: ks) i m) with (add_keys ks i (<[k' := u32 i]> m)).
  rewrite IH. destruct (decide (k ∈ ks)) as [Hin|Hin].
  - rewrite decide_True by (by right). done.
  - destruct (decide (k = k')) as [->|Hne].
    + by rewrite lookup_insert_eq, decide_True by left.
    + rewrite lookup_insert_ne by done. rewrite decide_False; [done|].
      intros [?|?]%elem_of_cons; done.
Qed.

Lemma for_each_modify {S A} (l : list A) (f : A -> S -> S) s t :
  for_each l (fun x => modify (f x)) s t = Done ((), fold_left (fun s x => f x s) l s, t).
Proof. revert s. induction l as [|x l IH]; intros s; [done|]. apply IH. Qed.

Lemma ParseBuffer_spec devices buffer h t :
  CapInodeHelper.ParseBuffer devices buffer h t =
    Done ((), CapInodeHelper.mk (line_net devices (CapInodeHelper.netToInodes h) buffer)
                (CapInodeHelper.inodeToPids h), t).
Proof.
  unfold CapInodeHelper.ParseBuffer, line_net, line_entry.
  destruct (sscanf buffer proc_net_fmt) as [n vs]. destruct h as [m ps].
  destruct (n =? 5); simpl; [|done]. destruct (u64 (arg_int 4 0 vs) =? 0); simpl; [done|].
  destruct (CapInodeHelper.row_addresses _ _) as [[fam l] r].
  erewrite bind_Done by reflexivity. rewrite for_each_modify.
  unfold CapInodeHelper.add_net at 2. cbn.
  match goal with |- context [CapInodeHelper.mk ?m0 ps] => generalize m0 end.
  induction devices as [|d devices IH]; intros m0; [done|]. apply IH.
Qed.

Definition file_net (devices : list CapDevice.t) (m : gmap string Z) (content : string) : gmap string Z :=
  fold_left (line_net devices) (text_lines (fst (lines_of content))) m.

(** A fold that only touches the first map. *)
Lemma fold_net (g : gmap string Z -> string -> gmap string Z) ls h :
  fold_left (fun h l => CapInodeHelper.mk (g (CapInodeHelper.netToInodes h) l)
                          (CapInodeHelper.inodeToPids h)) ls h =
  CapInodeHelper.mk (fold_left g ls (CapInodeHelper.netToInodes h))
    (CapInodeHelper.inodeToPids h).
Proof.
  destruct h as [m ps]. revert m. induction ls as [|x ls IH]; intros m; [done|].
  simpl in *. by rewrite IH.
Qed.

Context `{Env}.

Lemma Parse_spec devices file content h t :
  os_file (env_at t) file = Some content ->
  CapInodeHelper.Parse devices file h t =
    if snd (lines_of content) then Diverges
    else Done (0, CapInodeHelper.mk (file_net devices (CapInodeHelper.netToInodes h) content)
                    (CapInodeHelper.inodeToPids h), S t).
Proof.
  intros Hf. unfold CapInodeHelper.Parse, sys. cbv [mbind M_bind]. rewrite Hf.
  rewrite (read_lines_total (fun h l => CapInodeHelper.mk
    (line_net devices (CapInodeHelper.netToInodes h) l) (CapInodeHelper.inodeToPids h))).
  - destruct (snd (lines_of content)); [done|]. by rewrite (fold_net (line_net devices)).
  - apply Forall_forall. intros l _ s u. cbv [mbind M_bind]. by rewrite ParseBuffer_spec.
Qed.

Lemma Parse_missing devices file h t :
  os_file (env_at t) file = None ->
  CapInodeHelper.Parse devices file h t = Done (CAP_PROCESS_OPEN, h, S t).
Proof. intros Hf. unfold CapInodeHelper.Parse, sys. cbv [mbind M_bind]. by rewrite Hf. Qed.
End spec.

(** ** The files read line by line *)

Definition net_files : list string :=
  ["/proc/net/tcp"; "/proc/net/tcp6"; "/proc/net/udp"; "/proc/net/udp6"].

Definition line_file (file : string) : Prop :=
  file ∈ net_files \/ exists pid name, name ∈ ["status"; "io"; "stat"] /\ file = proc_path pid name.

(** Every line of them fits the buffer. *)
Definition line_files_ok (os : Os) : Prop :=
  forall file content, line_file file -> os_file os file = Some content ->
    snd (lines_of content) = false.

(** ** The refresh of the socket table *)

Section refresh.
Context `{Ntop6} `{Env}.

(** The lines [Parse] hands on, when the file opens and every line fits. *)
Definition file_lines (os : Os) (file : string) : option (list string) :=
  c ← os_file os file;
  if snd (lines_of c) then None else Some (text_lines (fst (lines_of c))).

Lemma Parse_lines devices file ls h t :
  file_lines (env_at t) file = Some ls ->
  CapInodeHelper.Parse devices file h t =
    Done (0, CapInodeHelper.mk (fold_left (line_net devices) ls (CapInodeHelper.netToInodes h))
               (CapInodeHelper.inodeToPids h), S t).
Proof.
  unfold file_lines. destruct (os_file (env_at t) file) as [c|] eqn:Hc; [|done]. simpl.
  intros Hls. rewrite (Parse_spec _ _ _ _ _ Hc). unfold file_net.
  destruct (snd (lines_of c)); [done|]. by injection Hls as <-.
Qed.

Lemma RefreshToInodes_spec devices h t l1 l2 l3 l4 :
  file_lines (env_at t) "/proc/net/tcp" = Some l1 ->
  file_lines (env_at (1 + t)) "/proc/net/tcp6" = Some l2 ->
  file_lines (env_at (2 + t)) "/proc/net/udp" = Some l3 ->
  file_lines (env_at (3 + t)) "/proc/net/udp6" = Some l4 ->
  CapInodeHelper.RefreshToInodes devices h t =
    Done (0, CapInodeHelper.mk
               (fold_left (line_net devices) (l1 ++ l2 ++ l3 ++ l4) (CapInodeHelper.netToInodes h))
               (CapInodeHelper.inodeToPids h), (4 + t)%nat).
Proof.
  intros H1 H2 H3 H4. unfold CapInodeHelper.RefreshToInodes.
  erewrite bind_Done by (by apply Parse_lines). 
  cbv beta; change (negb (0 =? 0)) with false; cbv iota.
  erewrite bind_Done by (by apply Parse_lines). 
  cbv beta; change (negb (0 =? 0)) with false; cbv iota.
  erewrite bind_Done by (by apply Parse_lines). 
  cbv beta; change (negb (0 =? 0)) with false; cbv iota.
  erewrite bind_Done by (by apply Parse_lines). 
  cbv beta; change (negb (0 =? 0)) with false; cbv iota.
  by rewrite !fold_left_app.
Qed.

(** What [Parse] may do, whatever the file. *)
Lemma Parse_wlp devices file h t :
  wlp (CapInodeHelper.Parse devices file)
    (fun ret h' _ => (ret = 0 \/ ret = CAP_PROCESS_OPEN) /\
       CapInodeHelper.inodeToPids h' = CapInodeHelper.inodeToPids h) h t.
Proof.
  apply wlp_intro. intros ret h' t'.
  destruct (os_file (env_at t) file) as [c|] eqn:Hc.
  - rewrite (Parse_spec _ _ _ _ _ Hc). destruct (snd (lines_of c)); [done|].
    intros [= <- <- _]. auto.
  - rewrite (Parse_missing _ _ _ _ Hc). intros [= <- <- _]. auto.
Qed.

Lemma RefreshToInodes_wlp devices h t :
  wlp (CapInodeHelper.RefreshToInodes devices)
    (fun ret h' _ => (ret = 0 \/ ret = CAP_PROCESS_OPEN) /\
       CapInodeHelper.inodeToPids h' = CapInodeHelper.inodeToPids h) h t.
Proof.
  unfold CapInodeHelper.RefreshToInodes.
  do 4 (apply wpx_or_return;
        [eapply wpx_mono; [apply Parse_wlp|]; intros ??? [??]; split; [done|congruence]|];
        intros ?? [_ ?]).
  apply wpx_ret. auto.
Qed.

(** ** The refresh of the process table *)

(** The inode a descriptor link names: any target but one that fails to match
    at its first characters stores something. *)
Definition socket_inode (target : string) : option Z :=
  let '(n, vs) := sscanf (str_take 79 target) "socket:[ %d]" in
  if negb (n =? 0) then Some (u32 (arg_int 0 0 vs)) else None.

Definition entry_inode (os : Os) (dirname : string) (e : dirent) : option Z :=
  match d_kind e with
  | DT_LNK => os_readlink os (dirname +:+ "/" +:+ d_name e) ≫= socket_inode
  | _ => None
  end.

Definition add_entry (os : Os) (pid : Z) (m : gmap Z Z) (e : dirent) : gmap Z Z :=
  match entry_inode os (proc_path pid "fd") e with
  | Some i => <[i := pid]> m
  | None => m
  end.

Lemma scan_fd_spec pid e h t :
  exists t', CapInodeHelper.scan_fd pid (proc_path pid "fd") e h t =
    Done ((), CapInodeHelper.mk (CapInodeHelper.netToInodes h)
                (add_entry (env_at t) pid (CapInodeHelper.inodeToPids h) e), t').
Proof.
  unfold CapInodeHelper.scan_fd, add_entry, entry_inode, sys. destruct h as [m ps].
  destruct (d_kind e); [by eexists| |by eexists]. cbv [mbind M_bind].
  destruct (os_readlink _ _) as [l|]; [|by eexists].
  unfold option_bind, socket_inode.
  destruct (sscanf _ _) as [n vs]. destruct (n =? 0); by eexists.
Qed.

(** The process of a new entry is the one whose directory is scanned. *)
Lemma scan_fds_wp pid es h t :
  wp (for_each es (CapInodeHelper.scan_fd pid (proc_path pid "fd")))
    (fun _ h' _ => CapInodeHelper.netToInodes h' = CapInodeHelper.netToInodes h /\
       forall i p, CapInodeHelper.inodeToPids h' !! i = Some p ->
         p = pid \/ CapInodeHelper.inodeToPids h !! i = Some p) h t.
Proof.
  eapply (wpx_for_each _ (fun h' => CapInodeHelper.netToInodes h' = CapInodeHelper.netToInodes h /\
    forall i p, CapInodeHelper.inodeToPids h' !! i = Some p ->
      p = pid \/ CapInodeHelper.inodeToPids h !! i = Some p)); [by auto|].
  intros e h' u _ [Hn Hp]. unfold wpx. destruct (scan_fd_spec pid e h' u) as [u' ->].
  split; [done|]. simpl. intros i p. unfold add_entry.
  destruct (entry_inode _ _ _) as [j|]; [|auto].
  rewrite lookup_insert. case_decide; [|auto]. intros [= ->]. auto.
Qed.

Lemma RefreshToPids_wp pids h t :
  wp (CapInodeHelper.RefreshToPids pids)
    (fun ret h' _ => (ret = 0 \/ ret = CAP_PROCESS_OPEN_DIR) /\
       CapInodeHelper.netToInodes h' = CapInodeHelper.netToInodes h /\
       forall i p, CapInodeHelper.inodeToPids h' !! i = Some p ->
         p ∈ pids \/ CapInodeHelper.inodeToPids h !! i = Some p) h t.
Proof.
  revert h t. induction pids as [|pid pids IH]; intros h t; [apply wpx_ret; auto|].
  simpl. apply wpx_bind, wpx_sys. destruct (os_opendir _ _) as [es|]; [|apply wpx_ret; auto].
  apply wpx_bind. eapply wpx_mono; [apply scan_fds_wp|]. intros [] h' t' [Hn Hp].
  eapply wpx_mono; [apply IH|]. intros ret h'' t'' (Hr & Hn' & Hp').
  split; [done|]. split; [congruence|]. intros i p Hi.
  destruct (Hp' i p Hi) as [?|[->|?]%Hp]; [left; by right|left; by left|by right].
Qed.

(** In a system that does not change during the refresh. *)
Definition steady (os : Os) : Prop := forall t, env_at t = os.

Lemma scan_fds_steady os pid es h t :
  steady os ->
  exists t', for_each es (CapInodeHelper.scan_fd pid (proc_path pid "fd")) h t =
    Done ((), CapInodeHelper.mk (CapInodeHelper.netToInodes h)
                (fold_left (add_entry os pid) es (CapInodeHelper.inodeToPids h)), t').
Proof.
  intros Hos. revert h t. induction es as [|e es IH]; intros h t.
  - exists t. by destruct h.
  - simpl. destruct (scan_fd_spec pid e h t) as [u Hu]. rewrite Hos in Hu.
    destruct (IH (CapInodeHelper.mk (CapInodeHelper.netToInodes h)
      (add_entry os pid (CapInodeHelper.inodeToPids h) e)) u) as [v Hv].
    exists v. erewrite bind_Done by apply Hu. apply Hv.
Qed.

Definition add_process (os : Os) (m : gmap Z Z) (pid : Z) : gmap Z Z :=
  fold_left (add_entry os pid) (default [] (os_opendir os (proc_path pid "fd"))) m.

Lemma RefreshToPids_steady os pids h t :
  steady os ->
  Forall (fun pid => is_Some (os_opendir os (proc_path pid "fd"))) pids ->
  exists t', CapInodeHelper.RefreshToPids pids h t =
    Done (0, CapInodeHelper.mk (CapInodeHelper.netToInodes h)
               (fold_left (add_process os) pids (CapInodeHelper.inodeToPids h)), t').
Proof.
  intros Hos Hdirs. revert h t. induction Hdirs as [|pid pids [es Hes] _ IH]; intros h t.
  - exists t. by destruct h.
  - simpl. unfold sys. cbv [mbind M_bind]. rewrite Hos, Hes.
    destruct (scan_fds_steady os pid es h (S t) Hos) as [u Hu]. rewrite Hu.
    destruct (IH (CapInodeHelper.mk (CapInodeHelper.netToInodes h)
      (fold_left (add_entry os pid) es (CapInodeHelper.inodeToPids h))) u) as [v Hv].
    exists v. rewrite Hv.
    assert (add_process os (CapInodeHelper.inodeToPids h) pid =
      fold_left (add_entry os pid) es (CapInodeHelper.inodeToPids h)) as ->; [|done].
    unfold add_process. by rewrite Hes.
Qed.

(** The process holds a descriptor on the socket. *)
Definition owns (os : Os) (pid inode : Z) : Prop :=
  exists e, e ∈ default [] (os_opendir os (proc_path pid "fd")) /\
    entry_inode os (proc_path pid "fd") e = Some inode.

Lemma lookup_add_process os m pid i :
  (owns os pid i -> add_process os m pid !! i = Some pid) /\
  (~ owns os pid i -> add_process os m pid !! i = m !! i).
Proof.
  unfold owns, add_process. generalize (default [] (os_opendir os (proc_path pid "fd"))) as es.
  intros es. revert m. induction es as [|e es IH] using rev_ind; intros m.
  - split; [|done]. by intros (e & ?%elem_of_nil & _).
  - rewrite fold_left_app. simpl. unfold add_entry at 1 3.
    destruct (IH m) as [IH1 IH2].
    destruct (entry_inode os (proc_path pid "fd") e) as [j|] eqn:E.
    + rewrite lookup_insert. case_decide as Hj.
      * subst j. split; [done|]. intros Hno. exfalso. apply Hno. exists e. set_solver.
      * split.
        -- intros (e' & [?| ->%list_elem_of_singleton]%elem_of_app & He'); [eauto|congruence].
        -- intros Hno. apply IH2. intros (e' & ? & ?). apply Hno. exists e'. set_solver.
    + split.
      * intros (e' & [?| ->%list_elem_of_singleton]%elem_of_app & He'); [eauto|congruence].
      * intros Hno. apply IH2. intros (e' & ? & ?). apply Hno. exists e'. set_solver.
Qed.

(** A socket held by one process only is attributed to it. *)
Lemma lookup_processes os pids m pid i :
  pid ∈ pids -> owns os pid i -> (forall p, p ∈ pids -> owns os p i -> p = pid) ->
  fold_left (add_process os) pids m !! i = Some pid.
Proof.
  intros Hin Hown. induction pids as [|p pids IH] using rev_ind; [by apply elem_of_nil in Hin|].
  intros Huniq. rewrite fold_left_app. simpl.
  destruct (lookup_add_process os (fold_left (add_process os) pids m) p i) as [H1 H2].
  destruct (decide (p = pid)) as [->|Hne]; [auto|].
  rewrite H2 by (intros Hp; apply Hne, Huniq; set_solver).
  apply IH; [set_solver|]. intros q Hq. apply Huniq. set_solver.
Qed.

(** A socket that none of the processes holds is attributed to none. *)
Lemma lookup_processes_none os pids i :
  (forall p, p ∈ pids -> ~ owns os p i) -> fold_left (add_process os) pids ∅ !! i = None.
Proof.
  induction pids as [|p pids IH] using rev_ind; intros Hno; [apply lookup_empty|].
  rewrite fold_left_app. simpl.
  destruct (lookup_add_process os (fold_left (add_process os) pids ∅) p i) as [_ ->];
    [apply IH; intros q Hq; apply Hno; set_solver|apply Hno; set_solver].
Qed.
End refresh.

(** ** What a row contributes *)

Section rows.
Context `{Ntop6}.

(** The entry of a row whose addresses decode to [fam], [l], [r]. *)
Lemma line_entry_row devices r fam la ra :
  row_ok r ->
  CapInodeHelper.row_addresses (r_la r) (r_ra r) = (fam, la, ra) ->
  line_entry devices (print_row r) =
    Some ((CapInodeHelper.row_text fam la +:+ ":" +:+ to_string (r_lport r) +:+ "-" +:+
           CapInodeHelper.row_text fam ra +:+ to_string (r_rport r)) ::
          map (fun d => conn_key (CapDevice.GetLocalAddr d) (r_lport r)
                          (CapInodeHelper.row_text fam ra) (r_rport r)) devices, r_inode r).
Proof.
  intros Hok Haddr. unfold line_entry. rewrite sscanf_row by done.
  cbn -[String.append CapInodeHelper.row_addresses Z.eqb u64 i32]. rewrite Haddr.
  destruct Hok as [_ _ _ ? ? _ _ _ _ _ _ _ _ Hi _].
  rewrite !i32_id, u64_id by lia. destruct (Z.eqb_spec (r_inode r) 0); [lia|]. done.
Qed.

Lemma row_addresses_v4 a b :
  word32 a -> word32 b ->
  CapInodeHelper.row_addresses (hex_fixed 8 a) (hex_fixed 8 b) =
    (AF_INET, mk_in6 a 0 0 0, mk_in6 b 0 0 0).
Proof.
  intros Ha Hb. unfold CapInodeHelper.row_addresses. rewrite length_hex_fixed.
  change (8 <? 8)%nat with false. cbv iota. by rewrite !scan_in4_hex.
Qed.

Lemma row_addresses_in6 a b :
  in6_ok a -> in6_ok b ->
  CapInodeHelper.row_addresses (in6_text a) (in6_text b) =
    if (w0 a =? 0) && (w1 a =? 0) && (w2 a =? 0xFFFF0000)
    then (AF_INET, mk_in6 (w3 a) 0 0 0, mk_in6 (w3 b) 0 0 0) else (AF_INET6, a, b).
Proof.
  intros Ha Hb. unfold CapInodeHelper.row_addresses. rewrite length_in6_text.
  change (8 <? 32)%nat with true. cbv iota zeta. by rewrite !scan_in6_hex.
Qed.

Lemma row_text_v4 a : CapInodeHelper.row_text AF_INET (mk_in6 a 0 0 0) = ntop4 a.
Proof.
  unfold CapInodeHelper.row_text. simpl. apply inet_ntop_fits.
  pose proof (ntop4_length a). simpl. lia.
Qed.

Lemma row_text_v6 `{!Ntop6Ok} a : CapInodeHelper.row_text AF_INET6 a = ntop6 a.
Proof.
  unfold CapInodeHelper.row_text. simpl. apply inet_ntop_fits.
  pose proof (ntop6_length a). lia.
Qed.

(** The keys a row gets, by the texts of its addresses. *)
Lemma ParseBuffer_row devices r fam la ra h t :
  row_ok r -> CapInodeHelper.row_addresses (r_la r) (r_ra r) = (fam, la, ra) ->
  let direct := CapInodeHelper.row_text fam la +:+ ":" +:+ to_string (r_lport r) +:+ "-" +:+
    CapInodeHelper.row_text fam ra +:+ to_string (r_rport r) in
  let by_device d := conn_key (CapDevice.GetLocalAddr d) (r_lport r)
    (CapInodeHelper.row_text fam ra) (r_rport r) in
  exists m,
    CapInodeHelper.ParseBuffer devices (print_row r) h t =
      Done ((), CapInodeHelper.mk m (CapInodeHelper.inodeToPids h), t) /\
    m !! direct = Some (r_inode r) /\
    (forall d, d ∈ devices -> m !! by_device d = Some (r_inode r)) /\
    (forall k, k <> direct -> (forall d, d ∈ devices -> k <> by_device d) ->
       m !! k = CapInodeHelper.netToInodes h !! k).
Proof.
  intros Hok Haddr direct by_device. rewrite ParseBuffer_spec. unfold line_net.
  rewrite (line_entry_row devices r fam la ra Hok Haddr). eexists. split; [done|].
  assert (u32 (r_inode r) = r_inode r) as Hi by (destruct Hok; apply u32_id; lia).
  rewrite !lookup_add_keys, Hi. rewrite decide_True by left. split; [done|]. split.
  - intros d Hd. rewrite lookup_add_keys, Hi, decide_True; [done|].
    right. apply list_elem_of_fmap. by exists d.
  - intros k Hk1 Hk2. rewrite lookup_add_keys, decide_False; [done|].
    intros [->|(d & -> & Hd)%list_elem_of_fmap]%elem_of_cons; [done|]. by apply (Hk2 d Hd).
Qed.

(** An address that does not embed an IPv4 one. *)
Definition v4_mapped (a : in6_addr) : bool := (w0 a =? 0) && (w1 a =? 0) && (w2 a =? 0xFFFF0000).

Lemma row_addresses_v6 a b :
  in6_ok a -> in6_ok b -> v4_mapped a = false ->
  CapInodeHelper.row_addresses (in6_text a) (in6_text b) = (AF_INET6, a, b).
Proof. intros Ha Hb Hm. rewrite row_addresses_in6 by done. unfold v4_mapped in Hm. by rewrite Hm. Qed.

Lemma mapped_ok a : word32 a -> in6_ok (mk_in6 0 0 0xFFFF0000 a).
Proof. intros Ha. repeat split; simpl; try lia; apply Ha. Qed.
End rows.

(** ** Properties *)

(** A row for the concrete instances: 127.0.0.1:8080 to 10.0.0.2:80, socket
    4026. *)
Definition sample_row (la ra : string) (inode : Z) : net_row :=
  mk_row "   " 0 la 8080 ra 80 1 0 0 0 0 0 "  " 1000 "       " 0 inode " 1 0000000000000000 100 0 0 10 0".

Lemma sample_row_ok la ra inode :
  hex_text la -> hex_text ra -> 0 < inode < 2 ^ 32 -> row_ok (sample_row la ra inode).
Proof. intros. constructor; simpl; try done; try lia; by split. Qed.

(** C29: a row of an IPv4 socket enters its inode under one key per device, the
    device's address standing for the local one, each in the form packets are
    looked up with; under one more key, made of its own local address, that
    lacks the colon before the remote port; and under no other key. *)
Theorem ParseBuffer_row_v4 `{Ntop6} devices r a b h t :
  row_ok r -> r_la r = hex_fixed 8 a -> r_ra r = hex_fixed 8 b -> word32 a -> word32 b ->
  let direct := ntop4 a +:+ ":" +:+ to_string (r_lport r) +:+ "-" +:+ ntop4 b +:+ to_string (r_rport r) in
  let by_device d := conn_key (CapDevice.GetLocalAddr d) (r_lport r) (ntop4 b) (r_rport r) in
  exists m,
    CapInodeHelper.ParseBuffer devices (print_row r) h t =
      Done ((), CapInodeHelper.mk m (CapInodeHelper.inodeToPids h), t) /\
    m !! direct = Some (r_inode r) /\
    (forall d, d ∈ devices -> m !! by_device d = Some (r_inode r)) /\
    (forall k, k <> direct -> (forall d, d ∈ devices -> k <> by_device d) ->
       m !! k = CapInodeHelper.netToInodes h !! k).
Proof.
  intros Hok Hla Hra Ha Hb.
  pose proof (ParseBuffer_row devices r AF_INET (mk_in6 a 0 0 0) (mk_in6 b 0 0 0) h t Hok) as Hrow.
  rewrite Hla, Hra, row_addresses_v4, !row_text_v4 in Hrow by done. by apply Hrow.
Qed.

Lemma ParseBuffer_row_v4_witness :
  let r := sample_row (hex_fixed 8 16777343) (hex_fixed 8 33554442) 4026 in
  let d := device4 16777343 in
  exists m,
    @CapInodeHelper.ParseBuffer full_ntop6 [d] (print_row r) CapInodeHelper.new 0%nat =
      Done ((), CapInodeHelper.mk m ∅, 0%nat) /\
    m !! conn_key "127.0.0.1" 8080 "10.0.0.2" 80 = Some 4026.
Proof.
  cbv zeta.
  destruct (@ParseBuffer_row_v4 full_ntop6 [device4 16777343]
    (sample_row (hex_fixed 8 16777343) (hex_fixed 8 33554442) 4026) 16777343 33554442
    CapInodeHelper.new 0%nat) as (m & Hm & _ & Hd & _);
    [apply sample_row_ok; [apply hex_text_in4|apply hex_text_in4|lia]
    |reflexivity|reflexivity|split; lia|split; lia|].
  exists m. split; [exact Hm|]. apply (Hd (device4 16777343)). left.
Defined.

(** C30: a row of an IPv6 socket enters its inode the same way: under one key per
    device, in the form packets are looked up with, under the key made of its
    own address that lacks a colon, and under no other. *)
Theorem ParseBuffer_row_v6 `{Ntop6Ok} devices r a b h t :
  row_ok r -> r_la r = in6_text a -> r_ra r = in6_text b -> in6_ok a -> in6_ok b ->
  v4_mapped a = false ->
  let direct := ntop6 a +:+ ":" +:+ to_string (r_lport r) +:+ "-" +:+ ntop6 b +:+ to_string (r_rport r) in
  let by_device d := conn_key (CapDevice.GetLocalAddr d) (r_lport r) (ntop6 b) (r_rport r) in
  exists m,
    CapInodeHelper.ParseBuffer devices (print_row r) h t =
      Done ((), CapInodeHelper.mk m (CapInodeHelper.inodeToPids h), t) /\
    m !! direct = Some (r_inode r) /\
    (forall d, d ∈ devices -> m !! by_device d = Some (r_inode r)) /\
    (forall k, k <> direct -> (forall d, d ∈ devices -> k <> by_device d) ->
       m !! k = CapInodeHelper.netToInodes h !! k).
Proof.
  intros Hok Hla Hra Ha Hb Hm.
  pose proof (ParseBuffer_row devices r AF_INET6 a b h t Hok) as Hrow.
  rewrite Hla, Hra, row_addresses_v6, !row_text_v6 in Hrow by done. by apply Hrow.
Qed.

Lemma ParseBuffer_row_v6_witness :
  let a := mk_in6 32 0 0 16777216 in let b := mk_in6 32 0 0 33554432 in
  exists m,
    @CapInodeHelper.ParseBuffer full_ntop6 [device6 a]
      (print_row (sample_row (in6_text a) (in6_text b) 4026)) CapInodeHelper.new 0%nat =
      Done ((), CapInodeHelper.mk m ∅, 0%nat) /\
    m !! conn_key (full_text a) 8080 (full_text b) 80 = Some 4026.
Proof.
  intros a b.
  destruct (@ParseBuffer_row_v6 full_ntop6 full_ntop6_ok [device6 a]
    (sample_row (in6_text a) (in6_text b) 4026) a b CapInodeHelper.new 0%nat) as (m & Hm & _ & Hd & _);
    [apply sample_row_ok; [apply hex_text_in6|apply hex_text_in6|lia]
    |reflexivity|reflexivity|repeat split; simpl; lia|repeat split; simpl; lia|reflexivity|].
  exists m. split; [exact Hm|]. apply (Hd (device6 a)). left.
Defined.

(** The IPv6 key without its colon is the key of another connection.  When
    the text of a row's remote address, with its port appended, reads as another
    address, a colon and a port, the packets of that other connection are given
    the row's socket, though it is not theirs. *)
Theorem direct_key_collides `{Ntop6Ok} devices r a b b' port h t :
  row_ok r -> r_la r = in6_text a -> r_ra r = in6_text b -> in6_ok a -> in6_ok b ->
  v4_mapped a = false ->
  ntop6 b +:+ to_string (r_rport r) = ntop6 b' +:+ ":" +:+ to_string port ->
  devices_ok devices -> from_device devices (Ends6 a b') = true ->
  exists h',
    CapInodeHelper.ParseBuffer devices (print_row r) h t = Done ((), h', t) /\
    forall len time, exists p,
      init_packet devices (Ends6 a b') (r_lport r) port len time CapPacket.new t = Done (0, p, t) /\
      CapInodeHelper.netToInodes h' !! CapPacket.hashstring p = Some (r_inode r).
Proof.
  intros Hok Hla Hra Ha Hb Hm Htext Hdev Hfrom.
  pose proof (ParseBuffer_row devices r AF_INET6 a b h t Hok) as Hrow.
  rewrite Hla, Hra, row_addresses_v6, !row_text_v6 in Hrow by done.
  destruct (Hrow eq_refl) as (m & Hrun & Hd & _).
  exists (CapInodeHelper.mk m (CapInodeHelper.inodeToPids h)). split; [exact Hrun|].
  intros len time.
  destruct (init_packet_spec devices (Ends6 a b') (r_lport r) port len time t Hdev)
    as (p & Hp & _ & Hk).
  exists p. split; [exact Hp|]. simpl. rewrite Hk, Hfrom. unfold conn_key.
  cbn [src_text dst_text]. by rewrite <- Htext.
Qed.

Lemma direct_key_collides_witness :
  let a := mk_in6 32 0 0 16777216 in
  exists h',
    @CapInodeHelper.ParseBuffer short_ntop6 [device6 a]
      (print_row (sample_row (in6_text a) (in6_text addr_1_2_3) 4026)) CapInodeHelper.new 0%nat =
      Done ((), h', 0%nat) /\
    exists p, @CapPacket.Init6 short_ntop6 [device6 a] a 8080 addr_1_2 380 60 (0, 0) Unknown
      CapPacket.new 0%nat = Done (0, p, 0%nat) /\
      CapInodeHelper.netToInodes h' !! CapPacket.hashstring p = Some 4026.
Proof.
  intros a.
  destruct (@direct_key_collides short_ntop6 short_ntop6_ok [device6 a]
    (sample_row (in6_text a) (in6_text addr_1_2_3) 4026) a addr_1_2_3 addr_1_2 380
    CapInodeHelper.new 0%nat) as (h' & Hrun & Hp);
    [apply sample_row_ok; [apply hex_text_in6|apply hex_text_in6|lia]
    |reflexivity|reflexivity|repeat split; simpl; lia|repeat split; simpl; lia|reflexivity|reflexivity
    |repeat constructor; by eexists|reflexivity|].
  exists h'. split; [exact Hrun|]. exact (Hp 60 (0, 0)).
Defined.

(** C31: a row of a dual-stack socket whose peers are IPv4-mapped addresses has
    the same effect as the IPv4 row with the embedded addresses. *)
Theorem ParseBuffer_v4_mapped `{Ntop6} devices r a b h t :
  row_ok r -> word32 a -> word32 b ->
  r_la r = in6_text (mk_in6 0 0 0xFFFF0000 a) -> r_ra r = in6_text (mk_in6 0 0 0xFFFF0000 b) ->
  CapInodeHelper.ParseBuffer devices (print_row r) h t =
  CapInodeHelper.ParseBuffer devices
    (print_row (mk_row (pad_sl r) (r_sl r) (hex_fixed 8 a) (r_lport r) (hex_fixed 8 b) (r_rport r)
       (r_st r) (r_txq r) (r_rxq r) (r_tr r) (r_when r) (r_retr r) (pad_uid r) (r_uid r)
       (pad_timeout r) (r_timeout r) (r_inode r) (r_tail r))) h t.
Proof.
  intros Hok Ha Hb Hla Hra. rewrite !ParseBuffer_spec. unfold line_net.
  erewrite line_entry_row; [|done|by rewrite Hla, Hra, row_addresses_in6 by by apply mapped_ok].
  erewrite line_entry_row; [done| |by apply row_addresses_v4].
  destruct Hok. constructor; simpl; auto using hex_text_in4.
Qed.

Lemma ParseBuffer_v4_mapped_witness :
  @CapInodeHelper.ParseBuffer full_ntop6 [device4 16777343]
    (print_row (sample_row (in6_text (mk_in6 0 0 0xFFFF0000 16777343))
                           (in6_text (mk_in6 0 0 0xFFFF0000 33554442)) 4026)) CapInodeHelper.new 0%nat =
  @CapInodeHelper.ParseBuffer full_ntop6 [device4 16777343]
    (print_row (sample_row (hex_fixed 8 16777343) (hex_fixed 8 33554442) 4026)) CapInodeHelper.new 0%nat.
Proof.
  apply (@ParseBuffer_v4_mapped full_ntop6 [device4 16777343]
    (sample_row (in6_text (mk_in6 0 0 0xFFFF0000 16777343))
                (in6_text (mk_in6 0 0 0xFFFF0000 33554442)) 4026) 16777343 33554442);
    [apply sample_row_ok; [apply hex_text_in6|apply hex_text_in6|lia]
    |split; lia|split; lia|reflexivity|reflexivity].
Defined.

(** The key [ParseBuffer] makes of a row's own IPv4 address is the key of no
    IPv4 packet: no lookup for one ever reaches an entry stored under it. *)
Theorem direct_key_unreachable `{Ntop6} devices a lp b rp p :
  CapPacket.family p = AF_INET ->
  0 <= lp -> 0 <= rp -> 0 <= CapPacket.sport p -> 0 <= CapPacket.dport p ->
  CapInodeHelper.row_text AF_INET (mk_in6 a 0 0 0) +:+ ":" +:+ to_string lp +:+ "-" +:+
    CapInodeHelper.row_text AF_INET (mk_in6 b 0 0 0) +:+ to_string rp
  <> CapPacket.key_of devices p.
Proof.
  intros Hf ???? Heq. rewrite !row_text_v4 in Heq. unfold CapPacket.key_of in Heq.
  rewrite CapPacket.source_text_v4, CapPacket.dest_text_v4 in Heq by done.
  apply (f_equal (occurrences ":")) in Heq. unfold conn_key in Heq.
  destruct (CapPacket.outgoing devices p);
    by rewrite !occurrences_app, !ntop4_no_colon, !occurrences_dec in Heq.
Qed.

Lemma direct_key_unreachable_witness :
  @CapInodeHelper.row_text full_ntop6 AF_INET (mk_in6 16777343 0 0 0) +:+ ":" +:+ to_string 8080 +:+ "-" +:+
    @CapInodeHelper.row_text full_ntop6 AF_INET (mk_in6 33554442 0 0 0) +:+ to_string 80
  <> @CapPacket.key_of full_ntop6 []
       (CapPacket.mk in6_zero in6_zero 16777343 33554442 8080 80 60 (0, 0) Unknown AF_INET "").
Proof.
  apply (@direct_key_unreachable full_ntop6 [] 16777343 8080 33554442 80
    (CapPacket.mk in6_zero in6_zero 16777343 33554442 8080 80 60 (0, 0) Unknown AF_INET ""));
    simpl; lia || reflexivity.
Defined.

(** What a refresh leaves, whatever it finds: its codes, and processes among
    those it was given. *)
Definition refresh_post (pids : list Z) (ret : Z) (h : CapInodeHelper.t) : Prop :=
  (ret = 0 \/ ret = CAP_PROCESS_OPEN \/ ret = CAP_PROCESS_OPEN_DIR) /\
  (forall i p, CapInodeHelper.inodeToPids h !! i = Some p -> p ∈ pids) /\
  (ret = CAP_PROCESS_OPEN -> CapInodeHelper.inodeToPids h = ∅).

Lemma Refresh_wlp `{Ntop6} `{Env} devices pids h t :
  wlp (CapInodeHelper.Refresh devices pids) (fun ret h' _ => refresh_post pids ret h') h t.
Proof.
  unfold CapInodeHelper.Refresh. apply wpx_bind, wpx_put, wpx_bind.
  eapply wpx_mono; [apply RefreshToInodes_wlp|]. simpl. intros r h1 t1 [Hr Hp].
  assert (forall i p, CapInodeHelper.inodeToPids h1 !! i = Some p -> p ∈ pids) as Hnone
    by (rewrite Hp; done).
  destruct (Z.eqb_spec r 0) as [->|Hr0]; simpl.
  - apply wlp_intro. intros r' h2 t2 Hrun.
    destruct (wp_elim _ _ _ _ (RefreshToPids_wp pids h1 t1))
      as (?&?&?&Hrun'&Hr'&_&Hp'). rewrite Hrun in Hrun'. injection Hrun' as <- <- <-.
    split; [tauto|]. split.
    + intros i p Hi. destruct (Hp' i p Hi) as [?|?]; eauto.
    + intros ->. by destruct Hr'.
  - apply wpx_ret. split; [tauto|]. split; [done|]. done.
Qed.

Lemma GetPidByIp_inv h hash pid p :
  CapInodeHelper.GetPidByIp h hash pid = (0, p) ->
  exists i, CapInodeHelper.netToInodes h !! hash = Some i /\ CapInodeHelper.inodeToPids h !! i = Some p.
Proof.
  unfold CapInodeHelper.GetPidByIp. destruct (_ !! hash) as [i|]; [|done].
  destruct (_ !! i) as [q|] eqn:Hi; [|done]. intros [= <-]. by exists i.
Qed.

(** C32: whatever a refresh finds, its code is 0, [CAP_PROCESS_OPEN] or
    [CAP_PROCESS_OPEN_DIR]; every process a later lookup can name is one of the
    processes it was given; and when a table of [/proc/net] cannot be opened no
    lookup succeeds at all until the next refresh. *)
Theorem Refresh_lookup_sound `{Ntop6} `{Env} devices pids h t ret h' t' :
  CapInodeHelper.Refresh devices pids h t = Done (ret, h', t') ->
  (ret = 0 \/ ret = CAP_PROCESS_OPEN \/ ret = CAP_PROCESS_OPEN_DIR) /\
  (forall hash pid p, CapInodeHelper.GetPidByIp h' hash pid = (0, p) -> p ∈ pids) /\
  (ret = CAP_PROCESS_OPEN -> forall hash pid, fst (CapInodeHelper.GetPidByIp h' hash pid) <> 0).
Proof.
  intros Hrun. destruct (wlp_elim _ _ _ _ _ _ _ (Refresh_wlp devices pids h t) Hrun) as (Hr & Hp & He).
  split; [done|]. split.
  - intros hash pid p (i & _ & Hi)%GetPidByIp_inv. eauto.
  - intros Hret hash pid. unfold CapInodeHelper.GetPidByIp. destruct (_ !! hash) as [i|]; [|done].
    by rewrite (He Hret), lookup_empty.
Qed.

(** An operating system for the concrete instances, given its files,
    directories and links. *)
Definition assoc {A} (l : list (string * A)) (k : string) : option A :=
  snd <$> List.find (fun p => String.eqb (fst p) k) l.

Definition sample_os (files : list (string * string)) (dirs : list (string * list dirent))
    (links : list (string * string)) : Os :=
  mk_Os (assoc files) (assoc dirs) (assoc links) (fun _ => None) (fun _ => None) None.

Definition line (s : string) : string := s +:+ String NEWLINE "".

(** One connection of process 42, a listing with a header, three empty tables. *)
Definition net_os : Os :=
  sample_os
    [("/proc/net/tcp", line "  sl  local_address rem_address   st tx_queue" +:+
        line (print_row (sample_row (hex_fixed 8 16777343) (hex_fixed 8 33554442) 4026)));
     ("/proc/net/tcp6", ""); ("/proc/net/udp", ""); ("/proc/net/udp6", "")]
    [("/proc/7/fd", []); ("/proc/42/fd", [mk_dirent "." DT_DIR; mk_dirent "0" DT_LNK; mk_dirent "3" DT_LNK])]
    [("/proc/42/fd/0", "/dev/null"); ("/proc/42/fd/3", "socket:[4026]")].

Lemma Refresh_lookup_sound_witness :
  exists h t,
    @CapInodeHelper.Refresh full_ntop6 [device4 16777343] (fun _ => net_os) [7; 42]
      CapInodeHelper.new 0%nat = Done (0, h, t) /\
    (forall hash pid p, CapInodeHelper.GetPidByIp h hash pid = (0, p) -> p ∈ [7; 42]).
Proof.
  destruct (@CapInodeHelper.Refresh full_ntop6 [device4 16777343] (fun _ => net_os) [7; 42]
      CapInodeHelper.new 0%nat) as [[[ret h] t]| | |] eqn:Hrun; vm_compute in Hrun; try discriminate.
  injection Hrun as <- <- <-. eexists _, _. split; [reflexivity|].
  eapply (@Refresh_lookup_sound full_ntop6 (fun _ => net_os) [device4 16777343] [7; 42]
            CapInodeHelper.new 0%nat). vm_compute. reflexivity.
Defined.

(** The lines of the four tables, in the order they are read. *)
Definition net_lines (os : Os) : option (list string) :=
  l1 ← file_lines os "/proc/net/tcp";
  l2 ← file_lines os "/proc/net/tcp6";
  l3 ← file_lines os "/proc/net/udp";
  l4 ← file_lines os "/proc/net/udp6";
  Some (l1 ++ l2 ++ l3 ++ l4).

Lemma net_lines_inv os ls :
  net_lines os = Some ls ->
  exists l1 l2 l3 l4,
    file_lines os "/proc/net/tcp" = Some l1 /\ file_lines os "/proc/net/tcp6" = Some l2 /\
    file_lines os "/proc/net/udp" = Some l3 /\ file_lines os "/proc/net/udp6" = Some l4 /\
    ls = l1 ++ l2 ++ l3 ++ l4.
Proof.
  unfold net_lines. generalize (file_lines os) as f. intros f.
  destruct (f "/proc/net/tcp") as [l1|]; [|done].
  destruct (f "/proc/net/tcp6") as [l2|]; [|done].
  destruct (f "/proc/net/udp") as [l3|]; [|done].
  destruct (f "/proc/net/udp6") as [l4|]; [|done]. intros [= <-]. eauto 10.
Qed.

Lemma Refresh_two_phases `{Ntop6} `{Env} devices pids h t m t1 r :
  CapInodeHelper.RefreshToInodes devices CapInodeHelper.new t = Done (0, m, t1) ->
  CapInodeHelper.RefreshToPids pids m t1 = r ->
  CapInodeHelper.Refresh devices pids h t = r.
Proof.
  intros Hr Hp. unfold CapInodeHelper.Refresh.
  rewrite (bind_Done _ _ h t () CapInodeHelper.new t) by done.
  rewrite (bind_Done _ _ _ _ _ _ _ Hr). exact Hp.
Qed.

Lemma Refresh_steady `{Ntop6} `{Env} os devices pids ls h t :
  steady os -> net_lines os = Some ls ->
  Forall (fun pid => is_Some (os_opendir os (proc_path pid "fd"))) pids ->
  exists t', CapInodeHelper.Refresh devices pids h t =
    Done (0, CapInodeHelper.mk (fold_left (line_net devices) ls ∅)
               (fold_left (add_process os) pids ∅), t').
Proof.
  intros Hos Hls Hdirs.
  destruct (net_lines_inv os ls Hls) as (l1 & l2 & l3 & l4 & H1 & H2 & H3 & H4 & ->).
  destruct (RefreshToPids_steady os pids (CapInodeHelper.mk
    (fold_left (line_net devices) (l1 ++ l2 ++ l3 ++ l4) ∅) ∅) (4 + t) Hos Hdirs) as [t' Hp].
  exists t'. eapply Refresh_two_phases; [|apply Hp].
  apply (RefreshToInodes_spec devices CapInodeHelper.new); by rewrite Hos.
Qed.

(** A line leaves a key alone. *)
Definition avoids `{Ntop6} (devices : list CapDevice.t) (k : string) (line : string) : Prop :=
  match line_entry devices line with Some (ks, _) => k ∉ ks | None => True end.

Lemma fold_lookup_untouched (g : gmap string Z -> string -> gmap string Z) k ls m :
  Forall (fun l => forall m, g m l !! k = m !! k) ls -> fold_left g ls m !! k = m !! k.
Proof.
  intros Hls. revert m. induction Hls as [|l ls Hl _ IH]; intros m; [done|].
  simpl. by rewrite IH, Hl.
Qed.

Lemma line_net_avoids `{Ntop6} devices k l m :
  avoids devices k l -> line_net devices m l !! k = m !! k.
Proof.
  unfold avoids, line_net. generalize (line_entry devices l). intros [[ks i]|]; [|done].
  intros Hk. rewrite lookup_add_keys. by rewrite decide_False.
Qed.

Lemma fold_avoids `{Ntop6} devices k ls m :
  Forall (avoids devices k) ls -> fold_left (line_net devices) ls m !! k = m !! k.
Proof.
  intros Hls. apply fold_lookup_untouched. eapply Forall_impl; [apply Hls|].
  intros l Hl m0. by apply line_net_avoids.
Qed.

Lemma fold_last (g : gmap string Z -> string -> gmap string Z) k v before l after m :
  Forall (fun l => forall m, g m l !! k = m !! k) after ->
  (forall m, g m l !! k = Some v) -> fold_left g (before ++ l :: after) m !! k = Some v.
Proof. intros Hafter Hl. rewrite fold_left_app. simpl. by rewrite fold_lookup_untouched. Qed.

#[export] Instance avoids_dec `{Ntop6} devices k l : Decision (avoids devices k l).
Proof. unfold avoids. destruct (line_entry devices l) as [[ks i]|]; apply _. Defined.

(** The row of a socket whose peer is the remote end of [e]: bound to any local
    address of its family, or a dual-stack socket with an IPv4 peer. *)
Inductive row_remote (r : net_row) : ends -> Prop :=
  | Remote4 lo a b : r_la r = hex_fixed 8 lo -> r_ra r = hex_fixed 8 b ->
      word32 lo -> word32 b -> row_remote r (Ends4 a b)
  | Remote6 lo a b : r_la r = in6_text lo -> r_ra r = in6_text b ->
      in6_ok lo -> in6_ok b -> v4_mapped lo = false -> row_remote r (Ends6 a b)
  | RemoteMapped lo a b : r_la r = in6_text (mk_in6 0 0 0xFFFF0000 lo) ->
      r_ra r = in6_text (mk_in6 0 0 0xFFFF0000 b) -> word32 lo -> word32 b ->
      row_remote r (Ends4 a b).

Lemma row_remote_text `{Ntop6Ok} r e :
  row_remote r e -> exists fam la ra,
    CapInodeHelper.row_addresses (r_la r) (r_ra r) = (fam, la, ra) /\
    CapInodeHelper.row_text fam ra = dst_text e.
Proof.
  destruct 1 as [lo a b Hl Hr ? ?|lo a b Hl Hr ? ? ?|lo a b Hl Hr ? ?]; rewrite Hl, Hr.
  - rewrite row_addresses_v4 by done. do 3 eexists. split; [done|]. apply row_text_v4.
  - rewrite row_addresses_v6 by done. do 3 eexists. split; [done|]. by apply row_text_v6.
  - rewrite row_addresses_in6 by by apply mapped_ok. do 3 eexists. split; [done|]. apply row_text_v4.
Qed.

(** The key of a connection, this host's end first. *)
Definition ends_key `{Ntop6} (e : ends) (lport rport : Z) : string :=
  conn_key (src_text e) lport (dst_text e) rport.

Lemma line_net_row `{Ntop6Ok} devices r e d m :
  row_ok r -> row_remote r e -> d ∈ devices -> CapDevice.GetLocalAddr d = src_text e ->
  line_net devices m (print_row r) !! ends_key e (r_lport r) (r_rport r) = Some (r_inode r).
Proof.
  intros Hok Hr Hd Hda. destruct (row_remote_text r e Hr) as (fam & la & ra & Haddr & Htext).
  unfold line_net. erewrite line_entry_row by done.
  rewrite lookup_add_keys, decide_True.
  - f_equal. apply u32_id. destruct Hok. lia.
  - right. apply list_elem_of_fmap. exists d. by rewrite Hda, Htext.
Qed.

Lemma fold_net_row `{Ntop6Ok} devices before r after e d m :
  row_ok r -> row_remote r e -> d ∈ devices -> CapDevice.GetLocalAddr d = src_text e ->
  Forall (avoids devices (ends_key e (r_lport r) (r_rport r))) after ->
  fold_left (line_net devices) (before ++ print_row r :: after) m
    !! ends_key e (r_lport r) (r_rport r) = Some (r_inode r).
Proof.
  intros. apply fold_last.
  - eapply Forall_impl; [eassumption|]. intros l Hl m0. by apply line_net_avoids.
  - intros m0. by eapply line_net_row.
Qed.

(** What the system says of the connection from [lport] to [rport] between the
    ends [e]: the text of a device is that of the local end, a row of the
    tables carries the connection's socket, no later row claims its key, and
    [pid] is the one of the processes [pids] with a descriptor on it. *)
Inductive holds `{Ntop6} (os : Os) (devices : list CapDevice.t) (pids : list Z) (e : ends)
    (lport rport pid : Z) : Prop :=
  | Holds d r before after :
      d ∈ devices -> CapDevice.GetLocalAddr d = src_text e ->
      row_ok r -> row_remote r e -> r_lport r = lport -> r_rport r = rport ->
      net_lines os = Some (before ++ print_row r :: after) ->
      Forall (avoids devices (ends_key e lport rport)) after ->
      pid ∈ pids -> owns os pid (r_inode r) ->
      (forall p, p ∈ pids -> owns os p (r_inode r) -> p = pid) ->
      holds os devices pids e lport rport pid.

(** The descriptors of every one of the processes can be listed. *)
Definition inspectable (os : Os) (pids : list Z) : Prop :=
  Forall (fun pid => is_Some (os_opendir os (proc_path pid "fd"))) pids.

Lemma refreshed_holds `{Ntop6Ok} `{Env} os devices pids e lp rp pid h t :
  steady os -> inspectable os pids -> holds os devices pids e lp rp pid ->
  exists h' t', CapInodeHelper.Refresh devices pids h t = Done (0, h', t') /\
    forall pid0, CapInodeHelper.GetPidByIp h' (ends_key e lp rp) pid0 = (0, pid).
Proof.
  intros Hos Hdirs [d r before after Hd Hda Hok Hr <- <- Hls Hafter Hin Hown Huniq].
  destruct (Refresh_steady os devices pids _ h t Hos Hls Hdirs) as [t' Hrun].
  eexists _, t'. split; [apply Hrun|]. intros pid0. unfold CapInodeHelper.GetPidByIp.
  cbn [CapInodeHelper.netToInodes CapInodeHelper.inodeToPids].
  rewrite (fold_net_row devices before r after e d) by done.
  by rewrite (lookup_processes os pids ∅ pid).
Qed.

(** The connection is nobody's: no row of the tables has its key, or the last one
    that has it is that of a socket on which none of the processes has a
    descriptor, as the row of a socket in state TIME_WAIT is. *)
Inductive unheld `{Ntop6} (os : Os) (devices : list CapDevice.t) (pids : list Z) (e : ends)
    (lport rport : Z) : Prop :=
  | UnheldNoRow ls :
      net_lines os = Some ls -> Forall (avoids devices (ends_key e lport rport)) ls ->
      unheld os devices pids e lport rport
  | UnheldNoOwner before l after ks inode :
      net_lines os = Some (before ++ l :: after) ->
      line_entry devices l = Some (ks, inode) -> ends_key e lport rport ∈ ks ->
      Forall (avoids devices (ends_key e lport rport)) after ->
      (forall p, p ∈ pids -> ~ owns os p (u32 inode)) ->
      unheld os devices pids e lport rport.

Lemma refreshed_unheld `{Ntop6} `{Env} os devices pids e lp rp h t :
  steady os -> inspectable os pids -> unheld os devices pids e lp rp ->
  exists h' t', CapInodeHelper.Refresh devices pids h t = Done (0, h', t') /\
    forall pid0, fst (CapInodeHelper.GetPidByIp h' (ends_key e lp rp) pid0) <> 0.
Proof.
  intros Hos Hdirs [ls Hls Hav|before l after ks i Hls Hl Hk Hafter Hno];
    (destruct (Refresh_steady os devices pids _ h t Hos Hls Hdirs) as [t' Hrun];
     eexists _, t'; split; [exact Hrun|]; intros pid0; unfold CapInodeHelper.GetPidByIp;
     cbn [CapInodeHelper.netToInodes CapInodeHelper.inodeToPids]).
  - by rewrite fold_avoids, lookup_empty by done.
  - rewrite (fold_last _ _ (u32 i)).
    + by rewrite lookup_processes_none by done.
    + eapply Forall_impl; [exact Hafter|]. intros l' Hl' m. by apply line_net_avoids.
    + intros m. unfold line_net. rewrite Hl, lookup_add_keys. by rewrite decide_True.
Qed.

(** C22: the resolution of a connection.  In a system that does not change
    meanwhile, with every table readable and every given process inspectable, a
    refresh followed by a lookup of the key of a connection finds the process
    that holds it, over IPv4 and IPv6, and when an IPv4 peer talks to a
    dual-stack socket. *)
Theorem connection_resolves `{Ntop6Ok} `{Env} os devices pids e lport rport pid h t pid0 :
  steady os -> inspectable os pids -> holds os devices pids e lport rport pid ->
  exists h' t', CapInodeHelper.Refresh devices pids h t = Done (0, h', t') /\
    CapInodeHelper.GetPidByIp h' (ends_key e lport rport) pid0 = (0, pid).
Proof.
  intros Hos Hdirs Hh. destruct (refreshed_holds os devices pids e lport rport pid h t Hos Hdirs Hh)
    as (h' & t' & Hrun & Hget). by exists h', t'.
Qed.

(** Process 42 holds a connection: its row is the last one of the tables. *)
Lemma sample_holds os pids before :
  net_lines os = Some (before ++ [print_row (sample_row (hex_fixed 8 16777343) (hex_fixed 8 33554442) 4026)]) ->
  42 ∈ pids -> owns os 42 4026 -> (forall p, p ∈ pids -> owns os p 4026 -> p = 42) ->
  @holds full_ntop6 os [device4 16777343] pids (Ends4 16777343 33554442) 8080 80 42.
Proof.
  intros Hls Hin Hown Huniq.
  apply (@Holds full_ntop6 _ _ _ _ _ _ _ (device4 16777343)
    (sample_row (hex_fixed 8 16777343) (hex_fixed 8 33554442) 4026) before []); try done.
  - by left.
  - apply sample_row_ok; [apply hex_text_in4|apply hex_text_in4|lia].
  - apply (Remote4 _ 16777343); try reflexivity; split; lia.
Qed.

Lemma connection_resolves_witness :
  exists h t,
    @CapInodeHelper.Refresh full_ntop6 [device4 16777343] (fun _ => net_os) [7; 42]
      CapInodeHelper.new 0%nat = Done (0, h, t) /\
    CapInodeHelper.GetPidByIp h "127.0.0.1:8080-10.0.0.2:80" (-1) = (0, 42).
Proof.
  apply (@connection_resolves full_ntop6 full_ntop6_ok (fun _ => net_os) net_os [device4 16777343]
    [7; 42] (Ends4 16777343 33554442) 8080 80 42 CapInodeHelper.new 0%nat (-1)).
  - intros t. reflexivity.
  - repeat constructor; by eexists.
  - apply (sample_holds _ _ ["  sl  local_address rem_address   st tx_queue"]).
    + vm_compute. reflexivity.
    + set_solver.
    + exists (mk_dirent "3" DT_LNK). split; [right; right; left|vm_compute; reflexivity].
    + intros p Hp Ho. apply elem_of_cons in Hp as [->|Hp]; [|by apply list_elem_of_singleton in Hp].
      destruct Ho as (e & He & _). by apply elem_of_nil in He.
Defined.

(** C38: the scan of the processes ends at the first one whose descriptor
    directory cannot be opened, with [CAP_PROCESS_OPEN_DIR]; the processes
    after it are not looked at, so none of them is ever attributed a packet
    until the next refresh. *)
Theorem RefreshToPids_stops `{Env} before p after h t :
  (forall t, os_opendir (env_at t) (proc_path p "fd") = None) ->
  Forall (fun q => forall t, is_Some (os_opendir (env_at t) (proc_path q "fd"))) before ->
  (forall i q, CapInodeHelper.inodeToPids h !! i = Some q -> q ∉ after) ->
  (forall q, q ∈ before -> q ∉ after) ->
  exists h' t', CapInodeHelper.RefreshToPids (before ++ p :: after) h t =
      Done (CAP_PROCESS_OPEN_DIR, h', t') /\
    forall i q, CapInodeHelper.inodeToPids h' !! i = Some q -> q ∉ after.
Proof.
  intros Hp Hbefore. revert h t. induction Hbefore as [|q qs Hq _ IH]; intros h t Hh Hdisj.
  - exists h, (S t). simpl. unfold sys. cbv [mbind M_bind]. by rewrite Hp.
  - simpl. unfold sys. cbv [mbind M_bind]. destruct (Hq t) as [es Hes]. rewrite Hes.
    destruct (wp_elim _ _ _ _ (scan_fds_wp q es h (S t))) as ([] & h1 & t1 & Hrun & _ & H1).
    rewrite Hrun. apply IH.
    + intros i x Hi. destruct (H1 i x Hi) as [->|?]; [apply Hdisj; left|eauto].
    + intros x Hx. apply Hdisj. by right.
Qed.

Lemma RefreshToPids_stops_witness :
  exists h t, @CapInodeHelper.RefreshToPids (fun _ => net_os) ([7] ++ 8 :: [42])
      CapInodeHelper.new 0%nat = Done (CAP_PROCESS_OPEN_DIR, h, t) /\
    forall i q, CapInodeHelper.inodeToPids h !! i = Some q -> q ∉ [42].
Proof.
  apply (@RefreshToPids_stops (fun _ => net_os) [7] 8 [42]).
  - intros t. reflexivity.
  - repeat constructor; by eexists.
  - intros i q Hi. discriminate.
  - intros q Hq Hq'. apply list_elem_of_singleton in Hq, Hq'. lia.
Defined.

(** C39: a refresh does not return when [/proc/net/tcp] has a line of 1024
    characters or more: the reading loop spins on a stream that failed without
    reaching the end of its file. *)
Theorem Refresh_diverges `{Ntop6} `{Env} devices pids h t content :
  os_file (env_at t) "/proc/net/tcp" = Some content -> snd (lines_of content) = true ->
  CapInodeHelper.Refresh devices pids h t = Diverges.
Proof.
  intros Hf Hlong. unfold CapInodeHelper.Refresh, CapInodeHelper.RefreshToInodes.
  cbv [mbind M_bind put]. by rewrite (Parse_spec _ _ _ _ _ Hf), Hlong.
Qed.

Fixpoint str_repeat (c : ascii) (n : nat) : string :=
  match n with O => "" | S n => String c (str_repeat c n) end.

Lemma Refresh_diverges_witness :
  @CapInodeHelper.Refresh full_ntop6 []
    (fun _ => sample_os [("/proc/net/tcp", str_repeat "x" 1024)] [] []) [] CapInodeHelper.new 0%nat
  = Diverges.
Proof.
  apply (@Refresh_diverges full_ntop6
    (fun _ => sample_os [("/proc/net/tcp", str_repeat "x" 1024)] [] [])
    [] [] CapInodeHelper.new 0%nat (str_repeat "x" 1024)); vm_compute; reflexivity.
Defined.
