(* ===== verification/Process.v ===== *)
(** [cap_process.h] and [cap_process.cpp]: what is known of one process, and how
    it is read from its files under [/proc/<pid>]. *)

From Stdlib Require Import Floats.SpecFloat.
From S2P Require Import Prelude Cstring Inet Stream Scanf Pod Ostream Device Packet Inode.

(** ** Percentages *)

(** [static_cast<double>] of a [uint64_t]: rounding to nearest, ties to even. *)
Definition double_of_u64 (n : Z) : double := binary_normalize 53 1024 n 0 false.

(** [total == 0 ? 0 : static_cast<double>(part * 100) / static_cast<double>(total)],
    the product in [uint64_t]. *)
Definition percent (part total : Z) : double :=
  if total =? 0 then S754_zero false
  else SFdiv 53 1024 (double_of_u64 (u64 (part * 100))) (double_of_u64 total).

(** The format of [/proc/<pid>/stat]. *)
Definition stat_fmt : string :=
  "%*d %*s %*s %*d %*d %*d %*d %*d %*d %*d %*d %*d %*d " +:+
  "%ld %ld %*d %*d %*d %*d %*d %*d %*d %*d %*d " +:+
  "%*d %*d %*d %*d %*d %*d %*d %*d %*d %*d %*d %*d %*d %*d %*d".

Module CapProcess.
Record t := mk {
  name : string;
  cmdline : string;
  user : string;
  group : string;
  pid : Z;
  uid : Z;
  gid : Z;
  fdCnt : Z;
  memory : Z;
  cpuPercent : double;
  memPercent : double;
  ioRead : Z;
  ioWrite : Z;
  recv : Z;
  send : Z;
  cpu : Z;
  deltaCpu : Z
}.

Definition GetName (p : t) : string := name p.
Definition GetCmdline (p : t) : string := cmdline p.
Definition GetUser (p : t) : string := user p.
Definition GetGroup (p : t) : string := group p.
Definition GetPid (p : t) : Z := pid p.
Definition GetUid (p : t) : Z := uid p.
Definition GetGid (p : t) : Z := gid p.
Definition GetFdCnt (p : t) : Z := fdCnt p.
Definition GetMemory (p : t) : Z := memory p.
Definition GetCpuPercent (p : t) : double := cpuPercent p.
Definition GetMemPercent (p : t) : double := memPercent p.
Definition GetIoRead (p : t) : Z := ioRead p.
Definition GetIoWrite (p : t) : Z := ioWrite p.
Definition GetRecv (p : t) : Z := recv p.
Definition GetSend (p : t) : Z := send p.

(** [CapProcess(pid)], with the in-class initialisers. *)
Definition new (ipid : Z) : t :=
  mk "" "" "" "" ipid 0 0 0 0 (S754_zero false) (S754_zero false) 0 0 0 0 0 0.

Definition set_name (x : string) (p : t) : t :=
  mk x (cmdline p) (user p) (group p) (pid p) (uid p) (gid p) (fdCnt p) (memory p) (cpuPercent
     p) (memPercent p) (ioRead p) (ioWrite p) (recv p) (send p) (cpu p) (deltaCpu p).
Definition set_cmdline (x : string) (p : t) : t :=
  mk (name p) x (user p) (group p) (pid p) (uid p) (gid p) (fdCnt p) (memory p) (cpuPercent p)
     (memPercent p) (ioRead p) (ioWrite p) (recv p) (send p) (cpu p) (deltaCpu p).
Definition set_user (x : string) (p : t) : t :=
  mk (name p) (cmdline p) x (group p) (pid p) (uid p) (gid p) (fdCnt p) (memory p) (cpuPercent
     p) (memPercent p) (ioRead p) (ioWrite p) (recv p) (send p) (cpu p) (deltaCpu p).
Definition set_group (x : string) (p : t) : t :=
  mk (name p) (cmdline p) (user p) x (pid p) (uid p) (gid p) (fdCnt p) (memory p) (cpuPercent
     p) (memPercent p) (ioRead p) (ioWrite p) (recv p) (send p) (cpu p) (deltaCpu p).
Definition set_uid (x : Z) (p : t) : t :=
  mk (name p) (cmdline p) (user p) (group p) (pid p) x (gid p) (fdCnt p) (memory p)
     (cpuPercent p) (memPercent p) (ioRead p) (ioWrite p) (recv p) (send p) (cpu p) (deltaCpu p).
Definition set_gid (x : Z) (p : t) : t :=
  mk (name p) (cmdline p) (user p) (group p) (pid p) (uid p) x (fdCnt p) (memory p)
     (cpuPercent p) (memPercent p) (ioRead p) (ioWrite p) (recv p) (send p) (cpu p) (deltaCpu p).
Definition set_fdCnt (x : Z) (p : t) : t :=
  mk (name p) (cmdline p) (user p) (group p) (pid p) (uid p) (gid p) x (memory p) (cpuPercent
     p) (memPercent p) (ioRead p) (ioWrite p) (recv p) (send p) (cpu p) (deltaCpu p).
Definition set_memory (x : Z) (p : t) : t :=
  mk (name p) (cmdline p) (user p) (group p) (pid p) (uid p) (gid p) (fdCnt p) x (cpuPercent
     p) (memPercent p) (ioRead p) (ioWrite p) (recv p) (send p) (cpu p) (deltaCpu p).
Definition set_cpuPercent (x : double) (p : t) : t :=
  mk (name p) (cmdline p) (user p) (group p) (pid p) (uid p) (gid p) (fdCnt p) (memory p) x
     (memPercent p) (ioRead p) (ioWrite p) (recv p) (send p) (cpu p) (deltaCpu p).
Definition set_memPercent (x : double) (p : t) : t :=
  mk (name p) (cmdline p) (user p) (group p) (pid p) (uid p) (gid p) (fdCnt p) (memory p)
     (cpuPercent p) x (ioRead p) (ioWrite p) (recv p) (send p) (cpu p) (deltaCpu p).
Definition set_ioRead (x : Z) (p : t) : t :=
  mk (name p) (cmdline p) (user p) (group p) (pid p) (uid p) (gid p) (fdCnt p) (memory p)
     (cpuPercent p) (memPercent p) x (ioWrite p) (recv p) (send p) (cpu p) (deltaCpu p).
Definition set_ioWrite (x : Z) (p : t) : t :=
  mk (name p) (cmdline p) (user p) (group p) (pid p) (uid p) (gid p) (fdCnt p) (memory p)
     (cpuPercent p) (memPercent p) (ioRead p) x (recv p) (send p) (cpu p) (deltaCpu p).
Definition set_recv (x : Z) (p : t) : t :=
  mk (name p) (cmdline p) (user p) (group p) (pid p) (uid p) (gid p) (fdCnt p) (memory p)
     (cpuPercent p) (memPercent p) (ioRead p) (ioWrite p) x (send p) (cpu p) (deltaCpu p).
Definition set_send (x : Z) (p : t) : t :=
  mk (name p) (cmdline p) (user p) (group p) (pid p) (uid p) (gid p) (fdCnt p) (memory p)
     (cpuPercent p) (memPercent p) (ioRead p) (ioWrite p) (recv p) x (cpu p) (deltaCpu p).
Definition set_cpu (x : Z) (p : t) : t :=
  mk (name p) (cmdline p) (user p) (group p) (pid p) (uid p) (gid p) (fdCnt p) (memory p)
     (cpuPercent p) (memPercent p) (ioRead p) (ioWrite p) (recv p) (send p) x (deltaCpu p).
Definition set_deltaCpu (x : Z) (p : t) : t :=
  mk (name p) (cmdline p) (user p) (group p) (pid p) (uid p) (gid p) (fdCnt p) (memory p)
     (cpuPercent p) (memPercent p) (ioRead p) (ioWrite p) (recv p) (send p) (cpu p) x.

(** [Reset] leaves [group], [gid], [cpu] and [deltaCpu] alone. *)
Definition Reset (p : t) : t :=
  mk "" "" "" (group p) (-1) 0 (gid p) 0 0 (S754_zero false) (S754_zero false) 0 0 0 0
     (cpu p) (deltaCpu p).

Section ops.
Context `{Env}.

(** One line of [/proc/<pid>/status].  [temp] is zeroed for every line; its
    [name] is a [char[128]], and [%s] has no width. *)
Definition status_line (buffer : string) : M t bool :=
  p ← get;
  (if decide (name p = "") then
     let '(n, vs) := sscanf buffer "Name:       %s" in
     let temp := arg_str 0 "" vs in
     if (128 <=? String.length temp)%nat then undef BufferOverflow
     else if negb (n =? 0) then modify (set_name temp) else mret ()
   else mret ());;
  let '(n, vs) := sscanf buffer "VmRSS:          %ld kB" in
  (if negb (n =? 0) then modify (set_memory (u64 (arg_int 0 0 vs))) else mret ());;
  let '(_, vs) := sscanf buffer "Uid: %u" in
  modify (fun p => set_uid (arg_int 0 (uid p) vs) p);;
  let '(_, vs) := sscanf buffer "Gid: %u" in
  modify (fun p => set_gid (arg_int 0 (gid p) vs) p);;
  mret false.

Definition ParseStatus : M t Z :=
  p ← get;
  let filename := proc_path (pid p) "status" in
  if (String.length filename <=? 0)%nat then mret CAP_PROCESS_FORMAT else
  s ← sys (fun os => os_file os filename);
  match s with
  | None => mret CAP_PROCESS_OPEN
  | Some content => read_lines content status_line;; mret 0
  end.

(** [s >> cmdline]: the first blank-delimited word; at the end of the file
    the string is left as it was. *)
Definition ParseCmdline : M t Z :=
  p ← get;
  let filename := proc_path (pid p) "cmdline" in
  if (String.length filename <=? 0)%nat then mret CAP_PROCESS_FORMAT else
  s ← sys (fun os => os_file os filename);
  match s with
  | None => mret CAP_PROCESS_OPEN
  | Some content =>
      match skip_space content with
      | "" => mret 0
      | text => modify (set_cmdline (fst (span not_space (String.length text) text)));; mret 0
      end
  end.

Definition io_line (buffer : string) : M t bool :=
  let '(n, vs) := sscanf buffer "rchar: %ld" in
  (if negb (n =? 0) then modify (set_ioRead (u64 (arg_int 0 0 vs))) else mret ());;
  let '(n, vs) := sscanf buffer "wchar: %ld" in
  (if negb (n =? 0) then modify (set_ioWrite (u64 (arg_int 0 0 vs))) else mret ());;
  mret false.

Definition ParseIo : M t Z :=
  p ← get;
  let filename := proc_path (pid p) "io" in
  if (String.length filename <=? 0)%nat then mret CAP_PROCESS_FORMAT else
  s ← sys (fun os => os_file os filename);
  match s with
  | None => mret CAP_PROCESS_OPEN
  | Some content => read_lines content io_line;; mret 0
  end.

Definition ParseUserAndGroup : M t Z :=
  p ← get;
  pass ← sys (fun os => os_getpwuid os (uid p));
  gr ← sys (fun os => os_getgrgid os (gid p));
  (match pass with
   | Some (Some pw_name) => modify (set_user pw_name)
   | _ => modify (set_user (to_string (uid p)))
   end);;
  (match gr with
   | Some (Some gr_name) => modify (set_group gr_name)
   | _ => modify (set_user (to_string (gid p)))
   end);;
  mret 0.

Definition ParseHandle : M t Z :=
  p ← get;
  dir ← sys (fun os => os_opendir os (proc_path (pid p) "fd"));
  match dir with
  | None => mret CAP_PROCESS_OPEN_DIR
  | Some entries =>
      let cnt := fold_left (fun cnt entry =>
        match d_kind entry with DT_LNK => u32 (cnt + 1) | _ => cnt end) entries 0 in
      modify (set_fdCnt cnt);; mret 0
  end.

Definition stat_line (buffer : string) : M t bool :=
  let '(n, vs) := sscanf buffer stat_fmt in
  if negb (n =? 0) then
    let utime := u64 (arg_int 0 0 vs) in
    let stime := u64 (arg_int 1 0 vs) in
    let now := u64 (utime + stime) in
    modify (fun p => set_cpu now (set_deltaCpu (u64 (now - cpu p)) p));;
    mret false
  else mret false.

Definition ParseStat : M t Z :=
  p ← get;
  let filename := proc_path (pid p) "stat" in
  if (String.length filename <=? 0)%nat then mret CAP_PROCESS_FORMAT else
  s ← sys (fun os => os_file os filename);
  match s with
  | None => mret CAP_PROCESS_OPEN
  | Some content => read_lines content stat_line;; mret 0
  end.

Definition ParseProc (imemory ideltacpu : Z) : M t Z :=
  p ← get;
  if pid p =? -1 then mret CAP_PROCESS_INIT else
  ret ← ParseStatus;
  if negb (ret =? 0) then mret ret else
  ret ← ParseCmdline;
  if negb (ret =? 0) then mret ret else
  _ ← ParseIo;
  ret ← ParseUserAndGroup;
  if negb (ret =? 0) then mret ret else
  _ ← ParseHandle;
  modify (fun p => set_memPercent (percent (memory p) imemory) p);;
  ret ← ParseStat;
  if negb (ret =? 0) then mret ret else
  modify (fun p => set_cpuPercent (percent (deltaCpu p) ideltacpu) p);;
  mret ret.

Definition Parse (imemory ideltacpu : Z) : M t Z := ParseProc imemory ideltacpu.
End ops.

(** [Info] prints the process on [std::cout]. *)
Definition Info (p : t) : M string () :=
  put_str "name:";; put_str (name p);; put_str " cmdline:";; put_str (cmdline p);;
  put_str " user:";; put_str (user p);; put_str " group:";; put_str (group p);;
  put_str " pid:";; put_int (pid p);; put_str " uid:";; put_int (uid p);;
  put_str " gid:";; put_int (gid p);; put_str " fdCnt:";; put_int (fdCnt p);;
  put_str " memory:";; put_int (memory p);; put_str " cpuPercent:";; put_double (cpuPercent p);;
  put_str " memPercent:";; put_double (memPercent p);;
  put_str " ioRead:";; put_int (ioRead p);; put_str " ioWrite:";; put_int (ioWrite p);;
  put_str " recv:";; put_int (recv p);; put_str " send:";; put_int (send p);;
  endl.

(** [AddPacket] settles the packet's direction: the packet is returned. *)
Definition AddPacket `{Ntop6} (devices : list CapDevice.t) (ptr : CapPacket.t) : M t CapPacket.t :=
  '(out, ptr) ← run_on ptr (CapPacket.IsOutgoing devices);
  (if out : bool
   then modify (fun p => set_send (u64 (send p + CapPacket.GetLen ptr)) p)
   else modify (fun p => set_recv (u64 (recv p + CapPacket.GetLen ptr)) p));;
  mret ptr.
End CapProcess.

(** ** The doubles of a percentage *)

(** Neither NaN nor negative. *)
Definition nonneg_number (d : double) : bool :=
  match d with
  | S754_zero s | S754_infinity s | S754_finite s _ _ => negb s
  | S754_nan => false
  end.

Definition finite_nonneg (d : double) : bool :=
  match d with S754_zero s | S754_finite s _ _ => negb s | _ => false end.

Lemma shr_1_nonneg mrs : 0 <= shr_m mrs -> 0 <= shr_m (shr_1 mrs) <= shr_m mrs.
Proof. destruct mrs as [[|[p|p|]|p] r s]; simpl; lia. Qed.

Lemma iter_shr_nonneg n mrs : 0 <= shr_m mrs -> 0 <= shr_m (SpecFloat.iter_pos shr_1 n mrs) <= shr_m mrs.
Proof.
  revert mrs. induction n as [n IH|n IH|]; intros mrs Hm; simpl.
  - pose proof (shr_1_nonneg mrs Hm).
    pose proof (IH (shr_1 mrs) ltac:(lia)). pose proof (IH (SpecFloat.iter_pos shr_1 n (shr_1 mrs)) ltac:(lia)). lia.
  - pose proof (IH mrs Hm). pose proof (IH (SpecFloat.iter_pos shr_1 n mrs) ltac:(lia)). lia.
  - by apply shr_1_nonneg.
Qed.

Lemma shr_record_m m l : shr_m (shr_record_of_loc m l) = m.
Proof. by destruct l as [|[]]. Qed.

(** A right shift keeps a non-negative mantissa and raises the exponent to the
    least one allowed. *)
Lemma shr_fexp_bounds m e l mrs e' :
  0 <= m -> shr_fexp 53 1024 m e l = (mrs, e') ->
  0 <= shr_m mrs <= m /\ e' = Z.max e (fexp 53 1024 (Zdigits2 m + e)).
Proof.
  intros Hm. unfold shr_fexp, shr.
  destruct (fexp 53 1024 (Zdigits2 m + e) - e) as [|n|n] eqn:Hn; intros [= <- <-];
    rewrite ?shr_record_m; try lia.
  pose proof (iter_shr_nonneg n (shr_record_of_loc m l)) as H. rewrite shr_record_m in H. lia.
Qed.

Lemma round_bounds m l : 0 <= m -> 0 <= round_nearest_even m l <= m + 1.
Proof. intros. unfold round_nearest_even. destruct l as [|[]]; [lia| |lia|lia]. destruct (Z.even m); lia. Qed.

Lemma binary_round_aux_nonneg m e l :
  0 <= m -> nonneg_number (binary_round_aux 53 1024 false m e l) = true.
Proof.
  intros Hm. unfold binary_round_aux.
  destruct (shr_fexp 53 1024 m e l) as [mrs e1] eqn:E1.
  apply shr_fexp_bounds in E1 as [H1 _]; [|done].
  pose proof (round_bounds (shr_m mrs) (loc_of_shr_record mrs) ltac:(lia)).
  destruct (shr_fexp 53 1024 _ e1 loc_Exact) as [mrs2 e2] eqn:E2.
  apply shr_fexp_bounds in E2 as [H2 _]; [|lia].
  destruct (shr_m mrs2); [done| |lia]. by destruct (_ <=? _).
Qed.

Lemma digits2_bound m k : 0 <= m < 2 ^ k -> 0 <= k -> Zdigits2 m <= k.
Proof.
  assert (forall p, 2 ^ (Zpos (digits2_pos p) - 1) <= Zpos p) as Hp.
  { induction p as [p IH|p IH|]; simpl; [| |done].
    all: rewrite Pos2Z.inj_succ, Z.sub_succ_l; unfold Z.succ; rewrite Z.pow_add_r by lia;
      change (2 ^ 1) with 2; lia. }
  intros Hm Hk. destruct m as [|p|p]; simpl; [lia| |lia].
  destruct (Z.le_gt_cases (Zpos (digits2_pos p)) k); [done|].
  pose proof (Hp p). pose proof (Z.pow_le_mono_r 2 k (Zpos (digits2_pos p) - 1) ltac:(lia) ltac:(lia)). lia.
Qed.

(** A rounded value of moderate size does not overflow. *)
Lemma binary_round_aux_finite m e :
  0 <= m < 2 ^ 64 -> e <= 0 -> finite_nonneg (binary_round_aux 53 1024 false m e loc_Exact) = true.
Proof.
  intros Hm He. unfold binary_round_aux.
  destruct (shr_fexp 53 1024 m e loc_Exact) as [mrs e1] eqn:E1.
  apply shr_fexp_bounds in E1 as [H1 He1]; [|lia].
  pose proof (round_bounds (shr_m mrs) (loc_of_shr_record mrs) ltac:(lia)) as Hr.
  destruct (shr_fexp 53 1024 _ e1 loc_Exact) as [mrs2 e2] eqn:E2.
  apply shr_fexp_bounds in E2 as [H2 He2]; [|lia].
  pose proof (digits2_bound m 64 Hm ltac:(lia)).
  pose proof (digits2_bound (round_nearest_even (shr_m mrs) (loc_of_shr_record mrs)) 65
    ltac:(lia) ltac:(lia)).
  unfold fexp, emin in *. destruct (shr_m mrs2); [done| |lia].
  destruct (Z.leb_spec e2 (1024 - 53)); [done|lia].
Qed.

Lemma shl_align_value m e e' mz ez :
  shl_align m e e' = (mz, ez) -> Zpos mz = Zpos m * 2 ^ (e - ez) /\ ez <= e /\ (ez = e \/ ez = e').
Proof.
  unfold shl_align. destruct (e' - e) as [|d|d] eqn:Hd; intros [= <- <-].
  - rewrite Z.sub_diag. simpl. lia.
  - rewrite Z.sub_diag. simpl. lia.
  - replace (e - e') with (Zpos d) by lia. split; [|lia].
    assert (forall q, Zpos (Pos.iter xO m q) = Zpos m * 2 ^ Zpos q) as ->; [|done].
    induction q as [|q IH] using Pos.peano_ind; [simpl; lia|].
    rewrite Pos.iter_succ, Pos2Z.inj_succ, Z.pow_succ_r by lia. lia.
Qed.

Lemma digits2_upper p : Zpos p < 2 ^ Zpos (digits2_pos p).
Proof.
  induction p as [p IH|p IH|]; simpl; [| |done].
  all: rewrite Pos2Z.inj_succ, Z.pow_succ_r by lia; lia.
Qed.

Lemma double_of_u64_finite n : 0 <= n < 2 ^ 64 -> finite_nonneg (double_of_u64 n) = true.
Proof.
  intros Hn. unfold double_of_u64, binary_normalize. destruct n as [|p|p]; [done| |lia].
  unfold binary_round. destruct (shl_align p 0 _) as [mz ez] eqn:E.
  apply shl_align_value in E as (Hmz & Hez & Hor). apply binary_round_aux_finite; [|lia].
  split; [lia|]. rewrite Hmz. destruct Hor as [->| ->]; [simpl; lia|].
  pose proof (digits2_upper p) as Hp. rewrite Z.add_0_r in *.
  assert (- 1074 <= 0 - fexp 53 1024 (Zpos (digits2_pos p)) <= 53 - Zpos (digits2_pos p) \/
          0 - fexp 53 1024 (Zpos (digits2_pos p)) < 0) as Hf by (unfold fexp, emin; lia).
  destruct Hf as [Hf|Hf]; [|rewrite (Z.pow_neg_r 2) by lia; lia].
  destruct (Z.le_gt_cases 0 (0 - fexp 53 1024 (Zpos (digits2_pos p)))) as [Hpos|Hneg];
    [|rewrite (Z.pow_neg_r 2) by lia; lia].
  apply Z.lt_le_trans with (2 ^ Zpos (digits2_pos p) *
    2 ^ (0 - fexp 53 1024 (Zpos (digits2_pos p)))).
  - apply Z.mul_lt_mono_pos_r; [apply Z.pow_pos_nonneg; lia|done].
  - rewrite <- Z.pow_add_r by lia. apply Z.pow_le_mono_r; lia.
Qed.

Lemma SFdiv_nonneg x y :
  finite_nonneg x = true -> finite_nonneg y = true -> y <> S754_zero false ->
  nonneg_number (SFdiv 53 1024 x y) = true.
Proof.
  destruct x as [[]| | |[] m e]; try done; destruct y as [[]| | |[] m' e']; try done.
  intros _ _ _. unfold SFdiv. destruct (SFdiv_core_binary _ _ _ _ _ _) as [[q e''] l] eqn:E.
  apply binary_round_aux_nonneg. unfold SFdiv_core_binary in E.
  destruct (Z.div_eucl _ (Zpos m')) as [q' r'] eqn:Ed. injection E as <- _ _.
  pose proof (Z_div_mod (match e - e' - Z.min (fexp 53 1024 (Zdigits2 (Zpos m) + e -
    (Zdigits2 (Zpos m') + e'))) (e - e') with
    | Z0 => Zpos m | Zpos _ => Z.shiftl (Zpos m) (e - e' - Z.min (fexp 53 1024 (Zdigits2 (Zpos m) + e -
    (Zdigits2 (Zpos m') + e'))) (e - e')) | Zneg _ => 0 end) (Zpos m') ltac:(lia)) as Hd.
  rewrite Ed in Hd. destruct Hd as [Hd Hr].
  assert (0 <= Zpos m' * q' + r') as H0.
  { rewrite <- Hd. destruct (e - e' - _) as [|s|s]; [lia| |lia]. apply Z.shiftl_nonneg. lia. }
  nia.
Qed.

(** A shift that leaves a bit of the mantissa does not reach zero. *)
Lemma shr_1_half mrs : 0 <= shr_m mrs -> shr_m (shr_1 mrs) = shr_m mrs / 2.
Proof.
  destruct mrs as [[|[p|p|]|p] r s]; simpl; try lia; intros _;
    solve [apply Z.div_unique with 1; lia | apply Z.div_unique with 0; lia].
Qed.

Lemma iter_shr_div n mrs :
  0 <= shr_m mrs -> shr_m (SpecFloat.iter_pos shr_1 n mrs) = shr_m mrs / 2 ^ Zpos n.
Proof.
  assert (forall a p, 0 <= a -> a / 2 ^ Zpos p / 2 ^ Zpos p = a / 2 ^ (2 * Zpos p)) as Hdd.
  { intros a p Ha. rewrite Z.div_div by (try apply Z.pow_pos_nonneg; lia).
    rewrite <- Z.pow_add_r by lia. do 2 f_equal. lia. }
  revert mrs. induction n as [n IH|n IH|]; intros mrs Hm; simpl.
  - pose proof (shr_1_nonneg mrs Hm). pose proof (iter_shr_nonneg n (shr_1 mrs) ltac:(lia)).
    rewrite !IH, shr_1_half, Hdd by (done || lia || (apply Z.div_pos; lia)).
    rewrite Z.div_div by (try apply Z.pow_pos_nonneg; lia).
    rewrite Pos2Z.inj_xI, (Z.add_comm _ 1), Z.pow_add_r by lia. done.
  - pose proof (iter_shr_nonneg n mrs ltac:(lia)). rewrite !IH, Hdd by (done || lia).
    by rewrite Pos2Z.inj_xO.
  - by rewrite shr_1_half.
Qed.

Lemma digits2_lower p : 2 ^ (Zpos (digits2_pos p) - 1) <= Zpos p.
Proof.
  induction p as [p IH|p IH|]; simpl; [| |done].
  all: rewrite Pos2Z.inj_succ, Z.sub_succ_l; unfold Z.succ; rewrite Z.pow_add_r by lia;
    change (2 ^ 1) with 2; lia.
Qed.

Lemma shr_fexp_pos m e l mrs e' :
  0 < m -> - 1074 <= e -> shr_fexp 53 1024 m e l = (mrs, e') -> 0 < shr_m mrs.
Proof.
  intros Hm He. unfold shr_fexp, shr.
  destruct (fexp 53 1024 (Zdigits2 m + e) - e) as [|n|n] eqn:Hn; intros [= <- <-];
    rewrite ?iter_shr_div; rewrite ?shr_record_m; try lia.
  destruct m as [|p|p]; try lia. simpl in Hn. pose proof (digits2_lower p) as Hp.
  unfold fexp, emin in Hn.
  apply Z.div_str_pos. split; [apply Z.pow_pos_nonneg; lia|].
  etrans; [|apply Hp]. apply Z.pow_le_mono_r; lia.
Qed.

Lemma round_pos m l : 0 < m -> 0 < round_nearest_even m l.
Proof. intros. unfold round_nearest_even. destruct l as [|[]]; [lia| |lia|lia]. destruct (Z.even m); lia. Qed.

Lemma double_of_u64_nonzero n : 0 < n < 2 ^ 64 -> double_of_u64 n <> S754_zero false.
Proof.
  intros Hn. unfold double_of_u64, binary_normalize. destruct n as [|p|p]; try lia.
  unfold binary_round. destruct (shl_align p 0 _) as [mz ez] eqn:E.
  apply shl_align_value in E as (_ & Hez & Hor).
  assert (- 1074 <= ez) as Hez' by (unfold fexp, emin in Hor; lia). clear Hor.
  unfold binary_round_aux.
  destruct (shr_fexp 53 1024 (Zpos mz) ez loc_Exact) as [mrs e1] eqn:E1.
  pose proof (shr_fexp_pos (Zpos mz) ez _ _ _ ltac:(lia) Hez' E1) as H1.
  apply shr_fexp_bounds in E1 as [_ He1]; [|lia].
  pose proof (round_pos (shr_m mrs) (loc_of_shr_record mrs) H1) as Hr.
  destruct (shr_fexp 53 1024 _ e1 loc_Exact) as [mrs2 e2] eqn:E2.
  pose proof (shr_fexp_pos _ e1 _ _ _ Hr ltac:(lia) E2) as H2.
  destruct (shr_m mrs2); [lia| |lia]. by destruct (_ <=? _).
Qed.

Lemma percent_nonneg part total :
  0 <= total < 2 ^ 64 -> nonneg_number (percent part total) = true.
Proof.
  intros Ht. unfold percent. destruct (Z.eqb_spec total 0); [done|].
  apply SFdiv_nonneg.
  - apply double_of_u64_finite, u64_range.
  - by apply double_of_u64_finite.
  - apply double_of_u64_nonzero. lia.
Qed.

(** ** Invariants of a process record *)

(** What no parsing changes. *)
Definition kept (p p' : CapProcess.t) : Prop :=
  CapProcess.pid p' = CapProcess.pid p /\
  CapProcess.recv p' = CapProcess.recv p /\ CapProcess.send p' = CapProcess.send p.

Definition in64 (z : Z) : Prop := 0 <= z < 2 ^ 64.

(** Every field is in the range of its C++ type, and the percentages are
    numbers. *)
Record process_wf (p : CapProcess.t) : Prop := {
  wf_uid : word32 (CapProcess.uid p);
  wf_gid : word32 (CapProcess.gid p);
  wf_fdCnt : word32 (CapProcess.fdCnt p);
  wf_memory : in64 (CapProcess.memory p);
  wf_io : in64 (CapProcess.ioRead p) /\ in64 (CapProcess.ioWrite p);
  wf_net : in64 (CapProcess.recv p) /\ in64 (CapProcess.send p);
  wf_cpu : in64 (CapProcess.cpu p) /\ in64 (CapProcess.deltaCpu p);
  wf_percent : nonneg_number (CapProcess.cpuPercent p) = true /\
               nonneg_number (CapProcess.memPercent p) = true
}.

Lemma process_wf_new pid : process_wf (CapProcess.new pid).
Proof. by constructor. Qed.

Lemma uid_values buffer : Forall u32_val (snd (sscanf buffer "Uid: %u")).
Proof. by apply sscanf_unsigned. Qed.

Lemma gid_values buffer : Forall u32_val (snd (sscanf buffer "Gid: %u")).
Proof. by apply sscanf_unsigned. Qed.

(** An assertion that the readers of every file but [stat] maintain. *)
Record parse_closed (I : CapProcess.t -> Prop) : Prop := {
  cl_name x p : I p -> I (CapProcess.set_name x p);
  cl_cmdline x p : I p -> I (CapProcess.set_cmdline x p);
  cl_user x p : I p -> I (CapProcess.set_user x p);
  cl_group x p : I p -> I (CapProcess.set_group x p);
  cl_uid vs p : Forall u32_val vs -> I p -> I (CapProcess.set_uid (arg_int 0 (CapProcess.uid p) vs) p);
  cl_gid vs p : Forall u32_val vs -> I p -> I (CapProcess.set_gid (arg_int 0 (CapProcess.gid p) vs) p);
  cl_fdCnt x p : word32 x -> I p -> I (CapProcess.set_fdCnt x p);
  cl_memory x p : I p -> I (CapProcess.set_memory (u64 x) p);
  cl_ioRead x p : I p -> I (CapProcess.set_ioRead (u64 x) p);
  cl_ioWrite x p : I p -> I (CapProcess.set_ioWrite (u64 x) p)
}.

Lemma count_links_range entries cnt :
  word32 cnt ->
  word32 (fold_left (fun cnt entry =>
    match d_kind entry with DT_LNK => u32 (cnt + 1) | _ => cnt end) entries cnt).
Proof.
  revert cnt. induction entries as [|e es IH]; intros cnt Hc; [done|]. simpl. apply IH.
  destruct (d_kind e); [done|apply u32_range|done].
Qed.

Lemma proc_path_nonempty pid file : (String.length (proc_path pid file) <=? 0)%nat = false.
Proof. done. Qed.

(** The name a line of [status] gives fits the reader's array.  Linux names
    have at most 15 characters. *)
Definition short_name (l : string) : Prop :=
  (String.length (arg_str 0 "" (snd (sscanf l "Name:       %s"))) < 128)%nat.

Definition short_names (os : Os) : Prop :=
  forall pid content, os_file os (proc_path pid "status") = Some content ->
    forall l, l ∈ text_lines (fst (lines_of content)) -> short_name l.

(** What reading a process can run into is excluded by the system, or is among
    the failures [bad]: a line that is too long, a name that does not fit. *)
Record files_ok `{Env} (bad : failure -> Prop) : Prop := {
  files_lines : bad Diverged \/ forall t, line_files_ok (env_at t);
  files_names : bad (Undefined BufferOverflow) \/ forall t, short_names (env_at t)
}.

Lemma files_ok_any `{Env} : files_ok (fun _ => True).
Proof. split; by left. Qed.

Section closed.
Context `{Env} (bad : failure -> Prop) (Hok : files_ok bad).
Context (I : CapProcess.t -> Prop) (HI : parse_closed I).

(** The code of a reader, and the assertion. *)
Definition opened (ret : Z) (p : CapProcess.t) (_ : nat) : Prop :=
  (ret = 0 \/ ret = CAP_PROCESS_OPEN) /\ I p.

Lemma status_line_closed l p t :
  bad (Undefined BufferOverflow) \/ short_name l ->
  I p -> wpx bad (CapProcess.status_line l) (fun _ p' _ => I p') p t.
Proof.
  intros Hl Hp. unfold CapProcess.status_line.
  pose proof (uid_values l) as Hu. pose proof (gid_values l) as Hg.
  apply wpx_bind, wpx_get, wpx_bind.
  apply wpx_mono with (Q := fun _ p' _ => I p').
  { destruct (decide _); [|done]. unfold short_name in Hl.
    destruct (sscanf l "Name:       %s") as [n vs]. simpl in Hl.
    destruct (_ <=? _)%nat eqn:E.
    - destruct Hl as [Hl|Hl]; [done|]. bool_to_prop. lia.
    - repeat wp_step; first [done | by apply (cl_name I HI)]. }
  intros [] p1 t1 H1. destruct (sscanf l "VmRSS:          %ld kB") as [n vs]. apply wpx_bind.
  apply wpx_mono with (Q := fun _ p' _ => I p').
  { repeat wp_step; first [done | by apply (cl_memory I HI)]. }
  intros [] p2 t2 H2. destruct (sscanf l "Uid: %u") as [nu vu].
  apply wpx_bind, wpx_modify. destruct (sscanf l "Gid: %u") as [ng vg].
  apply wpx_bind, wpx_modify, wpx_ret. by apply (cl_gid I HI), (cl_uid I HI).
Qed.

Lemma io_line_closed l p t :
  I p -> wpx bad (CapProcess.io_line l) (fun _ p' _ => I p') p t.
Proof.
  intros Hp. unfold CapProcess.io_line. destruct (sscanf l "rchar: %ld") as [n vs].
  apply wpx_bind. apply wpx_mono with (Q := fun _ p' _ => I p').
  { repeat wp_step; first [done | by apply (cl_ioRead I HI)]. }
  intros [] p1 t1 H1. destruct (sscanf l "wchar: %ld") as [n' vs'].
  apply wpx_bind. apply wpx_mono with (Q := fun _ p' _ => I p'); [|done].
  repeat wp_step; first [done | by apply (cl_ioWrite I HI)].
Qed.

Lemma pid_line_file pid name :
  name ∈ ["status"; "io"; "stat"] -> line_file (proc_path pid name).
Proof. intros Hn. right. by exists pid, name. Qed.

(** The readers of one file share their shape: an error code when it cannot
    be opened, else the lines. *)
Lemma read_file_closed file body p t :
  line_file file -> I p ->
  (forall content l p' t', os_file (env_at t) file = Some content ->
     l ∈ text_lines (fst (lines_of content)) -> I p' ->
     wpx bad (body l) (fun _ p' _ => I p') p' t') ->
  wpx bad (s ← sys (fun os => os_file os file);
       match s with
       | None => mret CAP_PROCESS_OPEN
       | Some content => read_lines content body;; mret 0
       end) opened p t.
Proof.
  intros Hfile Hp Hbody. wp_step. apply wpx_sys.
  destruct (os_file _ _) as [content|] eqn:E; [|split; [by right|done]].
  wp_step. eapply wpx_mono; [apply (wpx_read_lines _ I); eauto|].
  { destruct (files_lines bad Hok) as [|Hl]; [by left|right; left]. by apply (Hl t file). } split; [by left|done].
Qed.

Lemma ParseStatus_closed p t : I p -> wpx bad CapProcess.ParseStatus opened p t.
Proof.
  intros Hp. unfold CapProcess.ParseStatus. do 2 wp_step.
  apply read_file_closed; [apply pid_line_file; set_solver|done|]. intros content l p' t' Hf Hl Hp'.
  apply status_line_closed; [|done]. destruct (files_names bad Hok) as [|Hs]; [by left|right].
  by apply (Hs t _ _ Hf).
Qed.

Lemma ParseCmdline_closed p t : I p -> wpx bad CapProcess.ParseCmdline opened p t.
Proof.
  intros Hp. unfold CapProcess.ParseCmdline. do 2 wp_step.
  rewrite proc_path_nonempty. wp_step. apply wpx_sys.
  destruct (os_file _ _) as [content|]; [|split; [by right|done]].
  destruct (skip_space content); [split; [by left|done]|]. do 3 wp_step.
  split; [by left|by apply (cl_cmdline I HI)].
Qed.

Lemma ParseIo_closed p t : I p -> wpx bad CapProcess.ParseIo opened p t.
Proof.
  intros Hp. unfold CapProcess.ParseIo. do 2 wp_step.
  apply read_file_closed; [apply pid_line_file; set_solver|done|]. eauto using io_line_closed.
Qed.

Lemma ParseUserAndGroup_closed p t :
  I p -> wpx bad CapProcess.ParseUserAndGroup (fun ret p' _ => ret = 0 /\ I p') p t.
Proof.
  intros Hp. unfold CapProcess.ParseUserAndGroup.
  wp_sys; split; repeat first [done | apply (cl_user I HI) | apply (cl_group I HI)].
Qed.

Lemma ParseHandle_closed p t : I p -> wpx bad CapProcess.ParseHandle (fun _ p' _ => I p') p t.
Proof.
  intros Hp. unfold CapProcess.ParseHandle. do 2 wp_step. wp_step. apply wpx_sys.
  destruct (os_opendir _ _) as [entries|]; [|done]. do 3 wp_step.
  apply (cl_fdCnt I HI); [by apply count_links_range|done].
Qed.

(** Up to [stat], the assertion; then what the caller proves of the rest. *)
Lemma ParseProc_closed (Q : Z -> CapProcess.t -> nat -> Prop) imemory ideltacpu p t :
  CapProcess.pid p <> -1 -> I p ->
  (forall p t, I p -> Q CAP_PROCESS_OPEN p t) ->
  (forall p t, I p ->
     wpx bad (ret ← CapProcess.ParseStat;
          if negb (ret =? 0) then mret ret else
          modify (fun p => CapProcess.set_cpuPercent
                             (percent (CapProcess.deltaCpu p) ideltacpu) p);;
          mret ret) Q (CapProcess.set_memPercent (percent (CapProcess.memory p) imemory) p) t) ->
  wpx bad (CapProcess.ParseProc imemory ideltacpu) Q p t.
Proof.
  intros Hpid Hp Herr Hstat. unfold CapProcess.ParseProc. do 2 wp_step.
  apply Z.eqb_neq in Hpid as ->. wp_step.
  eapply wpx_mono; [by apply ParseStatus_closed|]. intros ret p1 t1 [[->| ->] H1]; [|by apply Herr].
  cbn [Z.eqb negb]. wp_step.
  eapply wpx_mono; [by apply ParseCmdline_closed|]. intros ret p2 t2 [[->| ->] H2]; [|by apply Herr].
  cbn [Z.eqb negb]. wp_step.
  eapply wpx_mono; [by apply ParseIo_closed|]. intros ret p3 t3 [_ H3]. wp_step.
  eapply wpx_mono; [by apply ParseUserAndGroup_closed|]. intros ret' p4 t4 [-> H4].
  cbn [Z.eqb negb]. wp_step.
  eapply wpx_mono; [by apply ParseHandle_closed|]. intros ret' p5 t5 H5. do 2 wp_step.
  by apply Hstat.
Qed.
End closed.

(** ** Well-formedness *)

Section good.
Context `{Env} (p0 : CapProcess.t).

Definition good (p : CapProcess.t) : Prop := kept p0 p /\ process_wf p.

Ltac good_tac :=
  match goal with
  | H : good _ |- good _ =>
      destruct H as [(? & ? & ?) []]; split; [done|];
      destruct_and?; constructor; simpl;
      first [assumption | apply u64_range | apply u32_range | by apply arg_u32
            | split; first [assumption | apply u64_range | by apply percent_nonneg]]
  end.

Lemma good_closed : parse_closed good.
Proof. constructor; intros; good_tac. Qed.

Lemma good_percent_mem total p :
  in64 total -> good p -> good (CapProcess.set_memPercent (percent (CapProcess.memory p) total) p).
Proof. intros. good_tac. Qed.

Lemma good_percent_cpu total p :
  in64 total -> good p -> good (CapProcess.set_cpuPercent (percent (CapProcess.deltaCpu p) total) p).
Proof. intros. good_tac. Qed.

Context (bad : failure -> Prop) (Hok : files_ok bad).

Lemma stat_line_good l p t :
  good p -> wpx bad (CapProcess.stat_line l) (fun _ p' _ => good p') p t.
Proof.
  intros Hp. unfold CapProcess.stat_line. destruct (sscanf l stat_fmt) as [n vs].
  repeat wp_step; first [done | good_tac].
Qed.

Lemma ParseStat_good p t : good p -> wpx bad CapProcess.ParseStat (opened good) p t.
Proof.
  intros Hp. unfold CapProcess.ParseStat. do 2 wp_step.
  apply read_file_closed; [done|apply pid_line_file; set_solver|done|].
  eauto using stat_line_good.
Qed.

Lemma ParseProc_good imemory ideltacpu p t :
  in64 imemory -> in64 ideltacpu -> good p ->
  wpx bad (CapProcess.ParseProc imemory ideltacpu) (fun _ p' _ => good p') p t.
Proof.
  intros Hm Hc Hp. destruct (decide (CapProcess.pid p = -1)) as [E|E].
  { unfold CapProcess.ParseProc. do 2 wp_step. by rewrite E. }
  apply (ParseProc_closed bad Hok good good_closed); [done..|]. clear p t Hp E. intros p t Hp. wp_step.
  eapply wpx_mono; [by apply ParseStat_good, good_percent_mem|].
  intros ret p1 t1 [_ H1]. wp_step; [done|]. do 3 wp_step. by apply good_percent_cpu.
Qed.
End good.

(** ** CPU accounting changes only when [stat] was read *)

Definition accounts (p : CapProcess.t) : Z * Z * double :=
  (CapProcess.cpu p, CapProcess.deltaCpu p, CapProcess.cpuPercent p).

Lemma accounts_closed a : parse_closed (fun p => accounts p = a).
Proof. by constructor. Qed.

Lemma ParseProc_error `{Env} imemory ideltacpu p t :
  CapProcess.pid p <> -1 ->
  wlp (CapProcess.ParseProc imemory ideltacpu)
    (fun ret p' _ => ret <> 0 -> ret = CAP_PROCESS_OPEN /\ accounts p' = accounts p) p t.
Proof.
  intros Hpid. apply (ParseProc_closed _ files_ok_any _ (accounts_closed (accounts p))); [done..|].
  intros p1 t1 H1. unfold CapProcess.ParseStat. cbv [mbind M_bind get sys].
  unfold wpx. destruct (_ <=? _)%nat eqn:E; [done|].
  destruct (os_file _ _) as [content|]; [|done].
  destruct (read_lines _ _ _ _) as [[[??]?]| | |]; done.
Qed.

(** ** Keyed lines

    The formats of [status] and [io] are a key, blanks and a conversion. *)

Definition key_fmt (key : string) (n : nat) (ds : list dir) : list dir :=
  map DLit (list_ascii_of_string key) ++ replicate n DSpace ++ ds.

(** [s] departs from [key] before either of them ends. *)
Fixpoint mismatch (key s : string) : bool :=
  match key, s with
  | String a key, String b s => if decide (a = b) then mismatch key s else true
  | _, _ => false
  end.

Lemma mismatch_app key a b : mismatch key a = true -> mismatch key (a +:+ b) = true.
Proof.
  revert a. induction key as [|c key IH]; intros [|x a]; simpl; try done.
  destruct (decide _); [apply IH|done].
Qed.

Lemma scan_key_absent key n ds s :
  mismatch key s = true -> scan (key_fmt key n ds) s = ([], MatchFailure).
Proof.
  revert s. induction key as [|c key IH]; intros [|x s]; simpl; try done.
  destruct (decide _); [apply IH|done].
Qed.

Lemma skip_space_idem s : skip_space (skip_space s) = skip_space s.
Proof. induction s as [|c s IH]; [done|]. simpl. destruct (is_space c) eqn:E; [done|]. simpl. by rewrite E. Qed.

Lemma scan_spaces n ds s : scan (replicate (S n) DSpace ++ ds) s = scan ds (skip_space s).
Proof.
  revert s. induction n as [|n IH]; intros s; [done|].
  change (scan (replicate (S n) DSpace ++ ds) (skip_space s) = scan ds (skip_space s)).
  by rewrite IH, skip_space_idem.
Qed.

Lemma scan_key key n ds s : scan (key_fmt key (S n) ds) (key +:+ s) = scan ds (skip_space s).
Proof.
  unfold key_fmt. induction key as [|c key IH]; [apply scan_spaces|].
  cbn [list_ascii_of_string map]. change (String c key +:+ s) with (String c (key +:+ s)).
  cbn [app scan]. by rewrite decide_True.
Qed.

Lemma sscanf_key_absent key n ds fmt l :
  parse_fmt fmt = key_fmt key n ds -> str_forall not_nul l = true -> mismatch key l = true ->
  sscanf l fmt = (0, []).
Proof.
  intros Hf Hl Hm. unfold sscanf. by rewrite Hf, c_str_id, scan_key_absent.
Qed.

Lemma sscanf_key key n ds fmt s v vs e :
  parse_fmt fmt = key_fmt key (S n) ds -> str_forall not_nul (key +:+ s) = true ->
  scans ds (skip_space s) (v :: vs) e ->
  sscanf (key +:+ s) fmt = (Z.of_nat (length (v :: vs)), v :: vs).
Proof.
  intros Hf Hl Hs.
  change (Z.of_nat (length (v :: vs))) with (scan_return (v :: vs, e)).
  apply sscanf_scans with (key_fmt key (S n) ds); [done|].
  unfold scans. by rewrite c_str_id, scan_key.
Qed.

(** ** What the files of a process say *)

Definition TAB : ascii := "009".

(** A line of [status].  A name is read up to its first blank. *)
Inductive status_field :=
  | FName (word rest : string)
  | FRss (pad : string) (kb : Z)
  | FUid (id : Z) (rest : string)
  | FGid (id : Z) (rest : string)
  | FOther (line : string).

Definition print_status (f : status_field) : string :=
  match f with
  | FName word rest => "Name:" +:+ String TAB (word +:+ rest)
  | FRss pad kb => "VmRSS:" +:+ String TAB (pad +:+ (to_string kb +:+ " kB"))
  | FUid id rest => "Uid:" +:+ String TAB (to_string id +:+ rest)
  | FGid id rest => "Gid:" +:+ String TAB (to_string id +:+ rest)
  | FOther line => line
  end.

Definition status_ok (f : status_field) : Prop :=
  plain (print_status f) /\
  match f with
  | FName word rest =>
      word <> "" /\ str_forall not_space word = true /\ stops not_space rest = true /\
      (String.length word < 128)%nat
  | FRss pad kb => str_forall is_space pad = true /\ 0 <= kb < 2 ^ 63
  | FUid id rest | FGid id rest => word32 id /\ number_end rest = true
  | FOther line =>
      Forall (fun key => mismatch key line = true) ["Name:"; "VmRSS:"; "Uid:"; "Gid:"]
  end.

(** What a line means for the record: a name is taken once. *)
Definition apply_status (p : CapProcess.t) (f : status_field) : CapProcess.t :=
  match f with
  | FName word _ => if decide (CapProcess.name p = "") then CapProcess.set_name word p else p
  | FRss _ kb => CapProcess.set_memory kb p
  | FUid id _ => CapProcess.set_uid id p
  | FGid id _ => CapProcess.set_gid id p
  | FOther _ => p
  end.

(** A line of [io]. *)
Inductive io_field := FRead (n : Z) | FWrite (n : Z) | FIoOther (line : string).

Definition print_io (f : io_field) : string :=
  match f with
  | FRead n => "rchar:" +:+ String " " (to_string n)
  | FWrite n => "wchar:" +:+ String " " (to_string n)
  | FIoOther line => line
  end.

Definition io_ok (f : io_field) : Prop :=
  plain (print_io f) /\
  match f with
  | FRead n | FWrite n => 0 <= n < 2 ^ 63
  | FIoOther line => mismatch "rchar:" line = true /\ mismatch "wchar:" line = true
  end.

Definition apply_io (p : CapProcess.t) (f : io_field) : CapProcess.t :=
  match f with
  | FRead n => CapProcess.set_ioRead n p
  | FWrite n => CapProcess.set_ioWrite n p
  | FIoOther _ => p
  end.

Lemma str_app_nil_end s : s +:+ "" = s.
Proof. induction s as [|c s IH]; [done|]. simpl. by rewrite IH. Qed.

Lemma set_uid_id p : CapProcess.set_uid (CapProcess.uid p) p = p.
Proof. by destruct p. Qed.

Lemma set_gid_id p : CapProcess.set_gid (CapProcess.gid p) p = p.
Proof. by destruct p. Qed.

Lemma status_line_of l t p (name_vs rss_vs uid_vs gid_vs : list sval) :
  sscanf l "Name:       %s" = (Z.of_nat (length name_vs), name_vs) ->
  sscanf l "VmRSS:          %ld kB" = (Z.of_nat (length rss_vs), rss_vs) ->
  (exists n, sscanf l "Uid: %u" = (n, uid_vs)) -> (exists n, sscanf l "Gid: %u" = (n, gid_vs)) ->
  (String.length (arg_str 0 "" name_vs) < 128)%nat ->
  CapProcess.status_line l p t =
    let p := match name_vs with
             | [] => p
             | _ => if decide (CapProcess.name p = "")
                    then CapProcess.set_name (arg_str 0 "" name_vs) p else p
             end in
    let p := match rss_vs with
             | [] => p
             | _ => CapProcess.set_memory (u64 (arg_int 0 0 rss_vs)) p
             end in
    let p := CapProcess.set_uid (arg_int 0 (CapProcess.uid p) uid_vs) p in
    Done (false, CapProcess.set_gid (arg_int 0 (CapProcess.gid p) gid_vs) p, t).
Proof.
  intros Hn Hr [nu Hu] [ng Hg] Hlen. unfold CapProcess.status_line. rewrite Hn, Hr, Hu, Hg.
  cbv [mbind M_bind get mret M_ret modify].
  destruct (Nat.leb_spec 128 (String.length (arg_str 0 "" name_vs))); [lia|].
  destruct (decide (CapProcess.name p = "")), name_vs, rss_vs; try done.
Qed.

Lemma u64_int63 n : 0 <= n < 2 ^ 63 -> u64 (store_int true n) = n.
Proof. intros. rewrite store_int64 by lia. apply u64_id. lia. Qed.

(** The first of the numbers of an owner. *)
Lemma sscanf_key_owner key fmt id rest :
  parse_fmt fmt = key_fmt key 1 [DConv false None false CUint] ->
  str_forall not_nul (key +:+ String TAB (to_string id +:+ rest)) = true ->
  0 <= id -> number_end rest = true ->
  sscanf (key +:+ String TAB (to_string id +:+ rest)) fmt = (1, [VInt (store_uint false id)]).
Proof.
  intros Hf Hnul Hid Hr. apply (sscanf_key key 0 _ _ _ (VInt (store_uint false id)) [] ScanDone Hf Hnul).
  cbn [skip_space]. change (is_space TAB) with true. cbv iota. rewrite skip_space_dec by done.
  eapply scans_conv; [by apply convert_udec|]. apply scans_nil.
Qed.

(** The name. *)
Lemma sscanf_key_name word rest :
  str_forall not_nul ("Name:" +:+ String TAB (word +:+ rest)) = true ->
  word <> "" -> str_forall not_space word = true ->
  stops not_space rest = true ->
  sscanf ("Name:" +:+ String TAB (word +:+ rest)) "Name:       %s" = (1, [VStr word]).
Proof.
  intros Hnul Hne Hw Hr.
  apply (sscanf_key "Name:" 6 [DConv false None false CStr] "Name:       %s" _ (VStr word) [] ScanDone
    eq_refl Hnul).
  cbn [skip_space]. change (is_space TAB) with true. cbv iota.
  assert (skip_space (word +:+ rest) = word +:+ rest) as Hskip.
  { apply skip_space_stop. destruct word as [|c word]; [done|]. simpl in Hw |- *.
    by apply andb_prop in Hw as [? _]. }
  rewrite Hskip. eapply (scans_conv _ _ _ _ _ _ rest); [|apply scans_nil].
  unfold convert. rewrite Hskip.
  destruct word as [|c word]; [done|]. by apply (scan_token_app not_space None (String c word)).
Qed.

Lemma status_line_field `{Env} f p t :
  status_ok f ->
  CapProcess.status_line (print_status f) p t = Done (false, apply_status p f, t).
Proof.
  intros [(_ & Hnul & _) Hok].
  assert (forall key n ds fmt, parse_fmt fmt = key_fmt key n ds ->
    mismatch key (print_status f) = true -> sscanf (print_status f) fmt = (0, [])) as Habs
    by eauto using sscanf_key_absent.
  pose proof (Habs "Name:" 7%nat [DConv false None false CStr] "Name:       %s" eq_refl) as A1.
  pose proof (Habs "VmRSS:" 10%nat [DConv false None true CInt; DSpace; DLit "k"; DLit "B"]
    "VmRSS:          %ld kB" eq_refl) as A2.
  pose proof (Habs "Uid:" 1%nat [DConv false None false CUint] "Uid: %u" eq_refl) as A3.
  pose proof (Habs "Gid:" 1%nat [DConv false None false CUint] "Gid: %u" eq_refl) as A4.
  clear Habs. destruct f as [word rest|pad kb|id rest|id rest|l]; cbn [print_status] in *.
  - destruct Hok as (Hne & Hw & Hr & Hlen).
    rewrite (status_line_of _ _ _ [VStr word] [] [] []); eauto;
      [simpl; destruct p; simpl; by destruct (decide _)|].
    by apply sscanf_key_name.
  - destruct Hok as [Hpad Hkb].
    rewrite (status_line_of _ _ _ [] [VInt (store_int true kb)] [] []); eauto; try (simpl; lia).
    + change (Done (false, CapProcess.set_gid (CapProcess.gid p) (CapProcess.set_uid
        (CapProcess.uid p) (CapProcess.set_memory (u64 (store_int true kb)) p)), t) = Done
        (false, CapProcess.set_memory kb p, t)). rewrite u64_int63 by done. by destruct p.
    + apply (sscanf_key "VmRSS:" 9 [DConv false None true CInt; DSpace; DLit "k"; DLit "B"]
        "VmRSS:          %ld kB" _ _ _ ScanDone eq_refl Hnul). cbn [skip_space].
      change (is_space TAB) with true. cbv iota.
      rewrite skip_space_app, skip_space_dec by (done || lia).
      eapply scans_conv; [apply convert_int; done|]. repeat scan_step.
  - destruct Hok as [Hid Hr].
    rewrite (status_line_of _ _ _ [] [] [VInt (store_uint false id)] []); eauto; try (simpl; lia).
    + cbn [arg_int lookup list_lookup]. rewrite store_uint32 by done. by destruct p.
    + eexists. apply (sscanf_key_owner "Uid:"); [done|exact Hnul|apply Hid|exact Hr].
  - destruct Hok as [Hid Hr].
    rewrite (status_line_of _ _ _ [] [] [] [VInt (store_uint false id)]); eauto; try (simpl; lia).
    + cbn [arg_int lookup list_lookup]. rewrite store_uint32 by done. by destruct p.
    + eexists. apply (sscanf_key_owner "Gid:"); [done|exact Hnul|apply Hid|exact Hr].
  - rewrite !Forall_cons in Hok. destruct Hok as (H1 & H2 & H3 & H4 & _).
    rewrite (status_line_of _ _ _ [] [] [] []); eauto; [by destruct p|simpl; lia].
Qed.

Lemma io_line_field `{Env} f p t :
  io_ok f -> CapProcess.io_line (print_io f) p t = Done (false, apply_io p f, t).
Proof.
  intros [(_ & Hnul & _) Hok]. unfold CapProcess.io_line.
  assert (forall key s n, 0 <= n < 2 ^ 63 -> s = key +:+ String " " (to_string n) ->
    str_forall not_nul s = true ->
    forall fmt, parse_fmt fmt = key_fmt key 1 [DConv false None true CInt] ->
    sscanf s fmt = (1, [VInt (store_int true n)])) as Hkey.
  { intros key s n Hn -> Hnul' fmt Hf.
    apply (sscanf_key key 0 _ _ _ (VInt (store_int true n)) [] ScanDone Hf Hnul'). cbn [skip_space].
    change (is_space " ") with true. cbv iota.
    rewrite <- (str_app_nil_end (to_string n)) at 1. rewrite skip_space_dec by lia.
    eapply scans_conv; [by apply convert_int|]. apply scans_nil. }
  destruct f as [n|n|l]; cbn [print_io] in *.
  - rewrite (Hkey "rchar:" _ n Hok eq_refl Hnul "rchar: %ld" eq_refl).
    rewrite (sscanf_key_absent "wchar:" 1 [DConv false None true CInt]) by done.
    change (Done (false, CapProcess.set_ioRead (u64 (store_int true n)) p, t) =
      Done (false, CapProcess.set_ioRead n p, t)). by rewrite u64_int63.
  - rewrite (Hkey "wchar:" _ n Hok eq_refl Hnul "wchar: %ld" eq_refl).
    rewrite (sscanf_key_absent "rchar:" 1 [DConv false None true CInt]) by done.
    change (Done (false, CapProcess.set_ioWrite (u64 (store_int true n)) p, t) =
      Done (false, CapProcess.set_ioWrite n p, t)). by rewrite u64_int63.
  - destruct Hok as [H1 H2].
    rewrite (sscanf_key_absent "rchar:" 1 [DConv false None true CInt]) by done.
    by rewrite (sscanf_key_absent "wchar:" 1 [DConv false None true CInt]) by done.
Qed.

(** The line of [stat]: the fields before the times are the ten integers from
    the parent to the page faults; what follows the times is not looked at. *)
Record stat_row := mk_stat_row {
  st_pid : Z;
  st_comm : string;
  st_state : string;
  st_fields : list Z;
  st_utime : Z;
  st_stime : Z;
  st_tail : string
}.

Definition print_ints (ns : list Z) (rest : string) : string :=
  foldr (fun n s => to_string n +:+ String " " s) rest ns.

Definition print_times (r : stat_row) : string :=
  to_string (st_utime r) +:+ String " " (to_string (st_stime r) +:+ st_tail r).

Definition print_stat (r : stat_row) : string :=
  to_string (st_pid r) +:+ String " " (st_comm r +:+ String " " (st_state r +:+ String " "
    (print_ints (st_fields r) (print_times r)))).

Definition token (w : string) : Prop := w <> "" /\ str_forall not_space w = true.

Definition stat_ok (r : stat_row) : Prop :=
  plain (print_stat r) /\ token (st_comm r) /\ token (st_state r) /\
  length (st_fields r) = 10%nat /\
  0 <= st_utime r < 2 ^ 63 /\ 0 <= st_stime r < 2 ^ 63 /\ number_end (st_tail r) = true.

Definition skip_d : dir := DConv true None false CInt.
Definition skip_s : dir := DConv true None false CStr.

Lemma stat_fmt_dirs :
  parse_fmt stat_fmt =
    [skip_d; DSpace; skip_s; DSpace; skip_s; DSpace] ++
    concat (replicate 10 [skip_d; DSpace]) ++
    [DConv false None true CInt; DSpace; DConv false None true CInt] ++
    concat (replicate 24 [DSpace; skip_d]) .
Proof. vm_compute. reflexivity. Qed.

Lemma skip_space_token w s : token w -> skip_space (w +:+ s) = w +:+ s.
Proof.
  intros [Hne Hw]. apply skip_space_stop. destruct w as [|c w]; [done|]. simpl in Hw |- *.
  by apply andb_prop in Hw as [? _].
Qed.

Lemma convert_token l w s :
  token w -> stops not_space s = true -> convert CStr l None (w +:+ s) = CvOk (VStr w) s.
Proof.
  intros Hw Hs. unfold convert. rewrite skip_space_token by done. destruct Hw as [Hne Hw].
  destruct w as [|c w]; [done|]. by apply (scan_token_app not_space None (String c w)).
Qed.

Lemma skip_space_int n s : skip_space (to_string n +:+ s) = to_string n +:+ s.
Proof.
  destruct (Z.le_gt_cases 0 n) as [|Hn]; [by apply skip_space_dec|].
  unfold to_string. destruct (Z.ltb_spec n 0); [done|lia].
Qed.

Lemma scan_ints ns ds rest vs e :
  scans ds (skip_space rest) vs e ->
  scans (DSpace :: concat (replicate (length ns) [skip_d; DSpace]) ++ ds) (print_ints ns rest) vs e.
Proof.
  intros Hs. induction ns as [|n ns IH]; [by apply scans_space|].
  apply scans_space. cbn [print_ints foldr]. rewrite skip_space_int.
  cbn [length replicate concat]. eapply scans_skip; [by apply convert_int|].
  apply scans_space. cbn [skip_space]. change (is_space " ") with true. cbv iota.
  unfold scans in *. cbn [scan] in IH. exact IH.
Qed.

Definition suppressed (d : dir) : bool :=
  match d with DConv s _ _ _ => s | DSpace => true | DLit _ => true end.

Lemma scan_suppressed ds s : forallb suppressed ds = true -> exists e, scans ds s [] e.
Proof.
  unfold scans. revert s. induction ds as [|d ds IH]; intros s Hd; [by eexists|].
  simpl in Hd. apply andb_prop in Hd as [Hd Hds]. destruct d as [|c|sp w l c]; cbn [scan].
  - by apply IH.
  - destruct s as [|c' s]; [by eexists|]. destruct (decide _); [by apply IH|by eexists].
  - simpl in Hd. subst sp. destruct (convert c l w s) as [v rest| |]; [|by eexists..].
    destruct (IH rest Hds) as [e He]. rewrite He. by eexists.
Qed.

Lemma scan_times r :
  0 <= st_utime r < 2 ^ 63 -> 0 <= st_stime r < 2 ^ 63 -> number_end (st_tail r) = true ->
  exists e, scans ([DConv false None true CInt; DSpace; DConv false None true CInt] ++
    concat (replicate 24 [DSpace; skip_d])) (print_times r)
    [VInt (st_utime r); VInt (st_stime r)] e.
Proof.
  intros Hu Hs Ht. unfold print_times.
  destruct (scan_suppressed (concat (replicate 24 [DSpace; skip_d])) (st_tail r) eq_refl) as [e He].
  exists e. eapply scans_conv; [by apply convert_dec_long|]. apply scans_space.
  cbn [skip_space]. change (is_space " ") with true. cbv iota. rewrite skip_space_int.
  eapply scans_conv; [by apply convert_dec_long|]. exact He.
Qed.

Definition apply_stat (p : CapProcess.t) (r : stat_row) : CapProcess.t :=
  let now := u64 (st_utime r + st_stime r) in
  CapProcess.set_cpu now (CapProcess.set_deltaCpu (u64 (now - CapProcess.cpu p)) p).

Lemma sscanf_stat r :
  stat_ok r -> sscanf (print_stat r) stat_fmt = (2, [VInt (st_utime r); VInt (st_stime r)]).
Proof.
  intros ((_ & Hnul & _) & Hc & Hs & Hlen & Hu & Hst & Ht).
  destruct (scan_times r Hu Hst Ht) as [e He].
  change 2 with (scan_return ([VInt (st_utime r); VInt (st_stime r)], e)).
  apply (sscanf_scans _ _ _ _ _ stat_fmt_dirs). rewrite c_str_id by done. unfold print_stat.
  eapply scans_skip; [by apply convert_int|]. apply scans_space. cbn [skip_space].
  change (is_space " ") with true. cbv iota. rewrite skip_space_token by done.
  eapply scans_skip; [by apply convert_token|]. apply scans_space. cbn [skip_space].
  change (is_space " ") with true. cbv iota. rewrite skip_space_token by done.
  eapply scans_skip; [by apply convert_token|].
  apply scans_space. cbn [skip_space]. change (is_space " ") with true. cbv iota.
  assert (forall s, skip_space (skip_space s) = skip_space s) by apply skip_space_idem.
  pose proof (scan_ints (st_fields r) ([DConv false None true CInt; DSpace;
    DConv false None true CInt] ++ concat (replicate 24 [DSpace; skip_d])) (print_times r)
    [VInt (st_utime r); VInt (st_stime r)] e) as Hints. rewrite Hlen in Hints.
  unfold scans in *. cbn [scan] in Hints. apply Hints.
  unfold print_times at 1. by rewrite skip_space_int.
Qed.

Lemma stat_line_row `{Env} r p t :
  stat_ok r -> CapProcess.stat_line (print_stat r) p t = Done (false, apply_stat p r, t).
Proof.
  intros Hr. pose proof Hr as (_ & _ & _ & _ & Hu & Hs & _).
  unfold CapProcess.stat_line. rewrite sscanf_stat by done.
  change (Done (false, CapProcess.set_cpu (u64 (u64 (st_utime r) + u64 (st_stime r)))
    (CapProcess.set_deltaCpu (u64 (u64 (u64 (st_utime r) + u64 (st_stime r)) -
      CapProcess.cpu p)) p), t) = Done (false, apply_stat p r, t)).
  by rewrite (u64_id (st_utime r)), (u64_id (st_stime r)) by lia.
Qed.

(** A command name with a blank in it shifts the fields: the state is read
    where the parent is expected, and the line gives nothing. *)
Record blank_row := mk_blank_row {
  br_pid : Z; br_first : string; br_second : string; br_state : ascii; br_rest : string }.

Definition print_blank (r : blank_row) : string :=
  to_string (br_pid r) +:+ String " " (br_first r +:+ String " " (br_second r +:+ String " "
    (String (br_state r) (br_rest r)))).

Definition is_alpha (c : ascii) : bool :=
  let n := nat_of_ascii c in
  ((65 <=? n) && (n <=? 90) || (97 <=? n) && (n <=? 122))%nat.

Definition blank_ok (r : blank_row) : Prop :=
  plain (print_blank r) /\ token (br_first r) /\ token (br_second r) /\
  is_alpha (br_state r) = true.

Lemma alpha_no_number c s :
  is_alpha c = true -> is_space c = false /\ convert CInt false None (String c s) = CvFail.
Proof.
  intros Hc. assert (is_space c = false /\ is_digit 10 c = false /\ c <> "-"%char /\
    c <> "+"%char) as (Hsp & Hd & H1 & H2).
  { by destruct c as [[] [] [] [] [] [] [] []]. }
  split; [done|]. unfold convert, scan_int, scan_number. cbn [skip_space]. rewrite Hsp.
  cbn [String.length].
  assert (take_sign (S (String.length s)) (String c s) =
    (false, S (String.length s), String c s)) as ->
    by (by destruct c as [[] [] [] [] [] [] [] []]).
  cbv iota beta zeta.
  replace (take_0x 10 (S (String.length s)) (String c s))
    with (S (String.length s), String c s).
  - cbn [span]. by rewrite Hd.
  - unfold take_0x. destruct s as [|x s]; [done|]. simpl.
    by destruct c as [[] [] [] [] [] [] [] []].
Qed.

Lemma stat_line_blank `{Env} r p t :
  blank_ok r -> CapProcess.stat_line (print_blank r) p t = Done (false, p, t).
Proof.
  intros ((_ & Hnul & _) & H1 & H2 & Ha). unfold CapProcess.stat_line.
  assert (sscanf (print_blank r) stat_fmt = (0, [])) as ->; [|done].
  change 0 with (scan_return ([], MatchFailure)).
  apply (sscanf_scans _ _ _ _ _ stat_fmt_dirs). rewrite c_str_id by done. unfold print_blank.
  destruct (alpha_no_number (br_state r) (br_rest r) Ha) as [Hsp Hno].
  eapply scans_skip; [by apply convert_int|]. apply scans_space. cbn [skip_space].
  change (is_space " ") with true. cbv iota. rewrite skip_space_token by done.
  eapply scans_skip; [by apply convert_token|]. apply scans_space. cbn [skip_space].
  change (is_space " ") with true. cbv iota. rewrite skip_space_token by done.
  eapply scans_skip; [by apply convert_token|]. apply scans_space. cbn [skip_space].
  change (is_space " ") with true. cbv iota. rewrite Hsp.
  unfold scans, skip_d. cbn [app replicate concat scan]. by rewrite Hno.
Qed.

(** ** A process read as a whole *)

Record proc_view := mk_proc_view {
  v_status : list status_field;
  v_cmdline : string;
  v_io : option (list io_field);
  v_fds : option (list dirent);
  v_stat : stat_row
}.

Definition view_ok (v : proc_view) : Prop :=
  Forall status_ok (v_status v) /\ from_option (Forall io_ok) True (v_io v) /\ stat_ok (v_stat v).

(** The files the system serves for process [pid]. *)
Definition serves (os : Os) (pid : Z) (v : proc_view) : Prop :=
  os_file os (proc_path pid "status") = Some (unlines (map print_status (v_status v))) /\
  os_file os (proc_path pid "cmdline") = Some (v_cmdline v) /\
  os_file os (proc_path pid "io") = option_map (fun fs => unlines (map print_io fs)) (v_io v) /\
  os_opendir os (proc_path pid "fd") = v_fds v /\
  os_file os (proc_path pid "stat") = Some (unlines [print_stat (v_stat v)]).

Definition first_word (text : string) : option string :=
  match skip_space text with
  | "" => None
  | text => Some (fst (span not_space (String.length text) text))
  end.

Definition count_links (entries : list dirent) : Z :=
  Z.of_nat (length (filter (fun e => d_kind e = DT_LNK) entries)).

Definition apply_cmdline (text : string) (p : CapProcess.t) : CapProcess.t :=
  match first_word text with Some w => CapProcess.set_cmdline w p | None => p end.

(** The owner is the name the system has for the user; when the group has no
    name, its number takes the place of the user's name. *)
Definition apply_owner (os : Os) (p : CapProcess.t) : CapProcess.t :=
  let p' := CapProcess.set_user
    (match os_getpwuid os (CapProcess.uid p) with
     | Some (Some name) => name
     | _ => to_string (CapProcess.uid p)
     end) p in
  match os_getgrgid os (CapProcess.gid p) with
  | Some (Some name) => CapProcess.set_group name p'
  | _ => CapProcess.set_user (to_string (CapProcess.gid p)) p'
  end.

Definition read_process (os : Os) (v : proc_view) (imemory ideltacpu : Z) (p : CapProcess.t) :
    CapProcess.t :=
  let p := fold_left apply_status (v_status v) p in
  let p := apply_cmdline (v_cmdline v) p in
  let p := fold_left apply_io (default [] (v_io v)) p in
  let p := apply_owner os p in
  let p := match v_fds v with Some es => CapProcess.set_fdCnt (u32 (count_links es)) p | None => p end in
  let p := CapProcess.set_memPercent (percent (CapProcess.memory p) imemory) p in
  let p := apply_stat p (v_stat v) in
  CapProcess.set_cpuPercent (percent (CapProcess.deltaCpu p) ideltacpu) p.

Lemma pid_status fs p : CapProcess.pid (fold_left apply_status fs p) = CapProcess.pid p.
Proof.
  revert p. induction fs as [|f fs IH]; intros p; [done|]. simpl. rewrite IH.
  destruct f; simpl; by try destruct (decide _).
Qed.

Lemma pid_io fs p : CapProcess.pid (fold_left apply_io fs p) = CapProcess.pid p.
Proof. revert p. induction fs as [|[] fs IH]; intros p; simpl; by rewrite ?IH. Qed.

Lemma pid_cmdline text p : CapProcess.pid (apply_cmdline text p) = CapProcess.pid p.
Proof. unfold apply_cmdline. by destruct (first_word text). Qed.

Lemma pid_owner os p : CapProcess.pid (apply_owner os p) = CapProcess.pid p.
Proof. unfold apply_owner. by destruct (os_getgrgid _ _) as [[]|]. Qed.

Lemma count_links_fold entries cnt :
  fold_left (fun cnt entry => match d_kind entry with DT_LNK => u32 (cnt + 1) | _ => cnt end)
    entries (u32 cnt) = u32 (cnt + count_links entries).
Proof.
  revert cnt. induction entries as [|e es IH]; intros cnt; simpl.
  - by rewrite Z.add_0_r.
  - assert (u32 (u32 cnt + 1) = u32 (cnt + 1)) as Hu
      by (unfold u32; by rewrite Zplus_mod_idemp_l).
    unfold count_links in *. rewrite filter_cons. destruct (d_kind e) eqn:E; simpl.
    + rewrite IH. done.
    + rewrite Hu, IH. f_equal. lia.
    + rewrite IH. done.
Qed.

Section live.
Context `{Env} (os : Os) (v : proc_view) (Hv : view_ok v).

Lemma read_fields {F} (print : F -> string) (ok : F -> Prop) (apply : CapProcess.t -> F -> CapProcess.t)
    (body : string -> M CapProcess.t bool) fs p t :
  (forall f, ok f -> plain (print f)) ->
  (forall f p t, ok f -> body (print f) p t = Done (false, apply p f, t)) ->
  Forall ok fs ->
  read_lines (unlines (map print fs)) body p t = Done ((), fold_left apply fs p, t).
Proof.
  intros Hplain Hbody Hfs. rewrite read_lines_spec. unfold read_spec.
  rewrite lines_of_unlines
    by (apply Forall_map; eapply Forall_impl; [apply Hfs|]; intros f Hf; by apply Hplain).
  enough (each_line (map print fs ++ [""]) body p t = Done (false, fold_left apply fs p, t)) as He
    by (cbv [mbind M_bind]; by rewrite He).
  revert p t. induction Hfs as [|f fs Hf _ IH]; intros p t; [done|]. simpl.
  destruct (Hplain f Hf) as (_ & Hn & Hne). rewrite c_str_id, decide_False by done.
  cbv [mbind M_bind]. rewrite Hbody by done. apply IH.
Qed.

Lemma ParseStatus_live p t :
  env_at t = os -> serves os (CapProcess.pid p) v ->
  CapProcess.ParseStatus p t = Done (0, fold_left apply_status (v_status v) p, S t).
Proof.
  intros Ht (Hs & _). destruct Hv as (Hok & _ & _). unfold CapProcess.ParseStatus.
  cbv [mbind M_bind get sys]. rewrite proc_path_nonempty, Ht, Hs.
  rewrite (read_fields print_status status_ok apply_status);
    [done|by intros ? [? _]|intros; by apply status_line_field|done].
Qed.

Lemma ParseCmdline_live p t :
  env_at t = os -> serves os (CapProcess.pid p) v ->
  CapProcess.ParseCmdline p t = Done (0, apply_cmdline (v_cmdline v) p, S t).
Proof.
  intros Ht (_ & Hs & _). unfold CapProcess.ParseCmdline, apply_cmdline, first_word.
  cbv [mbind M_bind get sys]. rewrite proc_path_nonempty, Ht, Hs.
  by destruct (skip_space (v_cmdline v)).
Qed.

Lemma ParseIo_live p t :
  env_at t = os -> serves os (CapProcess.pid p) v ->
  exists ret, CapProcess.ParseIo p t = Done (ret, fold_left apply_io (default [] (v_io v)) p, S t).
Proof.
  intros Ht (_ & _ & Hs & _). destruct Hv as (_ & Hok & _). unfold CapProcess.ParseIo.
  cbv [mbind M_bind get sys]. rewrite proc_path_nonempty, Ht, Hs.
  destruct (v_io v) as [fs|]; simpl in *; [|by eexists]. eexists.
  rewrite (read_fields print_io io_ok apply_io);
    [done|by intros ? [? _]|intros; by apply io_line_field|done].
Qed.

Lemma ParseUserAndGroup_live p t :
  env_at t = os -> env_at (S t) = os ->
  CapProcess.ParseUserAndGroup p t = Done (0, apply_owner os p, S (S t)).
Proof.
  intros Ht Ht'. unfold CapProcess.ParseUserAndGroup, apply_owner.
  cbv [mbind M_bind get sys]. rewrite Ht, Ht'.
  by destruct (os_getpwuid _ _) as [[]|], (os_getgrgid _ _) as [[]|].
Qed.

Lemma ParseHandle_live p t :
  env_at t = os -> serves os (CapProcess.pid p) v ->
  exists ret, CapProcess.ParseHandle p t = Done (ret,
    match v_fds v with Some es => CapProcess.set_fdCnt (u32 (count_links es)) p | None => p end, S t).
Proof.
  intros Ht (_ & _ & _ & Hs & _). unfold CapProcess.ParseHandle.
  cbv [mbind M_bind get sys]. rewrite Ht, Hs.
  destruct (v_fds v) as [es|]; [|by eexists].
  change 0 with (u32 0) at 1. rewrite count_links_fold. by eexists.
Qed.

Lemma ParseStat_live p t :
  env_at t = os -> serves os (CapProcess.pid p) v ->
  CapProcess.ParseStat p t = Done (0, apply_stat p (v_stat v), S t).
Proof.
  intros Ht (_ & _ & _ & _ & Hs). destruct Hv as (_ & _ & Hok). unfold CapProcess.ParseStat.
  cbv [mbind M_bind get sys]. rewrite proc_path_nonempty, Ht, Hs.
  change [print_stat (v_stat v)] with (map print_stat [v_stat v]).
  rewrite (read_fields print_stat stat_ok apply_stat);
    [done|by intros ? [? _]|intros; by apply stat_line_row|by constructor].
Qed.

Lemma ParseProc_reads imemory ideltacpu p t :
  (forall k, (t <= k < t + 7)%nat -> env_at k = os) ->
  serves os (CapProcess.pid p) v -> CapProcess.pid p <> -1 ->
  CapProcess.ParseProc imemory ideltacpu p t =
    Done (0, read_process os v imemory ideltacpu p, (t + 7)%nat).
Proof.
  intros Ht Hs Hpid. unfold CapProcess.ParseProc.
  rewrite (bind_Done get _ _ _ p p t) by done. apply Z.eqb_neq in Hpid as ->.
  erewrite bind_Done; [|apply ParseStatus_live; [apply Ht; lia|done]]. cbn [Z.eqb negb].
  erewrite bind_Done; [|apply ParseCmdline_live; [apply Ht; lia|by rewrite pid_status]].
  cbn [Z.eqb negb].
  edestruct (ParseIo_live (apply_cmdline (v_cmdline v) (fold_left apply_status (v_status v) p))
    (2 + t)) as [r Hr]; [apply Ht; lia|by rewrite pid_cmdline, pid_status|].
  erewrite bind_Done by exact Hr. clear r Hr.
  erewrite bind_Done; [|apply ParseUserAndGroup_live; apply Ht; lia]. cbn [Z.eqb negb].
  edestruct (ParseHandle_live (apply_owner os (fold_left apply_io (default [] (v_io v))
    (apply_cmdline (v_cmdline v) (fold_left apply_status (v_status v) p)))) (5 + t)) as [r Hr];
    [apply Ht; lia|by rewrite pid_owner, pid_io, pid_cmdline, pid_status|].
  erewrite bind_Done by exact Hr. clear r Hr.
  erewrite bind_Done; [|done].
  erewrite bind_Done; [|apply ParseStat_live; [apply Ht; lia|]].
  - replace (t + 7)%nat with (7 + t)%nat by lia. reflexivity.
  - destruct (v_fds v); simpl; by rewrite pid_owner, pid_io, pid_cmdline, pid_status.
Qed.
End live.

(** ** Traffic *)

Lemma AddPacket_spec `{Ntop6} devices ptr p t :
  devices_ok devices ->
  CapProcess.AddPacket devices ptr p t =
    Done (CapPacket.settled devices ptr,
      (if CapPacket.outgoing devices ptr
       then CapProcess.set_send (u64 (CapProcess.send p + CapPacket.GetLen ptr)) p
       else CapProcess.set_recv (u64 (CapProcess.recv p + CapPacket.GetLen ptr)) p), t).
Proof.
  intros Hok. unfold CapProcess.AddPacket. cbv [mbind M_bind run_on].
  rewrite CapPacket.IsOutgoing_spec by done.
  assert (CapPacket.GetLen (CapPacket.settled devices ptr) = CapPacket.GetLen ptr) as Hl
    by (by destruct ptr).
  destruct (CapPacket.outgoing devices ptr) eqn:E; cbv [modify]; by rewrite Hl.
Qed.

(** The packets of one process, accounted one after the other. *)
Definition account `{Ntop6} (devices : list CapDevice.t) (ptrs : list CapPacket.t) : M CapProcess.t () :=
  for_each ptrs (fun ptr => _ ← CapProcess.AddPacket devices ptr; mret ()).

Definition sum_len (ptrs : list CapPacket.t) : Z := foldr (fun ptr n => CapPacket.GetLen ptr + n) 0 ptrs.

Definition sent (devices : list CapDevice.t) (ptrs : list CapPacket.t) : list CapPacket.t :=
  filter (fun ptr => CapPacket.outgoing devices ptr = true) ptrs.

Definition received (devices : list CapDevice.t) (ptrs : list CapPacket.t) : list CapPacket.t :=
  filter (fun ptr => CapPacket.outgoing devices ptr = false) ptrs.

Lemma u64_add_l a b : u64 (u64 a + b) = u64 (a + b).
Proof. unfold u64. by rewrite Zplus_mod_idemp_l. Qed.

Lemma u64_small_zero a : in64 a -> u64 (a + 0) = a.
Proof. intros. rewrite Z.add_0_r. by apply u64_id. Qed.

Lemma account_spec `{Ntop6} devices ptrs p t :
  devices_ok devices -> in64 (CapProcess.send p) -> in64 (CapProcess.recv p) ->
  account devices ptrs p t =
    Done ((), CapProcess.set_send (u64 (CapProcess.send p + sum_len (sent devices ptrs)))
      (CapProcess.set_recv (u64 (CapProcess.recv p + sum_len (received devices ptrs))) p), t).
Proof.
  intros Hok. unfold account, sent, received.
  revert p. induction ptrs as [|ptr ptrs IH]; intros p Hs Hr.
  - simpl. rewrite !u64_small_zero by done. by destruct p.
  - cbn [for_each]. rewrite bind_assoc. erewrite bind_Done by (by apply AddPacket_spec).
    rewrite (bind_Done (mret ()) _ _ _ () _ t) by done. rewrite !filter_cons.
    destruct (CapPacket.outgoing devices ptr) eqn:E; simpl; rewrite IH;
      simpl; auto using u64_range; try apply u64_range.
    all: rewrite u64_add_l, Z.add_assoc; by destruct p.
Qed.

(** ** A sample process *)

Definition sample_stat : stat_row :=
  mk_stat_row 42 "(sshd)" "S" [1; 42; 42; 0; -1; 4194560; 900; 0; 5; 0] 70 30 " 0 0 20 0 1".

Definition sample_view : proc_view :=
  mk_proc_view
    [FName "sshd" ""; FOther (String.append "Umask:" (String TAB "0022")); FUid 1000 " 1000"; FGid 1000 " 1000";
     FRss "    " 2048]
    "/usr/sbin/sshd -D" (Some [FRead 10; FWrite 20; FIoOther "syscr: 3"])
    (Some [mk_dirent "." DT_DIR; mk_dirent "0" DT_LNK; mk_dirent "3" DT_LNK]) sample_stat.

Definition proc_texts (pid : Z) (v : proc_view) : list (string * string) :=
  [(proc_path pid "status", unlines (map print_status (v_status v)));
   (proc_path pid "cmdline", v_cmdline v)] ++
  match v_io v with Some fs => [(proc_path pid "io", unlines (map print_io fs))] | None => [] end ++
  [(proc_path pid "stat", unlines [print_stat (v_stat v)])].

Definition proc_os (pid : Z) (v : proc_view) : Os :=
  sample_os (proc_texts pid v)
    match v_fds v with Some es => [(proc_path pid "fd", es)] | None => [] end
    [].

(** Decides [plain] by computation. *)
Definition is_plain (l : string) : bool :=
  str_forall not_newline l && (String.length l <? BUFFER_SIZE)%nat && str_forall not_nul l &&
  negb (String.eqb l "").

Lemma is_plain_spec l : is_plain l = true -> plain l.
Proof.
  unfold is_plain, plain, fits. rewrite !andb_true_iff, Nat.ltb_lt, negb_true_iff, String.eqb_neq.
  naive_solver.
Qed.

Lemma sample_stat_ok : stat_ok sample_stat.
Proof. split; [by apply is_plain_spec; vm_compute|]. repeat split; done. Qed.

Lemma sample_view_ok : view_ok sample_view.
Proof.
  split; [|split; [|apply sample_stat_ok]].
  - repeat (apply List.Forall_cons || apply List.Forall_nil);
      (split; [by apply is_plain_spec; vm_compute|]).
    + repeat split; simpl; done || lia.
    + repeat constructor.
    + done.
    + done.
    + repeat split; done.
  - repeat (apply List.Forall_cons || apply List.Forall_nil);
      (split; [by apply is_plain_spec; vm_compute|done]).
Qed.

Lemma sample_serves : serves (proc_os 42 sample_view) 42 sample_view.
Proof. repeat split; vm_compute; reflexivity. Qed.

(** ** Properties *)

(** C23: parsing a live process returns 0 and the record holds what its files
    say: the name (up to a blank), the owner, the memory and the counters of
    the last line that gives each, the first word of the command line, the
    number of links in [fd], both percentages, and CPU times accounted as the
    difference with the previous reading.  A process whose [io] or [fd] cannot
    be read is parsed all the same. *)
Theorem ParseProc_live `{Env} os v imemory ideltacpu p t :
  view_ok v -> (forall k, (t <= k < t + 7)%nat -> env_at k = os) ->
  serves os (CapProcess.pid p) v -> CapProcess.pid p <> -1 ->
  CapProcess.ParseProc imemory ideltacpu p t =
    Done (0, read_process os v imemory ideltacpu p, (t + 7)%nat).
Proof. intros. by apply ParseProc_reads. Qed.

Lemma ParseProc_live_witness :
  exists p, @CapProcess.ParseProc (fun _ => proc_os 42 sample_view) 8192 1000 (CapProcess.new 42) 0%nat
      = Done (0, p, 7%nat) /\
    CapProcess.name p = "sshd" /\ CapProcess.cmdline p = "/usr/sbin/sshd" /\
    CapProcess.fdCnt p = 2 /\ CapProcess.memory p = 2048 /\ CapProcess.deltaCpu p = 100.
Proof.
  eexists. split.
  - apply (@ParseProc_live (fun _ => proc_os 42 sample_view) (proc_os 42 sample_view) sample_view
      8192 1000 (CapProcess.new 42) 0%nat); [apply sample_view_ok|done|apply sample_serves|done].
  - repeat split.
Defined.

(** A process is read for the first time when it is found: all the CPU time it
    ever had is set against the interval it is found in.  A hundred ticks of a
    process that came up before an interval of ten are a thousand percent. *)
Example first_reading_exceeds :
  let p := read_process (proc_os 42 sample_view) sample_view 8192 10 (CapProcess.new 42) in
  CapProcess.deltaCpu p = 100 /\ SFeqb (CapProcess.cpuPercent p) (double_of_u64 1000) = true.
Proof. vm_compute. by split. Qed.

(** C33: whatever the files of a process contain, parsing it keeps its pid and
    its traffic counters, every field within the range of its C++ type, and
    both percentages neither NaN nor negative. *)
Theorem ParseProc_well_formed `{Env} imemory ideltacpu p t ret p' t' :
  in64 imemory -> in64 ideltacpu -> process_wf p ->
  CapProcess.ParseProc imemory ideltacpu p t = Done (ret, p', t') ->
  kept p p' /\ process_wf p'.
Proof.
  intros Hm Hc Hp. apply (wlp_elim _ (fun _ p' _ => kept p p' /\ process_wf p')).
  apply ParseProc_good; auto using files_ok_any. by split.
Qed.

Lemma ParseProc_well_formed_witness :
  exists p, @CapProcess.ParseProc (fun _ => proc_os 42 sample_view) 8192 1000 (CapProcess.new 42) 0%nat
      = Done (0, p, 7%nat) /\ kept (CapProcess.new 42) p /\ process_wf p.
Proof.
  destruct (@CapProcess.ParseProc (fun _ => proc_os 42 sample_view) 8192 1000 (CapProcess.new 42) 0%nat)
    as [[[ret p] t]| | |] eqn:Hrun; vm_compute in Hrun; try discriminate.
  injection Hrun as <- <- <-. eexists. split; [reflexivity|].
  eapply (@ParseProc_well_formed (fun _ => proc_os 42 sample_view) 8192 1000 (CapProcess.new 42) 0%nat);
    [done|done|apply process_wf_new|vm_compute; reflexivity].
Defined.

(** C34: when parsing fails, the code is [CAP_PROCESS_OPEN] and the CPU
    accounting of the process is what it was, so the next successful parse
    takes its difference from the last successful one. *)
Theorem ParseProc_failure `{Env} imemory ideltacpu p t ret p' t' :
  CapProcess.pid p <> -1 ->
  CapProcess.ParseProc imemory ideltacpu p t = Done (ret, p', t') -> ret <> 0 ->
  ret = CAP_PROCESS_OPEN /\ accounts p' = accounts p.
Proof.
  intros Hpid Hrun. revert Hrun. apply (wlp_elim _
    (fun ret p' _ => ret <> 0 -> ret = CAP_PROCESS_OPEN /\ accounts p' = accounts p)).
  by apply ParseProc_error.
Qed.

Lemma ParseProc_failure_witness :
  exists p, @CapProcess.ParseProc (fun _ => proc_os 42 sample_view) 8192 1000 (CapProcess.new 7) 0%nat
      = Done (37, p, 1%nat) /\ accounts p = (0, 0, S754_zero false).
Proof.
  eexists. split; [vm_compute; reflexivity|].
  eapply (@ParseProc_failure (fun _ => proc_os 42 sample_view) 8192 1000 (CapProcess.new 7) 0%nat);
    [done|vm_compute; reflexivity|done].
Defined.

(** The CPU time of a process whose command name contains a blank is never
    read: [%*s] stops at the blank, every later field shifts by one, and the
    line is dropped without an error. *)
Theorem ParseStat_blank_comm `{Env} r p t :
  blank_ok r ->
  os_file (env_at t) (proc_path (CapProcess.pid p) "stat") = Some (unlines [print_blank r]) ->
  CapProcess.ParseStat p t = Done (0, p, S t).
Proof.
  intros Hr Hf. unfold CapProcess.ParseStat. cbv [mbind M_bind get sys].
  rewrite proc_path_nonempty, Hf.
  change [print_blank r] with (map print_blank [r]).
  rewrite (read_fields print_blank blank_ok (fun p _ => p));
    [done|by intros ? [? _]|intros; by apply stat_line_blank|by constructor].
Qed.

Lemma ParseStat_blank_comm_witness :
  let r := mk_blank_row 42 "(Web" "Content)" "S" " 1 42 42 0 -1 4194560 900 0 5 0 70 30 0 0" in
  let os := sample_os [(proc_path 42 "stat", unlines [print_blank r])] [] [] in
  @CapProcess.ParseStat (fun _ => os) (CapProcess.new 42) 0%nat = Done (0, CapProcess.new 42, 1%nat).
Proof.
  apply (@ParseStat_blank_comm (fun _ => sample_os [(proc_path 42 "stat", unlines [print_blank
    (mk_blank_row 42 "(Web" "Content)" "S" " 1 42 42 0 -1 4194560 900 0 5 0 70 30 0 0")])] [] [])
    (mk_blank_row 42 "(Web" "Content)" "S" " 1 42 42 0 -1 4194560 900 0 5 0 70 30 0 0")).
  - split; [by apply is_plain_spec; vm_compute|done].
  - vm_compute. reflexivity.
Defined.

(** A group without a name replaces the owner of the process: the branch
    for [getgrgid] failing stores the group's number in [user] and leaves
    [group] as it was. *)
Theorem ParseUserAndGroup_overwrites_user `{Env} p t name :
  os_getpwuid (env_at t) (CapProcess.uid p) = Some (Some name) ->
  os_getgrgid (env_at (S t)) (CapProcess.gid p) = None ->
  exists p', CapProcess.ParseUserAndGroup p t = Done (0, p', S (S t)) /\
    CapProcess.user p' = to_string (CapProcess.gid p) /\
    CapProcess.group p' = CapProcess.group p.
Proof.
  intros Hu Hg. unfold CapProcess.ParseUserAndGroup. cbv [mbind M_bind get sys].
  rewrite Hu, Hg. by eexists.
Qed.

Lemma ParseUserAndGroup_overwrites_user_witness :
  let os := mk_Os (fun _ => None) (fun _ => None) (fun _ => None) (fun _ => Some (Some "root"))
              (fun _ => None) None in
  exists p', @CapProcess.ParseUserAndGroup (fun _ => os) (CapProcess.new 42) 0%nat = Done (0, p', 2%nat) /\
    CapProcess.user p' = "0" /\ CapProcess.group p' = "".
Proof.
  apply (@ParseUserAndGroup_overwrites_user (fun _ => mk_Os (fun _ => None) (fun _ => None)
    (fun _ => None) (fun _ => Some (Some "root")) (fun _ => None) None) (CapProcess.new 42) 0%nat "root");
    reflexivity.
Defined.

(** After any sequence of its packets a process has sent the total length
    of those that left an address of the host and received that of the
    others, modulo 2^64; nothing else of it changes. *)
Theorem AddPacket_totals `{Ntop6} devices ptrs p t :
  devices_ok devices -> in64 (CapProcess.send p) -> in64 (CapProcess.recv p) ->
  account devices ptrs p t =
    Done ((), CapProcess.set_send (u64 (CapProcess.send p + sum_len (sent devices ptrs)))
      (CapProcess.set_recv (u64 (CapProcess.recv p + sum_len (received devices ptrs))) p), t).
Proof. intros. by apply account_spec. Qed.

Lemma AddPacket_totals_witness :
  let pkt sip len := CapPacket.mk in6_zero in6_zero sip 0 1 2 len (0, 0) Unknown AF_INET "" in
  exists p,
    @account full_ntop6 [device4 16777343] [pkt 16777343 60; pkt 5 1500; pkt 16777343 40]
      (CapProcess.new 42) 0%nat = Done ((), p, 0%nat) /\
    CapProcess.send p = 100 /\ CapProcess.recv p = 1500.
Proof.
  eexists. split.
  - apply (@AddPacket_totals full_ntop6); [repeat constructor; by eexists|done|done].
  - split; vm_compute; reflexivity.
Defined.
