(* ===== verification/Handle.v ===== *)
(** [cap_handle.h] and [cap_handle.cpp]: one live capture.  libpcap itself is a
    parameter. *)

From S2P Require Import Prelude Cstring Inet Pod.

(** ** libpcap *)

(** The header libpcap gives with a packet.  The packet it gives is the
    [caplen] bytes it captured of the [len] that were on the wire. *)
Record pcap_pkthdr := mk_pkthdr { ts : Z * Z; caplen : Z; len : Z }.

(** The functions of libpcap the program calls, each answering from the state
    of the capture at the moment of the call. *)
Class Pcap := {
  pcap_t : Type;
  pcap_t_eq_dec :: EqDecision pcap_t;
  bpf_program : Type;
  pcap_open_live : nat -> string -> Z -> Z -> Z -> option pcap_t;
  (** the network number it stores; [None] is a failure, which stores nothing *)
  pcap_lookupnet : nat -> string -> option Z;
  (** [None] is a return value of -1 *)
  pcap_compile : nat -> pcap_t -> string -> Z -> Z -> option bpf_program;
  pcap_setfilter : nat -> pcap_t -> bpf_program -> Z;
  pcap_datalink : pcap_t -> Z;
  pcap_get_selectable_fd : pcap_t -> Z;
  pcap_setnonblock : nat -> pcap_t -> Z -> Z;
  (** the return value, and the packets given to the callback, in order *)
  pcap_dispatch : nat -> pcap_t -> Z -> Z * list (pcap_pkthdr * list Z)
}.

(** The text of a capture's last error. *)
Class PcapErr `{Pcap} := { pcap_geterr : nat -> pcap_t -> string }.

Definition byte (b : Z) : Prop := 0 <= b < 256.

(** A packet as libpcap documents it. *)
Definition packet_ok (pkt : pcap_pkthdr * list Z) : Prop :=
  let '(h, bytes) := pkt in
  Forall byte bytes /\ caplen h = Z.of_nat (length bytes) /\ caplen h <= len h /\ word32 (len h).

(** What its manual says of [pcap_dispatch]: the value returned is the number
    of packets processed, or negative after an error. *)
Class PcapOk `{Pcap} : Prop := {
  dispatch_count : forall t p cnt ret pkts,
    pcap_dispatch t p cnt = (ret, pkts) -> 0 <= ret -> ret = Z.of_nat (length pkts);
  dispatch_range : forall t p cnt ret pkts,
    pcap_dispatch t p cnt = (ret, pkts) -> ret < 2 ^ 31;
  dispatch_packets : forall t p cnt ret pkts,
    pcap_dispatch t p cnt = (ret, pkts) -> Forall packet_ok pkts
}.

(** One call of the library. *)
Definition pcall {S A} (f : nat -> A) : M S A := fun s t => Done (f t, s, Datatypes.S t).

Lemma wpx_pcall {S A} bad (f : nat -> A) (Q : A -> S -> nat -> Prop) s t :
  Q (f t) s (Datatypes.S t) -> wpx bad (pcall f) Q s t.
Proof. done. Qed.

(** The value of a local variable, which is indeterminate until it is stored. *)
Definition read_local {S A} (x : option A) : M S A :=
  match x with Some v => mret v | None => undef Indeterminate end.

(** ** The context of a packet *)

(** [union CtxAddr], as its eight 32-bit words: an [ip4] is the first two, an
    [ip6] all of them. *)
Record CtxAddr := mk_CtxAddr { c0 : Z; c1 : Z; c2 : Z; c3 : Z; c4 : Z; c5 : Z; c6 : Z; c7 : Z }.

Definition ip4_ip_src (a : CtxAddr) : Z := c0 a.
Definition ip4_ip_dst (a : CtxAddr) : Z := c1 a.
Definition ip6_ip6_src (a : CtxAddr) : in6_addr := mk_in6 (c0 a) (c1 a) (c2 a) (c3 a).
Definition ip6_ip6_dst (a : CtxAddr) : in6_addr := mk_in6 (c4 a) (c5 a) (c6 a) (c7 a).

Record PcapCtx := mk_PcapCtx { ctx_family : Z; ctx_addr : CtxAddr }.

Record CapHandleInit := mk_CapHandleInit {
  hi_device : string;
  hi_snaplen : Z;
  hi_promise : Z;
  hi_ms : Z;
  hi_fliter : option string
}.

Module CapHandle.
Section handle.
Context `{Pcap}.

(** [callback] is whether one was set: every handle gets the same. *)
Record t := mk {
  handle : option pcap_t;
  linktype : Z;
  device : string;
  fd : Z;
  context : PcapCtx;
  callback : bool
}.

(** [linktype] and the addresses of the context are indeterminate until they
    are set. *)
Definition new : t :=
  mk None 0 "" (-1) (mk_PcapCtx AF_UNSPEC (mk_CtxAddr 0 0 0 0 0 0 0 0)) false.

Definition set_handle (x : option pcap_t) (h : t) : t :=
  mk x (linktype h) (device h) (fd h) (context h) (callback h).
Definition set_linktype (x : Z) (h : t) : t :=
  mk (handle h) x (device h) (fd h) (context h) (callback h).
Definition set_fd (x : Z) (h : t) : t :=
  mk (handle h) (linktype h) (device h) x (context h) (callback h).
Definition set_context (x : PcapCtx) (h : t) : t :=
  mk (handle h) (linktype h) (device h) (fd h) x (callback h).

Definition SetCallback (h : t) : t :=
  mk (handle h) (linktype h) (device h) (fd h) (context h) true.
Definition SetDevice (name : string) (h : t) : t :=
  mk (handle h) (linktype h) name (fd h) (context h) (callback h).

Definition DataLink (h : t) : Z := linktype h.
Definition GetFd (h : t) : Z := fd h.
Definition GetContext (h : t) : PcapCtx := context h.

(** A null pointer without a capture. *)
Definition GetError `{!PcapErr} : M t (option string) :=
  h ← get;
  match handle h with
  | None => mret None
  | Some p => text ← pcall (fun t => pcap_geterr t p); mret (Some text)
  end.

(** A handle and the captures the process has open. *)
Definition owner : Type := t * list pcap_t.

Definition OpenLive (config : CapHandleInit) : M owner Z :=
  p ← pcall (fun t => pcap_open_live t (hi_device config) (hi_snaplen config)
                        (hi_promise config) (hi_ms config));
  modify (fun '(h, open) => (set_handle p h, open));;
  match p with
  | None => mret CAP_OPEN_DEVICE
  | Some p =>
      modify (fun '(h, open) => (h, open ++ [p]));;
      let go :=
        modify (fun '(h, open) =>
          (set_fd (pcap_get_selectable_fd p) (set_linktype (pcap_datalink p) h), open));;
        mret 0 in
      match hi_fliter config with
      | None => go
      | Some filter =>
          ip ← pcall (fun t => pcap_lookupnet t (hi_device config));
          ip ← read_local ip;
          program ← pcall (fun t => pcap_compile t p filter 1 ip);
          match program with
          | None => modify (fun '(h, open) => (set_handle None h, open));; mret CAP_COMPILE
          | Some program =>
              ret ← pcall (fun t => pcap_setfilter t p program);
              if ret =? -1
              then modify (fun '(h, open) => (set_handle None h, open));; mret CAP_FILTER
              else go
          end
      end
  end.

(** [~CapHandle] closes the capture the handle still has. *)
Fixpoint pcap_close (p : pcap_t) (open : list pcap_t) : list pcap_t :=
  match open with
  | [] => []
  | q :: open => if decide (p = q) then open else q :: pcap_close p open
  end.

Definition destroy (h : t) (open : list pcap_t) : list pcap_t :=
  match handle h with Some p => pcap_close p open | None => open end.

Definition SetNonBlock {S} (fd : Z) (h : t) : M S Z :=
  match handle h with
  | None => mret CAP_HANDLE_INIT
  | Some p => pcall (fun t => pcap_setnonblock t p fd)
  end.

(** [SetContext(in_addr, in_addr)] writes the first words of the union. *)
Definition SetContext4 (src dest : Z) (h : t) : t :=
  let a := ctx_addr (context h) in
  set_context (mk_PcapCtx AF_INET
    (mk_CtxAddr src dest (c2 a) (c3 a) (c4 a) (c5 a) (c6 a) (c7 a))) h.

Definition SetContext6 (src dest : in6_addr) (h : t) : t :=
  set_context (mk_PcapCtx AF_INET6
    (mk_CtxAddr (w0 src) (w1 src) (w2 src) (w3 src) (w0 dest) (w1 dest) (w2 dest) (w3 dest))) h.

Section dispatch.
Context {S : Type} (call : t -> pcap_pkthdr -> list Z -> M S t).

(** [HandlePacket]; [call] is the handle's callback, and the handle it is
    given may have a new context when it returns. *)
Definition HandlePacket (ctx : option t) (header : pcap_pkthdr) (packet : list Z) : M S (option t) :=
  match ctx with
  | None => mret None
  | Some h => if negb (callback h) then mret ctx else h ← call h header packet; mret (Some h)
  end.

(** libpcap calls [HandlePacket] for each packet in order. *)
Fixpoint deliver (ctx : option t) (pkts : list (pcap_pkthdr * list Z)) : M S (option t) :=
  match pkts with
  | [] => mret ctx
  | (header, packet) :: pkts =>
      ctx ← HandlePacket ctx header packet; deliver ctx pkts
  end.

(** [Dispatch(cnt, this)], as the capture calls it. *)
Definition Dispatch (cnt : Z) (h : t) : M S (Z * t) :=
  match handle h with
  | None => mret (CAP_HANDLE_INIT, h)
  | Some p =>
      '(ret, pkts) ← pcall (fun t => pcap_dispatch t p cnt);
      ctx ← deliver (Some h) pkts;
      mret (ret, default h ctx)
  end.
End dispatch.
End handle.
End CapHandle.

(** ** Postconditions of a dispatch *)

Section dispatch_rules.
Context `{Pcap} {S : Type} (bad : failure -> Prop).
Context (call : CapHandle.t -> pcap_pkthdr -> list Z -> M S CapHandle.t).
Context (J : CapHandle.t -> S -> Prop).

Lemma wpx_deliver h pkts s t :
  J h s ->
  (forall hdr pkt h s t, (hdr, pkt) ∈ pkts -> J h s ->
     wpx bad (call h hdr pkt) (fun h' s' _ => J h' s') s t) ->
  wpx bad (CapHandle.deliver call (Some h) pkts)
    (fun ctx s' _ => exists h', ctx = Some h' /\ J h' s') s t.
Proof.
  revert h s t. induction pkts as [|[hdr pkt] pkts IH]; intros h s t HJ Hcall; simpl.
  - by exists h.
  - wp_step. destruct (CapHandle.callback h) eqn:E; simpl.
    + wp_step. eapply wpx_mono; [apply Hcall; [left|done]|]. intros h' s' t' HJ'.
      wp_step. apply IH; [done|]. intros. apply Hcall; [by right|done].
    + wp_step. apply IH; [done|]. intros. apply Hcall; [by right|done].
Qed.

(** An invariant that the callback keeps for every packet of the batch. *)
Lemma wpx_Dispatch cnt h s t :
  J h s ->
  (forall p hdr pkt h1 s t', CapHandle.handle h = Some p ->
     (hdr, pkt) ∈ snd (pcap_dispatch t p cnt) -> J h1 s ->
     wpx bad (call h1 hdr pkt) (fun h' s' _ => J h' s') s t') ->
  wpx bad (CapHandle.Dispatch call cnt h)
    (fun '(ret, h') s' _ => J h' s' /\
       (CapHandle.handle h = None /\ ret = CAP_HANDLE_INIT \/
        exists p, CapHandle.handle h = Some p /\ ret = fst (pcap_dispatch t p cnt))) s t.
Proof.
  intros HJ Hcall. unfold CapHandle.Dispatch.
  destruct (CapHandle.handle h) as [p|] eqn:Hp; [|split; [done|by left]].
  wp_step. apply wpx_pcall. destruct (pcap_dispatch t p cnt) as [ret pkts] eqn:Hd. wp_step.
  eapply wpx_mono; [apply wpx_deliver; [done|]|].
  - intros hdr pkt h1 s1 t1 Hin HJ1. eapply Hcall; [done| |done]. by rewrite Hd.
  - intros ctx s' t' (h' & -> & HJ'). split; [done|]. right. exists p. by rewrite Hd.
Qed.

(** The same, following the packets: [x] is what they have made so far. *)
Context {X : Type} (f : X -> pcap_pkthdr * list Z -> X) (K : X -> CapHandle.t -> S -> Prop).
Context (Kset : forall x h s, K x h s -> CapHandle.callback h = true).

Lemma wpx_deliver_fold x h pkts s t :
  K x h s ->
  (forall x hdr pkt h s t, (hdr, pkt) ∈ pkts -> K x h s ->
     wpx bad (call h hdr pkt) (fun h' s' _ => K (f x (hdr, pkt)) h' s') s t) ->
  wpx bad (CapHandle.deliver call (Some h) pkts)
    (fun ctx s' _ => exists h', ctx = Some h' /\ K (foldl f x pkts) h' s') s t.
Proof.
  revert x h s t. induction pkts as [|[hdr pkt] pkts IH]; intros x h s t HK Hcall; simpl; [by exists h|].
  wp_step. rewrite (Kset _ _ _ HK). simpl. wp_step.
  eapply wpx_mono; [by apply Hcall; [left|]|]. intros h' s' t' HK'. wp_step.
  apply IH; [done|]. intros. apply Hcall; [by right|done].
Qed.

Lemma wpx_Dispatch_fold cnt h p x s t :
  K x h s -> CapHandle.handle h = Some p ->
  (forall x hdr pkt h s t', (hdr, pkt) ∈ snd (pcap_dispatch t p cnt) -> K x h s ->
     wpx bad (call h hdr pkt) (fun h' s' _ => K (f x (hdr, pkt)) h' s') s t') ->
  wpx bad (CapHandle.Dispatch call cnt h)
    (fun '(ret, h') s' _ => ret = fst (pcap_dispatch t p cnt) /\
       K (foldl f x (snd (pcap_dispatch t p cnt))) h' s') s t.
Proof.
  intros HK Hp Hcall. unfold CapHandle.Dispatch. rewrite Hp. wp_step. apply wpx_pcall.
  destruct (pcap_dispatch t p cnt) as [ret pkts]. wp_step.
  eapply wpx_mono; [by apply wpx_deliver_fold|]. by intros ctx s' t' (h' & -> & ?).
Qed.
End dispatch_rules.

(** ** A sample capture library

    A capture is its device's name; every device opens, and a dispatch gives
    the packets of [batch]. *)
Definition sample_pcap (link : Z) (batch : list (pcap_pkthdr * list Z)) : Pcap := {|
  pcap_t := string;
  bpf_program := ();
  pcap_open_live _ device _ _ _ := Some device;
  pcap_lookupnet _ _ := Some 0;
  pcap_compile _ _ filter _ _ := if decide (filter = "tcp") then Some () else None;
  pcap_setfilter _ _ _ := 0;
  pcap_datalink _ := link;
  pcap_get_selectable_fd _ := 3;
  pcap_setnonblock _ _ _ := 0;
  pcap_dispatch _ _ _ := (Z.of_nat (length batch), batch)
|}.

Lemma sample_pcap_ok link batch :
  Z.of_nat (length batch) < 2 ^ 31 -> Forall packet_ok batch -> @PcapOk (sample_pcap link batch).
Proof. intros Hlen Hb. split; intros t p cnt ret pkts [= <- <-]; done. Qed.

(** ** Properties *)

(** What opening a capture can leave behind. *)
Inductive open_result `{Pcap} (open : list pcap_t) : Z -> CapHandle.t -> list pcap_t -> Prop :=
  | OpenOk p h :
      CapHandle.handle h = Some p -> CapHandle.linktype h = pcap_datalink p ->
      open_result open 0 h (open ++ [p])
  | OpenNoDevice h :
      CapHandle.handle h = None -> open_result open CAP_OPEN_DEVICE h open
  | OpenBadFilter p h ret :
      ret = CAP_COMPILE \/ ret = CAP_FILTER -> CapHandle.handle h = None ->
      open_result open ret h (open ++ [p]).

(** The device opens, and the network number a filter is to be compiled with
    cannot be looked up. *)
Definition number_unknown `{Pcap} (config : CapHandleInit) (t : nat) : bool :=
  bool_decide (hi_fliter config <> None) &&
  bool_decide (pcap_open_live t (hi_device config) (hi_snaplen config) (hi_promise config)
                 (hi_ms config) <> None) &&
  bool_decide (pcap_lookupnet (S t) (hi_device config) = None).

(** There is no filter, or the network number that its compilation reads can
    always be looked up. *)
Definition filter_usable `{Pcap} (filter : option string) : Prop :=
  filter = None \/ forall t device, pcap_lookupnet t device <> None.

Lemma filter_usable_known `{Pcap} config t :
  filter_usable (hi_fliter config) -> number_unknown config t = false.
Proof.
  intros [Hf|Hl]; unfold number_unknown; apply andb_false_iff.
  - left. apply andb_false_iff. left. rewrite Hf. apply bool_decide_eq_false. by intros [].
  - right. by apply bool_decide_eq_false.
Qed.

Lemma OpenLive_result `{Pcap} bad config h open t :
  bad (Undefined Indeterminate) \/ number_unknown config t = false ->
  wpx bad (CapHandle.OpenLive config)
    (fun ret '(h', open') _ => open_result open ret h' open' /\
       CapHandle.callback h' = CapHandle.callback h /\
       (ret <> 0 -> ret = CAP_OPEN_DEVICE \/ hi_fliter config <> None)) (h, open) t.
Proof.
  unfold number_unknown. intros Hknown. unfold CapHandle.OpenLive. wp_step. apply wpx_pcall. do 2 wp_step.
  destruct (pcap_open_live _ _ _ _ _) as [p|].
  2: { wp_step. split; [by apply OpenNoDevice|]. split; [done|]. by left. }
  destruct (hi_fliter config); repeat wp_step.
  - apply wpx_pcall. wp_step. unfold read_local.
    destruct (pcap_lookupnet _ _) as [ip|] eqn:Hip.
    2: { by destruct Hknown. }
    do 2 wp_step. apply wpx_pcall. destruct (pcap_compile _ _ _ _ _) as [prog|].
    + wp_step. apply wpx_pcall. destruct (_ =? -1); repeat wp_step.
      * split; [apply OpenBadFilter; [by right|done]|]. split; [done|]. by right.
      * split; [by apply OpenOk|done].
    + repeat wp_step. split; [apply OpenBadFilter; [by left|done]|]. split; [done|]. by right.
  - split; [by apply OpenOk|done].
Qed.

(** C36: opening a capture has undefined behaviour exactly when the device opens
    and a filter is to be compiled with a network number that cannot be looked
    up: it is read all the same.  Otherwise it returns, with one of four codes.
    On success the handle owns the new capture; on a failure to open nothing is
    left; when the filter does not compile or cannot be set the capture stays
    open and no handle owns it any more, so it is never closed. *)
Theorem OpenLive_outcome `{Pcap} config open t :
  if number_unknown config t
  then CapHandle.OpenLive config (CapHandle.new, open) t = Undef Indeterminate
  else exists ret h open' t',
    CapHandle.OpenLive config (CapHandle.new, open) t = Done (ret, (h, open'), t') /\
    open_result open ret h open'.
Proof.
  destruct (number_unknown config t) eqn:E.
  - unfold number_unknown in E. apply andb_prop in E as [[Hf Hp]%andb_prop Hip].
    apply bool_decide_eq_true in Hf, Hp, Hip.
    unfold CapHandle.OpenLive, pcall, modify, read_local, mbind, M_bind.
    destruct (pcap_open_live _ _ _ _ _); [|done]. destruct (hi_fliter config); [|done].
    cbn. by rewrite Hip.
  - destruct (wp_elim _ _ _ _ (OpenLive_result _ config CapHandle.new open t (or_intror E)))
      as (ret & [h open'] & t' & Hrun & Hres & _).
    by exists ret, h, open', t'.
Qed.

(** A dispatch hands every packet libpcap delivers to the handle's callback
    once and in order, and returns libpcap's value; a handle without a callback
    drops them all. *)
Theorem Dispatch_delivers `{Pcap} h p cnt seen t :
  CapHandle.handle h = Some p ->
  CapHandle.Dispatch
    (fun h hdr pkt => modify (fun seen => seen ++ [(hdr, pkt)]);; mret h) cnt h seen t =
  Done ((fst (pcap_dispatch t p cnt), h),
        seen ++ (if CapHandle.callback h then snd (pcap_dispatch t p cnt) else []),
        S t).
Proof.
  intros Hp. unfold CapHandle.Dispatch. rewrite Hp.
  destruct (pcap_dispatch t p cnt) as [ret pkts] eqn:Hd.
  erewrite bind_Done by (unfold pcall; by rewrite Hd). simpl.
  enough (forall seen t, CapHandle.deliver
    (fun h hdr pkt => modify (fun seen => seen ++ [(hdr, pkt)]);; mret h) (Some h) pkts seen t =
    Done (Some h, seen ++ (if CapHandle.callback h then pkts else []), t)) as He
    by by rewrite (bind_Done _ _ _ _ _ _ _ (He seen (S t))).
  clear. induction pkts as [|[hdr pkt] pkts IH]; intros seen t; simpl.
  - by destruct (CapHandle.callback h); rewrite app_nil_r.
  - destruct (CapHandle.callback h) eqn:E; cbv [negb].
    + rewrite (bind_Done _ _ _ _ (Some h) (seen ++ [(hdr, pkt)]) t) by done.
      rewrite IH. by rewrite <- app_assoc.
    + erewrite bind_Done by done. apply IH.
Qed.

Lemma Dispatch_delivers_witness :
  let pkt := (mk_pkthdr (0, 0) 2 60, [1; 2]) in
  let h := @CapHandle.mk (sample_pcap 1 [pkt; pkt]) (Some "eth0") 1 "" 3
             (mk_PcapCtx 0 (mk_CtxAddr 0 0 0 0 0 0 0 0)) true in
  @CapHandle.Dispatch (sample_pcap 1 [pkt; pkt]) _
    (fun h hdr pkt => modify (fun seen => seen ++ [(hdr, pkt)]);; mret h) (-1) h [] 0%nat =
  Done ((2, h), [pkt; pkt], 1%nat).
Proof.
  etransitivity; [|reflexivity].
  by apply (@Dispatch_delivers (sample_pcap 1 [(mk_pkthdr (0, 0) 2 60, [1; 2]);
    (mk_pkthdr (0, 0) 2 60, [1; 2])])) with (p := "eth0").
Defined.
