(* ===== verification/Logger.v ===== *)
(** [utils/logger.hpp]: the logger, its streams and its macros.  What spdlog and
    fmt make of a message is a parameter; which messages the logger passes on,
    and where they go, is modelled. *)

From S2P Require Import Prelude Cstring.

(** [spdlog::level::level_enum]. *)
Inductive level := trace | debug | info | warn | err | critical | off.

#[export] Instance level_eq_dec : EqDecision level.
Proof. solve_decision. Defined.

Definition level_num (l : level) : Z :=
  match l with
  | trace => 0 | debug => 1 | info => 2 | warn => 3 | err => 4 | critical => 5 | off => 6
  end.

(** ** The formatting libraries *)

Inductive log_arg := ArgInt (n : Z) | ArgStr (s : string).

(** What spdlog writes for a message and its arguments, and [fmt::sprintf]. *)
Class Fmt := {
  fmt_render : string -> list log_arg -> string;
  fmt_sprintf : string -> list log_arg -> string
}.

Module Logger.
(** [sink] is the file of the default logger and whether it has the console as
    well, once there is one; [threshold] is the level spdlog filters with, and
    [flush_level] the one from which it flushes.  [file] and [terminal] are the
    messages written there. *)
Record t := mk {
  is_inited : bool;
  log_level : level;
  sink : option (string * bool);
  threshold : level;
  flush_level : level;
  file : list (level * string);
  terminal : list (level * string)
}.

(** spdlog starts with a console logger, at [info]. *)
Definition new : t := mk false trace None info off [] [].

(** [spdlog::log]: the console's sink has the level [debug]. *)
Definition write (lvl : level) (text : string) (l : t) : t :=
  let msg := [(lvl, text)] in
  if level_num lvl <? level_num (threshold l) then l else
  match sink l with
  | None => mk (is_inited l) (log_level l) (sink l) (threshold l) (flush_level l)
              (file l) (terminal l ++ msg)
  | Some (_, console) =>
      mk (is_inited l) (log_level l) (sink l) (threshold l) (flush_level l) (file l ++ msg)
        (if console && (level_num debug <=? level_num lvl) then terminal l ++ msg else terminal l)
  end.

(** [Init].  Whether the sink's file opens is a parameter.  spdlog throws
    [spdlog_ex] when it does not, which the handler, written for
    [std::exception_ptr], does not catch.  [_DEBUG] and [WIN32] are not both
    defined. *)
Definition Init (openable : string -> bool) (log_path : string) (console : bool) : M t bool :=
  l ← get;
  if is_inited l then mret true else
  if negb (openable log_path) then throw SpdlogEx else
  put (mk true (log_level l) (Some (log_path, console)) (log_level l) warn [] (terminal l));;
  mret true.

Definition SetLevel (lvl : level) : M t () :=
  modify (fun l => mk (is_inited l) lvl (sink l) lvl (flush_level l) (file l) (terminal l)).

Definition Level (l : t) : level := log_level l.

Definition Flush (lvl : level) : M t () :=
  modify (fun l => mk (is_inited l) (log_level l) (sink l) (threshold l) lvl (file l) (terminal l)).

(** [spdlog::shutdown] is a parameter. *)
Definition Shutdown (spdlog_shutdown : t -> t) : M t () := modify spdlog_shutdown.

Section messages.
Context `{Fmt}.

(** [spdlog::log(loc, lvl, fmt, args...)]; the location is part of the pattern
    the sinks print, not of the message. *)
Definition spdlog_log (lvl : level) (fmt : string) (args : list log_arg) : M t () :=
  modify (write lvl (fmt_render fmt args)).

Definition Log (lvl : level) (fmt : string) (args : list log_arg) : M t () :=
  spdlog_log lvl (c_str fmt) args.

Definition Printf (lvl : level) (fmt : string) (args : list log_arg) : M t () :=
  spdlog_log lvl (c_str (fmt_sprintf fmt args)) [].

(** The macros; [LOG_TRACE] asks the logger's own level first. *)
Definition LOG_DEBUG : string -> list log_arg -> M t () := spdlog_log debug.
Definition LOG_INFO : string -> list log_arg -> M t () := spdlog_log info.
Definition LOG_WARN : string -> list log_arg -> M t () := spdlog_log warn.
Definition LOG_ERROR : string -> list log_arg -> M t () := spdlog_log err.
Definition LOG_FATAL : string -> list log_arg -> M t () := spdlog_log critical.

Definition LOG_TRACE (msg : string) (args : list log_arg) : M t () :=
  l ← get;
  if decide (Level l = trace) then spdlog_log trace msg args else mret ().

(** [PRINT_FATAL] names a member that the class does not have, and cannot be
    used. *)
Definition PRINT_TRACE : string -> list log_arg -> M t () := Printf trace.
Definition PRINT_DEBUG : string -> list log_arg -> M t () := Printf debug.
Definition PRINT_INFO : string -> list log_arg -> M t () := Printf info.
Definition PRINT_WARN : string -> list log_arg -> M t () := Printf warn.
Definition PRINT_ERROR : string -> list log_arg -> M t () := Printf err.

(** ** The stream *)

Record LogStream := mk_LogStream { lvl : level; prefix : string; str : string }.

Definition LogStream_new (_lvl : level) (_prefix : string) : LogStream := mk_LogStream _lvl _prefix "".

(** [<<] of a text. *)
Definition insert (s : string) (ls : LogStream) : LogStream :=
  mk_LogStream (lvl ls) (prefix ls) (str ls +:+ s).

Definition flush (ls : LogStream) : M t () :=
  Log (lvl ls) (c_str (prefix ls +:+ str ls)) [].

(** The destructor. *)
Definition LogStream_end (ls : LogStream) : M t () := flush ls.

(** [ls << s1 << ...;] for a temporary [ls]: it dies at the end of the
    statement. *)
Definition stream_out (ls : LogStream) (texts : list string) : M t () :=
  LogStream_end (fold_left (fun ls s => insert s ls) texts ls).

Definition STM_TRACE : LogStream := LogStream_new trace "".
Definition STM_DEBUG : LogStream := LogStream_new debug "".
Definition STM_INFO : LogStream := LogStream_new info "".
Definition STM_WARN : LogStream := LogStream_new warn "".
Definition STM_ERROR : LogStream := LogStream_new err "".
Definition STM_FATAL : LogStream := LogStream_new critical "".
End messages.

(** The offset in [path] of what [GetShortName] points at: past the last
    slash or backslash. *)
Definition is_slash (c : ascii) : bool :=
  bool_decide (c = "/"%char) || bool_decide (c = "\"%char).

Fixpoint find_last_of (p : ascii -> bool) (s : string) : option nat :=
  match s with
  | "" => None
  | String c s =>
      match find_last_of p s with
      | Some pos => Some (S pos)
      | None => if p c then Some 0%nat else None
      end
  end.

Definition GetShortName_offset (path : string) : nat :=
  if decide (path = "") then 0%nat
  else match find_last_of is_slash path with Some pos => S pos | None => 0%nat end.
End Logger.

(** ** The short name of a path *)

Fixpoint str_drop (n : nat) (s : string) : string :=
  match n, s with
  | S n, String _ s => str_drop n s
  | _, _ => s
  end.

Lemma find_last_of_spec p s :
  match Logger.find_last_of p s with
  | Some pos => exists a c b, s = a +:+ String c b /\ String.length a = pos /\
      p c = true /\ str_forall (fun c => negb (p c)) b = true
  | None => str_forall (fun c => negb (p c)) s = true
  end.
Proof.
  induction s as [|c s IH]; [done|]. simpl. destruct (Logger.find_last_of p s) as [pos|].
  - destruct IH as (a & c' & b & -> & Ha & Hc & Hb). exists (String c a), c', b.
    by rewrite <- Ha.
  - destruct (p c) eqn:E; [by exists "", c, s|]. exact IH.
Qed.

Lemma str_drop_app a b : str_drop (String.length a) (a +:+ b) = b.
Proof. by induction a. Qed.

(** ** Properties *)

(** The offset [GetShortName] computes is that of the file's name: what is
    before it is empty or ends in a separator, and what follows has none. *)
Theorem GetShortName_basename path :
  exists dir base, path = dir +:+ base /\ Logger.GetShortName_offset path = String.length dir /\
    str_forall (fun c => negb (Logger.is_slash c)) base = true /\
    (dir = "" \/ exists a c, dir = a +:+ String c "" /\ Logger.is_slash c = true).
Proof.
  unfold Logger.GetShortName_offset. destruct (decide (path = "")) as [->|_].
  - exists "", "". auto.
  - pose proof (find_last_of_spec Logger.is_slash path) as H.
    destruct (Logger.find_last_of Logger.is_slash path) as [pos|].
    + destruct H as (a & c & b & -> & <- & Hc & Hb). exists (a +:+ String c ""), b.
      split; [|split; [|split; [done|right; by exists a, c]]].
      * by rewrite str_app_assoc.
      * rewrite str_length_app. simpl. lia.
    + exists "", path. auto.
Qed.

(** The first successful [Init] decides the log file for the life of the
    program: later calls succeed and change nothing, whatever path they give. *)
Theorem Logger_Init_once openable path path' console console' l l' t :
  Logger.is_inited l = false -> Logger.Init openable path console l t = Done (true, l', t) ->
  Logger.sink l' = Some (path, console) /\
  Logger.Init openable path' console' l' t = Done (true, l', t).
Proof.
  intros Hl. unfold Logger.Init. cbv [mbind M_bind get put throw mret M_ret]. rewrite Hl.
  destruct (openable path); simpl; [|done]. intros [= <-]. done.
Qed.

Lemma Logger_Init_once_witness :
  exists l, Logger.sink l = Some ("a.log", true) /\
    Logger.Init (fun _ => true) "b.log" true l 0%nat = Done (true, l, 0%nat).
Proof.
  eexists. exact (Logger_Init_once (fun _ => true) "a.log" "b.log" true true Logger.new _ 0%nat
    eq_refl eq_refl).
Defined.

(** What the library does to the logger when it starts. *)
Definition configure (openable : string -> bool) (path : string) : M Logger.t () :=
  _ ← Logger.Init openable path true;
  Logger.SetLevel err.

Lemma configure_runs bad openable path l t :
  bad (Threw SpdlogEx) \/ openable path = true ->
  wpx bad (configure openable path) (fun _ _ _ => True) l t.
Proof.
  intros Hopen. unfold configure, Logger.Init. do 3 wp_step.
  destruct (Logger.is_inited l); [done|]. destruct (openable path); [done|]. by destruct Hopen.
Qed.

Section filter.
Context `{Fmt}.

(** A stream collects the texts in order. *)
Lemma inserted texts lvl p s :
  fold_left (fun ls x => Logger.insert x ls) texts (Logger.mk_LogStream lvl p s) =
    Logger.mk_LogStream lvl p (s +:+ foldr String.append "" texts).
Proof.
  revert s. induction texts as [|x texts IH]; intros s; simpl; [by rewrite str_app_nil_r|].
  unfold Logger.insert at 2. simpl. by rewrite IH, str_app_assoc.
Qed.

Lemma stream_out_text ls texts l t :
  Logger.stream_out ls texts l t = Done ((), Logger.write (Logger.lvl ls)
    (fmt_render (c_str (Logger.prefix ls +:+ (Logger.str ls +:+ foldr String.append "" texts))) []) l, t).
Proof.
  unfold Logger.stream_out. destruct ls as [lvl p s]. rewrite inserted.
  unfold Logger.LogStream_end, Logger.flush, Logger.Log, Logger.spdlog_log. by rewrite c_str_idemp.
Qed.

(** The messages of a statement, as they are written. *)
Definition passes (lvl : level) : bool := level_num err <=? level_num lvl.

Lemma write_configured lvl text l :
  Logger.threshold l = err -> (exists path, Logger.sink l = Some (path, true)) ->
  Logger.file (Logger.write lvl text l) =
    Logger.file l ++ (if passes lvl then [(lvl, text)] else []) /\
  Logger.terminal (Logger.write lvl text l) =
    Logger.terminal l ++ (if passes lvl then [(lvl, text)] else []).
Proof.
  intros Ht [path Hs]. unfold Logger.write, passes. rewrite Ht, Hs.
  destruct lvl; simpl; by rewrite ?app_nil_r.
Qed.

(** The statements of the macros below [err], with their arguments. *)
Inductive quiet_statement : M Logger.t () -> Prop :=
  | QuietLogTrace msg args : quiet_statement (Logger.LOG_TRACE msg args)
  | QuietLogDebug msg args : quiet_statement (Logger.LOG_DEBUG msg args)
  | QuietLogInfo msg args : quiet_statement (Logger.LOG_INFO msg args)
  | QuietLogWarn msg args : quiet_statement (Logger.LOG_WARN msg args)
  | QuietPrintTrace msg args : quiet_statement (Logger.PRINT_TRACE msg args)
  | QuietPrintDebug msg args : quiet_statement (Logger.PRINT_DEBUG msg args)
  | QuietPrintInfo msg args : quiet_statement (Logger.PRINT_INFO msg args)
  | QuietPrintWarn msg args : quiet_statement (Logger.PRINT_WARN msg args)
  | QuietStream ls texts :
      ls ∈ [Logger.STM_TRACE; Logger.STM_DEBUG; Logger.STM_INFO; Logger.STM_WARN] ->
      quiet_statement (Logger.stream_out ls texts).

(** Those from [err] on, and what they write. *)
Inductive loud_statement : M Logger.t () -> level -> string -> Prop :=
  | LoudLogError msg args : loud_statement (Logger.LOG_ERROR msg args) err (fmt_render msg args)
  | LoudLogFatal msg args : loud_statement (Logger.LOG_FATAL msg args) critical (fmt_render msg args)
  | LoudPrintError msg args :
      loud_statement (Logger.PRINT_ERROR msg args) err (fmt_render (c_str (fmt_sprintf msg args)) [])
  | LoudStream ls texts :
      ls ∈ [Logger.STM_ERROR; Logger.STM_FATAL] ->
      loud_statement (Logger.stream_out ls texts) (Logger.lvl ls)
        (fmt_render (c_str (foldr String.append "" texts)) []).

(** C40: once the library has configured its logger, the statements of the three
    families of macros at the levels [err] and [critical] write their message
    to the log file and to the console, each once, and the statements at every
    other level, traces included, have no effect at all. *)
Theorem configured_filter openable path l t l' t' :
  Logger.is_inited l = false -> configure openable path l t = Done ((), l', t') ->
  Logger.sink l' = Some (path, true) /\
  (forall m, quiet_statement m -> m l' t' = Done ((), l', t')) /\
  (forall m lvl text, loud_statement m lvl text ->
     exists l2, m l' t' = Done ((), l2, t') /\
       Logger.file l2 = [(lvl, text)] /\ Logger.terminal l2 = Logger.terminal l ++ [(lvl, text)]).
Proof.
  intros Hl. unfold configure, Logger.Init, Logger.SetLevel.
  cbv [mbind M_bind get put throw mret M_ret modify]. rewrite Hl.
  destruct (openable path); simpl; [|done]. intros [= <- <-]. simpl. split; [done|].
  set (l1 := Logger.mk _ _ _ _ _ _ _).
  assert (forall lvl text, passes lvl = true -> let l2 := Logger.write lvl text l1 in
    Logger.file l2 = [(lvl, text)] /\ Logger.terminal l2 = Logger.terminal l ++ [(lvl, text)]) as Hyes.
  { intros lvl text Hp l2.
    destruct (write_configured lvl text l1 eq_refl (ex_intro _ path eq_refl)) as [Hf Ht].
    unfold l2. by rewrite Hf, Ht, Hp. }
  split.
  - intros m [| | | | | | | |ls texts Hls]; try done. rewrite stream_out_text.
    repeat (apply elem_of_cons in Hls as [->|Hls]; [done|]). by apply elem_of_nil in Hls.
  - intros m lvl text [| | |ls texts Hls]; try (eexists; split; [done|by apply Hyes]).
    rewrite stream_out_text.
    repeat (apply elem_of_cons in Hls as [->|Hls]; [eexists; split; [done|by apply Hyes]|]).
    by apply elem_of_nil in Hls.
Qed.

(** A stream that is flushed explicitly is written twice: [flush] keeps the
    text, and the destructor flushes again. *)
Lemma flush_twice lvl p s l t :
  passes lvl = true -> Logger.threshold l = err -> (exists path, Logger.sink l = Some (path, true)) ->
  exists l', (Logger.flush (Logger.mk_LogStream lvl p s);;
              Logger.LogStream_end (Logger.mk_LogStream lvl p s)) l t = Done ((), l', t) /\
    let msg := (lvl, fmt_render (c_str (c_str (p +:+ s))) []) in
    Logger.file l' = Logger.file l ++ [msg; msg].
Proof.
  intros Hp Ht Hs. eexists. split; [done|]. simpl.
  set (text := fmt_render _ _).
  assert (Logger.threshold (Logger.write lvl text l) = err /\
    exists path, Logger.sink (Logger.write lvl text l) = Some (path, true)) as [Ht1 Hs1].
  { destruct Hs as [path Hs]. unfold Logger.write. rewrite Ht, Hs.
    destruct (_ <? _); [by eauto|]. simpl. eauto. }
  destruct (write_configured lvl text _ Ht1 Hs1) as [-> _].
  destruct (write_configured lvl text l Ht Hs) as [-> _]. rewrite Hp. by rewrite <- app_assoc.
Qed.
End filter.

Definition plain_fmt : Fmt := {| fmt_render s _ := s; fmt_sprintf s _ := s |}.

Lemma configured_filter_witness :
  exists l, configure (fun _ => true) "a.log" Logger.new 0%nat = Done ((), l, 0%nat) /\
    @Logger.LOG_WARN plain_fmt "lost" [] l 0%nat = Done ((), l, 0%nat).
Proof.
  eexists. split; [reflexivity|].
  exact (proj1 (proj2 (@configured_filter plain_fmt (fun _ => true) "a.log" Logger.new 0%nat _ 0%nat
    eq_refl eq_refl)) _ (@QuietLogWarn plain_fmt "lost" [])).
Defined.
