(* ===== verification/Transport.v ===== *)
(** [capturecxx.h] and the packet side of [capturecxx.cpp]: the state of the
    capture singleton, and what it does with a TCP or UDP packet. *)

From S2P Require Import Prelude Cstring Inet OrdMap Pod Device Packet Inode Process Handle Logger.

(** ** Reading a packet

    A pointer into the packet is the bytes from there to the end of what was
    captured; a read beyond them is out of bounds. *)

Definition load8 {S} (packet : list Z) (off : nat) : M S Z :=
  match packet !! off with Some b => mret b | None => undef OobRead end.

(** [ntohs] of a [uint16_t] in network order. *)
Definition load_be16 {S} (packet : list Z) (off : nat) : M S Z :=
  b0 ← load8 packet off; b1 ← load8 packet (off + 1); mret (ntohs b0 b1).

(** A [uint32_t] of the packet, as the host reads it. *)
Definition load32 {S} (packet : list Z) (off : nat) : M S Z :=
  b0 ← load8 packet off; b1 ← load8 packet (off + 1);
  b2 ← load8 packet (off + 2); b3 ← load8 packet (off + 3);
  mret (u32_of_bytes b0 b1 b2 b3).

(** [malloc(n)] and [memcpy(bag, packet, n)]. *)
Definition copy_bytes {S} (packet : list Z) (n : Z) : M S (list Z) :=
  if n <=? Z.of_nat (length packet) then mret (take (Z.to_nat n) packet) else undef OobRead.

Definition set_nth {A} (i : nat) (x : A) (l : list A) : list A := take i l ++ x :: drop (S i) l.

Module CaptureCxx.
Section state.
Context `{Pcap}.

(** The members of the class; the two callbacks are whether they are set.
    [helper] and [logger] are the other singletons, [captures] the captures
    libpcap has open for the program, and [events] the calls made to the
    callbacks so far. *)
Record t := mk {
  devices : list CapDevice.t;
  handles : list CapHandle.t;
  protocol : bool;
  pids : list Z;
  processes : list (Z * CapProcess.t);
  processCallback : bool;
  packetCallback : bool;
  processData : list Process_t;
  packetData : list Packet_t;
  packetIdx : Z;
  captureAll : bool;
  memory : Z;
  cpu : Z;
  deltaCpu : Z;
  helper : CapInodeHelper.t;
  logger : Logger.t;
  captures : list pcap_t;
  events : list event
}.

Definition new : t :=
  mk [] [] false [] [] false false [] [] 0 false 0 0 0 CapInodeHelper.new Logger.new [] [].

Definition set_devices (x : list CapDevice.t) (c : t) : t :=
  mk x (handles c) (protocol c) (pids c) (processes c) (processCallback c) (packetCallback c)
     (processData c) (packetData c) (packetIdx c) (captureAll c) (memory c) (cpu c) (deltaCpu c)
     (helper c) (logger c) (captures c) (events c).
Definition set_handles (x : list CapHandle.t) (c : t) : t :=
  mk (devices c) x (protocol c) (pids c) (processes c) (processCallback c) (packetCallback c)
     (processData c) (packetData c) (packetIdx c) (captureAll c) (memory c) (cpu c) (deltaCpu c)
     (helper c) (logger c) (captures c) (events c).
Definition set_protocol (x : bool) (c : t) : t :=
  mk (devices c) (handles c) x (pids c) (processes c) (processCallback c) (packetCallback c)
     (processData c) (packetData c) (packetIdx c) (captureAll c) (memory c) (cpu c) (deltaCpu c)
     (helper c) (logger c) (captures c) (events c).
Definition set_pids (x : list Z) (c : t) : t :=
  mk (devices c) (handles c) (protocol c) x (processes c) (processCallback c) (packetCallback c)
     (processData c) (packetData c) (packetIdx c) (captureAll c) (memory c) (cpu c) (deltaCpu c)
     (helper c) (logger c) (captures c) (events c).
Definition set_processes (x : list (Z * CapProcess.t)) (c : t) : t :=
  mk (devices c) (handles c) (protocol c) (pids c) x (processCallback c) (packetCallback c)
     (processData c) (packetData c) (packetIdx c) (captureAll c) (memory c) (cpu c) (deltaCpu c)
     (helper c) (logger c) (captures c) (events c).
Definition set_processCallback (x : bool) (c : t) : t :=
  mk (devices c) (handles c) (protocol c) (pids c) (processes c) x (packetCallback c)
     (processData c) (packetData c) (packetIdx c) (captureAll c) (memory c) (cpu c) (deltaCpu c)
     (helper c) (logger c) (captures c) (events c).
Definition set_packetCallback (x : bool) (c : t) : t :=
  mk (devices c) (handles c) (protocol c) (pids c) (processes c) (processCallback c) x
     (processData c) (packetData c) (packetIdx c) (captureAll c) (memory c) (cpu c) (deltaCpu c)
     (helper c) (logger c) (captures c) (events c).
Definition set_processData (x : list Process_t) (c : t) : t :=
  mk (devices c) (handles c) (protocol c) (pids c) (processes c) (processCallback c)
     (packetCallback c) x (packetData c) (packetIdx c) (captureAll c) (memory c) (cpu c)
     (deltaCpu c) (helper c) (logger c) (captures c) (events c).
Definition set_packetData (x : list Packet_t) (c : t) : t :=
  mk (devices c) (handles c) (protocol c) (pids c) (processes c) (processCallback c)
     (packetCallback c) (processData c) x (packetIdx c) (captureAll c) (memory c) (cpu c)
     (deltaCpu c) (helper c) (logger c) (captures c) (events c).
Definition set_packetIdx (x : Z) (c : t) : t :=
  mk (devices c) (handles c) (protocol c) (pids c) (processes c) (processCallback c)
     (packetCallback c) (processData c) (packetData c) x (captureAll c) (memory c) (cpu c)
     (deltaCpu c) (helper c) (logger c) (captures c) (events c).
Definition set_captureAll (x : bool) (c : t) : t :=
  mk (devices c) (handles c) (protocol c) (pids c) (processes c) (processCallback c)
     (packetCallback c) (processData c) (packetData c) (packetIdx c) x (memory c) (cpu c)
     (deltaCpu c) (helper c) (logger c) (captures c) (events c).
Definition set_memory (x : Z) (c : t) : t :=
  mk (devices c) (handles c) (protocol c) (pids c) (processes c) (processCallback c)
     (packetCallback c) (processData c) (packetData c) (packetIdx c) (captureAll c) x (cpu c)
     (deltaCpu c) (helper c) (logger c) (captures c) (events c).
Definition set_cpu (x : Z) (c : t) : t :=
  mk (devices c) (handles c) (protocol c) (pids c) (processes c) (processCallback c)
     (packetCallback c) (processData c) (packetData c) (packetIdx c) (captureAll c) (memory c) x
     (deltaCpu c) (helper c) (logger c) (captures c) (events c).
Definition set_deltaCpu (x : Z) (c : t) : t :=
  mk (devices c) (handles c) (protocol c) (pids c) (processes c) (processCallback c)
     (packetCallback c) (processData c) (packetData c) (packetIdx c) (captureAll c) (memory c)
     (cpu c) x (helper c) (logger c) (captures c) (events c).
Definition set_helper (x : CapInodeHelper.t) (c : t) : t :=
  mk (devices c) (handles c) (protocol c) (pids c) (processes c) (processCallback c)
     (packetCallback c) (processData c) (packetData c) (packetIdx c) (captureAll c) (memory c)
     (cpu c) (deltaCpu c) x (logger c) (captures c) (events c).
Definition set_logger (x : Logger.t) (c : t) : t :=
  mk (devices c) (handles c) (protocol c) (pids c) (processes c) (processCallback c)
     (packetCallback c) (processData c) (packetData c) (packetIdx c) (captureAll c) (memory c)
     (cpu c) (deltaCpu c) (helper c) x (captures c) (events c).
Definition set_captures (x : list pcap_t) (c : t) : t :=
  mk (devices c) (handles c) (protocol c) (pids c) (processes c) (processCallback c)
     (packetCallback c) (processData c) (packetData c) (packetIdx c) (captureAll c) (memory c)
     (cpu c) (deltaCpu c) (helper c) (logger c) x (events c).
Definition set_events (x : list event) (c : t) : t :=
  mk (devices c) (handles c) (protocol c) (pids c) (processes c) (processCallback c)
     (packetCallback c) (processData c) (packetData c) (packetIdx c) (captureAll c) (memory c)
     (cpu c) (deltaCpu c) (helper c) (logger c) (captures c) x.

Definition emit (e : event) : M t () := modify (fun c => set_events (events c ++ [e]) c).
End state.

Section transport.
Context `{Pcap} `{Ntop6} `{Env}.

(** The packet record of a segment: its ports are the first two 16-bit
    fields of both transport headers. *)
Definition make_packet (context : PcapCtx) (header : pcap_pkthdr) (packet : list Z) :
    M t (option CapPacket.t) :=
  c ← get;
  let a := ctx_addr context in
  if ctx_family context =? AF_INET then
    source ← load_be16 packet 0;
    dest ← load_be16 packet 2;
    '(_, cap) ← run_on CapPacket.new
      (CapPacket.Init4 (devices c) (ip4_ip_src a) source (ip4_ip_dst a) dest (len header)
         (ts header) Unknown);
    mret (Some cap)
  else if ctx_family context =? AF_INET6 then
    source ← load_be16 packet 0;
    dest ← load_be16 packet 2;
    '(_, cap) ← run_on CapPacket.new
      (CapPacket.Init6 (devices c) (ip6_ip6_src a) source (ip6_ip6_dst a) dest (len header)
         (ts header) Unknown);
    mret (Some cap)
  else mret None.

(** The process of a packet: a new one is parsed before it gets the packet. *)
Definition add_to_process (pid : Z) (cap : CapPacket.t) : M t CapPacket.t :=
  c ← get;
  match map_find pid (processes c) with
  | None =>
      '(cap, ptr) ← run_on (CapProcess.new pid)
        (_ ← CapProcess.Parse (memory c) (deltaCpu c); CapProcess.AddPacket (devices c) cap);
      modify (fun c => set_processes (map_set pid ptr (processes c)) c);;
      mret cap
  | Some ptr =>
      '(cap, ptr) ← run_on ptr (CapProcess.AddPacket (devices c) cap);
      modify (fun c => set_processes (map_set pid ptr (processes c)) c);;
      mret cap
  end.

(** The row of a packet, written into the zeroed memory of a [Packet_t]. *)
Definition packet_row (family : PacketType) (cap : CapPacket.t) (header : pcap_pkthdr)
    (bag : option (list Z)) : Packet_t :=
  mk_Packet_t (strncpy (k_hash Packet_zero) (CapPacket.Link cap) (CAPTURE_COMMAN_SIZE - 1))
    family bag (len header).

Definition make_bag (header : pcap_pkthdr) (packet : list Z) : M t (option (list Z)) :=
  c ← get;
  if captureAll c then bag ← copy_bytes packet (len header); mret (Some bag) else mret None.

(** The end of both handlers: the row at [packetIdx] is reused, or one is
    added; [reuse] and [push] are the families the two branches write. *)
Definition store_row (reuse push : PacketType) (cap : CapPacket.t) (header : pcap_pkthdr)
    (packet : list Z) : M t () :=
  c ← get;
  if packetIdx c <? Z.of_nat (length (packetData c)) then
    bag ← make_bag header packet;
    modify (fun c => set_packetData
      (set_nth (Z.to_nat (packetIdx c)) (packet_row reuse cap header bag) (packetData c)) c);;
    modify (fun c => set_packetIdx (u64 (packetIdx c + 1)) c)
  else
    bag ← make_bag header packet;
    modify (fun c => set_packetData (packetData c ++ [packet_row push cap header bag]) c);;
    modify (fun c => set_packetIdx (u64 (packetIdx c + 1)) c).

(** The body the two handlers share. *)
Definition process_segment (reuse push : PacketType) (context : PcapCtx) (header : pcap_pkthdr)
    (packet : list Z) : M t Z :=
  cap ← make_packet context header packet;
  match cap with
  | None => mret CAP_NET_UNKNOW
  | Some cap =>
      c ← get;
      '(hash, cap) ← run_on cap (CapPacket.Hash (devices c));
      let '(ret, pid) := CapInodeHelper.GetPidByIp (helper c) hash (-1) in
      if negb (ret =? 0) then mret ret else
      cap ← add_to_process pid cap;
      c ← get;
      (if packetCallback c then store_row reuse push cap header packet else mret ());;
      mret 0
  end.

Definition ProcessTcp : PcapCtx -> pcap_pkthdr -> list Z -> M t Z := process_segment P_TCP P_TCP.

(** The branch that reuses a row writes [P_TCP] here too. *)
Definition ProcessUdp : PcapCtx -> pcap_pkthdr -> list Z -> M t Z := process_segment P_TCP P_UDP.
End transport.
End CaptureCxx.

(** ** What a segment does, as functions *)

Section spec.
Context `{Pcap} `{Ntop6} `{Env}.

Definition known_family (context : PcapCtx) : bool :=
  (ctx_family context =? AF_INET) || (ctx_family context =? AF_INET6).

(** The packet of a segment, before and after its direction is decided. *)
Definition raw_packet (context : PcapCtx) (header : pcap_pkthdr) (sport dport : Z) : CapPacket.t :=
  let a := ctx_addr context in
  if ctx_family context =? AF_INET then
    CapPacket.mk in6_zero in6_zero (ip4_ip_src a) (ip4_ip_dst a) sport dport (len header)
      (ts header) Unknown AF_INET ""
  else
    CapPacket.mk (ip6_ip6_src a) (ip6_ip6_dst a) 0 0 sport dport (len header)
      (ts header) Unknown AF_INET6 "".

Definition segment (devices : list CapDevice.t) (context : PcapCtx) (header : pcap_pkthdr)
    (sport dport : Z) : CapPacket.t :=
  let p := raw_packet context header sport dport in
  CapPacket.set_hashstring (CapPacket.key_of devices p) (CapPacket.settled devices p).

(** The first four bytes of a transport header. *)
Definition ports (packet : list Z) : option (Z * Z) :=
  match packet with
  | b0 :: b1 :: b2 :: b3 :: _ => Some (ntohs b0 b1, ntohs b2 b3)
  | _ => None
  end.

(** A process with one more packet. *)
Definition add_traffic (out : bool) (n : Z) (p : CapProcess.t) : CapProcess.t :=
  if out then CapProcess.set_send (u64 (CapProcess.send p + n)) p
  else CapProcess.set_recv (u64 (CapProcess.recv p + n)) p.

(** The table of packets with one more row. *)
Definition put_row (reuse push : PacketType) (cap : CapPacket.t) (header : pcap_pkthdr)
    (c : CaptureCxx.t) : CaptureCxx.t :=
  let idx := CaptureCxx.packetIdx c in
  let rows := CaptureCxx.packetData c in
  CaptureCxx.set_packetIdx (u64 (idx + 1))
    (CaptureCxx.set_packetData
       (if idx <? Z.of_nat (length rows)
        then set_nth (Z.to_nat idx) (CaptureCxx.packet_row reuse cap header None) rows
        else rows ++ [CaptureCxx.packet_row push cap header None]) c).

Lemma ports_length packet :
  match ports packet with Some _ => (4 <= length packet)%nat | None => (length packet < 4)%nat end.
Proof. destruct packet as [|? [|? [|? [|? ?]]]]; simpl; lia. Qed.

Lemma conn_key_nonempty a lp b rp : conn_key a lp b rp <> "".
Proof. unfold conn_key. by destruct a. Qed.

Lemma key_of_nonempty devices p : CapPacket.key_of devices p <> "".
Proof. unfold CapPacket.key_of. destruct (CapPacket.outgoing _ _); apply conn_key_nonempty. Qed.

Lemma make_packet_spec context header packet sp dp c t :
  devices_ok (CaptureCxx.devices c) -> known_family context = true ->
  ports packet = Some (sp, dp) ->
  CaptureCxx.make_packet context header packet c t =
    Done (Some (segment (CaptureCxx.devices c) context header sp dp), c, t).
Proof.
  intros Hok Hf Hp. destruct packet as [|b0 [|b1 [|b2 [|b3 packet]]]]; try done.
  injection Hp as <- <-. unfold CaptureCxx.make_packet, known_family, segment, raw_packet in *.
  cbv [mbind M_bind get load_be16 load8 lookup list_lookup Nat.add mret M_ret run_on].
  destruct (ctx_family context =? AF_INET); [by rewrite CapPacket.Init4_spec|].
  simpl in Hf. rewrite Hf. by rewrite CapPacket.Init6_spec.
Qed.

Lemma make_packet_unknown context header packet c t :
  known_family context = false -> CaptureCxx.make_packet context header packet c t = Done (None, c, t).
Proof.
  unfold known_family. intros [E1 E2]%orb_false_iff. unfold CaptureCxx.make_packet.
  cbv [mbind M_bind get]. by rewrite E1, E2.
Qed.

Lemma make_packet_short context header packet c t :
  known_family context = true -> ports packet = None ->
  CaptureCxx.make_packet context header packet c t = Undef OobRead.
Proof.
  unfold known_family. intros Hf Hp. unfold CaptureCxx.make_packet. cbv [mbind M_bind get].
  destruct (ctx_family context =? AF_INET); simpl in Hf; rewrite ?Hf;
    destruct packet as [|b0 [|b1 [|b2 [|b3 packet]]]]; done.
Qed.

Lemma segment_hash devices devices' context header sp dp t :
  CapPacket.Hash devices' (segment devices context header sp dp) t =
    Done (CapPacket.key_of devices (raw_packet context header sp dp),
          segment devices context header sp dp, t).
Proof.
  unfold CapPacket.Hash. cbv [mbind M_bind get]. rewrite decide_False; [done|].
  apply key_of_nonempty.
Qed.

Lemma segment_outgoing devices context header sp dp :
  CapPacket.outgoing devices (segment devices context header sp dp) =
    CapPacket.outgoing devices (raw_packet context header sp dp).
Proof.
  unfold segment, CapPacket.settled.
  by destruct (CapPacket.outgoing devices (raw_packet _ _ _ _)) eqn:E.
Qed.

Lemma segment_settled devices context header sp dp :
  CapPacket.settled devices (segment devices context header sp dp) =
    segment devices context header sp dp.
Proof.
  unfold CapPacket.settled at 1. rewrite segment_outgoing. unfold segment, CapPacket.settled.
  by destruct (CapPacket.outgoing devices (raw_packet _ _ _ _)).
Qed.

Lemma segment_len devices context header sp dp :
  CapPacket.GetLen (segment devices context header sp dp) = len header.
Proof. unfold segment, raw_packet. by destruct (_ =? _). Qed.

Lemma segment_AddPacket devices context header sp dp p t :
  devices_ok devices ->
  CapProcess.AddPacket devices (segment devices context header sp dp) p t =
    Done (segment devices context header sp dp,
      add_traffic (CapPacket.outgoing devices (raw_packet context header sp dp)) (len header) p, t).
Proof.
  intros Hok. rewrite AddPacket_spec, segment_settled, segment_outgoing, segment_len by done.
  done.
Qed.

Lemma store_row_spec reuse push cap header packet c t :
  CaptureCxx.captureAll c = false ->
  CaptureCxx.store_row reuse push cap header packet c t =
    Done ((), put_row reuse push cap header c, t).
Proof.
  intros Hc. unfold CaptureCxx.store_row, CaptureCxx.make_bag, put_row.
  cbv [mbind M_bind get mret M_ret modify]. destruct (_ <? _); by rewrite Hc.
Qed.

(** The handler, on a segment whose ports were captured. *)
Lemma process_segment_eq reuse push context header packet sp dp c t :
  devices_ok (CaptureCxx.devices c) -> CaptureCxx.captureAll c = false ->
  known_family context = true -> ports packet = Some (sp, dp) ->
  let raw := raw_packet context header sp dp in
  let out := CapPacket.outgoing (CaptureCxx.devices c) raw in
  let cap := segment (CaptureCxx.devices c) context header sp dp in
  let store c := if CaptureCxx.packetCallback c then put_row reuse push cap header c else c in
  CaptureCxx.process_segment reuse push context header packet c t =
    match CapInodeHelper.GetPidByIp (CaptureCxx.helper c) (CapPacket.key_of (CaptureCxx.devices c) raw) (-1) with
    | (0, pid) =>
        match map_find pid (CaptureCxx.processes c) with
        | Some p =>
            Done (0, store (CaptureCxx.set_processes
              (map_set pid (add_traffic out (len header) p) (CaptureCxx.processes c)) c), t)
        | None =>
            match CapProcess.Parse (CaptureCxx.memory c) (CaptureCxx.deltaCpu c) (CapProcess.new pid) t with
            | Done (_, p, t') =>
                Done (0, store (CaptureCxx.set_processes
                  (map_set pid (add_traffic out (len header) p) (CaptureCxx.processes c)) c), t')
            | Throws e => Throws e
            | Undef u => Undef u
            | Diverges => Diverges
            end
        end
    | (ret, _) => Done (ret, c, t)
    end.
Proof.
  intros Hok Hall Hf Hp raw out cap store. unfold CaptureCxx.process_segment.
  rewrite (bind_Done _ _ _ _ (Some cap) c t) by (by apply make_packet_spec).
  rewrite (bind_Done get _ _ _ c c t) by done.
  erewrite bind_Done by (unfold run_on, cap; by rewrite segment_hash). cbv iota beta.
  fold raw. destruct (CapInodeHelper.GetPidByIp _ _ _) as [ret pid].
  destruct ret as [|n|n]; [|done..]. cbv [Z.eqb negb]. cbv iota.
  unfold CaptureCxx.add_to_process.
  rewrite bind_assoc, (bind_Done get _ _ _ c c t) by done.
  assert (forall p t', (c ← get; (if CaptureCxx.packetCallback c
      then CaptureCxx.store_row reuse push cap header packet else mret ());; mret 0)
      (CaptureCxx.set_processes p c) t' =
    Done (0, store (CaptureCxx.set_processes p c), t')) as Hstore.
  { intros p t'. rewrite (bind_Done get _ _ _ (CaptureCxx.set_processes p c)
      (CaptureCxx.set_processes p c) t') by done. unfold store.
    destruct (CaptureCxx.packetCallback (CaptureCxx.set_processes p c)); [|done].
    by erewrite bind_Done by (by apply store_row_spec). }
  destruct (map_find pid (CaptureCxx.processes c)) as [p|].
  - rewrite bind_assoc. erewrite bind_Done by (unfold run_on, cap; by rewrite segment_AddPacket).
    apply Hstore.
  - rewrite bind_assoc. cbv [mbind M_bind run_on].
    destruct (CapProcess.Parse _ _ _ _) as [[[r p] t']| | |]; [|done..].
    rewrite segment_AddPacket by done. apply Hstore.
Qed.

Lemma process_segment_unknown reuse push context header packet c t :
  known_family context = false ->
  CaptureCxx.process_segment reuse push context header packet c t = Done (CAP_NET_UNKNOW, c, t).
Proof.
  intros Hf. unfold CaptureCxx.process_segment.
  by rewrite (bind_Done _ _ _ _ None c t) by (by apply make_packet_unknown).
Qed.

Lemma process_segment_short reuse push context header packet c t :
  known_family context = true -> ports packet = None ->
  CaptureCxx.process_segment reuse push context header packet c t = Undef OobRead.
Proof.
  intros Hf Hp. unfold CaptureCxx.process_segment. unfold mbind, M_bind.
  by rewrite make_packet_short.
Qed.
End spec.

(** ** The invariant of the capture *)

Section invariant.
Context `{Pcap} `{Ntop6} `{Env}.

(** A [char[n]] that holds a C string. *)
Definition terminated (n : nat) (a : list ascii) : Prop :=
  length a = n /\ a !! (n - 1)%nat = Some NUL.

Definition pid_ok (pid : Z) : Prop := - 2 ^ 31 <= pid < 2 ^ 31.

(** A row of the process table: C strings in its arrays, every number in the
    range of its type, percentages that are numbers. *)
Record process_row_ok (r : Process_t) : Prop := {
  row_name : terminated CAPTURE_COMMAN_SIZE (p_name r);
  row_cmdline : terminated CAPTURE_CMDLINE_SIZE (p_cmdline r);
  row_user : terminated CAPTURE_COMMAN_SIZE (p_user r);
  row_group : terminated CAPTURE_COMMAN_SIZE (p_group r);
  row_pid : pid_ok (p_pid r);
  row_ids : word32 (p_uid r) /\ word32 (p_gid r) /\ word32 (p_fdCnt r);
  row_memory : in64 (p_memory r);
  row_percent : nonneg_number (p_cpuPercent r) = true /\ nonneg_number (p_memPercent r) = true;
  row_io : in64 (p_ioRead r) /\ in64 (p_ioWrite r);
  row_net : in64 (p_recv r) /\ in64 (p_send r)
}.

(** A row of the packet table: a terminated array, no copy of the bytes. *)
Definition packet_row_ok (r : Packet_t) : Prop :=
  terminated CAPTURE_COMMAN_SIZE (k_hash r) /\ k_packet r = None /\ word32 (k_packetSize r).

(** A call of a callback: as many rows of the table as are announced exist,
    every row is well formed, and a removal names one process.  Of the packet
    table only the rows are promised, not that there are as many. *)
Definition event_ok (e : event) : Prop :=
  match e with
  | ProcessEvent action rows n =>
      Forall process_row_ok rows /\ 0 <= n <= Z.of_nat (length rows) /\
      (action = ACTION_REMOVE -> n = 1)
  | PacketEvent rows n => Forall packet_row_ok rows /\ rows <> [] /\ 0 < n < 2 ^ 31
  end.

Definition process_entry (kp : Z * CapProcess.t) : Prop :=
  CapProcess.pid kp.2 = kp.1 /\ process_wf kp.2.

(** An open handle: its link type is that of its capture, and it has the
    callback. *)
Definition usable (h : CapHandle.t) : Prop :=
  (exists p, CapHandle.handle h = Some p /\ CapHandle.linktype h = pcap_datalink p) /\
  CapHandle.callback h = true.

Record inv (c : CaptureCxx.t) : Prop := {
  inv_devices : devices_ok (CaptureCxx.devices c);
  inv_up : Forall (fun d => CapDevice.UpRunning d = true) (CaptureCxx.devices c);
  inv_handles : Forall usable (CaptureCxx.handles c);
  inv_protocol : CaptureCxx.protocol c = true \/ CaptureCxx.handles c = [];
  inv_pids : ascending (CaptureCxx.pids c);
  inv_keys : ascending (keys (CaptureCxx.processes c));
  inv_processes : Forall process_entry (CaptureCxx.processes c);
  inv_pid_ok : Forall pid_ok (CaptureCxx.pids c);
  inv_key_ok : Forall pid_ok (keys (CaptureCxx.processes c));
  inv_helper : map_Forall (fun _ pid => pid_ok pid) (CapInodeHelper.inodeToPids (CaptureCxx.helper c));
  inv_table : Forall process_row_ok (CaptureCxx.processData c);
  inv_rows : Forall packet_row_ok (CaptureCxx.packetData c);
  inv_idx : 0 <= CaptureCxx.packetIdx c <= Z.of_nat (length (CaptureCxx.packetData c));
  inv_captureAll : CaptureCxx.captureAll c = false;
  inv_events : Forall event_ok (CaptureCxx.events c);
  inv_totals : in64 (CaptureCxx.memory c) /\ in64 (CaptureCxx.cpu c) /\ in64 (CaptureCxx.deltaCpu c)
}.

(** What a packet does not touch. *)
Definition packet_frame (c c' : CaptureCxx.t) : Prop :=
  CaptureCxx.devices c' = CaptureCxx.devices c /\ CaptureCxx.handles c' = CaptureCxx.handles c /\
  CaptureCxx.protocol c' = CaptureCxx.protocol c /\ CaptureCxx.pids c' = CaptureCxx.pids c /\
  CaptureCxx.processCallback c' = CaptureCxx.processCallback c /\
  CaptureCxx.packetCallback c' = CaptureCxx.packetCallback c /\
  CaptureCxx.processData c' = CaptureCxx.processData c /\
  CaptureCxx.helper c' = CaptureCxx.helper c /\ CaptureCxx.logger c' = CaptureCxx.logger c /\
  CaptureCxx.captures c' = CaptureCxx.captures c /\ CaptureCxx.events c' = CaptureCxx.events c.

Lemma packet_frame_refl c : packet_frame c c.
Proof. by repeat split. Qed.

Lemma packet_frame_trans c1 c2 c3 : packet_frame c1 c2 -> packet_frame c2 c3 -> packet_frame c1 c3.
Proof. unfold packet_frame. intuition congruence. Qed.

Lemma length_set_nth {A} i (x : A) l : (i < length l)%nat -> length (set_nth i x l) = length l.
Proof. intros. unfold set_nth. rewrite length_app, length_take. simpl. rewrite length_drop. lia. Qed.

Lemma Forall_set_nth {A} (P : A -> Prop) i x l : P x -> Forall P l -> Forall P (set_nth i x l).
Proof.
  intros Hx Hl. unfold set_nth. apply Forall_app. split; [by apply Forall_take|].
  constructor; [done|by apply Forall_drop].
Qed.

Lemma lookup_set_nth {A} i (x : A) l : (i < length l)%nat -> set_nth i x l !! i = Some x.
Proof.
  intros. unfold set_nth. rewrite lookup_app_r; rewrite length_take; [|lia].
  by replace (i - i `min` length l)%nat with 0%nat by lia.
Qed.

Lemma lookup_repeat {A} (x : A) n i : (i < n)%nat -> repeat x n !! i = Some x.
Proof. revert i. induction n as [|n IH]; intros [|i] Hi; simpl; [lia|lia|done|]. apply IH. lia. Qed.

Lemma strncpy_terminated src N :
  (0 < N)%nat -> terminated N (strncpy (zeroed N) src (N - 1)).
Proof.
  intros HN. split.
  { rewrite length_strncpy; unfold zeroed; rewrite repeat_length; lia. }
  set (n := (N - 1)%nat). assert (n < N)%nat as Hn by lia. unfold strncpy, zeroed.
  assert (length (take n (list_ascii_of_string (c_str src) ++ repeat NUL n)) = n) as Hlen
    by (rewrite length_take, length_app, repeat_length; lia).
  rewrite lookup_app_r, Hlen, lookup_drop by lia.
  apply lookup_repeat. lia.
Qed.

Lemma packet_row_row_ok family cap header :
  word32 (len header) -> packet_row_ok (CaptureCxx.packet_row family cap header None).
Proof.
  intros Hlen. split; [|done]. apply strncpy_terminated. unfold CAPTURE_COMMAN_SIZE. lia.
Qed.

Lemma put_row_inv reuse push cap header c :
  inv c -> word32 (len header) -> inv (put_row reuse push cap header c).
Proof.
  intros [] Hlen. constructor; try done; unfold put_row; simpl.
  - destruct (_ <? _); [apply Forall_set_nth|apply Forall_app; split; [done|constructor; [|done]]];
      auto using packet_row_row_ok.
  - pose proof (u64_range (CaptureCxx.packetIdx c + 1)) as Hr.
    pose proof (Z.mod_le (CaptureCxx.packetIdx c + 1) (2 ^ 64) ltac:(lia) ltac:(lia)) as Hle.
    unfold u64 in *. destruct (Z.ltb_spec (CaptureCxx.packetIdx c)
      (Z.of_nat (length (CaptureCxx.packetData c)))).
    + rewrite length_set_nth; lia.
    + rewrite length_app. simpl. lia.
Qed.

Lemma add_traffic_entry out n pid p :
  process_entry (pid, p) -> process_entry (pid, add_traffic out n p).
Proof.
  intros [Hpid []]. destruct_and?. unfold add_traffic.
  split; [by destruct out|]. destruct out; constructor; simpl; auto;
    split; first [done | apply u64_range].
Qed.

Lemma set_processes_inv pid p c :
  inv c -> pid_ok pid -> process_entry (pid, p) ->
  inv (CaptureCxx.set_processes (map_set pid p (CaptureCxx.processes c)) c).
Proof.
  intros [] Hpid Hp. constructor; try done; simpl; [by apply ascending_set|by apply Forall_map_set|].
  apply Forall_forall. intros k [->|Hk]%elem_of_keys_set; [done|].
  rewrite Forall_forall in inv_key_ok0. auto.
Qed.

Lemma find_process_entry c pid p :
  inv c -> map_find pid (CaptureCxx.processes c) = Some p -> process_entry (pid, p).
Proof.
  intros [] Hp%map_find_elem. rewrite Forall_forall in inv_processes0.
  by apply (inv_processes0 (pid, p)).
Qed.

Lemma find_pid_ok c pid p :
  inv c -> map_find pid (CaptureCxx.processes c) = Some p -> pid_ok pid.
Proof.
  intros [] Hp%map_find_elem. rewrite Forall_forall in inv_key_ok0.
  apply inv_key_ok0. by apply (list_elem_of_fmap_2 fst _ (pid, p)).
Qed.

Lemma GetPidByIp_ok c hash pid p :
  inv c -> CapInodeHelper.GetPidByIp (CaptureCxx.helper c) hash pid = (0, p) -> pid_ok p.
Proof.
  intros [] (i & _ & Hi)%GetPidByIp_inv. by apply (inv_helper0 i).
Qed.

Lemma store_inv reuse push cap header pid p c :
  inv c -> word32 (len header) -> pid_ok pid -> process_entry (pid, p) ->
  let c1 := CaptureCxx.set_processes (map_set pid p (CaptureCxx.processes c)) c in
  let c2 := if CaptureCxx.packetCallback c1 then put_row reuse push cap header c1 else c1 in
  inv c2 /\ packet_frame c c2.
Proof.
  intros Hc Hlen Hpid Hp c1 c2. pose proof (set_processes_inv pid p c Hc Hpid Hp) as Hset.
  subst c2. fold c1 in Hset.
  destruct (CaptureCxx.packetCallback c1); split; try done. by apply put_row_inv.
Qed.

(** A parsed process is fit for the map, whether or not its files were there. *)
Lemma parse_entry bad pid imemory ideltacpu t :
  files_ok bad ->
  in64 imemory -> in64 ideltacpu ->
  wpx bad (CapProcess.Parse imemory ideltacpu)
    (fun _ p _ => kept (CapProcess.new pid) p /\ process_wf p) (CapProcess.new pid) t.
Proof.
  intros. apply ParseProc_good; done.
Qed.

Lemma process_segment_inv bad reuse push context header packet c t :
  files_ok bad ->
  inv c -> word32 (len header) ->
  known_family context = false \/ (4 <= length packet)%nat \/ bad (Undefined OobRead) ->
  wpx bad (CaptureCxx.process_segment reuse push context header packet)
    (fun _ c' _ => inv c' /\ packet_frame c c') c t.
Proof.
  intros Hok Hc Hlen Hread. unfold wpx.
  destruct (known_family context) eqn:Hf; [|by rewrite process_segment_unknown].
  pose proof (ports_length packet) as Hports. destruct (ports packet) as [[sp dp]|] eqn:Hp.
  2: { rewrite process_segment_short by done. destruct Hread as [|[|]]; [done|lia|done]. }
  pose proof Hc as []. rewrite (process_segment_eq _ _ _ _ _ sp dp) by done. cbv zeta.
  destruct (CapInodeHelper.GetPidByIp _ _ _) as [[|n|n] pid] eqn:Hget; [|by split..].
  apply GetPidByIp_ok in Hget; [|done].
  destruct (map_find pid (CaptureCxx.processes c)) as [p|] eqn:Hfind.
  - apply store_inv; [done..|]. by apply add_traffic_entry, find_process_entry with c.
  - destruct_and?. pose proof (parse_entry bad pid (CaptureCxx.memory c) (CaptureCxx.deltaCpu c) t
      Hok ltac:(done) ltac:(done)) as Hparse. unfold wpx in Hparse.
    destruct (CapProcess.Parse _ _ _ _) as [[[r p] t']| | |]; [|done..].
    apply store_inv; [done..|]. apply add_traffic_entry. destruct Hparse as [[Hpid _] Hwf].
    by split.
Qed.
End invariant.

(** ** The text of a row *)

Section link.
Context `{Ntop6Ok}.

Lemma endpoint_text_short p :
  (String.length (CapPacket.source_text p) <= 45)%nat /\ (String.length (CapPacket.dest_text p) <= 45)%nat.
Proof.
  unfold CapPacket.source_text, CapPacket.dest_text.
  destruct (CapPacket.family p =? AF_INET); rewrite !inet_ntop_fits.
  all: repeat match goal with
       | |- context [ntop4 ?a] => pose proof (ntop4_length a); generalize dependent (ntop4 a); intros
       | |- context [ntop6 ?a] => pose proof (ntop6_length a); generalize dependent (ntop6 a); intros
       end; lia.
Qed.

Lemma endpoint_text_chars p :
  str_forall not_nul (CapPacket.source_text p) = true /\
  str_forall not_nul (CapPacket.dest_text p) = true.
Proof.
  assert (forall s, str_forall presentation_char s = true -> str_forall not_nul s = true) as Hp
    by (intros s; apply str_forall_impl, presentation_not_nul).
  unfold CapPacket.source_text, CapPacket.dest_text.
  destruct (CapPacket.family p =? AF_INET); rewrite !inet_ntop_fits;
    try (pose proof (ntop4_length (CapPacket.sip p)); pose proof (ntop4_length (CapPacket.dip p)); lia);
    try (pose proof (ntop6_length (CapPacket.sip6 p)); pose proof (ntop6_length (CapPacket.dip6 p)); lia);
    split; apply Hp; auto using ntop4_chars, ntop6_chars.
Qed.

Lemma port_text_short n : 0 <= n < 2 ^ 16 -> (String.length (to_string n) <= 5)%nat.
Proof. intros. apply to_string_length; [lia|]. change (10 ^ Z.of_nat 5) with 100000. lia. Qed.

Lemma port_text_chars n : 0 <= n -> str_forall not_nul (to_string n) = true.
Proof.
  intros Hn. eapply str_forall_impl; [apply presentation_not_nul|].
  by apply presentation_digits, to_string_digits.
Qed.

(** The link of a packet and its terminator fit a row: at most 103
    characters. *)
Lemma Link_fits p :
  0 <= CapPacket.sport p < 2 ^ 16 -> 0 <= CapPacket.dport p < 2 ^ 16 ->
  (String.length (CapPacket.Link p) <= 103)%nat /\ c_str (CapPacket.Link p) = CapPacket.Link p.
Proof.
  intros Hs Hd. destruct (endpoint_text_short p), (endpoint_text_chars p) as [Hsrc Hdst].
  pose proof (port_text_short _ Hs). pose proof (port_text_short _ Hd). unfold CapPacket.Link. split.
  - rewrite !str_length_app. simpl String.length. lia.
  - apply c_str_id. rewrite !str_forall_app. rewrite Hsrc, Hdst, !port_text_chars by lia. done.
Qed.
End link.

(** ** Properties *)

Section properties.
Context `{Pcap} `{Ntop6} `{Env}.

(** The bytes all processes have exchanged. *)
Definition process_traffic (p : CapProcess.t) : Z := CapProcess.recv p + CapProcess.send p.

Definition traffic (c : CaptureCxx.t) : Z :=
  foldr (fun kp n => process_traffic kp.2 + n) 0 (CaptureCxx.processes c).

Lemma traffic_map_set k v m :
  ascending (keys m) ->
  foldr (fun kp n => process_traffic kp.2 + n) 0 (map_set k v m) =
  foldr (fun kp n => process_traffic kp.2 + n) 0 m + process_traffic v -
    match map_find k m with Some w => process_traffic w | None => 0 end.
Proof.
  unfold ascending. induction m as [|[x w] m IH]; simpl; [lia|].
  intros Hm. inversion Hm as [|?? Hm' Hx]; subst. rewrite Forall_forall in Hx.
  destruct (Z.ltb_spec k x); simpl.
  - destruct (Z.eqb_spec k x); [lia|].
    assert (map_find k m = None) as ->; [|lia]. apply map_find_None. intros Hk.
    specialize (Hx k Hk). lia.
  - destruct (Z.eqb_spec k x); simpl; [lia|]. rewrite IH by done. lia.
Qed.

Lemma traffic_add out n p : u64 (process_traffic (add_traffic out n p)) = u64 (process_traffic p + n).
Proof.
  unfold process_traffic, add_traffic, u64. destruct out; simpl;
    rewrite ?Zplus_mod_idemp_l, ?Zplus_mod_idemp_r; f_equal; lia.
Qed.

Lemma traffic_store reuse push cap header c :
  traffic (if CaptureCxx.packetCallback c then put_row reuse push cap header c else c) = traffic c.
Proof. by destruct (CaptureCxx.packetCallback c). Qed.

Lemma traffic_set pid out n p c old :
  ascending (keys (CaptureCxx.processes c)) ->
  match map_find pid (CaptureCxx.processes c) with Some w => process_traffic w | None => 0 end = old ->
  process_traffic p = old ->
  u64 (traffic (CaptureCxx.set_processes
        (map_set pid (add_traffic out n p) (CaptureCxx.processes c)) c)) = u64 (traffic c + n).
Proof.
  intros Hasc Hold Hp. unfold traffic. simpl. rewrite traffic_map_set, Hold by done.
  pose proof (traffic_add out n p) as Ht. unfold u64 in *.
  rewrite <- Z.add_sub_assoc, <- Zplus_mod_idemp_r, Zminus_mod, Ht, <- Zminus_mod, Zplus_mod_idemp_r.
  f_equal. lia.
Qed.

Lemma parse_run c pid t r p t' :
  inv c ->
  CapProcess.Parse (CaptureCxx.memory c) (CaptureCxx.deltaCpu c) (CapProcess.new pid) t =
    Done (r, p, t') ->
  kept (CapProcess.new pid) p /\ process_wf p.
Proof.
  intros Hc. destruct (inv_totals c Hc) as (Hm & _ & Hd).
  apply (wlp_elim _ (fun _ p _ => kept (CapProcess.new pid) p /\ process_wf p)).
  apply parse_entry; auto using files_ok_any.
Qed.

Lemma segment_outcome reuse push context header packet c t ret c' t' :
  inv c -> CaptureCxx.process_segment reuse push context header packet c t = Done (ret, c', t') ->
  (ret <> 0 /\ c' = c /\ t' = t) \/
  (ret = 0 /\ exists sp dp pid p,
    ports packet = Some (sp, dp) /\
    (exists i, CapInodeHelper.inodeToPids (CaptureCxx.helper c) !! i = Some pid) /\
    let raw := raw_packet context header sp dp in
    let out := CapPacket.outgoing (CaptureCxx.devices c) raw in
    let cap := segment (CaptureCxx.devices c) context header sp dp in
    let c1 := CaptureCxx.set_processes
      (map_set pid (add_traffic out (len header) p) (CaptureCxx.processes c)) c in
    c' = (if CaptureCxx.packetCallback c1 then put_row reuse push cap header c1 else c1) /\
    (map_find pid (CaptureCxx.processes c) = Some p \/
     map_find pid (CaptureCxx.processes c) = None /\ kept (CapProcess.new pid) p)).
Proof.
  intros Hc Hrun. pose proof Hc as [].
  destruct (known_family context) eqn:Hf.
  2: { rewrite process_segment_unknown in Hrun by done. left. by injection Hrun as <- <- <-. }
  destruct (ports packet) as [[sp dp]|] eqn:Hp.
  2: { by rewrite process_segment_short in Hrun. }
  rewrite (process_segment_eq _ _ _ _ _ sp dp) in Hrun by done. cbv zeta in Hrun.
  destruct (CapInodeHelper.GetPidByIp _ _ _) as [[|n|n] pid] eqn:Hget;
    [|left; by injection Hrun as <- <- <-..].
  assert (exists i, CapInodeHelper.inodeToPids (CaptureCxx.helper c) !! i = Some pid) as Hi
    by (apply GetPidByIp_inv in Hget as (i & _ & ?); by exists i).
  right. destruct (map_find pid (CaptureCxx.processes c)) as [p|] eqn:Hfind.
  - injection Hrun as <- <- <-. split; [done|]. exists sp, dp, pid, p. auto.
  - destruct (CapProcess.Parse _ _ _ _) as [[[r p] t1]| | |] eqn:Hparse; [|done..].
    injection Hrun as <- <- <-. split; [done|]. exists sp, dp, pid, p. split; [done|].
    split; [done|]. split; [done|]. right. split; [done|]. by apply (parse_run _ _ _ _ _ _ Hc Hparse).
Qed.

(** C15: traffic is conserved.  A segment that is accepted adds its length on the
    wire to the total that the processes have sent and received, modulo 2^64,
    whichever process it belongs to and in whichever direction; a segment that
    is refused changes nothing at all. *)
Theorem segment_conserves_traffic reuse push context header packet c t ret c' t' :
  inv c -> CaptureCxx.process_segment reuse push context header packet c t = Done (ret, c', t') ->
  (ret = 0 -> u64 (traffic c') = u64 (traffic c + len header)) /\
  (ret <> 0 -> c' = c /\ t' = t).
Proof.
  intros Hc Hrun. destruct (segment_outcome _ _ _ _ _ _ _ _ _ _ Hc Hrun)
    as [(Hret & -> & ->)|(-> & sp & dp & pid & p & _ & _ & -> & Hp)]; [by split|].
  split; [intros _|done]. rewrite traffic_store.
  apply traffic_set with (old := process_traffic p); [apply Hc| |done].
  destruct Hp as [->|[-> (_ & Hr & Hs)]]; [done|]. unfold process_traffic. by rewrite Hr, Hs.
Qed.

(** A segment of a connection whose process is known is charged to that
    process and no other, in the direction its source address decides; the
    packet table gets its row when there is a packet callback; nothing is read
    from the system. *)
Theorem ProcessTcp_tracked context header packet sp dp pid p c t :
  let raw := raw_packet context header sp dp in
  let out := CapPacket.outgoing (CaptureCxx.devices c) raw in
  let cap := segment (CaptureCxx.devices c) context header sp dp in
  let c1 := CaptureCxx.set_processes
    (map_set pid (add_traffic out (len header) p) (CaptureCxx.processes c)) c in
  inv c -> known_family context = true -> ports packet = Some (sp, dp) ->
  CapInodeHelper.GetPidByIp (CaptureCxx.helper c)
    (CapPacket.key_of (CaptureCxx.devices c) raw) (-1) = (0, pid) ->
  map_find pid (CaptureCxx.processes c) = Some p ->
  CaptureCxx.ProcessTcp context header packet c t =
    Done (0, if CaptureCxx.packetCallback c then put_row P_TCP P_TCP cap header c1 else c1, t).
Proof.
  intros raw out cap c1 Hc Hf Hp Hget Hfind. pose proof Hc as [].
  unfold CaptureCxx.ProcessTcp. rewrite (process_segment_eq _ _ _ _ _ sp dp) by done. cbv zeta.
  fold raw. by rewrite Hget, Hfind.
Qed.

(** The first segment of a process that is not in the map creates it: its
    entry carries the pid the connection resolved to, exactly the segment's
    length on the one side and nothing on the other, and the keys of the map
    stay in order. *)
Theorem ProcessTcp_new_process context header packet sp dp pid c t ret c' t' :
  let raw := raw_packet context header sp dp in
  inv c -> word32 (len header) -> known_family context = true -> ports packet = Some (sp, dp) ->
  CapInodeHelper.GetPidByIp (CaptureCxx.helper c)
    (CapPacket.key_of (CaptureCxx.devices c) raw) (-1) = (0, pid) ->
  map_find pid (CaptureCxx.processes c) = None ->
  CaptureCxx.ProcessTcp context header packet c t = Done (ret, c', t') ->
  exists p, map_find pid (CaptureCxx.processes c') = Some p /\ CapProcess.pid p = pid /\
    (CapProcess.send p, CapProcess.recv p) =
      (if CapPacket.outgoing (CaptureCxx.devices c) raw then (len header, 0) else (0, len header)) /\
    ascending (keys (CaptureCxx.processes c')).
Proof.
  intros raw Hc Hlen Hf Hp Hget Hfind Hrun. pose proof Hc as [].
  unfold CaptureCxx.ProcessTcp in Hrun. rewrite (process_segment_eq _ _ _ _ _ sp dp) in Hrun by done.
  cbv zeta in Hrun. fold raw in Hrun. rewrite Hget, Hfind in Hrun.
  destruct (CapProcess.Parse _ _ _ _) as [[[r p] t1]| | |] eqn:Hparse; [|done..].
  destruct (parse_run _ _ _ _ _ _ Hc Hparse) as [(Hpid & Hr & Hs) _].
  set (m := map_set _ _ _) in Hrun.
  assert (CaptureCxx.processes c' = m) as ->.
  { injection Hrun as _ <- _. by destruct (CaptureCxx.packetCallback _). }
  exists (add_traffic (CapPacket.outgoing (CaptureCxx.devices c) raw) (len header) p).
  unfold m. split; [apply map_find_set_eq|]. unfold add_traffic.
  assert (u64 (0 + len header) = len header) as Hu by (apply u64_id; unfold word32 in Hlen; lia).
  destruct (CapPacket.outgoing (CaptureCxx.devices c) raw); simpl; rewrite ?Hr, ?Hs; simpl;
    rewrite Hu; auto using ascending_set.
Qed.

(** A UDP segment that reuses a row of the packet table is announced as
    TCP. *)
Theorem ProcessUdp_reused_row context header packet c t c' t' :
  inv c -> CaptureCxx.packetCallback c = true ->
  CaptureCxx.packetIdx c < Z.of_nat (length (CaptureCxx.packetData c)) ->
  CaptureCxx.ProcessUdp context header packet c t = Done (0, c', t') ->
  exists row, CaptureCxx.packetData c' !! Z.to_nat (CaptureCxx.packetIdx c) = Some row /\
    k_family row = P_TCP /\ k_packetSize row = len header.
Proof.
  intros Hc Hcb Hidx Hrun. pose proof (inv_idx c Hc).
  destruct (segment_outcome _ _ _ _ _ _ _ _ _ _ Hc Hrun)
    as [(Hret & _)|(_ & sp & dp & pid & p & _ & _ & -> & _)]; [done|]. simpl. rewrite Hcb.
  unfold put_row. simpl. destruct (Z.ltb_spec (CaptureCxx.packetIdx c)
    (Z.of_nat (length (CaptureCxx.packetData c)))); [|lia].
  eexists. split; [apply lookup_set_nth; lia|done].
Qed.
End properties.

(** C37: the row of a packet holds the whole text of its link: source and
    destination with their ports never need the array's last byte, in either
    family. *)
Theorem packet_row_link `{Ntop6Ok} family cap header bag :
  0 <= CapPacket.sport cap < 2 ^ 16 -> 0 <= CapPacket.dport cap < 2 ^ 16 ->
  array_str (k_hash (CaptureCxx.packet_row family cap header bag)) = CapPacket.Link cap.
Proof.
  intros Hs Hd. destruct (Link_fits cap Hs Hd) as [Hlen Hstr].
  unfold CaptureCxx.packet_row. cbn [k_hash Packet_zero].
  rewrite strncpy_fits; [done| |].
  - rewrite Hstr. unfold CAPTURE_COMMAN_SIZE. lia.
  - unfold CAPTURE_COMMAN_SIZE. lia.
Qed.

(** ** A sample capture

    One device, 127.0.0.1 (up, and not marked as a loopback), and one
    connection, 127.0.0.1:8080 to 10.0.0.2:80, held by process 42. *)

Section sample.
Context (batch : list (pcap_pkthdr * list Z)).
#[local] Existing Instance full_ntop6.
#[local] Instance pcap : Pcap := sample_pcap 1 batch.

Definition sample_helper : CapInodeHelper.t :=
  CapInodeHelper.mk (<["127.0.0.1:8080-10.0.0.2:80" := 4026]> ∅) (<[4026 := 42]> ∅).

Definition sample_capture (cb : bool) (processes : list (Z * CapProcess.t)) (rows : list Packet_t) :
    CaptureCxx.t :=
  CaptureCxx.mk [device4 16777343] [] true [42] processes cb cb [] rows 0 false 8192 0 1000
    sample_helper Logger.new [] [].

Lemma sample_pid_ok pids :
  forallb (fun p => (- 2 ^ 31 <=? p) && (p <? 2 ^ 31)) pids = true -> Forall pid_ok pids.
Proof.
  rewrite forallb_forall, Forall_forall. intros Hp p Hin%list_elem_of_In%Hp. unfold pid_ok. lia.
Qed.

Lemma sample_inv cb processes rows :
  ascending (keys processes) -> Forall pid_ok (keys processes) ->
  Forall process_entry processes -> Forall packet_row_ok rows ->
  inv (sample_capture cb processes rows).
Proof.
  intros Hk Hr Hp Hw. constructor; try done; simpl; auto.
  - repeat constructor. by eexists.
  - repeat constructor.
  - by apply sample_pid_ok.
  - apply map_Forall_insert_2; [done|apply map_Forall_empty].
  - lia.
Qed.

Lemma sample_entries : Forall process_entry [(42, CapProcess.new 42)].
Proof. constructor; [split; [done|apply process_wf_new]|constructor]. Qed.

Definition sample_context : PcapCtx :=
  mk_PcapCtx AF_INET (mk_CtxAddr 16777343 33554442 0 0 0 0 0 0).
End sample.

(** The first bytes of a TCP header from port 8080 to port 80. *)
Definition sample_segment : list Z := [31; 144; 0; 80; 0; 0; 0; 1].
Definition sample_header : pcap_pkthdr := mk_pkthdr (0, 0) 62 1500.

(** Process 42 and the files the system has for it. *)
Definition sample_env : Env := fun _ => proc_os 42 sample_view.

Lemma segment_conserves_traffic_witness :
  exists c' t', @CaptureCxx.process_segment (sample_pcap 1 []) full_ntop6 sample_env P_TCP P_TCP
      sample_context sample_header sample_segment (sample_capture [] true [] []) 0%nat = Done (0, c', t') /\
    u64 (traffic c') = 1500.
Proof.
  destruct (@CaptureCxx.process_segment (sample_pcap 1 []) full_ntop6 sample_env P_TCP P_TCP
      sample_context sample_header sample_segment (sample_capture [] true [] []) 0%nat)
    as [[[ret c'] t']| | |] eqn:Hrun; vm_compute in Hrun; try discriminate.
  injection Hrun as <- <- <-. eexists _, _. split; [reflexivity|].
  refine (proj1 (@segment_conserves_traffic (sample_pcap 1 []) full_ntop6 sample_env P_TCP P_TCP
    sample_context sample_header sample_segment (sample_capture [] true [] []) 0%nat 0 _ _ _ _) eq_refl).
  - apply sample_inv; constructor.
  - vm_compute. reflexivity.
Defined.

Lemma ProcessTcp_tracked_witness :
  exists c', @CaptureCxx.ProcessTcp (sample_pcap 1 []) full_ntop6 sample_env
      sample_context sample_header sample_segment
      (sample_capture [] true [(42, CapProcess.new 42)] []) 0%nat = Done (0, c', 0%nat) /\
    option_map CapProcess.send (map_find 42 (CaptureCxx.processes c')) = Some 1500 /\
    length (CaptureCxx.packetData c') = 1%nat.
Proof.
  eexists. split.
  - eapply (@ProcessTcp_tracked (sample_pcap 1 []) full_ntop6 sample_env sample_context
      sample_header sample_segment 8080 80 42 (CapProcess.new 42)
      (sample_capture [] true [(42, CapProcess.new 42)] []) 0%nat).
    + apply sample_inv; [repeat constructor|by apply sample_pid_ok|apply sample_entries|constructor].
    + done.
    + done.
    + vm_compute. reflexivity.
    + done.
  - split; vm_compute; reflexivity.
Defined.

Lemma ProcessTcp_new_process_witness :
  exists c' t' p, @CaptureCxx.ProcessTcp (sample_pcap 1 []) full_ntop6 sample_env
      sample_context sample_header sample_segment (sample_capture [] true [] []) 0%nat = Done (0, c', t') /\
    map_find 42 (CaptureCxx.processes c') = Some p /\
    (CapProcess.send p, CapProcess.recv p) = (1500, 0).
Proof.
  destruct (@CaptureCxx.ProcessTcp (sample_pcap 1 []) full_ntop6 sample_env
      sample_context sample_header sample_segment (sample_capture [] true [] []) 0%nat)
    as [[[ret c'] t']| | |] eqn:Hrun; vm_compute in Hrun; try discriminate.
  injection Hrun as <- <- <-.
  edestruct (@ProcessTcp_new_process (sample_pcap 1 []) full_ntop6 sample_env
    sample_context sample_header sample_segment 8080 80 42 (sample_capture [] true [] []) 0%nat)
    as (p & Hp & _ & Ht & _);
    [apply sample_inv; constructor|done|done|done|vm_compute; reflexivity|done
    |vm_compute; reflexivity|].
  eexists _, _, p. split; [reflexivity|]. split; [exact Hp|]. rewrite Ht. vm_compute. reflexivity.
Defined.

Definition sample_row : Packet_t := Packet_zero.

Lemma sample_row_is_ok : packet_row_ok sample_row.
Proof. by repeat split. Qed.

Lemma ProcessUdp_reused_row_witness :
  exists c' row, @CaptureCxx.ProcessUdp (sample_pcap 1 []) full_ntop6 sample_env
      sample_context sample_header sample_segment
      (sample_capture [] true [(42, CapProcess.new 42)] [sample_row]) 0%nat = Done (0, c', 0%nat) /\
    CaptureCxx.packetData c' !! 0%nat = Some row /\ k_family row = P_TCP.
Proof.
  destruct (@CaptureCxx.ProcessUdp (sample_pcap 1 []) full_ntop6 sample_env
      sample_context sample_header sample_segment
      (sample_capture [] true [(42, CapProcess.new 42)] [sample_row]) 0%nat)
    as [[[ret c'] t']| | |] eqn:Hrun; vm_compute in Hrun; try discriminate.
  injection Hrun as <- <- <-.
  edestruct (@ProcessUdp_reused_row (sample_pcap 1 []) full_ntop6 sample_env
    sample_context sample_header sample_segment
    (sample_capture [] true [(42, CapProcess.new 42)] [sample_row]) 0%nat)
    as (row & Hrow & Hf & _);
    [apply sample_inv; [repeat constructor|by apply sample_pid_ok|apply sample_entries
                       |constructor; [apply sample_row_is_ok|constructor]]
    |done|done|vm_compute; reflexivity|].
  eexists _, row. split; [reflexivity|]. split; [exact Hrow|exact Hf].
Defined.

Lemma packet_row_link_witness :
  array_str (k_hash (@CaptureCxx.packet_row full_ntop6 P_UDP
    (raw_packet sample_context sample_header 8080 80) sample_header None)) =
  "127.0.0.1:8080-10.0.0.2:80".
Proof.
  etransitivity.
  - apply (@packet_row_link full_ntop6 full_ntop6_ok); simpl; lia.
  - vm_compute. reflexivity.
Defined.
