(* ===== verification/Protocol.v ===== *)
(** [cap_protocol.h] and [cap_protocol.cpp]: from a captured frame to its
    transport segment.  The handlers of the segments belong to the capture;
    here they are an interface. *)

From S2P Require Import Prelude Cstring Inet Pod Device Packet Inode Process Handle Logger Transport.

Definition DLT_EN10MB : Z := 1.
Definition DLT_RAW : Z := 12.
Definition ETHERTYPE_IP : Z := 0x0800.
Definition ETHERTYPE_IPV6 : Z := 0x86dd.
Definition IPPROTO_TCP : Z := 6.
Definition IPPROTO_UDP : Z := 17.

(** [sizeof] of [struct ether_header], [struct ip] and [struct ip6_hdr]. *)
Definition ETHER_SIZE : nat := 14.
Definition IP4_SIZE : nat := 20.
Definition IP6_SIZE : nat := 40.

(** ** The interface to the capture *)

Class Transport (S : Type) := {
  ProcessTcp : PcapCtx -> pcap_pkthdr -> list Z -> M S Z;
  ProcessUdp : PcapCtx -> pcap_pkthdr -> list Z -> M S Z
}.

Definition handler {S} `{Transport S} (kind : PacketType) : PcapCtx -> pcap_pkthdr -> list Z -> M S Z :=
  match kind with P_TCP => ProcessTcp | P_UDP => ProcessUdp end.

(** What a handler promises: it keeps the invariant, and reads no more of a
    segment than its two ports, which it does read. *)
Class TransportOk {S} `{Transport S} (bad : failure -> Prop) (Inv : S -> Prop) : Prop := {
  handler_inv : forall kind ctx hdr packet s t,
    Inv s -> word32 (len hdr) -> (4 <= length packet)%nat \/ bad (Undefined OobRead) ->
    wpx bad (handler kind ctx hdr packet) (fun _ s' _ => Inv s') s t;
  handler_short : forall kind ctx hdr packet s t,
    known_family ctx = true -> (length packet < 4)%nat ->
    handler kind ctx hdr packet s t = Undef OobRead
}.

Module CapProtocol.
Definition Init `{Fmt} : M Logger.t () := Logger.LOG_DEBUG "get init" [].

Section protocol.
Context `{Pcap} {S : Type} `{Transport S}.

(** The functions return the handle they were given, with the context they
    set in it. *)
Definition ProtocolIp4 (ctx : CapHandle.t) (header : pcap_pkthdr) (packet : list Z) :
    M S CapHandle.t :=
  let payload := drop IP4_SIZE packet in
  ip_src ← load32 packet 12;
  ip_dst ← load32 packet 16;
  let ctx := CapHandle.SetContext4 ip_src ip_dst ctx in
  ip_p ← load8 packet 9;
  if ip_p =? IPPROTO_TCP then
    _ ← ProcessTcp (CapHandle.GetContext ctx) header payload; mret ctx
  else if ip_p =? IPPROTO_UDP then
    _ ← ProcessUdp (CapHandle.GetContext ctx) header payload; mret ctx
  else mret ctx.

Definition load_in6 (packet : list Z) (off : nat) : M S in6_addr :=
  a ← load32 packet off; b ← load32 packet (off + 4);
  c ← load32 packet (off + 8); d ← load32 packet (off + 12);
  mret (mk_in6 a b c d).

Definition ProtocolIp6 (ctx : CapHandle.t) (header : pcap_pkthdr) (packet : list Z) :
    M S CapHandle.t :=
  let payload := drop IP6_SIZE packet in
  ip6_src ← load_in6 packet 8;
  ip6_dst ← load_in6 packet 24;
  let ctx := CapHandle.SetContext6 ip6_src ip6_dst ctx in
  nxt ← load8 packet 6;
  if nxt =? IPPROTO_TCP then
    _ ← ProcessTcp (CapHandle.GetContext ctx) header payload; mret ctx
  else if nxt =? IPPROTO_UDP then
    _ ← ProcessUdp (CapHandle.GetContext ctx) header payload; mret ctx
  else mret ctx.

Definition ProtocolIp (ctx : CapHandle.t) (header : pcap_pkthdr) (packet : list Z) :
    M S CapHandle.t :=
  if len header <? 1 then mret ctx else
  version ← load8 packet 0;
  let v := Z.land version 0xF0 in
  if v =? 0x40 then ProtocolIp4 ctx header packet
  else if v =? 0x60 then ProtocolIp6 ctx header packet
  else mret ctx.

Definition ProtocolEN10MB (ctx : CapHandle.t) (header : pcap_pkthdr) (packet : list Z) :
    M S CapHandle.t :=
  let payload := drop ETHER_SIZE packet in
  protocol ← load_be16 packet 12;
  if protocol =? ETHERTYPE_IP then ProtocolIp4 ctx header payload
  else if protocol =? ETHERTYPE_IPV6 then ProtocolIp6 ctx header payload
  else mret ctx.

Definition Parse (ctx : CapHandle.t) (header : pcap_pkthdr) (packet : list Z) :
    M S (Z * CapHandle.t) :=
  ctx ← (if CapHandle.DataLink ctx =? DLT_EN10MB then ProtocolEN10MB ctx header packet
         else if CapHandle.DataLink ctx =? DLT_RAW then ProtocolIp ctx header packet
         else mret ctx);
  mret (0, ctx).
End protocol.
End CapProtocol.

(** ** The bytes a frame must have

    How many bytes of a frame [Parse] reads; the captured length is never
    compared with it. *)

Definition byte_at (packet : list Z) (off : nat) : Z := default 0 (packet !! off).

Definition segment_bytes (proto : Z) : nat :=
  if (proto =? IPPROTO_TCP) || (proto =? IPPROTO_UDP) then 4 else 0.

Definition ip4_bytes (packet : list Z) : nat := IP4_SIZE + segment_bytes (byte_at packet 9).
Definition ip6_bytes (packet : list Z) : nat := IP6_SIZE + segment_bytes (byte_at packet 6).

Definition needed (linktype : Z) (header : pcap_pkthdr) (packet : list Z) : nat :=
  if linktype =? DLT_EN10MB then
    let protocol := ntohs (byte_at packet 12) (byte_at packet 13) in
    ETHER_SIZE + (if protocol =? ETHERTYPE_IP then ip4_bytes (drop ETHER_SIZE packet)
                  else if protocol =? ETHERTYPE_IPV6 then ip6_bytes (drop ETHER_SIZE packet)
                  else 0)
  else if linktype =? DLT_RAW then
    if len header <? 1 then 0 else
    let v := Z.land (byte_at packet 0) 0xF0 in
    if v =? 0x40 then ip4_bytes packet else if v =? 0x60 then ip6_bytes packet else 1
  else 0.

(** ** Reading within and beyond the captured bytes *)

Section loads.
Context {S : Type} (packet : list Z) (s : S) (t : nat).

Lemma load8_ok off : (off < length packet)%nat -> load8 packet off s t = Done (byte_at packet off, s, t).
Proof. intros Hoff. unfold load8, byte_at. by destruct (lookup_lt_is_Some_2 packet off Hoff) as [b ->]. Qed.

Lemma load8_short off : (length packet <= off)%nat -> load8 packet off s t = Undef OobRead.
Proof. intros Hoff. unfold load8. by rewrite lookup_ge_None_2. Qed.

Lemma load_be16_ok off :
  (off + 2 <= length packet)%nat ->
  load_be16 packet off s t = Done (ntohs (byte_at packet off) (byte_at packet (off + 1)), s, t).
Proof.
  intros Hoff. unfold load_be16. erewrite bind_Done by (apply load8_ok; lia).
  by erewrite bind_Done by (apply load8_ok; lia).
Qed.

Lemma load_be16_short off :
  (length packet < off + 2)%nat -> load_be16 packet off s t = Undef OobRead.
Proof.
  intros Hoff. unfold load_be16, mbind, M_bind. destruct (Nat.lt_ge_cases off (length packet)).
  - rewrite load8_ok, load8_short by lia. done.
  - by rewrite load8_short by lia.
Qed.

(** The word a load reads. *)
Definition word_at (off : nat) : Z :=
  u32_of_bytes (byte_at packet off) (byte_at packet (off + 1)) (byte_at packet (off + 2))
    (byte_at packet (off + 3)).

Lemma load32_ok off : (off + 4 <= length packet)%nat -> load32 packet off s t = Done (word_at off, s, t).
Proof.
  intros Hoff. unfold load32. do 4 (erewrite bind_Done by (apply load8_ok; lia)). done.
Qed.

Lemma load32_short off : (length packet < off + 4)%nat -> load32 packet off s t = Undef OobRead.
Proof.
  intros Hoff. unfold load32, mbind, M_bind.
  destruct (Nat.lt_ge_cases (off + 0) (length packet)); [|by rewrite load8_short by lia].
  rewrite (load8_ok off) by lia.
  destruct (Nat.lt_ge_cases (off + 1) (length packet)); [|by rewrite load8_short by lia].
  rewrite (load8_ok (off + 1)) by lia.
  destruct (Nat.lt_ge_cases (off + 2) (length packet)); [|by rewrite load8_short by lia].
  by rewrite load8_ok, load8_short by lia.
Qed.

Definition in6_at (off : nat) : in6_addr :=
  mk_in6 (word_at off) (word_at (off + 4)) (word_at (off + 8)) (word_at (off + 12)).

Lemma load_in6_ok off :
  (off + 16 <= length packet)%nat -> CapProtocol.load_in6 packet off s t = Done (in6_at off, s, t).
Proof.
  intros Hoff. unfold CapProtocol.load_in6. do 4 (erewrite bind_Done by (apply load32_ok; lia)). done.
Qed.

Lemma load_in6_short off :
  (length packet < off + 16)%nat -> CapProtocol.load_in6 packet off s t = Undef OobRead.
Proof.
  intros Hoff. unfold CapProtocol.load_in6, mbind, M_bind.
  destruct (Nat.le_gt_cases (off + 4) (length packet)); [|by rewrite load32_short by lia].
  rewrite (load32_ok off) by lia.
  destruct (Nat.le_gt_cases (off + 8) (length packet)); [|by rewrite load32_short by lia].
  rewrite (load32_ok (off + 4)) by lia.
  destruct (Nat.le_gt_cases (off + 12) (length packet)); [|by rewrite load32_short by lia].
  by rewrite load32_ok, load32_short by lia.
Qed.
End loads.

(** ** The parsers as functions of a complete frame *)

Definition segment_kind (proto : Z) : option PacketType :=
  if proto =? IPPROTO_TCP then Some P_TCP
  else if proto =? IPPROTO_UDP then Some P_UDP else None.

(** The same handle, but for its context. *)
Definition same_handle `{Pcap} (h h' : CapHandle.t) : Prop :=
  h' = CapHandle.set_context (CapHandle.context h') h.

Section parse.
Context `{Pcap} {S : Type} `{Transport S}.

Definition hand_over (proto : Z) (ctx : CapHandle.t) (header : pcap_pkthdr) (payload : list Z) :
    M S CapHandle.t :=
  match segment_kind proto with
  | Some kind => _ ← handler kind (CapHandle.GetContext ctx) header payload; mret ctx
  | None => mret ctx
  end.

Lemma ProtocolIp4_eq ctx header packet s t :
  (IP4_SIZE <= length packet)%nat ->
  CapProtocol.ProtocolIp4 ctx header packet s t =
    hand_over (byte_at packet 9)
      (CapHandle.SetContext4 (word_at packet 12) (word_at packet 16) ctx) header
      (drop IP4_SIZE packet) s t.
Proof.
  unfold IP4_SIZE. intros Hlen. unfold CapProtocol.ProtocolIp4.
  rewrite (bind_Done _ _ _ _ _ _ _ (load32_ok packet s t 12 ltac:(lia))).
  rewrite (bind_Done _ _ _ _ _ _ _ (load32_ok packet s t 16 ltac:(lia))).
  rewrite (bind_Done _ _ _ _ _ _ _ (load8_ok packet s t 9 ltac:(lia))).
  unfold hand_over, segment_kind, handler. by repeat destruct (_ =? _).
Qed.

Lemma ProtocolIp4_short ctx header packet s t :
  (length packet < IP4_SIZE)%nat -> CapProtocol.ProtocolIp4 ctx header packet s t = Undef OobRead.
Proof.
  unfold IP4_SIZE. intros Hlen. unfold CapProtocol.ProtocolIp4, mbind, M_bind.
  destruct (Nat.le_gt_cases (12 + 4) (length packet)); [|by rewrite load32_short by lia].
  by rewrite load32_ok, load32_short by lia.
Qed.

Lemma ProtocolIp6_eq ctx header packet s t :
  (IP6_SIZE <= length packet)%nat ->
  CapProtocol.ProtocolIp6 ctx header packet s t =
    hand_over (byte_at packet 6)
      (CapHandle.SetContext6 (in6_at packet 8) (in6_at packet 24) ctx) header
      (drop IP6_SIZE packet) s t.
Proof.
  unfold IP6_SIZE. intros Hlen. unfold CapProtocol.ProtocolIp6.
  rewrite (bind_Done _ _ _ _ _ _ _ (load_in6_ok packet s t 8 ltac:(lia))).
  rewrite (bind_Done _ _ _ _ _ _ _ (load_in6_ok packet s t 24 ltac:(lia))).
  rewrite (bind_Done _ _ _ _ _ _ _ (load8_ok packet s t 6 ltac:(lia))).
  unfold hand_over, segment_kind, handler. by repeat destruct (_ =? _).
Qed.

Lemma ProtocolIp6_short ctx header packet s t :
  (length packet < IP6_SIZE)%nat -> CapProtocol.ProtocolIp6 ctx header packet s t = Undef OobRead.
Proof.
  unfold IP6_SIZE. intros Hlen. unfold CapProtocol.ProtocolIp6, mbind, M_bind.
  destruct (Nat.le_gt_cases (8 + 16) (length packet)); [|by rewrite load_in6_short by lia].
  by rewrite load_in6_ok, load_in6_short by lia.
Qed.

Lemma segment_bytes_kind proto :
  segment_bytes proto = match segment_kind proto with Some _ => 4%nat | None => 0%nat end.
Proof. unfold segment_bytes, segment_kind. by repeat destruct (_ =? _). Qed.

Context (bad : failure -> Prop) (Inv : S -> Prop) `{!TransportOk bad Inv}.

(** A parser that reads [n] bytes: within the frame it keeps the invariant,
    beyond it reads out of bounds. *)
Definition reads (n : nat) (ctx : CapHandle.t) (header : pcap_pkthdr) (packet : list Z)
    (m : M S CapHandle.t) : Prop :=
  forall s t,
    ((length packet < n)%nat -> m s t = Undef OobRead) /\
    ((n <= length packet)%nat -> Inv s -> word32 (len header) ->
     wpx bad m (fun ctx' s' _ => same_handle ctx ctx' /\ Inv s') s t).

Lemma hand_over_reads proto ctx header payload s t :
  known_family (CapHandle.GetContext ctx) = true ->
  ((length payload < segment_bytes proto)%nat -> hand_over proto ctx header payload s t = Undef OobRead) /\
  ((segment_bytes proto <= length payload)%nat -> Inv s -> word32 (len header) ->
   wpx bad (hand_over proto ctx header payload) (fun ctx' s' _ => ctx' = ctx /\ Inv s') s t).
Proof.
  intros Hf. rewrite segment_bytes_kind. unfold hand_over.
  destruct (segment_kind proto) as [kind|]; split; intros Hlen.
  - unfold mbind, M_bind. by rewrite handler_short.
  - intros Hs Hw. wp_step. eapply wpx_mono; [apply handler_inv; auto|]. done.
  - lia.
  - done.
Qed.

Lemma ProtocolIp4_reads ctx header packet :
  reads (ip4_bytes packet) ctx header packet (CapProtocol.ProtocolIp4 ctx header packet).
Proof.
  intros s t. unfold ip4_bytes.
  destruct (Nat.lt_ge_cases (length packet) IP4_SIZE).
  { split; [by intros _; apply ProtocolIp4_short|lia]. }
  unfold wpx. rewrite ProtocolIp4_eq by done.
  set (ctx' := CapHandle.SetContext4 _ _ ctx).
  destruct (hand_over_reads (byte_at packet 9) ctx' header (drop IP4_SIZE packet) s t eq_refl)
    as [Hshort Hlong]. rewrite length_drop in *. split.
  - intros Hlen. apply Hshort. lia.
  - intros Hlen Hs Hw. specialize (Hlong ltac:(lia) Hs Hw). unfold wpx in Hlong.
    destruct (hand_over _ _ _ _ _ _) as [[[??]?]| | |]; [|done..].
    by destruct Hlong as [-> ?].
Qed.

Lemma ProtocolIp6_reads ctx header packet :
  reads (ip6_bytes packet) ctx header packet (CapProtocol.ProtocolIp6 ctx header packet).
Proof.
  intros s t. unfold ip6_bytes.
  destruct (Nat.lt_ge_cases (length packet) IP6_SIZE).
  { split; [by intros _; apply ProtocolIp6_short|lia]. }
  unfold wpx. rewrite ProtocolIp6_eq by done.
  set (ctx' := CapHandle.SetContext6 _ _ ctx).
  destruct (hand_over_reads (byte_at packet 6) ctx' header (drop IP6_SIZE packet) s t eq_refl)
    as [Hshort Hlong]. rewrite length_drop in *. split.
  - intros Hlen. apply Hshort. lia.
  - intros Hlen Hs Hw. specialize (Hlong ltac:(lia) Hs Hw). unfold wpx in Hlong.
    destruct (hand_over _ _ _ _ _ _) as [[[??]?]| | |]; [|done..].
    by destruct Hlong as [-> ?].
Qed.

Lemma reads_ret ctx header packet : reads 0 ctx header packet (mret ctx).
Proof.
  intros s t. split; [lia|]. intros _ Hs _. split; [by destruct ctx|done].
Qed.

Lemma ProtocolEN10MB_reads ctx header packet :
  reads (needed DLT_EN10MB header packet) ctx header packet
    (CapProtocol.ProtocolEN10MB ctx header packet).
Proof.
  intros s t. unfold needed. change (DLT_EN10MB =? DLT_EN10MB) with true. cbv iota zeta.
  unfold CapProtocol.ProtocolEN10MB.
  set (protocol := ntohs (byte_at packet 12) (byte_at packet 13)).
  destruct (Nat.lt_ge_cases (length packet) ETHER_SIZE) as [Hlen|Hlen].
  { split; intros Hn; [|exfalso; lia]. unfold mbind, M_bind. unfold ETHER_SIZE in Hlen.
    by rewrite load_be16_short by lia. }
  assert (load_be16 packet 12 s t = Done (protocol, s, t)) as Hload
    by (apply load_be16_ok; unfold ETHER_SIZE in Hlen; lia).
  unfold wpx. rewrite (bind_Done _ _ _ _ _ _ _ Hload).
  assert (length (drop ETHER_SIZE packet) = length packet - ETHER_SIZE)%nat as Hd by apply length_drop.
  destruct (protocol =? ETHERTYPE_IP); [|destruct (protocol =? ETHERTYPE_IPV6)].
  - destruct (ProtocolIp4_reads ctx header (drop ETHER_SIZE packet) s t) as [H1 H2].
    split; [intros; apply H1; lia|intros; apply H2; auto; lia].
  - destruct (ProtocolIp6_reads ctx header (drop ETHER_SIZE packet) s t) as [H1 H2].
    split; [intros; apply H1; lia|intros; apply H2; auto; lia].
  - destruct (reads_ret ctx header packet s t) as [_ H2]. split; [lia|intros; apply H2; auto; lia].
Qed.

Lemma ProtocolIp_reads ctx header packet :
  reads (needed DLT_RAW header packet) ctx header packet (CapProtocol.ProtocolIp ctx header packet).
Proof.
  intros s t. unfold needed. change (DLT_RAW =? DLT_EN10MB) with false.
  change (DLT_RAW =? DLT_RAW) with true. cbv iota zeta. unfold CapProtocol.ProtocolIp.
  destruct (len header <? 1); [apply reads_ret|].
  destruct (Nat.lt_ge_cases 0 (length packet)) as [Hlen|Hlen].
  - unfold wpx. rewrite (bind_Done _ _ _ _ _ _ _ (load8_ok packet s t 0 Hlen)).
    cbv zeta. destruct (_ =? 0x40); [apply ProtocolIp4_reads|].
    destruct (_ =? 0x60); [apply ProtocolIp6_reads|].
    destruct (reads_ret ctx header packet s t) as [_ H2]. split; [lia|intros; apply H2; auto; lia].
  - split; intros Hn.
    + unfold mbind, M_bind. by rewrite load8_short.
    + exfalso. unfold ip4_bytes, ip6_bytes, IP4_SIZE, IP6_SIZE in Hn.
      destruct (Z.land (byte_at packet 0) 0xF0 =? 0x40), (Z.land (byte_at packet 0) 0xF0 =? 0x60); lia.
Qed.

Lemma Parse_reads ctx header packet s t :
  ((length packet < needed (CapHandle.DataLink ctx) header packet)%nat ->
    CapProtocol.Parse ctx header packet s t = Undef OobRead) /\
  ((needed (CapHandle.DataLink ctx) header packet <= length packet)%nat ->
    Inv s -> word32 (len header) ->
    wpx bad (CapProtocol.Parse ctx header packet)
      (fun '(_, ctx') s' _ => same_handle ctx ctx' /\ Inv s') s t).
Proof.
  unfold CapProtocol.Parse.
  assert (reads (needed (CapHandle.DataLink ctx) header packet) ctx header packet
    (if CapHandle.DataLink ctx =? DLT_EN10MB then CapProtocol.ProtocolEN10MB ctx header packet
     else if CapHandle.DataLink ctx =? DLT_RAW then CapProtocol.ProtocolIp ctx header packet
     else mret ctx)) as Hr.
  { destruct (Z.eqb_spec (CapHandle.DataLink ctx) DLT_EN10MB) as [->|E1].
    { apply ProtocolEN10MB_reads. }
    destruct (Z.eqb_spec (CapHandle.DataLink ctx) DLT_RAW) as [->|E2]; [apply ProtocolIp_reads|].
    unfold needed. apply Z.eqb_neq in E1, E2. rewrite E1, E2. apply reads_ret. }
  destruct (Hr s t) as [Hshort Hlong]. split.
  - intros Hlen. unfold mbind, M_bind. by rewrite Hshort.
  - intros Hlen Hs Hw. wp_step. eapply wpx_mono; [by apply Hlong|]. done.
Qed.
End parse.

(** ** Frames as they are sent *)

(** An IPv4 packet: the nine bytes up to the time to live, the protocol, the
    checksum, the addresses, options and the transport segment. *)
Record ip4_packet := mk_ip4_packet {
  i4_start : list Z; i4_proto : Z; i4_sum : list Z; i4_src : Z; i4_dst : Z; i4_options : list Z }.

Record ip6_packet := mk_ip6_packet {
  i6_start : list Z; i6_proto : Z; i6_hops : Z; i6_src : in6_addr; i6_dst : in6_addr }.

Inductive ip_packet := V4 (p : ip4_packet) | V6 (p : ip6_packet).

(** How a frame is delivered: behind the two hardware addresses and the
    protocol, or bare. *)
Inductive link := Ethernet (macs : list Z) | Raw.

Definition print_ip4 (p : ip4_packet) (seg : list Z) : list Z :=
  i4_start p ++ i4_proto p :: i4_sum p ++ bytes_of_u32 (i4_src p) ++ bytes_of_u32 (i4_dst p) ++
  i4_options p ++ seg.

Definition print_ip6 (p : ip6_packet) (seg : list Z) : list Z :=
  i6_start p ++ i6_proto p :: i6_hops p :: in6_bytes (i6_src p) ++ in6_bytes (i6_dst p) ++ seg.

Definition print_ip (p : ip_packet) (seg : list Z) : list Z :=
  match p with V4 p => print_ip4 p seg | V6 p => print_ip6 p seg end.

Definition print_frame (l : link) (p : ip_packet) (seg : list Z) : list Z :=
  match l with
  | Ethernet macs => macs ++ match p with V4 _ => [0x08; 0x00] | V6 _ => [0x86; 0xdd] end ++ print_ip p seg
  | Raw => print_ip p seg
  end.

(** The fields have their lengths, and a bare packet starts with its version. *)
Definition ip_ok (p : ip_packet) : Prop :=
  match p with
  | V4 p => length (i4_start p) = 9%nat /\ length (i4_sum p) = 2%nat /\
      word32 (i4_src p) /\ word32 (i4_dst p) /\ Z.land (byte_at (i4_start p) 0) 0xF0 = 0x40
  | V6 p => length (i6_start p) = 6%nat /\ in6_ok (i6_src p) /\ in6_ok (i6_dst p) /\
      Z.land (byte_at (i6_start p) 0) 0xF0 = 0x60
  end.

Definition link_ok (l : link) (linktype : Z) : Prop :=
  match l with
  | Ethernet macs => length macs = 12%nat /\ linktype = DLT_EN10MB
  | Raw => linktype = DLT_RAW
  end.

Definition ip_proto (p : ip_packet) : Z := match p with V4 p => i4_proto p | V6 p => i6_proto p end.

(** The context a packet leaves in the handle. *)
Definition set_ip_context `{Pcap} (p : ip_packet) (ctx : CapHandle.t) : CapHandle.t :=
  match p with
  | V4 p => CapHandle.SetContext4 (i4_src p) (i4_dst p) ctx
  | V6 p => CapHandle.SetContext6 (i6_src p) (i6_dst p) ctx
  end.

(** What is handed over as the segment: options and all. *)
Definition ip_rest (p : ip_packet) (seg : list Z) : list Z :=
  match p with V4 p => i4_options p ++ seg | V6 _ => seg end.

Lemma byte_at_app_r a b off :
  (length a <= off)%nat -> byte_at (a ++ b) off = byte_at b (off - length a).
Proof. intros. unfold byte_at. by rewrite lookup_app_r. Qed.

Lemma byte_at_app_l a b off : (off < length a)%nat -> byte_at (a ++ b) off = byte_at a off.
Proof. intros. unfold byte_at. by rewrite lookup_app_l. Qed.

Lemma word_at_app_r a b off :
  (length a <= off)%nat -> word_at (a ++ b) off = word_at b (off - length a).
Proof.
  intros. unfold word_at. rewrite !byte_at_app_r by lia.
  by replace (off + 1 - length a)%nat with (off - length a + 1)%nat by lia;
    replace (off + 2 - length a)%nat with (off - length a + 2)%nat by lia;
    replace (off + 3 - length a)%nat with (off - length a + 3)%nat by lia.
Qed.

Lemma word_at_bytes z rest : word32 z -> word_at (bytes_of_u32 z ++ rest) 0 = z.
Proof. intros Hz. unfold word_at, byte_at. simpl. by apply u32_of_bytes_of_u32. Qed.

Lemma in6_at_app_r a b off :
  (length a <= off)%nat -> in6_at (a ++ b) off = in6_at b (off - length a).
Proof.
  intros. unfold in6_at. rewrite !word_at_app_r by lia.
  by replace (off + 4 - length a)%nat with (off - length a + 4)%nat by lia;
    replace (off + 8 - length a)%nat with (off - length a + 8)%nat by lia;
    replace (off + 12 - length a)%nat with (off - length a + 12)%nat by lia.
Qed.

Lemma in6_at_bytes a rest : in6_ok a -> in6_at (in6_bytes a ++ rest) 0 = a.
Proof.
  intros (H0 & H1 & H2 & H3). unfold in6_at, in6_bytes. rewrite <- !app_assoc. simpl plus.
  rewrite word_at_bytes by done.
  rewrite (word_at_app_r (bytes_of_u32 (w0 a)) _ 4) by (simpl; lia).
  rewrite (word_at_app_r (bytes_of_u32 (w0 a)) _ 8) by (simpl; lia).
  rewrite (word_at_app_r (bytes_of_u32 (w0 a)) _ 12) by (simpl; lia).
  change (length (bytes_of_u32 (w0 a))) with 4%nat. simpl minus. rewrite word_at_bytes by done.
  rewrite (word_at_app_r (bytes_of_u32 (w1 a)) _ 4) by (simpl; lia).
  rewrite (word_at_app_r (bytes_of_u32 (w1 a)) _ 8) by (simpl; lia).
  change (length (bytes_of_u32 (w1 a))) with 4%nat. simpl minus. rewrite word_at_bytes by done.
  rewrite (word_at_app_r (bytes_of_u32 (w2 a)) _ 4) by (simpl; lia).
  change (length (bytes_of_u32 (w2 a))) with 4%nat. simpl minus. rewrite word_at_bytes by done.
  by destruct a.
Qed.

(** The fields, where the parser reads them. *)
Lemma print_ip4_fields p seg :
  ip_ok (V4 p) ->
  let packet := print_ip4 p seg in
  (IP4_SIZE <= length packet)%nat /\ byte_at packet 9 = i4_proto p /\
  word_at packet 12 = i4_src p /\ word_at packet 16 = i4_dst p /\
  drop IP4_SIZE packet = i4_options p ++ seg.
Proof.
  intros (H9 & H2 & Hs & Hd & _). destruct p as [start proto sum src dst opts]. simpl in *.
  destruct start as [|a0 [|a1 [|a2 [|a3 [|a4 [|a5 [|a6 [|a7 [|a8 [|? ?]]]]]]]]]]; try done.
  destruct sum as [|s0 [|s1 [|? ?]]]; try done.
  split; [unfold print_ip4, IP4_SIZE; simpl; lia|]. split; [done|].
  split; [exact (u32_of_bytes_of_u32 src Hs)|]. by split; [exact (u32_of_bytes_of_u32 dst Hd)|].
Qed.

Lemma in6_at_exact (packet rest : list Z) off a :
  drop off packet = in6_bytes a ++ rest -> in6_ok a -> in6_at packet off = a.
Proof.
  intros Hd Ha. rewrite <- (take_drop off packet).
  destruct (Nat.le_gt_cases off (length packet)) as [Hle|Hgt].
  - rewrite in6_at_app_r; rewrite length_take; [|lia]. rewrite Hd.
    replace (off - off `min` length packet)%nat with 0%nat by lia. by apply in6_at_bytes.
  - rewrite drop_ge in Hd by lia. by destruct rest.
Qed.

Lemma print_ip6_fields p seg :
  ip_ok (V6 p) ->
  let packet := print_ip6 p seg in
  (IP6_SIZE <= length packet)%nat /\ byte_at packet 6 = i6_proto p /\
  in6_at packet 8 = i6_src p /\ in6_at packet 24 = i6_dst p /\ drop IP6_SIZE packet = seg.
Proof.
  intros (H6 & Hs & Hd & _). destruct p as [start proto hops src dst]. simpl in *.
  destruct start as [|a0 [|a1 [|a2 [|a3 [|a4 [|a5 [|? ?]]]]]]]; try done.
  split; [unfold print_ip6, IP6_SIZE; simpl; lia|]. split; [done|].
  split; [by apply (in6_at_exact _ (in6_bytes dst ++ seg))|].
  by split; [by apply (in6_at_exact _ seg)|].
Qed.

Section roundtrip.
Context `{Pcap} {S : Type} `{Transport S}.

Lemma ProtocolIp4_print ctx header p seg s t :
  ip_ok (V4 p) ->
  CapProtocol.ProtocolIp4 ctx header (print_ip4 p seg) s t =
    hand_over (i4_proto p) (set_ip_context (V4 p) ctx) header (i4_options p ++ seg) s t.
Proof.
  intros Hp. destruct (print_ip4_fields p seg Hp) as (Hl & H9 & Hs & Hd & Hr).
  rewrite ProtocolIp4_eq by done. by rewrite H9, Hs, Hd, Hr.
Qed.

Lemma ProtocolIp6_print ctx header p seg s t :
  ip_ok (V6 p) ->
  CapProtocol.ProtocolIp6 ctx header (print_ip6 p seg) s t =
    hand_over (i6_proto p) (set_ip_context (V6 p) ctx) header seg s t.
Proof.
  intros Hp. destruct (print_ip6_fields p seg Hp) as (Hl & H6 & Hs & Hd & Hr).
  rewrite ProtocolIp6_eq by done. by rewrite H6, Hs, Hd, Hr.
Qed.

(** The version nibble of a bare packet is that of its first bytes. *)
Lemma print_ip_version p seg :
  ip_ok p -> Z.land (byte_at (print_ip p seg) 0) 0xF0 = match p with V4 _ => 0x40 | V6 _ => 0x60 end.
Proof.
  destruct p as [p|p]; simpl.
  - intros (H9 & _ & _ & _ & Hv). unfold print_ip4. by rewrite byte_at_app_l by lia.
  - intros (H6 & _ & _ & Hv). unfold print_ip6. by rewrite byte_at_app_l by lia.
Qed.

Lemma print_ip_nonempty p seg : ip_ok p -> (0 < length (print_ip p seg))%nat.
Proof.
  destruct p as [p|p]; simpl.
  - intros (H9 & _). unfold print_ip4. rewrite length_app. lia.
  - intros (H6 & _). unfold print_ip6. rewrite length_app. lia.
Qed.

Lemma Parse_print ctx header l p seg s t :
  link_ok l (CapHandle.DataLink ctx) -> ip_ok p -> 1 <= len header ->
  CapProtocol.Parse ctx header (print_frame l p seg) s t =
    (ctx ← hand_over (ip_proto p) (set_ip_context p ctx) header (ip_rest p seg); mret (0, ctx)) s t.
Proof.
  intros Hl Hp Hlen. unfold CapProtocol.Parse, mbind, M_bind. destruct l as [macs|].
  - destruct Hl as [Hm ->]. change (DLT_EN10MB =? DLT_EN10MB) with true. cbv iota.
    unfold CapProtocol.ProtocolEN10MB.
    do 12 (destruct macs as [|? macs]; [done|]). destruct macs; [|done].
    destruct p as [p|p]; cbn [print_frame app];
      (erewrite bind_Done by (apply load_be16_ok; simpl; lia)).
    + change (drop ETHER_SIZE _) with (print_ip4 p seg).
      change (ntohs _ _ =? ETHERTYPE_IP) with true. cbv iota. by rewrite ProtocolIp4_print.
    + change (drop ETHER_SIZE _) with (print_ip6 p seg).
      change (ntohs _ _ =? ETHERTYPE_IP) with false.
      change (ntohs _ _ =? ETHERTYPE_IPV6) with true. cbv iota. by rewrite ProtocolIp6_print.
  - simpl in Hl. rewrite Hl. change (DLT_RAW =? DLT_EN10MB) with false.
    change (DLT_RAW =? DLT_RAW) with true. cbv iota. unfold CapProtocol.ProtocolIp.
    destruct (Z.ltb_spec (len header) 1); [lia|]. cbn [print_frame].
    rewrite (bind_Done _ _ _ _ _ _ _ (load8_ok _ s t 0 (print_ip_nonempty p seg Hp))).
    rewrite print_ip_version by done.
    destruct p as [p|p]; simpl; [by rewrite ProtocolIp4_print|by rewrite ProtocolIp6_print].
Qed.
End roundtrip.

(** ** The capture is such a transport *)

Section capture.
Context `{Pcap} `{Ntop6} `{Env}.

#[export] Instance capture_transport : Transport CaptureCxx.t := {|
  ProcessTcp := CaptureCxx.ProcessTcp;
  ProcessUdp := CaptureCxx.ProcessUdp
|}.

Lemma capture_transport_ok bad c0 :
  files_ok bad ->
  TransportOk bad (fun c => inv c /\ packet_frame c0 c).
Proof.
  intros Hfiles. split.
  - intros kind ctx hdr packet c t [Hc Hf] Hw Hread.
    assert (wpx bad (handler kind ctx hdr packet) (fun _ c' _ => inv c' /\ packet_frame c c') c t) as H2.
    { destruct kind; apply process_segment_inv; auto. }
    eapply wpx_mono; [apply H2|]. intros _ c' _ [Hc' Hf'].
    split; [done|]. by eapply packet_frame_trans.
  - intros kind ctx hdr packet c t Hf Hlen. pose proof (ports_length packet).
    destruct (ports packet) eqn:E; [lia|]. destruct kind; by apply process_segment_short.
Qed.

(** ** Properties *)

(** C13: a frame is taken apart the way it was put together.  Over Ethernet and
    bare, in both families, the handler of the packet's protocol, and no other,
    is called with its addresses as the context and with what follows the
    fixed header as the segment; for IPv4 that is the options, when there are
    any, before the segment proper. *)
Theorem Parse_frame {S : Type} `{Transport S} ctx header l p seg (s : S) t :
  link_ok l (CapHandle.DataLink ctx) -> ip_ok p -> 1 <= len header ->
  CapProtocol.Parse ctx header (print_frame l p seg) s t =
    match segment_kind (ip_proto p) with
    | Some kind =>
        (_ ← handler kind (CapHandle.GetContext (set_ip_context p ctx)) header (ip_rest p seg);
         mret (0, set_ip_context p ctx)) s t
    | None => Done (0, set_ip_context p ctx, s, t)
    end.
Proof.
  intros. rewrite Parse_print by done. unfold hand_over.
  destruct (segment_kind (ip_proto p)); [by rewrite bind_assoc|done].
Qed.

(** C14: the parser reads a fixed number of bytes for each kind of frame and
    never compares it with the captured length: it reads out of bounds exactly
    when fewer bytes than that were captured, and on every longer capture it
    does not. *)
Theorem Parse_reads_exactly ctx header packet c t :
  inv c -> word32 (len header) ->
  CapProtocol.Parse ctx header packet c t = Undef OobRead <->
  (length packet < needed (CapHandle.DataLink ctx) header packet)%nat.
Proof.
  intros Hc Hw. pose proof (capture_transport_ok (fun f => f <> Undefined OobRead) c
    ltac:(by split; left)) as Hok.
  destruct (Parse_reads (fun f => f <> Undefined OobRead) _ ctx header packet c t) as [Hshort Hlong].
  split; [|done]. intros Hrun. destruct (Nat.lt_ge_cases (length packet)
    (needed (CapHandle.DataLink ctx) header packet)) as [|Hge]; [done|].
  specialize (Hlong Hge (conj Hc (packet_frame_refl c)) Hw). unfold wpx in Hlong.
  by rewrite Hrun in Hlong.
Qed.
End capture.

(** ** Sample frames *)

Definition sample_ip4 (proto : Z) (options : list Z) : ip4_packet :=
  mk_ip4_packet [0x45; 0; 0; 48; 0; 1; 0; 0; 64] proto [0; 0] 16777343 33554442 options.

Definition sample_handle (batch : list (pcap_pkthdr * list Z)) : @CapHandle.t (sample_pcap 1 batch) :=
  @CapHandle.mk (sample_pcap 1 batch) (Some "eth0") 1 "" 3
    (mk_PcapCtx 0 (mk_CtxAddr 0 0 0 0 0 0 0 0)) true.

Definition sample_frame : list Z :=
  print_frame (Ethernet (repeat 2 12)) (V4 (sample_ip4 6 [])) sample_segment.

(** With four bytes of options, [ip_hl] is not looked at: the ports are read
    from the options. *)
Lemma Parse_frame_witness :
  let frame := print_frame (Ethernet (repeat 2 12)) (V4 (sample_ip4 17 [1; 1; 1; 0])) sample_segment in
  @CapProtocol.Parse (sample_pcap 1 []) _
    {| ProcessTcp := fun _ _ seg => modify (fun log => log ++ [(P_TCP, seg)]);; mret 0;
       ProcessUdp := fun _ _ seg => modify (fun log => log ++ [(P_UDP, seg)]);; mret 0 |}
    (sample_handle []) sample_header frame [] 0%nat =
  Done (0, CapHandle.SetContext4 16777343 33554442 (sample_handle []),
        [(P_UDP, [1; 1; 1; 0] ++ sample_segment)], 0%nat).
Proof.
  etransitivity.
  - apply (@Parse_frame (sample_pcap 1 [])); [done| |simpl; lia].
    repeat split; simpl; lia.
  - reflexivity.
Defined.

Lemma Parse_reads_exactly_witness :
  @CapProtocol.Parse (sample_pcap 1 []) _ (@capture_transport (sample_pcap 1 []) full_ntop6 sample_env)
    (sample_handle []) sample_header (take 30 sample_frame) (sample_capture [] true [] []) 0%nat
  = Undef OobRead.
Proof.
  apply (@Parse_reads_exactly (sample_pcap 1 []) full_ntop6 sample_env (sample_handle [])
    sample_header (take 30 sample_frame) (sample_capture [] true [] []) 0%nat).
  - apply sample_inv; constructor.
  - done.
  - vm_compute. repeat constructor.
Defined.
