(* ===== verification/Capture.v ===== *)
(** [capturecxx.cpp] without its packet side: initialisation, the periodic
    update and its reports. *)

From S2P Require Import Prelude Cstring Inet Stream Scanf OrdMap Pod Device Packet Inode Process.
From S2P Require Import Handle Logger Transport Protocol.

Import CaptureCxx.

(** Whether spdlog can open a log file. *)
Class Spdlog := openable : string -> bool.

(** [std::stol] of a string of digits. *)
Definition stol {S} (s : string) : M S Z :=
  if decide (s = "") then throw InvalidArgument
  else let v := read_digits 10 0 s in
       if 2 ^ 63 - 1 <? v then throw OutOfRange else mret v.

(** [std::all_of(name, isdigit)]. *)
Definition all_digits (name : string) : bool := str_forall (is_digit 10) name.

(** One process as it is reported. *)
Definition process_row (p : CapProcess.t) : Process_t :=
  mk_Process_t
    (strncpy (p_name Process_zero) (CapProcess.GetName p) (CAPTURE_COMMAN_SIZE - 1))
    (strncpy (p_cmdline Process_zero) (CapProcess.GetCmdline p) (CAPTURE_CMDLINE_SIZE - 1))
    (strncpy (p_user Process_zero) (CapProcess.GetUser p) (CAPTURE_COMMAN_SIZE - 1))
    (strncpy (p_group Process_zero) (CapProcess.GetGroup p) (CAPTURE_COMMAN_SIZE - 1))
    (CapProcess.GetPid p) (CapProcess.GetUid p) (CapProcess.GetGid p) (CapProcess.GetFdCnt p)
    (CapProcess.GetMemory p) (CapProcess.GetCpuPercent p) (CapProcess.GetMemPercent p)
    (CapProcess.GetIoRead p) (CapProcess.GetIoWrite p) (CapProcess.GetRecv p)
    (CapProcess.GetSend p).

(** The zeroed record of a removal: only its pid is set. *)
Definition removed_row (pid : Z) : Process_t :=
  mk_Process_t (p_name Process_zero) (p_cmdline Process_zero) (p_user Process_zero)
    (p_group Process_zero) pid (p_uid Process_zero) (p_gid Process_zero) (p_fdCnt Process_zero)
    (p_memory Process_zero) (p_cpuPercent Process_zero) (p_memPercent Process_zero)
    (p_ioRead Process_zero) (p_ioWrite Process_zero) (p_recv Process_zero) (p_send Process_zero).

(** The loop that overwrites the rows there are: the rows after it, and the
    processes it did not reach. *)
Fixpoint reuse_rows (it : list (Z * CapProcess.t)) (data : list Process_t) :
    list Process_t * list (Z * CapProcess.t) :=
  match it, data with
  | (_, p) :: it', _ :: data' =>
      let '(rows, rest) := reuse_rows it' data' in (process_row p :: rows, rest)
  | _, _ => (data, it)
  end.

Section capture.
Context `{Pcap} `{Ntop6} `{Env} `{Spdlog}.

Definition init_device (it : ifaddrs) : M t () :=
  match ifa_addr it with
  | None => mret ()
  | Some _ =>
      '(ret, device) ← run_on CapDevice.new (CapDevice.Init it);
      if negb (ret =? 0) || negb (CapDevice.UpRunning device) then mret ()
      else modify (fun c => set_devices (devices c ++ [device]) c)
  end.

Definition GetDevices (c : t) : list CapDevice.t := devices c.

Definition InitDevice : M t () :=
  '(ret, ptr) ← run_on CapIfaddrs.new CapIfaddrs.Init;
  if negb (ret =? 0) then mret () else for_each (default [] (CapIfaddrs.addr ptr)) init_device.

Definition scan_pid (entry : dirent) : M t () :=
  match d_kind entry with
  | DT_DIR =>
      let name := c_str (d_name entry) in
      if negb (all_digits name) then mret ()
      else pid ← stol name; modify (fun c => set_pids (set_insert (i32 pid) (pids c)) c)
  | _ => mret ()
  end.

Definition UpdatePids : M t Z :=
  modify (set_pids []);;
  proc ← sys (fun os => os_opendir os "/proc");
  match proc with
  | None => mret CAP_OPEN_DIR
  | Some entries => for_each entries scan_pid;; mret 0
  end.

Definition cpu_line (buffer : string) : M t bool :=
  let '(n, vs) := sscanf buffer "cpu  %lu %lu %lu %lu %lu %lu %lu" in
  if negb (n =? 0) then
    let now := u64 (arg_int 0 0 vs + arg_int 1 0 vs + arg_int 2 0 vs + arg_int 3 0 vs +
                    arg_int 4 0 vs + arg_int 5 0 vs + arg_int 6 0 vs) in
    modify (fun c => set_cpu now (set_deltaCpu (u64 (now - cpu c)) c));;
    mret true
  else mret false.

Definition GetCpuTotal : M t Z :=
  s ← sys (fun os => os_file os "/proc/stat");
  match s with
  | None => mret CAP_PROCESS_OPEN
  | Some content => read_lines content cpu_line;; mret 0
  end.

Definition mem_line (buffer : string) : M t bool :=
  let '(n, vs) := sscanf buffer "MemTotal:        %ld kB" in
  if negb (n =? 0) then modify (set_memory (u64 (arg_int 0 0 vs)));; mret true
  else mret false.

Definition GetMemTotal : M t Z :=
  s ← sys (fun os => os_file os "/proc/meminfo");
  match s with
  | None => mret CAP_PROCESS_OPEN
  | Some content => read_lines content mem_line;; mret 0
  end.

(** [CapInodeHelper::Refresh(pids)] on the singleton. *)
Definition refresh_inodes : M t Z :=
  c ← get; zoom helper set_helper (CapInodeHelper.Refresh (devices c) (pids c)).

(** ** Initialisation *)

(** The end of a handle's life. *)
Definition release (h : CapHandle.t) : M t () :=
  modify (fun c => set_captures (CapHandle.destroy h (captures c)) c).

(** One turn of the loop that opens the devices. *)
Definition open_handle (config : CaptureInitt) (device : CapDevice.t) : M t () :=
  let init := mk_CapHandleInit (CapDevice.GetName device) (ci_snaplen config) (ci_promise config)
                (ci_ms config) (ci_fliter config) in
  c ← get;
  '(ret, (handle, open)) ← run_on (CapHandle.new, captures c) (CapHandle.OpenLive init);
  modify (set_captures open);;
  if negb (ret =? 0) then release handle else
  let handle := CapHandle.SetCallback handle in
  ret ← CapHandle.SetNonBlock 1 handle;
  if negb (ret =? 0) then release handle else
  modify (fun c => set_handles (handles c ++ [handle]) c).

Definition add_process (pid : Z) : M t () :=
  c ← get;
  '(_, ptr) ← run_on (CapProcess.new pid) (CapProcess.Parse (memory c) (deltaCpu c));
  modify (fun c => set_processes (map_set pid ptr (processes c)) c).

Definition init_logger (config : CaptureInitt) : M t () :=
  match ci_logfile config with
  | None => undef NullDeref
  | Some logfile => zoom logger set_logger (configure openable logfile)
  end.

Definition Init (config : CaptureInitt) (ipcocessCallback ipcaketCallback : bool) : M t Z :=
  modify (set_processCallback ipcocessCallback);;
  modify (set_packetCallback ipcaketCallback);;
  init_logger config;;
  InitDevice;;
  _ ← GetMemTotal;
  c ← get;
  if decide (devices c = []) then mret CAP_DEVICE_INIT else
  modify (set_protocol true);;
  for_each (devices c) (open_handle config);;
  _ ← UpdatePids;
  _ ← refresh_inodes;
  c ← get;
  for_each (pids c) add_process;;
  mret 0.

(** ** Update *)

(** The callback of every handle: [protocol->Parse(ctx, head, packet)]. *)
Definition on_packet (h : CapHandle.t) (header : pcap_pkthdr) (packet : list Z) : M t CapHandle.t :=
  c ← get;
  if protocol c then '(_, h) ← CapProtocol.Parse h header packet; mret h
  else undef NullDeref.

(** The dispatch loop, from handle [idx] on; [ret] is the value of the last
    one. *)
Fixpoint dispatch_all (cnt : Z) (n idx : nat) (ret : Z) : M t Z :=
  match n with
  | O => mret ret
  | S n =>
      c ← get;
      match handles c !! idx with
      | None => mret ret
      | Some h =>
          '(ret, h) ← CapHandle.Dispatch on_packet cnt h;
          modify (fun c => set_handles (set_nth idx h (handles c)) c);;
          dispatch_all cnt n (S idx) ret
      end
  end.

(** The loop over both containers: [pidIt] is what is left of [pids], [before]
    and [after] what the iterator has passed of [processes] and what it has
    not. *)
Fixpoint merge (pidIt : list Z) (before after : list (Z * CapProcess.t)) {struct after} : M t () :=
  match pidIt, after with
  | pid :: pidIt', (key, p) :: after' =>
      c ← get;
      if negb (pid =? key) then
        (if processCallback c
         then emit (ProcessEvent ACTION_REMOVE [removed_row key] 1) else mret ());;
        modify (set_processes (before ++ after'));;
        merge pidIt before after'
      else
        '(_, p) ← run_on p (CapProcess.Parse (memory c) (deltaCpu c));
        modify (set_processes (before ++ (key, p) :: after'));;
        merge pidIt' (before ++ [(key, p)]) after'
  | _, _ => mret ()
  end.

Definition sync_processes : M t () :=
  c ← get;
  if negb (length (pids c) =? length (processes c))%nat
  then merge (pids c) [] (processes c) else mret ().

Definition report_processes : M t () :=
  c ← get;
  if processCallback c then
    let '(rows, rest) := reuse_rows (processes c) (processData c) in
    modify (set_processData
      (if (length (processData c) <? length (processes c))%nat
       then rows ++ map (fun kp => process_row kp.2) rest else rows));;
    c ← get;
    emit (ProcessEvent ACTION_UPDATE (processData c) (u32 (Z.of_nat (length (processes c)))))
  else mret ().

Definition report_packets (ret : Z) : M t () :=
  c ← get;
  if packetCallback c && (0 <? ret) && negb (length (packetData c) =? 0)%nat
  then emit (PacketEvent (packetData c) (u32 ret)) else mret ().

(** [icaptureAll] is not used. *)
Definition Update (cnt : Z) (icaptureAll : bool) : M t Z :=
  modify (set_packetIdx 0);;
  _ ← UpdatePids;
  _ ← refresh_inodes;
  c ← get;
  ret ← dispatch_all cnt (length (handles c)) 0 0;
  tmp ← GetCpuTotal;
  if negb (tmp =? 0) then mret tmp else
  sync_processes;;
  report_processes;;
  report_packets ret;;
  mret 0.

Definition Shutdown : M t Z := mret 0.

End capture.

(** ** The invariant through every operation *)

(** The pid a directory entry stands for. *)
Definition entry_pid (e : dirent) (x : Z) : Prop :=
  d_kind e = DT_DIR /\ all_digits (c_str (d_name e)) = true /\
  read_digits 10 0 (c_str (d_name e)) = x.

(** The numeric directories have names, and pids are below the limit. *)
Definition entry_ok (e : dirent) : Prop :=
  forall x, entry_pid e x -> c_str (d_name e) <> "" /\ x < 2 ^ 31.

(** Every packet libpcap hands over has the bytes its frame is read for: the
    snapshot length is large enough and no runt frame arrives. *)
Definition complete_captures `{Pcap} : Prop :=
  forall t p cnt, Forall (fun '(hdr, packet) =>
    (needed (pcap_datalink p) hdr packet <= length packet)%nat) (snd (pcap_dispatch t p cnt)).

(** The totals are found: every line fits, or the first one is the line. *)
Definition totals_ok (os : Os) : Prop :=
  forall file fmt content,
    (file, fmt) ∈ [("/proc/stat", "cpu  %lu %lu %lu %lu %lu %lu %lu");
                   ("/proc/meminfo", "MemTotal:        %ld kB")] ->
    os_file os file = Some content ->
    snd (lines_of content) = false \/
    exists l rest, text_lines (fst (lines_of content)) = l :: rest /\ fst (sscanf l fmt) <> 0.

Definition listing_ok (os : Os) : Prop :=
  forall entries, os_opendir os "/proc" = Some entries -> Forall entry_ok entries.

(** What a call can run into is excluded by the host, or is among the failures
    [bad]. *)
Record host_ok `{Pcap} `{Env} (bad : failure -> Prop) : Prop := {
  host_files :> files_ok bad;
  host_totals : bad Diverged \/ forall t, totals_ok (env_at t);
  host_listing : (bad (Threw InvalidArgument) /\ bad (Threw OutOfRange)) \/
                 forall t, listing_ok (env_at t);
  host_packets : bad (Undefined OobRead) \/ complete_captures
}.

Lemma host_ok_any `{Pcap} `{Env} : host_ok (fun _ => True).
Proof. split; [apply files_ok_any|by left..]. Qed.

Lemma Parse_net_returns `{Ntop6} `{Env} bad devices file h t :
  files_ok bad -> file ∈ net_files ->
  wpx bad (CapInodeHelper.Parse devices file) (fun _ _ _ => True) h t.
Proof.
  intros Hok Hfile. unfold CapInodeHelper.Parse. wp_step. apply wpx_sys.
  destruct (os_file _ _) as [content|] eqn:E; [|done]. wp_step.
  eapply wpx_mono; [apply (wpx_read_lines _ (fun _ => True)); auto|done].
  { destruct (files_lines bad Hok) as [|Hl]; [by left|right; left]. apply (Hl t file); [by left|done]. }
  intros l s t1 _ _. wp_step. eapply wpx_mono with (Q := fun _ _ _ => True); [|done].
  unfold CapInodeHelper.ParseBuffer. destruct (sscanf _ _). repeat case_match; try done.
  wp_step. wp_step. by apply (wpx_for_each _ (fun _ => True)).
Qed.

Lemma Refresh_returns `{Ntop6} `{Env} bad devices pids h t :
  files_ok bad ->
  wpx bad (CapInodeHelper.Refresh devices pids) (fun ret h' _ => refresh_post pids ret h') h t.
Proof.
  intros Hok. apply wpx_mono with (Q := fun ret h' _ => True /\ refresh_post pids ret h').
  2: { by intros ret h' t' [_ ?]. }
  apply (wpx_and _ _ (fun _ _ _ => True)); [|apply Refresh_wlp].
  unfold CapInodeHelper.Refresh. do 3 wp_step.
  eapply wpx_mono with (Q := fun _ _ _ => True).
  { unfold CapInodeHelper.RefreshToInodes.
    do 4 (wp_step; eapply wpx_mono;
      [apply Parse_net_returns; [done|unfold net_files; set_solver]|];
      intros; simpl; case_match; [done|]). done. }
  intros ret h1 t1 _. destruct (negb _); [done|].
  revert h1 t1. induction pids as [|pid pids IH]; intros h1 t1; [done|]. simpl.
  wp_step. apply wpx_sys. destruct (os_opendir _ _) as [entries|]; [|done]. wp_step.
  eapply wpx_mono; [apply (wpx_for_each _ (fun _ => True)); [done|]|by intros; apply IH].
  intros e h2 t2 _ _. unfold CapInodeHelper.scan_fd. destruct (d_kind e); try done.
  wp_step. apply wpx_sys. destruct (os_readlink _ _); [|done].
  destruct (sscanf _ _). by destruct (negb _).
Qed.

Section invariant.
Context `{Pcap} `{Ntop6} `{Env} `{Spdlog} `{!PcapOk}.
Context (bad : failure -> Prop) (Hhost : host_ok bad).

(** What an operation leaves of the state [c0] it started from: the callbacks,
    and the events so far. *)
Definition host_frame (c0 c : t) : Prop :=
  processCallback c = processCallback c0 /\ packetCallback c = packetCallback c0 /\
  exists es, events c = events c0 ++ es.

Lemma host_frame_refl c : host_frame c c.
Proof. split; [done|]. split; [done|]. exists []. by rewrite app_nil_r. Qed.

Lemma packet_host_frame c0 c c' : packet_frame c c' -> host_frame c0 c -> host_frame c0 c'.
Proof.
  intros (_ & _ & _ & _ & Hp & Hk & _ & _ & _ & _ & He) (? & ? & ?). unfold host_frame.
  by rewrite Hp, Hk, He.
Qed.

Context (c0 : t).

Definition okay (c : t) : Prop := inv c /\ host_frame c0 c.

(** The invariant after an assignment to members it constrains. *)
Ltac inv_tac :=
  match goal with
  | H : okay _ |- okay _ =>
      destruct H as [H ?]; split; [destruct H; constructor; simpl; auto|done]
  | H : inv _ |- inv _ => destruct H; constructor; simpl; auto
  end.

Lemma init_device_inv it c t : okay c -> wpx bad (init_device it) (fun _ c' _ => okay c') c t.
Proof.
  intros Hc. unfold init_device. destruct (ifa_addr it) as [sa|] eqn:Hsa; [|done].
  wp_step. apply wpx_run_on. unfold wpx.
  destruct (wp_elim _ _ _ _ (CapDevice.Init_wp it
    (fun ret d' _ => ret = 0 /\ CapDevice.inited d') CapDevice.new t sa Hsa ltac:(done)))
    as (ret & d & t' & -> & -> & Hd).
  simpl. destruct (CapDevice.UpRunning d) eqn:E; simpl; [|done]. inv_tac.
  - apply Forall_app. by repeat constructor.
  - apply Forall_app. by repeat constructor.
Qed.

Lemma InitDevice_inv c t : okay c -> wpx bad InitDevice (fun _ c' _ => okay c') c t.
Proof.
  intros Hc. unfold InitDevice, CapIfaddrs.Init. do 3 wp_step. apply wpx_sys.
  destruct (os_getifaddrs _); [|done]. do 3 wp_step. cbn [Z.eqb negb].
  apply (wpx_for_each _ okay); auto using init_device_inv.
Qed.

Lemma scan_pid_inv e c t :
  (bad (Threw InvalidArgument) /\ bad (Threw OutOfRange)) \/ entry_ok e ->
  okay c -> wpx bad (scan_pid e) (fun _ c' _ => okay c') c t.
Proof.
  intros He Hc. unfold scan_pid. destruct (d_kind e) eqn:Hk; try done.
  destruct (all_digits _) eqn:Hd; [|done]. cbn [negb].
  wp_step. unfold stol. assert (forall x, (bad (Threw InvalidArgument) /\ bad (Threw OutOfRange)) \/
    (entry_pid e x -> c_str (d_name e) <> "" /\ x < 2 ^ 31)) as Hx by (destruct He; auto).
  specialize (Hx (read_digits 10 0 (c_str (d_name e)))).
  assert (entry_pid e (read_digits 10 0 (c_str (d_name e)))) as Hp by done.
  destruct (decide _); [by destruct Hx as [[? ?]|[? ?]%(fun H => H Hp)]|].
  destruct (Z.ltb_spec (2 ^ 63 - 1) (read_digits 10 0 (c_str (d_name e)))).
  { destruct Hx as [[? ?]|[? ?]%(fun H => H Hp)]; [done|lia]. }
  pose proof (inv_pid_ok c (proj1 Hc)) as Hpids. rewrite Forall_forall in Hpids.
  apply wpx_ret, wpx_modify. inv_tac; [by apply ascending_set_insert|].
  apply Forall_forall. intros k [->|Hin]%elem_of_set_insert; [apply i32_range|auto].
Qed.

Lemma UpdatePids_inv c t : okay c -> wpx bad UpdatePids (fun _ c' _ => okay c') c t.
Proof.
  intros Hc. unfold UpdatePids. do 2 wp_step.
  assert (okay (set_pids [] c)) as Hc1 by (inv_tac; constructor).
  wp_step. apply wpx_sys. destruct (os_opendir _ _) as [entries|] eqn:E; [|done]. wp_step.
  eapply wpx_mono; [apply (wpx_for_each _ okay); [done|]|done].
  intros e c1 t1 He Hc1'. apply scan_pid_inv; [|done].
  destruct (host_listing bad Hhost) as [|Hl]; [by left|right].
  apply Hl in E. rewrite Forall_forall in E. auto.
Qed.

(** A loop over one of the files of totals ends. *)
Lemma totals_loop_ends t file fmt content (body : string -> M CaptureCxx.t bool) :
  (file, fmt) ∈ [("/proc/stat", "cpu  %lu %lu %lu %lu %lu %lu %lu");
                 ("/proc/meminfo", "MemTotal:        %ld kB")] ->
  os_file (env_at t) file = Some content ->
  (forall l s u, fst (sscanf l fmt) <> 0 -> wlp (body l) (fun brk _ _ => brk = true) s u) ->
  bad Diverged \/ loop_ends content body.
Proof.
  intros Hf Hc Hbody. destruct (host_totals bad Hhost) as [|Ht]; [by left|right].
  destruct (Ht t _ _ _ Hf Hc) as [|(l & rest & Hl & Hm)]; [by left|right]. exists l, rest. auto.
Qed.

Lemma cpu_line_inv l c t : okay c -> wpx bad (cpu_line l) (fun _ c' _ => okay c') c t.
Proof.
  intros Hc. unfold cpu_line. destruct (sscanf _ _) as [n vs]. repeat wp_step; [|done].
  destruct Hc as [[] ?]. destruct_and?. split; [|done]. constructor; simpl; auto.
  split; [done|]. split; apply u64_range.
Qed.

Lemma GetCpuTotal_inv c t :
  okay c ->
  wpx bad GetCpuTotal (fun code c' _ => okay c' /\ (code = 0 \/ code = CAP_PROCESS_OPEN)) c t.
Proof.
  intros Hc. unfold GetCpuTotal. wp_step. apply wpx_sys.
  destruct (os_file _ _) as [content|] eqn:E; [|split; [done|by right]]. wp_step.
  eapply wpx_mono; [apply (wpx_read_lines _ okay); auto using cpu_line_inv|].
  2: { split; [done|by left]. }
  apply (totals_loop_ends t "/proc/stat" _ _ _ ltac:(left) E). intros l s u Hl.
  unfold cpu_line. destruct (sscanf l _) as [n vs]. simpl in Hl. by apply Z.eqb_neq in Hl as ->.
Qed.

Lemma mem_line_inv l c t : okay c -> wpx bad (mem_line l) (fun _ c' _ => okay c') c t.
Proof.
  intros Hc. unfold mem_line. destruct (sscanf _ _) as [n vs]. repeat wp_step; [|done].
  destruct Hc as [[] ?]. destruct_and?. split; [|done]. constructor; simpl; auto.
  split; [apply u64_range|done].
Qed.

Lemma GetMemTotal_inv c t : okay c -> wpx bad GetMemTotal (fun _ c' _ => okay c') c t.
Proof.
  intros Hc. unfold GetMemTotal. wp_step. apply wpx_sys.
  destruct (os_file _ _) as [content|] eqn:E; [|done]. wp_step.
  eapply wpx_mono; [apply (wpx_read_lines _ okay); auto using mem_line_inv|done].
  apply (totals_loop_ends t "/proc/meminfo" _ _ _ ltac:(right; left) E). intros l s u Hl.
  unfold mem_line. destruct (sscanf l _) as [n vs]. simpl in Hl. by apply Z.eqb_neq in Hl as ->.
Qed.

Lemma refresh_inodes_inv c t : okay c -> wpx bad refresh_inodes (fun _ c' _ => okay c') c t.
Proof.
  intros Hc. unfold refresh_inodes. do 3 wp_step.
  eapply wpx_mono; [apply Refresh_returns, Hhost|]. intros ret h1 t1 (_ & Hp & _). simpl.
  pose proof (inv_pid_ok c (proj1 Hc)) as Hpids. rewrite Forall_forall in Hpids.
  destruct Hc as [[] Hf]. split; [|done]. constructor; simpl; auto.
  intros i p Hi. by apply Hpids, (Hp i).
Qed.

Lemma add_process_inv pid c t :
  pid_ok pid -> okay c -> wpx bad (add_process pid) (fun _ c' _ => okay c') c t.
Proof.
  intros Hpok Hc. unfold add_process. do 4 wp_step. pose proof (inv_totals c (proj1 Hc)) as (Hm & _ & Hd).
  eapply wpx_mono; [apply parse_entry; [apply Hhost|done..]|]. intros _ p t' [[Hpid _] Hwf]. wp_step.
  destruct Hc. split; [by apply set_processes_inv|done].
Qed.

Lemma release_inv h c t : okay c -> wpx bad (release h) (fun _ c' _ => okay c') c t.
Proof. intros Hc. unfold release. wp_step. inv_tac. Qed.

Lemma open_handle_inv config d c t :
  bad (Undefined Indeterminate) \/ filter_usable (ci_fliter config) -> okay c -> protocol c = true ->
  wpx bad (open_handle config d) (fun _ c' _ => okay c' /\ protocol c' = true) c t.
Proof.
  intros Hfl Hc Hp. unfold open_handle. do 3 wp_step. apply wpx_run_on.
  set (cfg := mk_CapHandleInit _ _ _ _ _).
  eapply wpx_mono; [apply OpenLive_result; destruct Hfl; [by left|right; by apply filter_usable_known]|].
  intros ret [h open] t' (Hres & Hcb & _).
  do 2 wp_step. assert (okay (set_captures open c)) as Hc1 by inv_tac.
  destruct (Z.eqb_spec ret 0) as [->|Hne]; cbn [negb].
  2: { unfold release. wp_step. split; [inv_tac|done]. }
  inversion Hres as [p h' Hh Hl| | ? ? ? [?|?]]; subst; try done.
  wp_step. unfold CapHandle.SetNonBlock. simpl. rewrite Hh. apply wpx_pcall.
  destruct (negb _); [unfold release; wp_step; split; [inv_tac|done]|]. wp_step.
  split; [|done]. inv_tac. apply Forall_app. split; [done|]. constructor; [|done].
  split; [|done]. exists p. by rewrite <- Hl.
Qed.

Lemma on_packet_inv c1 h hdr packet c t :
  inv c -> protocol c = true -> packet_frame c1 c -> usable h -> word32 (len hdr) ->
  bad (Undefined OobRead) \/ (needed (CapHandle.DataLink h) hdr packet <= length packet)%nat ->
  wpx bad (on_packet h hdr packet)
    (fun h' c' _ => same_handle h h' /\ inv c' /\ packet_frame c1 c') c t.
Proof.
  intros Hc Hp Hf Hh Hw Hcap. unfold on_packet. do 2 wp_step. rewrite Hp. wp_step.
  pose proof (capture_transport_ok bad c1 Hhost) as Hok.
  destruct (Parse_reads bad _ h hdr packet c t) as [Hshort Hlong].
  destruct (Nat.lt_ge_cases (length packet) (needed (CapHandle.DataLink h) hdr packet)) as [Hlt|Hge].
  - unfold wpx. rewrite Hshort by done. destruct Hcap; [done|lia].
  - eapply wpx_mono; [by apply Hlong|]. by intros [ret h'] c' t' [? [? ?]].
Qed.

Lemma same_handle_usable h h' : same_handle h h' -> usable h -> usable h'.
Proof. unfold same_handle. intros Hs Hh. by rewrite Hs. Qed.

Lemma dispatch_inv cnt idx h c t :
  inv c -> handles c !! idx = Some h ->
  wpx bad (CapHandle.Dispatch on_packet cnt h)
    (fun '(ret, h') c' _ => usable h' /\ inv c' /\ packet_frame c c' /\ ret < 2 ^ 31 /\
       CapHandle.handle h' = CapHandle.handle h /\
       exists p, CapHandle.handle h = Some p /\ ret = fst (pcap_dispatch t p cnt)) c t.
Proof.
  intros Hc Hh. pose proof (inv_handles c Hc) as Hall. rewrite Forall_forall in Hall.
  pose proof (Hall h (list_elem_of_lookup_2 _ _ _ Hh)) as Hus.
  assert (protocol c = true) as Hp
    by (destruct (inv_protocol c Hc) as [|E]; [done|]; by rewrite E in Hh).
  pose proof Hus as [(p & Hhp & Hl) Hcb].
  eapply wpx_mono with (Q := fun '(ret, h') c' _ =>
    (usable h' /\ (CapHandle.linktype h' = pcap_datalink p /\ CapHandle.handle h' = Some p) /\
     inv c' /\ packet_frame c c') /\
    (CapHandle.handle h = None /\ ret = CAP_HANDLE_INIT \/ exists q, CapHandle.handle h = Some q /\ ret = fst (pcap_dispatch t q cnt))).
  - apply (wpx_Dispatch bad on_packet (fun h' c' => usable h' /\
      (CapHandle.linktype h' = pcap_datalink p /\ CapHandle.handle h' = Some p) /\
      inv c' /\ packet_frame c c') cnt h c t).
    { split; [done|]. split; [done|]. split; [done|apply packet_frame_refl]. }
    intros q hdr pkt h1 c1 t1 Hq Hin (Hu1 & [Hl1 Hh1] & Hc1 & Hf1). rewrite Hhp in Hq. injection Hq as <-.
    destruct (pcap_dispatch t p cnt) as [r pkts] eqn:Hd.
    pose proof (dispatch_packets _ _ _ _ _ Hd) as Hpk. rewrite Forall_forall in Hpk.
    destruct (Hpk _ Hin) as (_ & _ & _ & Hw).
    pose proof Hf1 as (_ & _ & Hfp & _).
    eapply wpx_mono; [apply (on_packet_inv c); auto; [by rewrite Hfp|]|].
    + destruct (host_packets bad Hhost) as [|Hcomp]; [by left|right]. pose proof (Hcomp t p cnt) as Hcp.
      rewrite Hd, Forall_forall in Hcp. unfold CapHandle.DataLink. rewrite Hl1.
      by apply (Hcp _ Hin).
    + intros h2 c2 t2 (Hs & Hc2 & Hf2). split; [by eapply same_handle_usable|].
      split; [|done]. unfold same_handle in Hs. by rewrite Hs.
  - intros [ret h'] c' t' [(Hu & [_ Hhh] & Hc' & Hf) Hret]. split; [done|]. split; [done|].
    split; [done|]. destruct Hret as [[E _]|(q & Hq & ->)]; [congruence|].
    split; [|split; [congruence|by exists q]].
    destruct (pcap_dispatch t q cnt) as [r pkts] eqn:Hd. by apply (dispatch_range _ _ _ _ _ Hd).
Qed.

(** The return value the loop over the handles ends with: that of the last
    one. *)
Definition last_dispatch (cnt : Z) (hs : list CapHandle.t) (ret : Z) : Prop :=
  hs = [] /\ ret = 0 \/
  exists h p t, last hs = Some h /\ CapHandle.handle h = Some p /\
    ret = fst (pcap_dispatch t p cnt).

Lemma last_map_handle (hs : list CapHandle.t) :
  last (map CapHandle.handle hs) = option_map CapHandle.handle (last hs).
Proof. exact (fmap_last CapHandle.handle hs). Qed.

Lemma last_dispatch_same cnt hs hs' ret :
  map CapHandle.handle hs' = map CapHandle.handle hs -> last_dispatch cnt hs' ret ->
  last_dispatch cnt hs ret.
Proof.
  intros Hm [[-> ->]|(h & p & t & Hl & Hp & ->)].
  - left. by destruct hs.
  - right. pose proof (f_equal last Hm) as Hl'.
    rewrite !last_map_handle, Hl in Hl'. destruct (last hs) as [h1|]; [|done].
    injection Hl' as Hp1. exists h1, p, t. by rewrite <- Hp1.
Qed.

Lemma map_set_nth {A B} (f : A -> B) i x y (l : list A) :
  l !! i = Some y -> f x = f y -> map f (set_nth i x l) = map f l.
Proof.
  intros Hi Hf. unfold set_nth. rewrite map_app. simpl. rewrite Hf.
  rewrite <- (take_drop_middle l i y Hi) at 3. by rewrite map_app.
Qed.

Lemma dispatch_all_inv cnt n idx ret c t :
  okay c -> ret < 2 ^ 31 -> (idx + n = length (handles c))%nat ->
  (n = 0%nat -> last_dispatch cnt (handles c) ret) ->
  wpx bad (dispatch_all cnt n idx ret)
    (fun ret c' _ => okay c' /\ ret < 2 ^ 31 /\ last_dispatch cnt (handles c) ret) c t.
Proof.
  revert idx ret c t. induction n as [|n IH]; intros idx ret c t Hc Hret Hn Hl.
  { split; [done|]. split; [done|]. by apply Hl. }
  simpl. do 2 wp_step.
  destruct (lookup_lt_is_Some_2 (handles c) idx ltac:(lia)) as [h Hh]. rewrite Hh. wp_step.
  eapply wpx_mono; [apply dispatch_inv with (idx := idx); [apply Hc|done]|].
  intros [ret' h'] c' t' (Hu & Hc' & Hf & Hret' & Hhh & q & Hq & Hrq). do 2 wp_step.
  pose proof Hf as (_ & Hfh & _).
  assert (protocol c' = true) as Hp.
  { destruct (inv_protocol c' Hc') as [|E]; [done|]. rewrite Hfh in E. by rewrite E in Hh. }
  assert (okay c') as Hok by (split; [done|]; eapply packet_host_frame; [done|apply Hc]).
  assert (map CapHandle.handle (set_nth idx h' (handles c')) = map CapHandle.handle (handles c))
    as Hm by (rewrite Hfh; by eapply map_set_nth).
  eapply wpx_mono; [apply IH|].
  - inv_tac. by apply Forall_set_nth.
  - done.
  - simpl. rewrite Hfh, length_set_nth; lia.
  - intros ->. right. exists h', q, t. simpl. rewrite Hhh. split; [|done].
    rewrite last_lookup, Hfh, length_set_nth by lia.
    replace (Init.Nat.pred (length (handles c))) with idx by lia. apply lookup_set_nth. lia.
  - intros r c1 t1 (? & ? & Hr). split; [done|]. split; [done|].
    by eapply last_dispatch_same; [|exact Hr].
Qed.

(** Removing an entry, and replacing the value of one. *)
Lemma drop_entry_inv before kp after c :
  inv c -> processes c = before ++ kp :: after -> inv (set_processes (before ++ after) c).
Proof.
  intros Hc Hproc. pose proof (inv_keys c Hc) as Hk. pose proof (inv_processes c Hc) as Hp.
  pose proof (inv_key_ok c Hc) as Ho. rewrite Hproc in Hk, Hp, Ho. inv_tac; clear -Hk Hp Ho.
  - unfold keys in *. rewrite map_app in *. simpl in Hk.
    apply ascending_app in Hk as (Hlt & Hb & [_ Ha]%ascending_cons). apply ascending_app.
    split; [|done]. intros x y Hx Hy. apply Hlt; [done|by right].
  - apply Forall_app in Hp as [? H2]. inversion H2. by apply Forall_app.
  - unfold keys in *. rewrite map_app in *. apply Forall_app in Ho as [? H2]. inversion H2.
    by apply Forall_app.
Qed.

Lemma set_entry_inv before key p p' after c :
  inv c -> processes c = before ++ (key, p) :: after -> process_entry (key, p') ->
  inv (set_processes (before ++ (key, p') :: after) c).
Proof.
  intros Hc Hproc He. pose proof (inv_keys c Hc) as Hk. pose proof (inv_processes c Hc) as Hp.
  pose proof (inv_key_ok c Hc) as Ho. rewrite Hproc in Hk, Hp, Ho. inv_tac; clear -Hk Hp He Ho.
  - unfold keys in *. rewrite map_app in Hk. rewrite map_app. done.
  - apply Forall_app in Hp as [? H2]. inversion H2. apply Forall_app.
    split; [done|]. by constructor.
  - unfold keys in *. rewrite map_app in Ho. rewrite map_app. done.
Qed.

(** What the loop makes of the two key lists: what it keeps, what it removes. *)
Fixpoint merged (P K : list Z) {struct K} : list Z * list Z :=
  match P, K with
  | p :: P', k :: K' =>
      if p =? k then let '(kept, gone) := merged P' K' in (k :: kept, gone)
      else let '(kept, gone) := merged P K' in (kept, k :: gone)
  | _, _ => (K, [])
  end.

Definition removal (key : Z) : event := ProcessEvent ACTION_REMOVE [removed_row key] 1.

Definition removals (c : t) (gone : list Z) : list event :=
  if processCallback c then map removal gone else [].

Lemma removed_row_ok key : pid_ok key -> process_row_ok (removed_row key).
Proof. by constructor. Qed.

Lemma removal_ok key : pid_ok key -> event_ok (removal key).
Proof.
  intros Hk. split; [|by split]. constructor; [by apply removed_row_ok|constructor].
Qed.

(** The traffic of every process. *)
Definition traffic_of (m : list (Z * CapProcess.t)) : list (Z * (Z * Z)) :=
  map (fun kp => (kp.1, (CapProcess.send kp.2, CapProcess.recv kp.2))) m.

Lemma merge_spec P before after c t :
  inv c -> processes c = before ++ after ->
  wpx bad (merge P before after)
    (fun _ c' _ => inv c' /\
       keys (processes c') = keys before ++ fst (merged P (keys after)) /\
       events c' = events c ++ removals c (snd (merged P (keys after))) /\
       pids c' = pids c /\ processCallback c' = processCallback c /\
       packetCallback c' = packetCallback c /\
       helper c' = helper c /\ devices c' = devices c /\
       traffic_of (processes c') `sublist_of` traffic_of (processes c)) c t.
Proof.
  unfold removals. revert P before c t.
  induction after as [|[key p] after IH]; intros P before c t Hc Hproc.
  { rewrite app_nil_r in Hproc. destruct P; simpl; (split; [done|]); rewrite Hproc, !app_nil_r;
      by destruct (processCallback c); rewrite ?app_nil_r. }
  destruct P as [|pid P].
  { simpl. split; [done|]. rewrite Hproc. unfold keys. rewrite map_app.
    by destruct (processCallback c); rewrite ?app_nil_r. }
  cbn [merge keys map fst merged]. do 2 wp_step. destruct (Z.eqb_spec pid key) as [->|Hne]; cbn [negb].
  - wp_step. apply wpx_run_on. pose proof (inv_totals c Hc) as (Hm & _ & Hd).
    pose proof (inv_processes c Hc) as Hp. rewrite Hproc in Hp.
    apply Forall_app in Hp as [_ Hp]. inversion Hp as [|? ? [Hpid Hwf] _]; subst. simpl in Hpid, Hwf.
    eapply wpx_mono; [apply (ParseProc_good p bad Hhost _ _ p t Hm Hd); by split|].
    intros _ p' t' [(Hpid' & Hrecv & Hsend) Hwf']. do 2 wp_step.
    eapply wpx_mono; [apply IH|].
    + eapply set_entry_inv; [done..|]. split; [|done]. simpl. by rewrite Hpid'.
    + simpl. by rewrite <- app_assoc.
    + intros _ c' t1 (Hc' & Hk & He & Hpd & Hcb & Hkb & Hh & Hd' & Hs). simpl in *.
      destruct (merged P (map fst after)) as [kept gone] eqn:E. unfold keys in *. rewrite E in *.
      simpl in *. rewrite map_app, <- app_assoc in Hk. rewrite He.
      repeat (split; [done|]). rewrite Hproc. unfold traffic_of in *. rewrite map_app in *.
      simpl in *. by rewrite Hsend, Hrecv in Hs.
  - wp_step. set (es := if processCallback c then [removal key] else []).
    eapply wpx_mono with (Q := fun _ c1 _ => c1 = set_events (events c ++ es) c).
    { unfold es. destruct (processCallback c); [by unfold emit; wp_step|].
      wp_step. rewrite app_nil_r. by destruct c. }
    intros [] c1 t1 ->. do 2 wp_step.
    assert (inv (set_processes (before ++ after) (set_events (events c ++ es) c))) as Hc1.
    { eapply drop_entry_inv; [|simpl; apply Hproc]. unfold es.
      pose proof (inv_key_ok c Hc) as Ho. rewrite Hproc in Ho. unfold keys in Ho.
      rewrite map_app in Ho. apply Forall_app in Ho as [_ Ho]. inversion Ho.
      inv_tac. apply Forall_app. split; [done|]. destruct (processCallback c); [|constructor].
      constructor; [by apply removal_ok|constructor]. }
    eapply wpx_mono; [by apply IH|].
    intros _ c' t' (Hc' & Hk & He & Hpd & Hcb & Hkb & Hh & Hd & Hs). simpl in *.
    destruct (merged (pid :: P) (map fst after)) as [kept gone] eqn:E.
    unfold keys in *. rewrite E in *. simpl in *. split; [done|]. split; [done|].
    split; [rewrite He; unfold es; rewrite <- app_assoc; by destruct (processCallback c)|].
    repeat (split; [done|]). etransitivity; [apply Hs|]. rewrite Hproc. unfold traffic_of.
    rewrite !map_app. apply sublist_app; [done|]. by apply sublist_cons.
Qed.

Lemma sync_processes_inv c t : okay c -> wpx bad sync_processes (fun _ c' _ => okay c') c t.
Proof.
  intros [Hc Hf]. unfold sync_processes. do 2 wp_step. destruct (negb _); [|done].
  eapply wpx_mono; [by apply merge_spec|]. intros ? c' ? (Hc' & _ & He & _ & Hp & Hk & _).
  split; [done|]. destruct Hf as (? & ? & es & Hes).
  split; [congruence|]. split; [congruence|]. eexists. by rewrite He, Hes, <- app_assoc.
Qed.

(** The process table a report leaves. *)
Definition process_rows (c : t) : list Process_t :=
  map (fun kp => process_row kp.2) (processes c) ++ drop (length (processes c)) (processData c).

Lemma reuse_rows_spec it data :
  reuse_rows it data =
    (map (fun kp => process_row kp.2) (take (length data) it) ++ drop (length it) data,
     drop (length data) it).
Proof.
  revert data. induction it as [|[k p] it IH]; intros [|d data]; simpl; try done.
  by rewrite IH.
Qed.

Lemma report_processes_spec c t :
  report_processes c t =
    Done ((), if processCallback c
              then set_events (events c ++
                     [ProcessEvent ACTION_UPDATE (process_rows c)
                        (u32 (Z.of_nat (length (processes c))))])
                     (set_processData (process_rows c) c)
              else c, t).
Proof.
  unfold report_processes. rewrite (bind_Done get _ _ _ c c t) by done.
  destruct (processCallback c); [|done]. rewrite reuse_rows_spec.
  assert ((if (length (processData c) <? length (processes c))%nat
    then (map (fun kp => process_row kp.2) (take (length (processData c)) (processes c)) ++
          drop (length (processes c)) (processData c)) ++
         map (fun kp => process_row kp.2) (drop (length (processData c)) (processes c))
    else map (fun kp => process_row kp.2) (take (length (processData c)) (processes c)) ++
          drop (length (processes c)) (processData c)) = process_rows c) as ->; [|done].
  unfold process_rows. destruct (Nat.ltb_spec (length (processData c)) (length (processes c))).
  - rewrite !(drop_ge (processData c)) by lia. rewrite !app_nil_r, <- map_app, take_drop. done.
  - by rewrite take_ge by lia.
Qed.

Lemma take_process_rows c :
  take (length (processes c)) (process_rows c) = map (fun kp => process_row kp.2) (processes c).
Proof. unfold process_rows. rewrite take_app_le, take_ge; by rewrite ?length_map. Qed.

Lemma report_packets_spec ret c t :
  report_packets ret c t =
    Done ((), if packetCallback c && (0 <? ret) && negb (length (packetData c) =? 0)%nat
              then set_events (events c ++ [PacketEvent (packetData c) (u32 ret)]) c
              else c, t).
Proof.
  unfold report_packets. rewrite (bind_Done get _ _ _ c c t) by done. by destruct (_ && _).
Qed.

(** The reports keep the state well formed, and are well formed themselves. *)
Lemma process_row_row_ok p :
  pid_ok (CapProcess.pid p) -> process_wf p -> process_row_ok (process_row p).
Proof.
  intros Hpid []. constructor; simpl; auto;
    apply strncpy_terminated; unfold CAPTURE_COMMAN_SIZE, CAPTURE_CMDLINE_SIZE; lia.
Qed.

Lemma process_rows_ok c : inv c -> Forall process_row_ok (process_rows c).
Proof.
  intros Hc. pose proof (inv_key_ok c Hc) as Hk. pose proof (inv_processes c Hc) as Hp.
  rewrite Forall_forall in Hk. rewrite Forall_forall in Hp. unfold process_rows. apply Forall_app.
  split; [|by apply Forall_drop, inv_table].
  apply Forall_forall. intros r ([k p] & -> & Hin)%list_elem_of_fmap.
  destruct (Hp _ Hin) as [Hpid Hwf]. apply process_row_row_ok; [|done].
  simpl in *. rewrite Hpid. apply Hk. by apply (list_elem_of_fmap_2 fst _ (k, p)).
Qed.

Lemma report_processes_inv c :
  inv c ->
  inv (set_events (events c ++
        [ProcessEvent ACTION_UPDATE (process_rows c) (u32 (Z.of_nat (length (processes c))))])
        (set_processData (process_rows c) c)).
Proof.
  intros Hc. pose proof (process_rows_ok c Hc) as Hrows. inv_tac.
  apply Forall_app. split; [done|]. constructor; [|done]. split; [done|]. split; [|done].
  pose proof (u32_range (Z.of_nat (length (processes c)))). split; [lia|].
  unfold process_rows. rewrite length_app, length_map. unfold u32 in *.
  pose proof (Z.mod_le (Z.of_nat (length (processes c))) (2 ^ 32)). lia.
Qed.

Lemma report_packets_inv ret c :
  inv c -> 0 < ret < 2 ^ 31 -> packetData c <> [] ->
  inv (set_events (events c ++ [PacketEvent (packetData c) (u32 ret)]) c).
Proof.
  intros Hc Hret Hne. pose proof (inv_rows c Hc) as Hrows. inv_tac.
  apply Forall_app. split; [done|]. constructor; [|done]. rewrite u32_id by lia. by split.
Qed.

(** What a successful update adds after everything else. *)
Definition reported (cnt : Z) (c c' : t) : Prop :=
  exists es ret,
    events c' = events c ++ es ++
      (if processCallback c then
         [ProcessEvent ACTION_UPDATE (processData c') (u32 (Z.of_nat (length (processes c'))))]
       else []) ++
      (if packetCallback c && (0 <? ret) && negb (length (packetData c') =? 0)%nat
       then [PacketEvent (packetData c') (u32 ret)] else []) /\
    ret < 2 ^ 31 /\ last_dispatch cnt (handles c) ret /\
    (processCallback c = true ->
     take (length (processes c')) (processData c') = map (fun kp => process_row kp.2) (processes c')).

Lemma update_end cnt ret c t :
  okay c -> ret < 2 ^ 31 -> last_dispatch cnt (handles c0) ret ->
  wpx bad (report_processes;; report_packets ret;; mret 0)
    (fun code c' _ => okay c' /\ code = 0 /\ reported cnt c0 c') c t.
Proof.
  intros Hc Hret Hlast. unfold wpx.
  rewrite (bind_Done _ _ _ _ _ _ _ (report_processes_spec c t)).
  rewrite (bind_Done _ _ _ _ _ _ _ (report_packets_spec ret _ t)). simpl.
  pose proof Hc as [_ (Hp & Hk & es & Hes)].
  split; [|split; [done|exists es, ret]].
  - split.
    { destruct Hc as [Hc _]. clear -Hc Hret.
      assert (forall c1, inv c1 -> inv (if packetCallback c1 && (0 <? ret) && negb (length (packetData c1) =? 0)%nat
        then set_events (events c1 ++ [PacketEvent (packetData c1) (u32 ret)]) c1 else c1)) as Hpk.
      { intros c1 Hc1. destruct (packetCallback c1), (Z.ltb_spec 0 ret); try done.
        destruct (Nat.eqb_spec (length (packetData c1)) 0) as [|Hl]; [done|].
        apply report_packets_inv; [done|lia|]. by destruct (packetData c1). }
      apply Hpk. destruct (processCallback c); [by apply report_processes_inv|done]. }
    unfold host_frame. rewrite <- Hp, <- Hk.
    destruct (processCallback c) eqn:Ecb, (_ && _); simpl; rewrite ?Ecb, ?Hes, <- ?app_assoc; eauto.
  - rewrite <- Hp, <- Hk. destruct (processCallback c); simpl.
    + split; [|split; [done|split; [done|]]].
      * destruct (_ && _) eqn:E; simpl in *; by rewrite E, Hes, <- ?app_assoc, ?app_nil_r.
      * intros _. destruct (_ && _); exact (take_process_rows c).
    + split; [|by split].
      destruct (_ && _) eqn:E; simpl in *; by rewrite E, Hes, <- ?app_assoc, ?app_nil_r.
Qed.

(** A step in which the state is known to be well formed. *)
Lemma okay_bind {A B} (m : M t A) (f : A -> M t B) (Q : B -> t -> nat -> Prop) c t1 :
  wpx bad m (fun _ c' _ => okay c') c t1 ->
  (forall a c' t', okay c' -> wpx bad (f a) Q c' t') ->
  wpx bad (m ≫= f) Q c t1.
Proof.
  intros Hm Hf. apply wpx_bind. eapply wpx_mono; [apply Hm|]. intros. by apply Hf.
Qed.

(** What the steps around the dispatches assign. *)
Lemma UpdatePids_frame c t : wlp UpdatePids (fun _ c' _ => exists ps, c' = set_pids ps c) c t.
Proof.
  unfold UpdatePids. do 3 wp_step. apply wpx_sys.
  destruct (os_opendir _ _) as [l|]; [|by eexists]. wp_step.
  eapply wpx_mono;
    [apply (wpx_for_each _ (fun c1 => exists ps, c1 = set_pids ps c)); [by eexists|]|done].
  intros e c1 t1 _ (ps & ->). unfold scan_pid.
  destruct (d_kind e); try (by eexists). destruct (negb _); [by eexists|].
  wp_step. unfold stol. destruct (decide _); [done|]. destruct (_ <? _); [done|]. by eexists.
Qed.

Lemma refresh_inodes_frame c t :
  wlp refresh_inodes
    (fun ret c' _ => exists h t', c' = set_helper h c /\
       CapInodeHelper.Refresh (devices c) (pids c) (helper c) t = Done (ret, h, t')) c t.
Proof.
  unfold refresh_inodes. do 3 wp_step. apply wlp_intro. intros ret h t' Hrun. by exists h, t'.
Qed.

Lemma GetCpuTotal_frame c t :
  wlp GetCpuTotal (fun _ c' _ => exists x y, c' = set_cpu x (set_deltaCpu y c)) c t.
Proof.
  assert (exists x y, c = set_cpu x (set_deltaCpu y c)) as Hrefl
    by (exists (cpu c), (deltaCpu c); by destruct c).
  unfold GetCpuTotal. wp_step. apply wpx_sys. destruct (os_file _ _); [|done]. wp_step.
  eapply wpx_mono;
    [apply (wpx_read_lines _ (fun c1 => exists x y, c1 = set_cpu x (set_deltaCpu y c)));
       [by left|done|]|done].
  intros l c1 t1 _ (x & y & ->). unfold cpu_line. destruct (sscanf _ _) as [n vs].
  destruct (negb _); repeat wp_step; by repeat eexists.
Qed.

Lemma merge_frame P before after c t :
  wlp (merge P before after)
    (fun _ c' _ => exists ps es, c' = set_events es (set_processes ps c)) c t.
Proof.
  assert (forall c, exists ps es, c = set_events es (set_processes ps c)) as Hrefl
    by (intros c1; exists (processes c1), (events c1); by destruct c1).
  revert P before c t. induction after as [|[key p] after IH]; intros P before c t;
    destruct P as [|pid P]; try apply Hrefl.
  cbn [merge]. do 2 wp_step. destruct (negb _).
  - wp_step. eapply wpx_mono with (Q := fun _ c1 _ => exists es, c1 = set_events es c).
    { destruct (processCallback c); [by eexists|]. exists (events c). by destruct c. }
    intros _ c1 t1 [es ->]. do 2 wp_step. eapply wpx_mono; [apply IH|].
    intros _ c2 t2 (ps & es' & ->). by exists ps, es'.
  - wp_step. apply wpx_run_on. apply wlp_intro. intros r p' t' _. do 2 wp_step.
    eapply wpx_mono; [apply IH|]. intros _ c2 t2 (ps & es' & ->). by exists ps, es'.
Qed.

Lemma sync_processes_frame c t :
  wlp sync_processes (fun _ c' _ => exists ps es, c' = set_events es (set_processes ps c)) c t.
Proof.
  unfold sync_processes. do 2 wp_step. destruct (negb _); [apply merge_frame|].
  exists (processes c), (events c). by destruct c.
Qed.

Lemma okay_bind_frame {A B} (F : A -> t -> Prop) (m : M t A) (f : A -> M t B)
    (Q : B -> t -> nat -> Prop) c t1 :
  wpx bad m (fun _ c' _ => okay c') c t1 ->
  wlp m (fun a c' _ => F a c') c t1 ->
  (forall a c' t', okay c' -> F a c' -> wpx bad (f a) Q c' t') ->
  wpx bad (m ≫= f) Q c t1.
Proof.
  intros Hm Hh Hf. apply wpx_bind. eapply wpx_mono; [by apply (wpx_and _ _ _ _ _ _ Hm Hh)|].
  intros a c' t' [? ?]. by apply Hf.
Qed.

Lemma update_spec cnt icaptureAll t1 :
  inv c0 ->
  wpx bad (Update cnt icaptureAll)
    (fun code c' _ => okay c' /\ (code = 0 \/ code = CAP_PROCESS_OPEN) /\
       (code = 0 -> reported cnt c0 c')) c0 t1.
Proof.
  intros Hinv. unfold Update. do 2 wp_step.
  assert (okay (set_packetIdx 0 c0)) as Hc1.
  { split; [|exact (host_frame_refl c0)]. destruct Hinv; constructor; simpl; auto; lia. }
  eapply okay_bind_frame; [by apply UpdatePids_inv|apply UpdatePids_frame|].
  intros _ c2 t2 Hc2 [ps Hh2].
  eapply okay_bind_frame; [by apply refresh_inodes_inv|apply refresh_inodes_frame|].
  intros _ c3 t3 Hc3 (hlp & ? & Hh3 & _). do 3 wp_step.
  assert (handles c3 = handles c0) as Hhs by (rewrite Hh3, Hh2; done).
  eapply wpx_mono; [apply dispatch_all_inv; [done|done|done|]|].
  { intros E. left. split; [|done]. by apply nil_length_inv. }
  intros ret c4 t4 (Hc4 & Hret & Hlast). rewrite Hhs in Hlast. wp_step.
  eapply wpx_mono; [by apply GetCpuTotal_inv|].
  intros tmp c5 t5 [Hc5 [->| ->]]; cbn [Z.eqb negb]; [|split; [done|]; split; [by right|done]].
  apply okay_bind; [by apply sync_processes_inv|]. intros _ c6 t6 Hc6.
  eapply wpx_mono; [by apply (update_end cnt)|]. intros code c' t' (? & -> & ?). auto.
Qed.
End invariant.

(** ** Initialisation *)

Section init.
Context `{Pcap} `{Ntop6} `{Env} `{Spdlog} `{!PcapOk}.
Context (bad : failure -> Prop) (Hhost : host_ok bad).

(** The configuration names a log file, and a filter can be compiled. *)
Definition config_usable (config : CaptureInitt) : Prop :=
  ci_logfile config <> None /\ filter_usable (ci_fliter config).

(** What the log file has to be for Init to return: it can be opened. *)
Definition log_opens (config : CaptureInitt) : Prop :=
  bad (Threw SpdlogEx) \/ forall f, ci_logfile config = Some f -> openable f = true.

Lemma init_logger_inv c0 config c t :
  bad (Undefined NullDeref) \/ ci_logfile config <> None -> log_opens config -> okay c0 c ->
  wpx bad (init_logger config) (fun _ c' _ => okay c0 c') c t.
Proof.
  intros Hlog Hopen [Hc Hf]. unfold init_logger.
  destruct (ci_logfile config) as [path|] eqn:Hp.
  2: { by destruct Hlog. }
  wp_step. eapply wpx_mono; [apply configure_runs|].
  { destruct Hopen as [|Ho]; [by left|right; by apply Ho]. }
  intros _ l t' _. split; [|done]. destruct Hc; constructor; simpl; auto.
Qed.

Lemma init_spec config pcb kcb c t :
  (forall u, bad (Undefined u)) \/ config_usable config -> log_opens config -> inv c ->
  wpx bad (Init config pcb kcb)
    (fun code c' _ => inv c' /\ processCallback c' = pcb /\ packetCallback c' = kcb /\
       (exists es, events c' = events c ++ es) /\ (code = 0 \/ code = CAP_DEVICE_INIT)) c t.
Proof.
  intros Hlog Hopen Hinv. unfold Init. do 4 wp_step.
  set (c0 := set_packetCallback kcb (set_processCallback pcb c)).
  apply wpx_mono with (Q := fun code c' _ => okay c0 c' /\ (code = 0 \/ code = CAP_DEVICE_INIT)).
  2: { intros code c' _ [[Hc' (Hp & Hk & He)] Hcode]. auto. }
  assert (okay c0 c0) as Hc0.
  { split; [destruct Hinv; constructor; simpl; auto|apply host_frame_refl]. }
  clearbody c0.
  apply (okay_bind bad c0); [apply init_logger_inv; [|done|done]; destruct Hlog as [|[]]; auto|]. intros _ c1 t1 Hc1.
  apply (okay_bind bad c0); [by apply InitDevice_inv|]. intros _ c2 t2 Hc2.
  apply (okay_bind bad c0); [by apply GetMemTotal_inv|]. intros _ c3 t3 Hc3. do 2 wp_step.
  destruct (decide _); [by split; [|right]|]. do 3 wp_step.
  eapply wpx_mono; [apply (wpx_for_each bad (fun c => okay c0 c /\ protocol c = true))|].
  - split; [|done]. destruct Hc3 as [Hc3 Hf3]. split; [|done].
    destruct Hc3; constructor; simpl; auto.
  - intros d c' t' _ [Hc' Hp']. apply open_handle_inv; [|done|done]. destruct Hlog as [|[]]; auto.
  - intros _ c4 t4 [Hc4 _].
    apply (okay_bind bad c0); [by apply UpdatePids_inv|]. intros _ c5 t5 Hc5.
    apply (okay_bind bad c0); [by apply refresh_inodes_inv|]. intros _ c6 t6 Hc6. do 3 wp_step.
    pose proof (inv_pid_ok c6 (proj1 Hc6)) as Hpids. rewrite Forall_forall in Hpids.
    eapply wpx_mono; [apply (wpx_for_each bad (okay c0)); [done|]|].
    + intros pid c' t' Hin Hc'. by apply add_process_inv; [|apply Hpids|].
    + intros. split; [done|by left].
Qed.
End init.

(** ** What the loop over the two containers keeps *)

Lemma merged_subset P K :
  ascending P -> ascending K -> (forall p, p ∈ P -> p ∈ K) ->
  forall k, k ∈ fst (merged P K) <-> k ∈ K /\ (k ∈ P \/ forall p, p ∈ P -> p < k).
Proof.
  revert P. induction K as [|k K IH]; intros P HP HK Hsub x.
  { destruct P; simpl; set_solver. }
  destruct P as [|p P]; [simpl; set_solver|].
  apply ascending_cons in HK as [Hk HK]. pose proof HP as [Hp HP']%ascending_cons. simpl.
  destruct (Z.eqb_spec p k) as [->|Hne].
  - destruct (merged P K) as [kept gone] eqn:E. simpl.
    assert (forall q, q ∈ P -> q ∈ K) as Hsub'.
    { intros q Hq. specialize (Hsub q). specialize (Hp q Hq).
      destruct (proj1 (elem_of_cons _ _ _) (Hsub ltac:(by right))) as [->|]; [lia|done]. }
    specialize (IH P HP' HK Hsub' x). rewrite E in IH. simpl in IH. rewrite !elem_of_cons, IH.
    split.
    + intros [->|(HxK & Hx)]; [auto|]. split; [auto|]. destruct Hx as [|Hx]; [auto|].
      right. intros q [->|Hq]%elem_of_cons; auto.
    + intros [[->|HxK] Hx]; [auto|]. right. split; [done|].
      destruct Hx as [[->|]|Hx]; [|auto|].
      * specialize (Hk _ HxK). lia.
      * right. intros q Hq. apply Hx. by right.
  - destruct (merged (p :: P) K) as [kept gone] eqn:E. simpl.
    assert (p ∈ K) as HpK.
    { destruct (proj1 (elem_of_cons _ _ _) (Hsub p ltac:(left))); [done|done]. }
    assert (forall q, q ∈ p :: P -> q ∈ K) as Hsub'.
    { intros q [->|Hq]%elem_of_cons; [done|]. specialize (Hp q Hq). specialize (Hk p HpK).
      destruct (proj1 (elem_of_cons _ _ _) (Hsub q ltac:(by right))); [lia|done]. }
    specialize (IH (p :: P) HP HK Hsub' x). rewrite E in IH. simpl in IH. rewrite IH.
    split; [intros []; split; [by right|done]|].
    intros [[->|HxK]%elem_of_cons Hx]; [|done]. exfalso. specialize (Hk p HpK).
    destruct Hx as [[->|Hx]%elem_of_cons|Hx]; [done| |].
    + specialize (Hp _ Hx). lia.
    + specialize (Hx p ltac:(left)). lia.
Qed.

Lemma merged_stuck n P K : n ∉ K -> merged (n :: P) K = ([], K).
Proof.
  induction K as [|k K IH]; intros Hn; [done|]. simpl.
  destruct (Z.eqb_spec n k) as [->|]; [set_solver|]. rewrite IH by set_solver. done.
Qed.

Lemma merged_new A n B K :
  ascending (A ++ n :: B) -> ascending K -> (forall a, a ∈ A -> a ∈ K) -> n ∉ K ->
  fst (merged (A ++ n :: B) K) = A.
Proof.
  revert A. induction K as [|k K IH]; intros A HA HK Hsub Hn.
  { destruct A as [|a A]; [done|]. specialize (Hsub a ltac:(left)). set_solver. }
  destruct A as [|a A].
  { change ([] ++ n :: B) with (n :: B). by rewrite merged_stuck. }
  apply ascending_cons in HK as [Hk HK]. simpl app in HA |- *.
  pose proof HA as [Ha HA']%ascending_cons. simpl. destruct (Z.eqb_spec a k) as [->|Hne].
  - destruct (merged (A ++ n :: B) K) as [kept gone] eqn:E. simpl. f_equal.
    specialize (IH A HA' HK). rewrite E in IH. apply IH; [|set_solver].
    intros q Hq. specialize (Ha q ltac:(set_solver)).
    destruct (proj1 (elem_of_cons _ _ _) (Hsub q ltac:(by right))); [lia|done].
  - destruct (merged (a :: A ++ n :: B) K) as [kept gone] eqn:E. simpl.
    specialize (IH (a :: A) HA HK). simpl app in IH. rewrite E in IH. apply IH; [|set_solver].
    assert (a ∈ K) as HaK
      by (destruct (proj1 (elem_of_cons _ _ _) (Hsub a ltac:(left))); [done|done]).
    specialize (Hk a HaK). intros q Hq. specialize (Hsub q Hq).
    apply elem_of_cons in Hsub as [->|]; [|done]. apply elem_of_cons in Hq as [->|Hq]; [done|].
    specialize (Ha k ltac:(set_solver)). lia.
Qed.

(** ** The directories of [/proc] *)

Section scan.
Context `{Pcap} `{Ntop6} `{Env} `{Spdlog}.

Lemma scan_pid_spec e c t :
  entry_ok e ->
  exists ps, scan_pid e c t = Done ((), set_pids ps c, t) /\
    (ascending (pids c) -> ascending ps) /\
    forall x, x ∈ ps <-> x ∈ pids c \/ entry_pid e x.
Proof.
  intros Hok. unfold entry_ok, entry_pid in *.
  destruct (decide (d_kind e = DT_DIR)) as [Hkind|Hkind].
  2: { exists (pids c). split; [unfold scan_pid; by destruct (d_kind e) eqn:E, c|].
       split; [done|]. naive_solver. }
  unfold scan_pid. rewrite Hkind in *.
  destruct (all_digits (c_str (d_name e))) eqn:Hd; cbn [negb].
  - destruct (Hok _ (conj eq_refl (conj eq_refl eq_refl))) as [Hne Hlt].
    assert (0 <= read_digits 10 0 (c_str (d_name e))) as Hpos by (apply read_digits_nonneg; lia).
    unfold stol. rewrite decide_False by done.
    destruct (Z.ltb_spec (2 ^ 63 - 1) (read_digits 10 0 (c_str (d_name e)))); [lia|].
    eexists. split; [done|]. rewrite i32_id by lia. split; [apply ascending_set_insert|].
    intros x. rewrite elem_of_set_insert. naive_solver.
  - exists (pids c). split; [by destruct c|]. split; [done|]. naive_solver.
Qed.

Lemma scan_pids_spec entries c t :
  Forall entry_ok entries ->
  exists ps, for_each entries scan_pid c t = Done ((), set_pids ps c, t) /\
    (ascending (pids c) -> ascending ps) /\
    forall x, x ∈ ps <-> x ∈ pids c \/ exists e, e ∈ entries /\ entry_pid e x.
Proof.
  intros Hok. revert c. induction Hok as [|e entries He _ IH]; intros c.
  - exists (pids c). split; [by destruct c|]. split; [done|]. set_solver.
  - destruct (scan_pid_spec e c t He) as (ps & Hrun & Hasc & Hin).
    destruct (IH (set_pids ps c)) as (ps' & Hrun' & Hasc' & Hin').
    exists ps'. cbn [for_each]. rewrite (bind_Done _ _ _ _ _ _ _ Hrun), Hrun'.
    split; [done|]. split; [auto|]. intros x. rewrite Hin'. simpl. rewrite Hin. split.
    + intros [[|]|(e' & ? & ?)]; [auto|right; exists e; split; [left|done]|].
      right. exists e'. split; [by right|done].
    + intros [|(e' & [->|]%elem_of_cons & ?)]; eauto.
Qed.

Lemma UpdatePids_run entries c t :
  os_opendir (env_at t) "/proc" = Some entries -> Forall entry_ok entries ->
  exists ps, UpdatePids c t = Done (0, set_pids ps c, S t) /\ ascending ps /\
    forall x, x ∈ ps <-> exists e, e ∈ entries /\ entry_pid e x.
Proof.
  intros Hdir Hok. unfold UpdatePids. rewrite (bind_Done _ _ _ _ () (set_pids [] c) t) by done.
  erewrite bind_Done by (unfold sys; by rewrite Hdir).
  destruct (scan_pids_spec entries (set_pids [] c) (S t) Hok) as (ps & Hrun & Hasc & Hin).
  exists ps. rewrite (bind_Done _ _ _ _ _ _ _ Hrun). split; [done|].
  split; [apply Hasc; constructor|]. intros x. rewrite Hin. simpl. set_solver.
Qed.

(** ** The totals of the system *)

(** The first line of [/proc/stat]: the times the program adds up, and the
    rest of the line. *)
Definition print_cpu (ns : list Z) (tail : string) : string :=
  match ns with
  | n :: ns => "cpu  " +:+ (to_string n +:+
      foldr (fun n s => String " " (to_string n +:+ s)) tail ns)
  | [] => "cpu  " +:+ tail
  end.

Definition cpu_fmt : string := "cpu  %lu %lu %lu %lu %lu %lu %lu".

Lemma sscanf_cpu n0 n1 n2 n3 n4 n5 n6 tail :
  Forall in64 [n0; n1; n2; n3; n4; n5; n6] -> number_end tail = true ->
  str_forall not_nul (print_cpu [n0; n1; n2; n3; n4; n5; n6] tail) = true ->
  sscanf (print_cpu [n0; n1; n2; n3; n4; n5; n6] tail) cpu_fmt =
    (7, [VInt n0; VInt n1; VInt n2; VInt n3; VInt n4; VInt n5; VInt n6]).
Proof.
  intros Hns Ht Hnul. rewrite !Forall_cons in Hns. unfold in64 in Hns. destruct_and?.
  assert (forall n rest, 0 <= n < 2 ^ 64 -> number_end rest = true ->
    convert CUint true None (to_string n +:+ rest) = CvOk (VInt n) rest) as Hconv.
  { intros n rest Hn Hr. rewrite convert_udec by (lia || done). by rewrite store_uint64. }
  change 7 with (scan_return ([VInt n0; VInt n1; VInt n2; VInt n3; VInt n4; VInt n5; VInt n6], ScanDone)).
  eapply (sscanf_scans _ _ _ _ _ eq_refl). rewrite c_str_id by done.
  cbn [print_cpu foldr String.append].
  repeat first
    [ apply scans_nil
    | apply scans_lit
    | apply scans_space; cbn [skip_space]; try change (is_space " ") with true; cbv iota;
      rewrite ?skip_space_dec by lia
    | eapply scans_conv; [apply Hconv; [lia|done]|] ].
Qed.

(** A body that breaks on the first line sees nothing of the rest. *)
Lemma read_lines_first {S} l rest (body : string -> M S bool) s t s' t' :
  plain l -> body l s t = Done (true, s', t') ->
  read_lines (l +:+ String NEWLINE rest) body s t = Done ((), s', t').
Proof.
  intros ((Hnl & Hlen) & Hnul & Hne) Hbody. rewrite read_lines_spec. unfold read_spec, lines_of.
  rewrite split_lines_line by (done || (unfold BUFFER_SIZE in *; lia)).
  destruct (split_lines _ _ _ rest) as [ls b]. cbn [each_line].
  rewrite c_str_id, decide_False by done. by rewrite bind_assoc, (bind_Done _ _ _ _ _ _ _ Hbody).
Qed.

Lemma GetCpuTotal_run n0 n1 n2 n3 n4 n5 n6 tail rest c t :
  let line := print_cpu [n0; n1; n2; n3; n4; n5; n6] tail in
  let now := u64 (n0 + n1 + n2 + n3 + n4 + n5 + n6) in
  Forall in64 [n0; n1; n2; n3; n4; n5; n6] -> number_end tail = true -> plain line ->
  os_file (env_at t) "/proc/stat" = Some (line +:+ String NEWLINE rest) ->
  GetCpuTotal c t = Done (0, set_cpu now (set_deltaCpu (u64 (now - cpu c)) c), S t).
Proof.
  intros line now Hns Ht Hplain Hf. unfold GetCpuTotal.
  erewrite bind_Done by (unfold sys; by rewrite Hf).
  cbv iota. erewrite bind_Done; [done|]. apply read_lines_first; [done|].
  unfold cpu_line. change "cpu  %lu %lu %lu %lu %lu %lu %lu" with cpu_fmt.
  unfold line. rewrite sscanf_cpu by (done || apply Hplain). reflexivity.
Qed.
End scan.

(** ** Who owns the open captures *)

Section owned.
Context `{Pcap} `{Ntop6} `{Env} `{Spdlog}.

Definition owned (c : t) : Prop := captures c ≡ₚ omap CapHandle.handle (handles c).

Lemma close_last p open : CapHandle.pcap_close p (open ++ [p]) ≡ₚ open.
Proof.
  induction open as [|q open IH]; simpl; [by rewrite decide_True|].
  destruct (decide (p = q)) as [->|]; [by rewrite Permutation_app_comm|by rewrite IH].
Qed.

Lemma open_handle_owned config d c t :
  ci_fliter config = None -> owned c ->
  wp (open_handle config d) (fun _ c' _ => owned c') c t.
Proof.
  unfold owned. intros Hfl Hc. unfold open_handle. do 3 wp_step. apply wpx_run_on.
  set (cfg := mk_CapHandleInit _ _ _ _ _).
  eapply wpx_mono; [apply OpenLive_result; right; apply filter_usable_known; by left|].
  intros ret [h open] t' (Hres & _ & Hcode). do 2 wp_step. inversion Hres as [p h' Hh Hl|h' Hh|p h' r Hr Hh]; subst; cbn [Z.eqb negb].
  - wp_step. unfold CapHandle.SetNonBlock. simpl. rewrite Hh. apply wpx_pcall.
    destruct (negb _); unfold release; wp_step; simpl.
    + unfold CapHandle.destroy. simpl. rewrite Hh. by rewrite close_last.
    + rewrite omap_app. simpl. rewrite Hh. by rewrite Hc.
  - change (CAP_OPEN_DEVICE =? 0) with false. cbn [negb]. unfold release. wp_step. simpl.
    unfold CapHandle.destroy. by rewrite Hh.
  - exfalso. destruct (Hcode ltac:(by destruct Hr as [->| ->])) as [E|E]; [|by apply E].
    by destruct Hr as [->| ->].
Qed.
End owned.

(** ** Properties *)

Section properties.
Context `{Pcap} `{Ntop6} `{Env} `{Spdlog}.

(** The pids of an update are those of the numeric directories of [/proc],
    each once and in ascending order, whatever the order and the other entries
    of the listing. *)
Theorem UpdatePids_lists entries c t :
  os_opendir (env_at t) "/proc" = Some entries -> Forall entry_ok entries ->
  exists ps, UpdatePids c t = Done (0, set_pids ps c, S t) /\ ascending ps /\
    forall x, x ∈ ps <-> exists e, e ∈ entries /\ entry_pid e x.
Proof. apply UpdatePids_run. Qed.

(** [GetCpuTotal] sets the total to the sum of the first seven times of
    [/proc/stat]'s first line and the elapsed time to its difference with the
    previous total, both modulo 2^64; the rest of the file is not read. *)
Theorem GetCpuTotal_accounts n0 n1 n2 n3 n4 n5 n6 tail rest c t :
  let line := print_cpu [n0; n1; n2; n3; n4; n5; n6] tail in
  let now := u64 (n0 + n1 + n2 + n3 + n4 + n5 + n6) in
  Forall in64 [n0; n1; n2; n3; n4; n5; n6] -> number_end tail = true -> plain line ->
  os_file (env_at t) "/proc/stat" = Some (line +:+ String NEWLINE rest) ->
  GetCpuTotal c t = Done (0, set_cpu now (set_deltaCpu (u64 (now - cpu c)) c), S t).
Proof. apply GetCpuTotal_run. Qed.

(** C25: when every current pid is known, the loop over the two containers keeps
    exactly the processes that are still alive and those above the last living
    one: it stops there, and the dead processes at the end of the map stay. *)
Theorem sync_without_new_process c t u c' t' :
  inv c -> length (pids c) <> length (processes c) ->
  (forall p, p ∈ pids c -> p ∈ keys (processes c)) ->
  sync_processes c t = Done (u, c', t') ->
  forall k, k ∈ keys (processes c') <->
    k ∈ keys (processes c) /\ (k ∈ pids c \/ forall p, p ∈ pids c -> p < k).
Proof.
  intros Hc Hlen Hsub Hrun. unfold sync_processes in Hrun.
  rewrite (bind_Done get _ _ _ c c t) in Hrun by done. apply Nat.eqb_neq in Hlen.
  rewrite Hlen in Hrun. cbn [negb] in Hrun.
  destruct (wlp_elim _ _ _ _ _ _ _
    (merge_spec (fun _ => True) host_ok_any (pids c) [] (processes c) c t Hc eq_refl) Hrun)
    as (_ & Hk & _). rewrite Hk. simpl. apply merged_subset; [apply Hc|apply Hc|done].
Qed.

(** C24: the first new pid empties the rest of the map.  When the pids are some
    known ones followed by one that is not known, the loop never advances past
    the new one: every process of the map that was not passed yet is removed
    and reported as removed, alive or not. *)
Theorem sync_after_new_process known n rest c t u c' t' :
  inv c -> length (pids c) <> length (processes c) ->
  pids c = known ++ n :: rest -> (forall p, p ∈ known -> p ∈ keys (processes c)) ->
  n ∉ keys (processes c) ->
  sync_processes c t = Done (u, c', t') ->
  keys (processes c') = known /\
  (processCallback c = true ->
   events c' = events c ++
     map removal (snd (merged (known ++ n :: rest) (keys (processes c))))).
Proof.
  intros Hc Hlen Hpids Hsub Hn Hrun. unfold sync_processes in Hrun.
  rewrite (bind_Done get _ _ _ c c t) in Hrun by done. apply Nat.eqb_neq in Hlen.
  rewrite Hlen in Hrun. cbn [negb] in Hrun.
  destruct (wlp_elim _ _ _ _ _ _ _
    (merge_spec (fun _ => True) host_ok_any (pids c) [] (processes c) c t Hc eq_refl) Hrun)
    as (_ & Hk & He & _). rewrite Hk, Hpids. simpl. split.
  - apply merged_new; [rewrite <- Hpids; apply Hc|apply Hc|done|done].
  - intros Hcb. rewrite He, Hpids. unfold removals. by rewrite Hcb.
Qed.

(** C26: a successful update with a process callback ends with one report of the
    whole table: as many processes as are announced, each row that of its
    process in pid order; a packet report, if any, comes after it and announces
    a positive number of rows. *)
Theorem Update_reports `{!PcapOk} cnt icaptureAll c t c' t' :
  inv c -> Update cnt icaptureAll c t = Done (0, c', t') -> processCallback c = true ->
  take (length (processes c')) (processData c') = map (fun kp => process_row kp.2) (processes c') /\
  exists es tail,
    events c' = events c ++ es ++
      ProcessEvent ACTION_UPDATE (processData c') (u32 (Z.of_nat (length (processes c')))) :: tail /\
    (tail = [] \/ exists n, 0 < n /\ tail = [PacketEvent (packetData c') n]).
Proof.
  intros Hc Hrun Hcb.
  destruct (wlp_elim _ _ _ _ _ _ _ (update_spec (fun _ => True) host_ok_any
    c cnt icaptureAll t Hc) Hrun) as (_ & _ & Hrep).
  destruct (Hrep eq_refl) as (es & ret & He & Hret & _ & Hrows). rewrite Hcb in He.
  split; [by apply Hrows|]. destruct (packetCallback c && (0 <? ret) && _) eqn:E.
  - eexists es, _. split; [exact He|]. right. bool_to_prop. exists (u32 ret).
    rewrite u32_id by lia. split; [lia|done].
  - eexists es, _. split; [exact He|]. by left.
Qed.

(** The number announced with the packet table is what libpcap returned for
    the last handle alone, the frames it processed, whatever the update stored
    in the table and whatever the other handles delivered; there is no packet
    report at all when that number is not positive. *)
Theorem Update_packet_report `{!PcapOk} cnt icaptureAll c t c' t' :
  inv c -> Update cnt icaptureAll c t = Done (0, c', t') -> packetCallback c = true ->
  exists ret es, last_dispatch cnt (handles c) ret /\
    events c' = events c ++ es ++
      (if processCallback c then
         [ProcessEvent ACTION_UPDATE (processData c') (u32 (Z.of_nat (length (processes c'))))]
       else []) ++
      (if (0 <? ret) && negb (length (packetData c') =? 0)%nat
       then [PacketEvent (packetData c') ret] else []).
Proof.
  intros Hc Hrun Hcb.
  destruct (wlp_elim _ _ _ _ _ _ _ (update_spec (fun _ => True) host_ok_any
    c cnt icaptureAll t Hc) Hrun) as (_ & _ & Hrep).
  destruct (Hrep eq_refl) as (es & ret & He & Hret & Hlast & _). rewrite Hcb in He. simpl in He.
  exists ret, es. split; [done|]. rewrite He. do 3 f_equal.
  destruct (0 <? ret) eqn:E; [|done]. bool_to_prop. by rewrite u32_id by lia.
Qed.

(** C35: without a filter no capture is lost: the captures libpcap has open for
    the program are those its handles own, after any number of devices,
    whether they open, and whether they can be made non-blocking. *)
Theorem open_devices_owned config ds c t :
  ci_fliter config = None -> owned c ->
  exists c' t', for_each ds (open_handle config) c t = Done ((), c', t') /\ owned c'.
Proof.
  intros Hfl Hc.
  destruct (wp_elim _ _ _ _ (wpx_for_each _ owned ds (open_handle config) c t Hc
    (fun d c t _ Hc => open_handle_owned config d c t Hfl Hc))) as ([] & c' & t' & Hrun & Hc').
  by exists c', t'.
Qed.
End properties.

(** A reported row holds, as terminated strings, the longest prefixes of the
    process's texts that fit: 127 characters, 511 for the command line. *)
Theorem process_row_text p :
  array_str (p_name (process_row p)) = str_take 127 (c_str (CapProcess.name p)) /\
  array_str (p_cmdline (process_row p)) = str_take 511 (c_str (CapProcess.cmdline p)) /\
  array_str (p_user (process_row p)) = str_take 127 (c_str (CapProcess.user p)) /\
  array_str (p_group (process_row p)) = str_take 127 (c_str (CapProcess.group p)).
Proof.
  unfold process_row, CAPTURE_COMMAN_SIZE, CAPTURE_CMDLINE_SIZE. cbn [p_name p_cmdline p_user p_group].
  unfold Process_zero, CAPTURE_COMMAN_SIZE, CAPTURE_CMDLINE_SIZE.
  cbn [p_name p_cmdline p_user p_group]. rewrite !strncpy_zeroed by lia. done.
Qed.

(** ** A sample system

    One interface, 127.0.0.1 and not marked as a loopback; one process, 42,
    that holds the connection 127.0.0.1:8080 to 10.0.0.2:80; and a dispatch of
    two frames, one segment of that connection and one ARP packet. *)

Definition app_texts : list (string * string) :=
  [("/proc/net/tcp", line "  sl  local_address rem_address" +:+
      line (print_row (Inode.sample_row (hex_fixed 8 16777343) (hex_fixed 8 33554442) 4026)));
   ("/proc/net/tcp6", ""); ("/proc/net/udp", ""); ("/proc/net/udp6", "");
   ("/proc/stat", line (print_cpu [10; 0; 10; 900; 0; 0; 0] " 0"));
   ("/proc/meminfo", line "MemTotal:        8192 kB")].

Definition app_os : Os :=
  mk_Os
    (fun file =>
       match os_file (proc_os 42 sample_view) file with
       | Some text => Some text
       | None =>
           assoc app_texts file
       end)
    (assoc [("/proc", [mk_dirent "42" DT_DIR; mk_dirent "self" DT_LNK; mk_dirent "net" DT_DIR]);
            ("/proc/42/fd", [mk_dirent "3" DT_LNK])])
    (assoc [("/proc/42/fd/3", "socket:[4026]")])
    (fun _ => Some (Some "root")) (fun _ => Some (Some "root"))
    (Some [mk_ifaddrs (Some "eth0") 65 (Some (SaInet 16777343))]).

Definition app_env : Env := fun _ => app_os.
Definition app_log : Spdlog := fun _ => true.

Definition arp_frame : list Z := repeat 2 12 ++ [0x08; 0x06] ++ repeat 0 28.
Definition app_batch : list (pcap_pkthdr * list Z) :=
  [(mk_pkthdr (0, 0) 42 60, sample_frame); (mk_pkthdr (0, 0) 42 60, arp_frame)].
Definition app_pcap : Pcap := sample_pcap 1 app_batch.

Definition app_config : CaptureInitt := mk_CaptureInitt (Some "capture.log") 100 512 0 None None SELECT.

Lemma bytes_ok l : forallb (fun b => (0 <=? b) && (b <? 256)) l = true -> Forall byte l.
Proof.
  rewrite forallb_forall, Forall_forall. intros Hl b Hb%list_elem_of_In%Hl. unfold byte. lia.
Qed.

Lemma app_pcap_ok : @PcapOk app_pcap.
Proof.
  apply sample_pcap_ok; [done|]. unfold app_batch.
  apply List.Forall_cons; [|apply List.Forall_cons; [|apply List.Forall_nil]];
    (split; [by apply bytes_ok|done]).
Qed.

Definition sample_dirs : list dirent :=
  [mk_dirent "42" DT_DIR; mk_dirent "self" DT_LNK; mk_dirent "net" DT_DIR].

Lemma sample_dirs_ok : Forall entry_ok sample_dirs.
Proof.
  assert (forall e, c_str (d_name e) <> "" ->
    (d_kind e = DT_DIR -> all_digits (c_str (d_name e)) = true ->
     read_digits 10 0 (c_str (d_name e)) < 2 ^ 31) -> entry_ok e) as Hok
    by (intros e Hne He x (Hk & Hd & <-); auto).
  unfold sample_dirs.
  repeat (apply List.Forall_cons; [apply Hok; [done|by vm_compute]|]). apply List.Forall_nil.
Qed.

Lemma UpdatePids_lists_witness :
  exists ps, @UpdatePids app_pcap app_env CaptureCxx.new 0%nat =
      Done (0, @set_pids app_pcap ps CaptureCxx.new, 1%nat) /\ ascending ps /\
    forall x, x ∈ ps <-> exists e, e ∈ sample_dirs /\ entry_pid e x.
Proof.
  apply (@UpdatePids_lists app_pcap app_env sample_dirs); [reflexivity|apply sample_dirs_ok].
Defined.

Lemma GetCpuTotal_accounts_witness :
  exists c, @GetCpuTotal app_pcap app_env CaptureCxx.new 0%nat = Done (0, c, 1%nat) /\
    CaptureCxx.cpu c = 920.
Proof.
  eexists. split.
  - apply (@GetCpuTotal_accounts app_pcap app_env 10 0 10 900 0 0 0 " 0" ""); [|done| |reflexivity].
    + repeat constructor; done.
    + by apply is_plain_spec; vm_compute.
  - reflexivity.
Defined.

(** Process 50 is gone but above the last living pid. *)
Lemma two_entries : Forall process_entry [(42, CapProcess.new 42); (50, CapProcess.new 50)].
Proof.
  apply List.Forall_cons; [split; [done|apply process_wf_new]|].
  apply List.Forall_cons; [split; [done|apply process_wf_new]|apply List.Forall_nil].
Qed.

Lemma two_inv :
  @inv app_pcap (sample_capture app_batch true [(42, CapProcess.new 42); (50, CapProcess.new 50)] []).
Proof. apply sample_inv; [repeat constructor|by apply sample_pid_ok|apply two_entries|constructor]. Qed.

Lemma sync_without_new_process_witness :
  let c := sample_capture app_batch true [(42, CapProcess.new 42); (50, CapProcess.new 50)] [] in
  exists c' t', @sync_processes app_pcap app_env c 0%nat = Done ((), c', t') /\
    50 ∈ keys (CaptureCxx.processes c').
Proof.
  intros c. destruct (@sync_processes app_pcap app_env c 0%nat) as [[[[] c'] t']| | |] eqn:Hrun;
    [|vm_compute in Hrun; discriminate..].
  exists c', t'. split; [done|].
  apply (@sync_without_new_process app_pcap app_env c 0%nat () c' t' two_inv).
  - done.
  - intros p Hp. apply list_elem_of_singleton in Hp as ->. left.
  - done.
  - split; [right; left|]. right. intros p Hp. apply list_elem_of_singleton in Hp as ->. lia.
Defined.

(** Process 42 is alive, but 7 is new and below it. *)
Lemma one_inv : @inv app_pcap (sample_capture app_batch true [(42, CapProcess.new 42)] []).
Proof. apply sample_inv; [repeat constructor|by apply sample_pid_ok|apply sample_entries|constructor]. Qed.

Lemma new_pid_inv :
  @inv app_pcap (@set_pids app_pcap [7; 42] (sample_capture app_batch true [(42, CapProcess.new 42)] [])).
Proof.
  destruct one_inv; constructor; try done; [repeat constructor|by apply sample_pid_ok].
Qed.

Lemma sync_after_new_process_witness :
  let c := @set_pids app_pcap [7; 42] (sample_capture app_batch true [(42, CapProcess.new 42)] []) in
  exists c' t', @sync_processes app_pcap app_env c 0%nat = Done ((), c', t') /\
    keys (CaptureCxx.processes c') = [].
Proof.
  intros c. destruct (@sync_processes app_pcap app_env c 0%nat) as [[[[] c'] t']| | |] eqn:Hrun;
    [|vm_compute in Hrun; discriminate..].
  exists c', t'. split; [done|].
  refine (proj1 (@sync_after_new_process app_pcap app_env [] 7 [42] c 0%nat () c' t'
    new_pid_inv _ eq_refl _ _ Hrun)).
  - done.
  - intros p Hp. by apply elem_of_nil in Hp.
  - intros Hp. by apply list_elem_of_singleton in Hp.
Defined.

Lemma app_update_returns :
  exists ret c t, @Update app_pcap full_ntop6 app_env (-1) false
      (sample_capture app_batch true [(42, CapProcess.new 42)] []) 0%nat = Done (ret, c, t) /\
    (ret = 0 /\ length (CaptureCxx.processes c) = 1%nat).
Proof. apply returns_inv. vm_compute. done. Qed.

Lemma Update_reports_witness :
  exists c' t', @Update app_pcap full_ntop6 app_env (-1) false
      (sample_capture app_batch true [(42, CapProcess.new 42)] []) 0%nat = Done (0, c', t') /\
    take 1 (CaptureCxx.processData c') = map (fun kp => process_row kp.2) (CaptureCxx.processes c').
Proof.
  destruct app_update_returns as (ret & c' & t' & Hrun & -> & Hlen).
  exists c', t'. split; [exact Hrun|]. rewrite <- Hlen.
  exact (proj1 (@Update_reports app_pcap full_ntop6 app_env app_pcap_ok (-1) false
    (sample_capture app_batch true [(42, CapProcess.new 42)] []) 0%nat c' t'
    one_inv Hrun eq_refl)).
Defined.

(** A capture on the interface: its next dispatch gives two frames, of which one
    is a segment. *)
Definition app_capture : @CaptureCxx.t app_pcap :=
  @set_handles app_pcap
    [@CapHandle.mk app_pcap (Some "eth0") 1 "" 3 (@CapHandle.context app_pcap CapHandle.new) true]
    (sample_capture app_batch true [(42, CapProcess.new 42)] []).

Lemma app_capture_inv : @inv app_pcap app_capture.
Proof.
  destruct one_inv; constructor; try done; simpl; auto.
  constructor; [|done]. split; [|done]. by exists "eth0".
Qed.

Lemma app_capture_returns :
  exists ret c t, @Update app_pcap full_ntop6 app_env (-1) false app_capture 0%nat = Done (ret, c, t) /\
    (ret = 0 /\ length (CaptureCxx.packetData c) = 1%nat).
Proof. apply returns_inv. vm_compute. done. Qed.

Lemma Update_packet_report_witness :
  exists c' t' es, @Update app_pcap full_ntop6 app_env (-1) false app_capture 0%nat = Done (0, c', t') /\
    length (CaptureCxx.packetData c') = 1%nat /\
    CaptureCxx.events c' = es ++ [PacketEvent (CaptureCxx.packetData c') 2].
Proof.
  destruct app_capture_returns as (ret & c' & t' & Hrun & -> & Hlen).
  destruct (@Update_packet_report app_pcap full_ntop6 app_env app_pcap_ok (-1) false app_capture
    0%nat c' t' app_capture_inv Hrun eq_refl) as (ret & es & Hlast & He).
  exists c', t'. rewrite Hlen in He.
  destruct Hlast as [[Hnil _]|(h & p & t0 & _ & _ & Hret)]; [discriminate Hnil|].
  change (ret = 2) in Hret. rewrite Hret in He.
  eexists. split; [exact Hrun|]. split; [exact Hlen|]. rewrite He. cbn [Z.ltb Z.compare Nat.eqb negb andb].
  rewrite !app_assoc. reflexivity.
Defined.

Lemma open_devices_owned_witness :
  exists c' t', for_each [device4 16777343; device4 1] (@open_handle app_pcap app_config)
      CaptureCxx.new 0%nat = Done ((), c', t') /\ @owned app_pcap c'.
Proof. apply (@open_devices_owned app_pcap); [reflexivity|constructor]. Defined.
