(* ===== verification/Api.v ===== *)
(** [export/libcapture.h] and [libcapture.cpp]: the three calls of the library,
    and what holds of every sequence of them. *)

From stdpp Require Import relations.
From S2P Require Import Prelude Cstring Inet Stream Scanf OrdMap Pod Device Packet Inode Process.
From S2P Require Import Handle Logger Transport Protocol Capture.

Section api.
Context `{Pcap} `{Ntop6} `{Env} `{Spdlog}.

Definition CaptureInit (config : CaptureInitt) (processCallback packetCallback : bool) :
    M CaptureCxx.t Z :=
  Init config processCallback packetCallback.

Definition CaptureUpdate (cnt : Z) : M CaptureCxx.t Z := Update cnt false.

Definition CaptureExit : M CaptureCxx.t Z := Shutdown.

(** ** Sequences of calls *)

Inductive call :=
  | InitCall (config : CaptureInitt) (processCallback packetCallback : bool)
  | UpdateCall (cnt : Z)
  | ExitCall.

Definition exec (k : call) : M CaptureCxx.t Z :=
  match k with
  | InitCall config pcb kcb => CaptureInit config pcb kcb
  | UpdateCall cnt => CaptureUpdate cnt
  | ExitCall => CaptureExit
  end.

(** One call that returns; time may pass before the next. *)
Inductive step : CaptureCxx.t * nat -> CaptureCxx.t * nat -> Prop :=
  | StepCall k c t ret c' t' : exec k c t = Done (ret, c', t') -> step (c, t) (c', t')
  | StepTime c t t' : (t <= t')%nat -> step (c, t) (c, t').

(** The states the host can bring the library to. *)
Definition reachable (ct : CaptureCxx.t * nat) : Prop := rtc step (CaptureCxx.new, 0%nat) ct.

(** The configuration names a log file, and either no filter or one whose
    compilation is given a network number. *)
Definition well_called (k : call) : Prop :=
  match k with InitCall config _ _ => config_usable config | _ => True end.

Definition code_ok (ret : Z) : Prop := ret = 0 \/ ret = CAP_DEVICE_INIT \/ ret = CAP_PROCESS_OPEN.

Lemma inv_new : inv CaptureCxx.new.
Proof. by constructor; try constructor. Qed.

(** The log file it names can be opened. *)
Definition log_usable (k : call) : Prop :=
  match k with
  | InitCall config _ _ => forall f, ci_logfile config = Some f -> openable f = true
  | _ => True
  end.

(** A sequence of calls, and the codes they return. *)
Fixpoint session (ks : list call) : M CaptureCxx.t (list Z) :=
  match ks with
  | [] => mret []
  | k :: ks => ret ← exec k; rets ← session ks; mret (ret :: rets)
  end.

Lemma exec_spec `{!PcapOk} bad k c t :
  host_ok bad -> (forall u, bad (Undefined u)) \/ well_called k ->
  bad (Threw SpdlogEx) \/ log_usable k -> inv c ->
  wpx bad (exec k)
    (fun ret c' _ => inv c' /\ code_ok ret /\ exists es, CaptureCxx.events c' = CaptureCxx.events c ++ es) c t.
Proof.
  intros Hhost Hcall Hlog Hc. unfold code_ok. destruct k as [config pcb kcb|cnt|]; simpl in *.
  - eapply wpx_mono; [exact (init_spec bad Hhost config pcb kcb c t Hcall Hlog Hc)|].
    intros ret c' t' (Hc' & _ & _ & Hes & Hret). split; [done|]. split; [|done].
    destruct Hret as [->| ->]; [by left|right; by left].
  - eapply wpx_mono; [exact (update_spec bad Hhost c cnt false t Hc)|].
    intros ret c' t' ([Hc' (_ & _ & Hes)] & Hret & _). split; [done|]. split; [|done].
    destruct Hret as [->| ->]; [by left|right; by right].
  - split; [done|]. split; [by left|]. exists []. by rewrite app_nil_r.
Qed.

Lemma reachable_from_inv `{!PcapOk} ct ct' : rtc step ct ct' -> inv ct.1 -> inv ct'.1.
Proof.
  induction 1 as [ct|ct1 ct2 ct3 Hstep _ IH]; [done|]. intros Hc. apply IH.
  destruct Hstep as [k c t ret c' t' Hrun|c t t' _]; [|done]. simpl in *.
  pose proof (exec_spec (fun _ => True) k c t host_ok_any (or_introl (fun _ => I)) (or_introl I) Hc) as Hspec.
  by destruct (wlp_elim _ _ _ _ _ _ _ Hspec Hrun).
Qed.

(** A session is one of the runs the host can make. *)
Lemma session_reachable ks c t rets c' t' :
  session ks c t = Done (rets, c', t') -> rtc step (c, t) (c', t').
Proof.
  revert c t rets. induction ks as [|k ks IH]; intros c t rets; cbn [session].
  { intros [=]; subst. apply rtc_refl. }
  cbv [mbind M_bind]. destruct (exec k c t) as [[[ret c1] t1]| | |] eqn:E; try done.
  destruct (session ks c1 t1) as [[[rs c2] t2]| | |] eqn:E2; try done. intros [=]; subst.
  eapply rtc_l; [by eapply StepCall|by eapply IH].
Qed.

Lemma session_codes `{!PcapOk} ks c t rets c' t' :
  inv c -> session ks c t = Done (rets, c', t') -> length rets = length ks /\ Forall code_ok rets.
Proof.
  revert c t rets. induction ks as [|k ks IH]; intros c t rets Hc; cbn [session]; [by intros [= <- _ _]|].
  cbv [mbind M_bind]. destruct (exec k c t) as [[[ret c1] t1]| | |] eqn:E; try done.
  destruct (session ks c1 t1) as [[[rs c2] t2]| | |] eqn:E2; try done. intros [= <- -> ->].
  pose proof (exec_spec (fun _ => True) k c t host_ok_any (or_introl (fun _ => I)) (or_introl I) Hc) as Hspec.
  destruct (wlp_elim _ _ _ _ _ _ _ Hspec E) as (Hc1 & Hcode & _).
  destruct (IH c1 t1 rs Hc1 E2). split; [by f_equal/=|by constructor].
Qed.

(** A host that is as the program expects it. *)
Record steady_host : Prop := {
  steady_names : forall t, short_names (env_at t);
  steady_lines : forall t, line_files_ok (env_at t);
  steady_totals : forall t, totals_ok (env_at t);
  steady_listing : forall t, listing_ok (env_at t);
  steady_packets : complete_captures
}.

Lemma steady_host_ok bad : steady_host -> host_ok bad.
Proof. intros []. split; [split|..]; by right. Qed.

(** On such a host every sequence of calls returns. *)
Lemma session_returns `{!PcapOk} ks c t :
  steady_host -> Forall well_called ks -> Forall log_usable ks -> inv c ->
  wp (session ks) (fun rets c' _ => inv c' /\ length rets = length ks /\ Forall code_ok rets) c t.
Proof.
  intros Hhost Hcall Hlog Hc. revert c t Hc.
  induction Hcall as [|k ks Hk _ IH]; intros c t Hc; [by split|].
  inversion Hlog as [|? ? Hkl Hl]; subst. simpl. wp_step.
  eapply wpx_mono; [apply exec_spec; auto using steady_host_ok|].
  intros ret c1 t1 (Hc1 & Hcode & _). wp_step. eapply wpx_mono; [by apply IH|].
  intros rets c2 t2 (Hc2 & Hlen & Hcodes). split; [done|]. simpl. split; [by f_equal|by constructor].
Qed.

(** ** Properties *)

(** C11: whatever the host calls, in whatever order and however often, and
    whatever the system and the network answer, the state of the library is
    well formed after every call that returns: pids and process keys ascending,
    every process under its own pid and in range, devices up with a local
    address, handles open with their callback set, packet rows terminated and
    without a copy of the packet, the row index within the table. *)
Theorem reachable_inv `{!PcapOk} c t : reachable (c, t) -> inv c.
Proof. intros Hr. apply (reachable_from_inv _ _ Hr inv_new). Qed.

(** C1: in every state the host can reach, a call has no undefined behaviour,
    provided that the configuration names a log file, that it has no filter or
    the network numbers of the devices can be looked up, that process names fit
    their array and that every captured packet has the bytes its frame is read
    for.  When the call returns, its code is one of three and the events so far
    are a prefix of those after it. *)
Theorem calls_are_safe `{!PcapOk} k c t :
  (forall t, short_names (env_at t)) -> complete_captures -> well_called k -> reachable (c, t) ->
  match exec k c t with
  | Done (ret, c', _) =>
      code_ok ret /\ exists es, CaptureCxx.events c' = CaptureCxx.events c ++ es
  | Undef _ => False
  | Throws _ | Diverges => True
  end.
Proof.
  intros Hnames Hcap Hcall Hr. pose proof (reachable_from_inv _ _ Hr inv_new) as Hc.
  assert (host_ok defined) as Hhost.
  { split; [split; [by left|by right]|by left|by left|by right]. }
  pose proof (exec_spec defined k c t Hhost (or_intror Hcall) (or_introl I) Hc) as Hspec.
  unfold wpx in Hspec. destruct (exec k c t) as [[[ret c'] t']| | |]; try done.
  by destruct Hspec as (_ & ? & ?).
Qed.

(** C2: on a host whose files are as the program expects them, every sequence of
    calls ends: no call runs for ever, throws or has undefined behaviour, from
    any state an earlier use of the library left, and every code is 0 or one of
    the two that the library returns.  What the program expects: process names
    that fit their array, lines that fit the buffer of the readers (of the two
    files of totals it is enough that the first line is the one looked for),
    numeric directories below the limit of pids, complete packets, a log file
    that is named and can be opened, network numbers that can be looked up if
    there is a filter. *)
Theorem calls_return `{!PcapOk} ks c t :
  steady_host -> Forall well_called ks -> Forall log_usable ks -> reachable (c, t) ->
  exists rets c' t', session ks c t = Done (rets, c', t') /\
    length rets = length ks /\ Forall code_ok rets.
Proof.
  intros Hhost Hcall Hlog Hr. pose proof (reachable_from_inv _ _ Hr inv_new) as Hc.
  destruct (wp_elim _ _ _ _ (session_returns ks c t Hhost Hcall Hlog Hc)) as (rets & c' & t' & Hrun & _ & ?).
  by exists rets, c', t'.
Qed.

(** C12: every callback of every run gets rows of their types: arrays that hold a
    terminated string, every number within the range of its C type,
    percentages that are numbers, as many process rows as are announced, one
    row for a removal, packet rows without a copy of the packet.  The packet
    callback is promised a table that is not empty and a positive count, but
    not that the table has as many rows as the count says. *)
Theorem reachable_events_typed `{!PcapOk} c t :
  reachable (c, t) -> Forall event_ok (CaptureCxx.events c).
Proof. intros Hr. exact (inv_events _ (reachable_from_inv _ _ Hr inv_new)). Qed.
End api.

(** ** The sample system *)

Lemma assoc_elem {A} (l : list (string * A)) k v : assoc l k = Some v -> v ∈ map snd l.
Proof.
  unfold assoc. intros Hv. destruct (List.find _ l) as [[k' v']|] eqn:E; [|done].
  injection Hv as <-. apply find_some in E as [E _]. apply list_elem_of_In, in_map_iff.
  by exists (k', v').
Qed.

Definition short_lines (content : string) : bool :=
  forallb (fun l => (String.length (arg_str 0 "" (snd (sscanf l "Name:       %s"))) <? 128)%nat)
    (text_lines (fst (lines_of content))).

Lemma short_lines_spec content l :
  short_lines content = true -> l ∈ text_lines (fst (lines_of content)) -> short_name l.
Proof.
  unfold short_lines. rewrite forallb_forall. intros Hs Hl%list_elem_of_In.
  apply Nat.ltb_lt, (Hs l Hl).
Qed.

(** A check of every file of the sample system. *)
Lemma app_files (f : string -> bool) file content :
  os_file app_os file = Some content ->
  forallb f (map snd (proc_texts 42 sample_view ++ app_texts)) = true -> f content = true.
Proof.
  intros Hf Hall. rewrite forallb_forall in Hall. apply Hall.
  apply list_elem_of_In. rewrite map_app, elem_of_app. cbn [app_os os_file] in Hf.
  destruct (os_file (proc_os 42 sample_view) file) as [text|] eqn:E.
  - injection Hf as ->. left. by apply (assoc_elem _ file).
  - right. by apply (assoc_elem _ file).
Qed.

Lemma app_short_names : short_names app_os.
Proof.
  intros pid content Hf l Hl. apply (short_lines_spec content); [|done].
  eapply app_files; [exact Hf|]. vm_compute. reflexivity.
Qed.

Lemma app_lines : line_files_ok app_os.
Proof.
  intros file content _ Hf. apply negb_true_iff.
  apply (app_files (fun text => negb (snd (lines_of text))) file); [exact Hf|].
  vm_compute. reflexivity.
Qed.

Lemma app_totals : totals_ok app_os.
Proof.
  intros file fmt content _ Hf. left. apply negb_true_iff.
  apply (app_files (fun text => negb (snd (lines_of text))) file); [exact Hf|].
  vm_compute. reflexivity.
Qed.

Lemma app_complete : @complete_captures app_pcap.
Proof.
  intros t p cnt. change (snd (@pcap_dispatch app_pcap t p cnt)) with app_batch.
  change (@pcap_datalink app_pcap p) with 1. unfold app_batch.
  apply List.Forall_cons; [|apply List.Forall_cons; [|apply List.Forall_nil]];
    apply Nat.leb_le; vm_compute; reflexivity.
Qed.

Lemma app_steady : @steady_host app_pcap app_env.
Proof.
  constructor; intros; [apply app_short_names|apply app_lines|apply app_totals| |apply app_complete].
  intros entries Hl. injection Hl as <-. apply sample_dirs_ok.
Qed.

(** Initialising the library and updating it once. *)
Definition app_run : outcome (Z * @CaptureCxx.t app_pcap * nat) :=
  (_ ← @CaptureInit app_pcap full_ntop6 app_env app_log app_config true true;
   @CaptureUpdate app_pcap full_ntop6 app_env (-1)) (@CaptureCxx.new app_pcap) 0%nat.

(** Two frames arrive, one of a known connection and one ARP packet: the host is
    told of two rows in a table that has one. *)
Example app_run_overannounces :
  match app_run with
  | Done (ret, c, _) =>
      ret = 0 /\
      match CaptureCxx.events c with
      | [ProcessEvent ACTION_UPDATE data 1; PacketEvent rows 2] =>
          length data = 1%nat /\ length rows = 1%nat
      | _ => False
      end
  | _ => False
  end.
Proof. vm_compute. repeat split. Qed.

Lemma app_init_returns :
  exists ret c t, @exec app_pcap full_ntop6 app_env app_log (InitCall app_config true true)
      (@CaptureCxx.new app_pcap) 0%nat = Done (ret, c, t) /\ CaptureCxx.devices c <> [].
Proof. apply (returns_inv _ (fun _ c => CaptureCxx.devices c <> [])). vm_compute. discriminate. Qed.

Lemma reachable_inv_witness :
  exists c t, @reachable app_pcap full_ntop6 app_env app_log (c, t) /\
    CaptureCxx.devices c <> [] /\ inv c.
Proof.
  destruct app_init_returns as (ret & c & t & Hrun & Hd). exists c, t.
  assert (@reachable app_pcap full_ntop6 app_env app_log (c, t)) as Hr.
  { apply rtc_once. exact (@StepCall app_pcap full_ntop6 app_env app_log
      (InitCall app_config true true) _ _ ret c t Hrun). }
  split; [exact Hr|]. split; [exact Hd|].
  exact (@reachable_inv app_pcap full_ntop6 app_env app_log app_pcap_ok c t Hr).
Defined.

Lemma calls_are_safe_witness :
  match @exec app_pcap full_ntop6 app_env app_log (InitCall app_config true true)
    (@CaptureCxx.new app_pcap) 0%nat with
  | Undef _ => False
  | _ => True
  end.
Proof.
  pose proof (@calls_are_safe app_pcap full_ntop6 app_env app_log app_pcap_ok
    (InitCall app_config true true) (@CaptureCxx.new app_pcap) 0%nat (fun _ => app_short_names)
    app_complete ltac:(split; [done|by left]) ltac:(apply rtc_refl)) as Hsafe.
  destruct (exec _ _ _) as [[[??]?]| | |]; [exact I|exact I|exact Hsafe|exact I].
Defined.

(** Two updates, and the end. *)
Definition app_calls : list call :=
  [InitCall app_config true true; UpdateCall (-1); UpdateCall (-1); ExitCall].

Lemma calls_return_witness :
  exists rets c t,
    @session app_pcap full_ntop6 app_env app_log app_calls (@CaptureCxx.new app_pcap) 0%nat
      = Done (rets, c, t) /\ length rets = 4%nat /\ Forall code_ok rets.
Proof.
  refine (@calls_return app_pcap full_ntop6 app_env app_log app_pcap_ok app_calls _ 0%nat
    app_steady _ _ ltac:(apply rtc_refl));
    repeat (apply List.Forall_cons; [first [done|split; [done|by left]]|]); apply List.Forall_nil.
Defined.

Lemma app_run_returns :
  exists rets c t,
    @session app_pcap full_ntop6 app_env app_log app_calls (@CaptureCxx.new app_pcap) 0%nat
      = Done (rets, c, t) /\ length (CaptureCxx.events c) = 4%nat.
Proof. apply (returns_inv _ (fun _ c => length (CaptureCxx.events c) = 4%nat)). vm_compute. done. Qed.

Lemma reachable_events_typed_witness :
  exists c t, @reachable app_pcap full_ntop6 app_env app_log (c, t) /\
    CaptureCxx.events c <> [] /\ Forall event_ok (CaptureCxx.events c).
Proof.
  destruct app_run_returns as (rets & c & t & Hrun & Hlen). exists c, t.
  assert (@reachable app_pcap full_ntop6 app_env app_log (c, t)) as Hr
    by exact (session_reachable app_calls _ _ _ _ _ Hrun).
  split; [exact Hr|]. split; [by destruct (CaptureCxx.events c)|].
  exact (@reachable_events_typed app_pcap full_ntop6 app_env app_log app_pcap_ok c t Hr).
Defined.
