(* ===== verification/Singleton.v ===== *)
(** [utils/singleton.h]: an instance that is made when it is first asked for, and
    the exported functions of [libcapture.cpp], which run on the object whose
    reference they get. *)

From stdpp Require Import relations.
From S2P Require Import Prelude Cstring Inet Stream Scanf OrdMap Pod Device Packet Inode Process.
From S2P Require Import Handle Logger Transport Protocol Capture Api.

Module Singleton.
Section singleton.
Context {T : Type} (construct : T).

(** The objects of the class, by their addresses, and the address of the static
    one, once control has passed its declaration. *)
Record store := mk { objects : list T; instance : option nat }.

(** [static T instance; return instance;]: a reference to the object. *)
Definition Get : M store nat :=
  s ← get;
  match instance s with
  | Some a => mret a
  | None =>
      let a := length (objects s) in
      put (mk (objects s ++ [construct]) (Some a));; mret a
  end.

(** A method on the object that a reference refers to. *)
Definition on {A} (a : nat) (m : M T A) : M store A :=
  s ← get;
  match objects s !! a with
  | None => undef NullDeref
  | Some x =>
      '(r, x) ← run_on x m;
      modify (fun s => mk (<[a := x]> (objects s)) (instance s));; mret r
  end.

(** [Singleton<T>::Get().m()] *)
Definition call {A} (m : M T A) : M store A := a ← Get; on a m.

(** The instance has been made, behind the objects [os]. *)
Definition made (os : list T) (x : T) : store := mk (os ++ [x]) (Some (length os)).

Lemma on_made {A} (m : M T A) os x t :
  on (length os) m (made os x) t =
    match m x t with
    | Done (r, x', t') => Done (r, made os x', t')
    | Throws e => Throws e
    | Undef u => Undef u
    | Diverges => Diverges
    end.
Proof.
  unfold on, run_on, made, modify. cbv [mbind M_bind get]. cbn [objects instance].
  rewrite list_lookup_middle by done. destruct (m x t) as [[[r x'] t']| | |]; [|done..].
  cbn [objects instance]. by rewrite insert_app_r_alt, Nat.sub_diag by done.
Qed.

(** The first call makes the object, and every other finds it. *)
Lemma call_first {A} (m : M T A) os t : call m (mk os None) t = on (length os) m (made os construct) t.
Proof. done. Qed.

Lemma call_again {A} (m : M T A) os x t : call m (made os x) t = on (length os) m (made os x) t.
Proof. done. Qed.
End singleton.
Arguments store : clear implicits.
End Singleton.

Section exported.
Context `{Pcap} `{Ntop6} `{Env} `{Spdlog}.

(** [CaptureInit], [CaptureUpdate] and [CaptureExit], as they are exported. *)
Definition exported (k : call) : M (Singleton.store CaptureCxx.t) Z :=
  Singleton.call CaptureCxx.new (exec k).

Fixpoint host (ks : list call) : M (Singleton.store CaptureCxx.t) (list Z) :=
  match ks with
  | [] => mret []
  | k :: ks => ret ← exported k; rets ← host ks; mret (ret :: rets)
  end.

(** The store after some calls that leave the object [c]. *)
Definition store_after (ks : list call) (os : list CaptureCxx.t) (c : CaptureCxx.t) :
    Singleton.store CaptureCxx.t :=
  match ks with [] => Singleton.mk os None | _ => Singleton.made os c end.

Lemma host_made ks os c t :
  host ks (Singleton.made os c) t =
    match session ks c t with
    | Done (rets, c', t') => Done (rets, Singleton.made os c', t')
    | Throws e => Throws e
    | Undef u => Undef u
    | Diverges => Diverges
    end.
Proof.
  revert c t. induction ks as [|k ks IH]; intros c t; [done|].
  cbn [host session]. cbv [mbind M_bind]. unfold exported.
  rewrite Singleton.call_again, Singleton.on_made.
  destruct (exec k c t) as [[[ret c1] t1]| | |]; [|done..]. rewrite IH.
  by destruct (session ks c1 t1) as [[[rets c2] t2]| | |].
Qed.

Lemma host_session ks os t :
  host ks (Singleton.mk os None) t =
    match session ks CaptureCxx.new t with
    | Done (rets, c, t') => Done (rets, store_after ks os c, t')
    | Throws e => Throws e
    | Undef u => Undef u
    | Diverges => Diverges
    end.
Proof.
  destruct ks as [|k ks]; [done|]. cbn [host session]. cbv [mbind M_bind]. unfold exported.
  rewrite Singleton.call_first, Singleton.on_made.
  destruct (exec k _ t) as [[[ret c1] t1]| | |]; [|done..]. rewrite host_made.
  by destruct (session ks c1 t1) as [[[rets c2] t2]| | |].
Qed.

(** C20: the library is one object, made at the first call.  Whatever other objects
    there are, and however often the host calls the exported functions, each of
    which asks for the instance anew: the codes it gets, the time it takes and
    any failure are those of a session on one object that was there from the
    start; the other objects are as they were; with the first call one has been
    added, at the address that every later call is given, and it is the object of
    the session; without a call there is none.  So that object is in a state of the library that the theorems on reachable states
    speak of, well formed, and every code is 0 or one of the two others. *)
Theorem host_is_session `{!PcapOk} ks os t :
  host ks (Singleton.mk os None) t =
    match session ks CaptureCxx.new t with
    | Done (rets, c, t') => Done (rets, store_after ks os c, t')
    | Throws e => Throws e
    | Undef u => Undef u
    | Diverges => Diverges
    end /\
  forall rets s t', host ks (Singleton.mk os None) t = Done (rets, s, t') ->
    exists c, s = store_after ks os c /\ reachable (c, t') /\ inv c /\
      length rets = length ks /\ Forall code_ok rets.
Proof.
  rewrite host_session. split; [done|]. intros rets s t'.
  destruct (session ks CaptureCxx.new t) as [[[rs c] t1]| | |] eqn:E; try done. intros [= -> <- ->].
  exists c. split; [done|].
  assert (reachable (c, t')) as Hr
    by (eapply rtc_l; [apply (StepTime _ 0 t); lia|by eapply session_reachable]).
  split; [exact Hr|]. split; [exact (reachable_from_inv _ _ Hr inv_new)|].
  exact (session_codes _ _ _ _ _ _ inv_new E).
Qed.
End exported.

(** ** The sample system

    Four calls behind one other object. *)
Lemma app_hosted :
  exists rets s t, @host app_pcap full_ntop6 app_env app_log app_calls
      (Singleton.mk [@CaptureCxx.new app_pcap] None) 0%nat = Done (rets, s, t) /\
    length (Singleton.objects s) = 2%nat.
Proof. apply (returns_inv _ (fun _ s => length (Singleton.objects s) = 2%nat)). vm_compute. done. Qed.

Lemma host_is_session_witness :
  exists rets c t, @host app_pcap full_ntop6 app_env app_log app_calls
      (Singleton.mk [@CaptureCxx.new app_pcap] None) 0%nat
      = Done (rets, Singleton.made [@CaptureCxx.new app_pcap] c, t) /\ length rets = 4%nat /\
    Forall code_ok rets.
Proof.
  destruct app_hosted as (rets & s & t & Hrun & _).
  destruct (@host_is_session app_pcap full_ntop6 app_env app_log app_pcap_ok app_calls
    [@CaptureCxx.new app_pcap] 0%nat) as [_ Hall].
  destruct (Hall rets s t Hrun) as (c & -> & _ & _ & Hlen & Hcodes).
  exists rets, c, t. split; [exact Hrun|]. split; [exact Hlen|exact Hcodes].
Defined.
