(* ===== verification/Clock.v ===== *)
(** The clock.  No operation of the library turns it back, and every system call
    and call of libpcap advances it: what an operation is answered is answered
    while it runs. *)

From S2P Require Import Prelude Cstring Inet Stream Scanf OrdMap Pod Device Packet Inode Process.
From S2P Require Import Handle Logger Transport Protocol Capture Api.

Class Advances {S A} (m : M S A) : Prop :=
  advances : forall s t a s' t', m s t = Done (a, s', t') -> (t <= t')%nat.

Lemma advances_wlp {S A} (m : M S A) `{!Advances m} s t :
  wlp m (fun _ _ t' => (t <= t')%nat) s t.
Proof. apply wlp_intro. intros a s' t'. apply advances. Qed.

(** ** The monad *)

Section monad.
Context {S : Type}.

#[export] Instance ret_advances {A} (a : A) : Advances (S := S) (mret a).
Proof. by intros ????? [=]; subst. Qed.

#[export] Instance bind_advances {A B} (m : M S A) (f : A -> M S B) :
  Advances m -> (forall a, Advances (f a)) -> Advances (m ≫= f).
Proof.
  intros Hm Hf s t b s' t'. unfold mbind, M_bind.
  destruct (m s t) as [[[a s1] t1]| | |] eqn:E; [|done..]. intros H.
  etransitivity; [by eapply Hm|by eapply Hf].
Qed.

#[export] Instance get_advances : Advances (S := S) get.
Proof. by intros ????? [=]; subst. Qed.

#[export] Instance put_advances (x : S) : Advances (put x).
Proof. by intros ????? [=]; subst. Qed.

#[export] Instance modify_advances (f : S -> S) : Advances (modify f).
Proof. by intros ????? [=]; subst. Qed.

#[export] Instance throw_advances {A} e : Advances (S := S) (A := A) (throw e).
Proof. by intros ?????. Qed.

#[export] Instance undef_advances {A} u : Advances (S := S) (A := A) (undef u).
Proof. by intros ?????. Qed.

#[export] Instance diverge_advances {A} : Advances (S := S) (A := A) diverge.
Proof. by intros ?????. Qed.

#[export] Instance zoom_advances {T A} prj upd (m : M T A) :
  Advances m -> Advances (S := S) (zoom prj upd m).
Proof.
  intros Hm s t a s' t'. unfold zoom. destruct (m (prj s) t) as [[[??]?]| | |] eqn:E; [|done..].
  intros [=]; subst. by eapply Hm.
Qed.

#[export] Instance run_on_advances {T A} (x : T) (m : M T A) :
  Advances m -> Advances (S := S) (run_on x m).
Proof.
  intros Hm s t a s' t'. unfold run_on. destruct (m x t) as [[[??]?]| | |] eqn:E; [|done..].
  intros [=]; subst. by eapply Hm.
Qed.

#[export] Instance sys_advances `{Env} {A} (f : Os -> A) : Advances (S := S) (sys f).
Proof. intros ????? [=]; subst. lia. Qed.

#[export] Instance pcall_advances {A} (f : nat -> A) : Advances (S := S) (pcall f).
Proof. intros ????? [=]; subst. lia. Qed.
End monad.

Section loops.
Context {S : Type}.

#[export] Instance for_each_advances {A} (l : list A) (body : A -> M S ()) :
  (forall x, Advances (body x)) -> Advances (for_each l body).
Proof. intros Hb. induction l as [|x l IH]; simpl; apply _. Qed.

#[export] Instance read_loop_advances fuel s (body : string -> M S bool) :
  (forall l, Advances (body l)) -> Advances (read_loop fuel s body).
Proof. intros Hb. revert s. induction fuel as [|fuel IH]; intros s; simpl; [apply _|].
  destruct (eofbit s); [apply _|]. destruct (getline _ s). case_decide; [apply IH|].
  apply bind_advances; [apply Hb|]. intros []; [apply _|apply IH]. Qed.

#[export] Instance read_lines_advances content (body : string -> M S bool) :
  (forall l, Advances (body l)) -> Advances (read_lines content body).
Proof. intros Hb. unfold read_lines. apply _. Qed.
End loops.

(** Takes the code apart along its branches, and leaves the rest to the
    instances. *)
Ltac advance :=
  repeat
    lazymatch goal with
    | |- forall _, _ => intros ?
    | |- Advances (match ?x with _ => _ end) => destruct x
    | |- Advances (let _ := _ in _) => cbv zeta
    | |- Advances (mbind _ _) => apply bind_advances
    | |- Advances (zoom _ _ _) => apply zoom_advances
    | |- Advances (run_on _ _) => apply run_on_advances
    | |- Advances (for_each _ _) => apply for_each_advances
    | |- Advances (read_lines _ _) => apply read_lines_advances
    | |- Advances _ => first [assumption | apply _]
    end.

(** ** The components *)

#[local] Typeclasses Opaque Contains6 Contains4 CapPacket.IsOutgoing CapPacket.Hash CapPacket.Init4
  CapPacket.Init6 CapProcess.Parse CapProcess.AddPacket load8 load_be16 load32 run_on zoom.

Section ops.
Context `{Pcap} `{Ntop6} `{Env} `{Spdlog}.

#[export] Instance Contains6_advances {S} devices a : Advances (S := S) (Contains6 devices a).
Proof. induction devices; simpl; unfold CapDevice.Contains6; advance. Qed.

#[export] Instance Contains4_advances {S} devices a : Advances (S := S) (Contains4 devices a).
Proof. induction devices; simpl; unfold CapDevice.Contains4; advance. Qed.

#[export] Instance device_Init_advances addr : Advances (CapDevice.Init addr).
Proof. unfold CapDevice.Init, LocalAddr.Init4, LocalAddr.Init6. advance. Qed.

#[export] Instance ifaddrs_Init_advances : Advances CapIfaddrs.Init.
Proof. unfold CapIfaddrs.Init. advance. Qed.

#[export] Instance IsOutgoing_advances devices : Advances (CapPacket.IsOutgoing devices).
Proof. unfold CapPacket.IsOutgoing. advance. Qed.

#[export] Instance Hash_advances devices : Advances (CapPacket.Hash devices).
Proof. unfold CapPacket.Hash. advance. Qed.

#[export] Instance Init4_advances devices sip sport dip dport len time dir :
  Advances (CapPacket.Init4 devices sip sport dip dport len time dir).
Proof. unfold CapPacket.Init4. advance. Qed.

#[export] Instance Init6_advances devices sip sport dip dport len time dir :
  Advances (CapPacket.Init6 devices sip sport dip dport len time dir).
Proof. unfold CapPacket.Init6. advance. Qed.

#[export] Instance RefreshToInodes_advances devices : Advances (CapInodeHelper.RefreshToInodes devices).
Proof.
  unfold CapInodeHelper.RefreshToInodes, CapInodeHelper.Parse, CapInodeHelper.ParseBuffer. advance.
Qed.

#[export] Instance RefreshToPids_advances pids : Advances (CapInodeHelper.RefreshToPids pids).
Proof. induction pids; simpl; unfold CapInodeHelper.scan_fd; advance. Qed.

#[export] Instance Refresh_advances devices pids : Advances (CapInodeHelper.Refresh devices pids).
Proof. unfold CapInodeHelper.Refresh. advance. Qed.

#[export] Instance process_Parse_advances memory deltaCpu : Advances (CapProcess.Parse memory deltaCpu).
Proof.
  unfold CapProcess.Parse, CapProcess.ParseProc, CapProcess.ParseStatus, CapProcess.ParseCmdline,
    CapProcess.ParseIo, CapProcess.ParseUserAndGroup, CapProcess.ParseHandle, CapProcess.ParseStat,
    CapProcess.status_line, CapProcess.io_line, CapProcess.stat_line. advance.
Qed.

#[export] Instance AddPacket_advances devices p : Advances (CapProcess.AddPacket devices p).
Proof. unfold CapProcess.AddPacket. advance. Qed.

#[export] Instance read_local_advances {S A} x : Advances (S := S) (A := A) (read_local x).
Proof. unfold read_local. advance. Qed.

#[export] Instance OpenLive_advances config : Advances (CapHandle.OpenLive config).
Proof. unfold CapHandle.OpenLive. advance. Qed.

#[export] Instance SetNonBlock_advances {S} fd h : Advances (S := S) (CapHandle.SetNonBlock fd h).
Proof. unfold CapHandle.SetNonBlock. advance. Qed.

#[export] Instance load8_advances {S} packet off : Advances (S := S) (load8 packet off).
Proof. unfold load8. advance. Qed.

#[export] Instance load_be16_advances {S} packet off : Advances (S := S) (load_be16 packet off).
Proof. unfold load_be16. advance. Qed.

#[export] Instance load32_advances {S} packet off : Advances (S := S) (load32 packet off).
Proof. unfold load32. advance. Qed.

#[export] Instance make_packet_advances context header packet :
  Advances (CaptureCxx.make_packet context header packet).
Proof. unfold CaptureCxx.make_packet. advance. Qed.

#[export] Instance add_to_process_advances pid cap : Advances (CaptureCxx.add_to_process pid cap).
Proof. unfold CaptureCxx.add_to_process. advance. Qed.

#[export] Instance make_bag_advances header packet : Advances (CaptureCxx.make_bag header packet).
Proof. unfold CaptureCxx.make_bag, copy_bytes. advance. Qed.

#[export] Instance store_row_advances reuse push cap header packet :
  Advances (CaptureCxx.store_row reuse push cap header packet).
Proof. unfold CaptureCxx.store_row. advance. Qed.

#[export] Instance segment_advances reuse push context header packet :
  Advances (CaptureCxx.process_segment reuse push context header packet).
Proof. unfold CaptureCxx.process_segment. advance. Qed.

#[export] Instance handler_advances kind context header packet :
  Advances (S := CaptureCxx.t) (handler kind context header packet).
Proof. destruct kind; apply segment_advances. Qed.

#[export] Instance load_in6_advances {S} packet off : Advances (S := S) (CapProtocol.load_in6 packet off).
Proof. unfold CapProtocol.load_in6. advance. Qed.

#[export] Instance ProtocolIp4_advances h header packet :
  Advances (S := CaptureCxx.t) (CapProtocol.ProtocolIp4 h header packet).
Proof.
  unfold CapProtocol.ProtocolIp4. change ProcessTcp with (handler P_TCP). change ProcessUdp with (handler P_UDP).
  advance.
Qed.

#[export] Instance ProtocolIp6_advances h header packet :
  Advances (S := CaptureCxx.t) (CapProtocol.ProtocolIp6 h header packet).
Proof.
  unfold CapProtocol.ProtocolIp6. change ProcessTcp with (handler P_TCP). change ProcessUdp with (handler P_UDP).
  advance.
Qed.

#[export] Instance protocol_Parse_advances h header packet :
  Advances (S := CaptureCxx.t) (CapProtocol.Parse h header packet).
Proof.
  unfold CapProtocol.Parse, CapProtocol.ProtocolEN10MB, CapProtocol.ProtocolIp. advance.
Qed.

#[export] Instance on_packet_advances h header packet : Advances (on_packet h header packet).
Proof. unfold on_packet. advance. Qed.

#[export] Instance deliver_advances ctx pkts : Advances (CapHandle.deliver on_packet ctx pkts).
Proof. revert ctx. induction pkts; intros ctx; simpl; unfold CapHandle.HandlePacket; advance. Qed.

#[export] Instance Dispatch_advances cnt h : Advances (CapHandle.Dispatch on_packet cnt h).
Proof. unfold CapHandle.Dispatch. advance. Qed.

#[export] Instance dispatch_all_advances cnt n idx ret : Advances (dispatch_all cnt n idx ret).
Proof. revert idx ret. induction n; intros; simpl; advance. Qed.

#[export] Instance UpdatePids_advances : Advances UpdatePids.
Proof. unfold UpdatePids, scan_pid, stol. advance. Qed.

#[export] Instance refresh_inodes_advances : Advances refresh_inodes.
Proof. unfold refresh_inodes. advance. Qed.

#[export] Instance merge_advances P before after : Advances (merge P before after).
Proof.
  revert P before. induction after; intros [|??] ?; simpl; unfold CaptureCxx.emit; advance; auto.
Qed.

#[export] Instance GetCpuTotal_advances : Advances GetCpuTotal.
Proof. unfold GetCpuTotal, cpu_line. advance. Qed.

#[export] Instance sync_advances : Advances sync_processes.
Proof. unfold sync_processes. advance. Qed.

#[export] Instance report_processes_advances : Advances report_processes.
Proof. unfold report_processes, CaptureCxx.emit. advance. Qed.

#[export] Instance report_packets_advances ret : Advances (report_packets ret).
Proof. unfold report_packets, CaptureCxx.emit. advance. Qed.

#[export] Instance finish_advances r :
  Advances (tmp ← GetCpuTotal;
            if negb (tmp =? 0) then mret tmp else
            sync_processes;; report_processes;; report_packets r;; mret 0).
Proof. advance. Qed.

#[export] Instance configure_advances openable path : Advances (configure openable path).
Proof. unfold configure, Logger.Init, Logger.SetLevel. advance. Qed.

#[export] Instance Init_advances config pcb kcb : Advances (Init config pcb kcb).
Proof.
  unfold Init, init_logger, InitDevice, init_device, GetMemTotal, mem_line, open_handle, release,
    add_process. advance.
Qed.

#[export] Instance Update_advances cnt icaptureAll : Advances (Update cnt icaptureAll).
Proof. unfold Update. advance. Qed.

#[export] Instance exec_advances k : Advances (exec k).
Proof. destruct k; simpl; [apply Init_advances|apply Update_advances|apply ret_advances]. Qed.

(** A dispatch asks libpcap at once. *)
Lemma Dispatch_time cnt h c t :
  usable h -> wlp (CapHandle.Dispatch on_packet cnt h) (fun _ _ t' => (S t <= t')%nat) c t.
Proof.
  intros [(p & Hp & _) _]. unfold CapHandle.Dispatch. rewrite Hp. apply wpx_bind, wpx_pcall.
  destruct (pcap_dispatch t p cnt) as [ret pkts]. apply (advances_wlp _). 
Qed.
End ops.
