(* ===== verification/Frame.v ===== *)
(** What one frame does to the capture: the frame taken apart, the process its
    connection resolves to, the state after it is accepted, and that the
    dispatch of the handles is a sequence of such steps. *)

From S2P Require Import Prelude Cstring Inet Stream Scanf OrdMap Pod Device Packet Inode Process.
From S2P Require Import Handle Logger Transport Protocol Capture Api Clock.

(** ** A frame, taken apart

    What a complete frame is, whatever handle it came through: the kind of its
    segment, the two ends, and what follows the addresses. *)

Definition dissection : Type := option (PacketType * ends * list Z).

Definition dissect4 (packet : list Z) : dissection :=
  kind ← segment_kind (byte_at packet 9);
  Some (kind, Ends4 (word_at packet 12) (word_at packet 16), drop IP4_SIZE packet).

Definition dissect6 (packet : list Z) : dissection :=
  kind ← segment_kind (byte_at packet 6);
  Some (kind, Ends6 (in6_at packet 8) (in6_at packet 24), drop IP6_SIZE packet).

Definition dissect (linktype : Z) (header : pcap_pkthdr) (packet : list Z) : dissection :=
  if linktype =? DLT_EN10MB then
    let protocol := ntohs (byte_at packet 12) (byte_at packet 13) in
    if protocol =? ETHERTYPE_IP then dissect4 (drop ETHER_SIZE packet)
    else if protocol =? ETHERTYPE_IPV6 then dissect6 (drop ETHER_SIZE packet)
    else None
  else if linktype =? DLT_RAW then
    if len header <? 1 then None else
    let v := Z.land (byte_at packet 0) 0xF0 in
    if v =? 0x40 then dissect4 packet else if v =? 0x60 then dissect6 packet else None
  else None.

(** The handle with the ends as its context, and the packet record they make. *)
Definition set_ends `{Pcap} (e : ends) (h : CapHandle.t) : CapHandle.t :=
  match e with
  | Ends4 src dst => CapHandle.SetContext4 src dst h
  | Ends6 src dst => CapHandle.SetContext6 src dst h
  end.

Definition ends_packet (e : ends) (header : pcap_pkthdr) (sport dport : Z) : CapPacket.t :=
  match e with
  | Ends4 src dst =>
      CapPacket.mk in6_zero in6_zero src dst sport dport (len header) (ts header) Unknown AF_INET ""
  | Ends6 src dst =>
      CapPacket.mk src dst 0 0 sport dport (len header) (ts header) Unknown AF_INET6 ""
  end.

Lemma raw_packet_ends `{Pcap} e h header sport dport :
  raw_packet (CapHandle.GetContext (set_ends e h)) header sport dport =
    ends_packet e header sport dport.
Proof. by destruct e as [|[] []]. Qed.

Lemma set_ends_family `{Pcap} e h : known_family (CapHandle.GetContext (set_ends e h)) = true.
Proof. by destruct e. Qed.

(** The parser, as a function of the dissection: it calls the handler the
    dissection names, with its ends and its payload, or none. *)
Section parse.
Context `{Pcap} {S : Type} `{Transport S}.

Definition hands_over (d : dissection) (h : CapHandle.t) (header : pcap_pkthdr)
    (Q : S -> nat -> Prop) (s : S) (t : nat) : Prop :=
  match d with
  | Some (kind, e, payload) =>
      wlp (handler kind (CapHandle.GetContext (set_ends e h)) header payload) (fun _ => Q) s t
  | None => Q s t
  end.

Lemma ProtocolIp4_hands h header packet (Q : S -> nat -> Prop) s t :
  hands_over (dissect4 packet) h header Q s t ->
  wlp (CapProtocol.ProtocolIp4 h header packet) (fun _ => Q) s t.
Proof.
  destruct (Nat.lt_ge_cases (length packet) IP4_SIZE).
  { unfold wpx. by rewrite ProtocolIp4_short. }
  unfold wpx at 1. rewrite ProtocolIp4_eq by done. unfold hand_over, hands_over, dissect4.
  destruct (segment_kind (byte_at packet 9)) as [kind|]; [|done]. cbn. unfold wpx, mbind, M_bind.
  by destruct (handler _ _ _ _ _ _) as [[[??]?]| | |].
Qed.

Lemma ProtocolIp6_hands h header packet (Q : S -> nat -> Prop) s t :
  hands_over (dissect6 packet) h header Q s t ->
  wlp (CapProtocol.ProtocolIp6 h header packet) (fun _ => Q) s t.
Proof.
  destruct (Nat.lt_ge_cases (length packet) IP6_SIZE).
  { unfold wpx. by rewrite ProtocolIp6_short. }
  unfold wpx at 1. rewrite ProtocolIp6_eq by done. unfold hand_over, hands_over, dissect6.
  destruct (segment_kind (byte_at packet 6)) as [kind|]; [|done]. cbn. unfold wpx, mbind, M_bind.
  by destruct (handler _ _ _ _ _ _) as [[[??]?]| | |].
Qed.

Lemma ProtocolEN10MB_hands h header packet (Q : S -> nat -> Prop) s t :
  hands_over (dissect DLT_EN10MB header packet) h header Q s t ->
  wlp (CapProtocol.ProtocolEN10MB h header packet) (fun _ => Q) s t.
Proof.
  intros HQ. unfold CapProtocol.ProtocolEN10MB, wpx.
  destruct (Nat.lt_ge_cases (length packet) (12 + 2)).
  { unfold mbind, M_bind. by rewrite load_be16_short. }
  rewrite (bind_Done _ _ _ _ _ _ _ (load_be16_ok packet s t 12 ltac:(lia))).
  unfold dissect in HQ. change (DLT_EN10MB =? DLT_EN10MB) with true in HQ. cbv iota zeta in HQ.
  change (12 + 1)%nat with 13%nat.
  destruct (_ =? ETHERTYPE_IP); [by apply ProtocolIp4_hands in HQ|].
  destruct (_ =? ETHERTYPE_IPV6); [by apply ProtocolIp6_hands in HQ|done].
Qed.

Lemma ProtocolIp_hands h header packet (Q : S -> nat -> Prop) s t :
  hands_over (dissect DLT_RAW header packet) h header Q s t ->
  wlp (CapProtocol.ProtocolIp h header packet) (fun _ => Q) s t.
Proof.
  intros HQ. unfold CapProtocol.ProtocolIp, wpx. unfold dissect in HQ.
  change (DLT_RAW =? DLT_EN10MB) with false in HQ. change (DLT_RAW =? DLT_RAW) with true in HQ.
  cbv iota zeta in HQ. destruct (len header <? 1); [done|].
  destruct (Nat.lt_ge_cases 0 (length packet)).
  2: { unfold mbind, M_bind. by rewrite load8_short. }
  rewrite (bind_Done _ _ _ _ _ _ _ (load8_ok packet s t 0 ltac:(lia))). cbv zeta.
  destruct (_ =? 0x40); [by apply ProtocolIp4_hands in HQ|].
  destruct (_ =? 0x60); [by apply ProtocolIp6_hands in HQ|done].
Qed.

Lemma Parse_hands h header packet (Q : S -> nat -> Prop) s t :
  hands_over (dissect (CapHandle.DataLink h) header packet) h header Q s t ->
  wlp (CapProtocol.Parse h header packet) (fun _ => Q) s t.
Proof.
  intros HQ. unfold CapProtocol.Parse. wp_step.
  eapply wpx_mono with (Q := fun _ => Q); [|done].
  destruct (Z.eqb_spec (CapHandle.DataLink h) DLT_EN10MB) as [E|E1].
  { rewrite E in HQ. by apply ProtocolEN10MB_hands. }
  destruct (Z.eqb_spec (CapHandle.DataLink h) DLT_RAW) as [E|E2].
  { rewrite E in HQ. by apply ProtocolIp_hands. }
  unfold dissect in HQ. apply Z.eqb_neq in E1, E2. by rewrite E1, E2 in HQ.
Qed.
End parse.

(** ** Arrivals

    A frame of a link type, and what becomes of it: when it is a TCP or UDP
    segment of a connection that the socket table gives to a process, it arrives
    there, in the direction the addresses decide. *)
Definition frame : Type := Z * (pcap_pkthdr * list Z).

Record arrival := mk_arrival {
  ar_kind : PacketType;
  ar_packet : CapPacket.t;
  ar_header : pcap_pkthdr;
  ar_pid : Z;
  ar_out : bool
}.

Definition ar_len (a : arrival) : Z := len (ar_header a).

Section arrivals.
Context `{Ntop6} (devices : list CapDevice.t) (helper : CapInodeHelper.t).

Definition resolve_segment (kind : PacketType) (e : ends) (header : pcap_pkthdr) (payload : list Z) :
    option arrival :=
  '(sport, dport) ← ports payload;
  let p := ends_packet e header sport dport in
  let '(ret, pid) := CapInodeHelper.GetPidByIp helper (CapPacket.key_of devices p) (-1) in
  if ret =? 0 then Some (mk_arrival kind p header pid (CapPacket.outgoing devices p)) else None.

Definition resolve (f : frame) : option arrival :=
  let '(linktype, (header, packet)) := f in
  '(kind, e, payload) ← dissect linktype header packet;
  resolve_segment kind e header payload.

Lemma resolve_segment_owner kind e header payload a :
  resolve_segment kind e header payload = Some a ->
  ar_header a = header /\ exists i, CapInodeHelper.inodeToPids helper !! i = Some (ar_pid a).
Proof.
  unfold resolve_segment. destruct (ports payload) as [[sp dp]|]; [|done]. cbn -[CapPacket.key_of].
  destruct (CapInodeHelper.GetPidByIp _ _ _) as [ret pid] eqn:Hget.
  destruct (Z.eqb_spec ret 0) as [->|]; [|done]. intros [= <-].
  apply GetPidByIp_inv in Hget as (i & _ & Hi). split; [done|]. by exists i.
Qed.

Lemma resolve_owner f a :
  resolve f = Some a ->
  ar_header a = f.2.1 /\ exists i, CapInodeHelper.inodeToPids helper !! i = Some (ar_pid a).
Proof.
  destruct f as [lt [header packet]]. simpl. destruct (dissect lt header packet) as [[[kind e] pl]|]; [|done].
  apply resolve_segment_owner.
Qed.
End arrivals.

(** ** The state after an arrival *)

Section absorbs.
Context `{Pcap} `{Ntop6} `{Env}.

(** The record that gets the packet: the process's own, or one just made, which
    has no traffic. *)
Definition entry_for (c : CaptureCxx.t) (pid : Z) (p : CapProcess.t) : Prop :=
  map_find pid (CaptureCxx.processes c) = Some p \/
  map_find pid (CaptureCxx.processes c) = None /\ kept (CapProcess.new pid) p.

Definition accept (a : arrival) (p : CapProcess.t) (c : CaptureCxx.t) : CaptureCxx.t :=
  let c := CaptureCxx.set_processes
    (map_set (ar_pid a) (add_traffic (ar_out a) (ar_len a) p) (CaptureCxx.processes c)) c in
  if CaptureCxx.packetCallback c then put_row P_TCP (ar_kind a) (ar_packet a) (ar_header a) c else c.

(** What a sequence of frames makes of a state.  A dispatch leaves other
    contexts in its handle. *)
Inductive absorbs : list frame -> CaptureCxx.t -> CaptureCxx.t -> Prop :=
  | AbsorbsNil c : absorbs [] c c
  | AbsorbsHandles hs fs c c' : absorbs fs (CaptureCxx.set_handles hs c) c' -> absorbs fs c c'
  | AbsorbsNone f fs c c' :
      resolve (CaptureCxx.devices c) (CaptureCxx.helper c) f = None -> absorbs fs c c' ->
      absorbs (f :: fs) c c'
  | AbsorbsSome f fs a p c c' :
      resolve (CaptureCxx.devices c) (CaptureCxx.helper c) f = Some a ->
      entry_for c (ar_pid a) p -> absorbs fs (accept a p c) c' -> absorbs (f :: fs) c c'.

Lemma absorbs_app fs gs c c1 c2 : absorbs fs c c1 -> absorbs gs c1 c2 -> absorbs (fs ++ gs) c c2.
Proof.
  intros Hf Hg. induction Hf; [done|by eapply AbsorbsHandles; auto|by apply AbsorbsNone; auto|].
  simpl. eapply AbsorbsSome; eauto.
Qed.

(** What no frame touches. *)
Definition same_view (c c' : CaptureCxx.t) : Prop :=
  CaptureCxx.devices c' = CaptureCxx.devices c /\ CaptureCxx.helper c' = CaptureCxx.helper c /\
  CaptureCxx.pids c' = CaptureCxx.pids c /\
  CaptureCxx.packetCallback c' = CaptureCxx.packetCallback c.

#[export] Instance same_view_preorder : PreOrder same_view.
Proof.
  split; [by intros c|]. intros c c1 c2 (? & ? & ? & ?) (? & ? & ? & ?).
  by repeat split; etransitivity.
Qed.

Lemma accept_view a p c : same_view c (accept a p c).
Proof. unfold accept. by destruct (CaptureCxx.packetCallback _) eqn:E. Qed.

Lemma absorbs_view fs c c' : absorbs fs c c' -> same_view c c'.
Proof.
  induction 1 as [c|hs fs c c' _ IH|f fs c c' _ _ IH|f fs a p c c' _ _ _ IH]; [done|exact IH|exact IH|].
  etransitivity; [apply accept_view|exact IH].
Qed.

(** Nor is the host told anything by a frame. *)
Definition same_host (c c' : CaptureCxx.t) : Prop :=
  CaptureCxx.events c' = CaptureCxx.events c /\
  CaptureCxx.processCallback c' = CaptureCxx.processCallback c.

#[export] Instance same_host_preorder : PreOrder same_host.
Proof. split; [by intros c|]. intros c c1 c2 [? ?] [? ?]. by split; etransitivity. Qed.

Lemma absorbs_host fs c c' : absorbs fs c c' -> same_host c c'.
Proof.
  induction 1 as [c|hs fs c c' _ IH|f fs c c' _ _ IH|f fs a p c c' _ _ _ IH]; [done|exact IH|exact IH|].
  etransitivity; [|exact IH]. unfold accept. by destruct (CaptureCxx.packetCallback _).
Qed.

(** The handlers, on a segment with the addresses of a frame. *)
Lemma packet_row_segment family devices context header sp dp header' bag :
  CaptureCxx.packet_row family (segment devices context header sp dp) header' bag =
    CaptureCxx.packet_row family (raw_packet context header sp dp) header' bag.
Proof. done. Qed.

Lemma put_row_ends reuse push devices e h header sp dp c :
  put_row reuse push (segment devices (CapHandle.GetContext (set_ends e h)) header sp dp) header c =
    put_row reuse push (ends_packet e header sp dp) header c.
Proof. unfold put_row. by rewrite !packet_row_segment, !raw_packet_ends. Qed.

Lemma handler_absorbs kind e h header payload c t :
  inv c ->
  wlp (handler kind (CapHandle.GetContext (set_ends e h)) header payload)
    (fun _ c' _ => is_Some (ports payload) /\
       match resolve_segment (CaptureCxx.devices c) (CaptureCxx.helper c) kind e header payload with
       | Some a => exists p, entry_for c (ar_pid a) p /\ c' = accept a p c
       | None => c' = c
       end) c t.
Proof.
  intros Hc. apply wlp_intro. intros ret c' t' Hrun.
  assert (CaptureCxx.process_segment P_TCP kind (CapHandle.GetContext (set_ends e h)) header payload c t
    = Done (ret, c', t')) as Hseg by (by destruct kind). clear Hrun. unfold resolve_segment.
  destruct (ports payload) as [[sp dp]|] eqn:Hp.
  2: { by rewrite process_segment_short in Hseg by auto using set_ends_family. }
  split; [by eexists|]. rewrite (process_segment_eq _ _ _ _ _ sp dp) in Hseg
    by (apply Hc || done || apply set_ends_family).
  cbv zeta in Hseg. rewrite !raw_packet_ends in Hseg.
  cbn [mbind option_bind]. destruct (CapInodeHelper.GetPidByIp _ _ _) as [code pid].
  destruct code; cbn [Z.eqb] in *; [|by injection Hseg as _ <- _..].
  destruct (map_find pid (CaptureCxx.processes c)) as [p|] eqn:Hfind.
  - injection Hseg as _ <- _. exists p. rewrite put_row_ends. split; [by left|done].
  - destruct (CapProcess.Parse _ _ _ _) as [[[r p] t1]| | |] eqn:Hparse; [|done..].
    injection Hseg as _ <- _. exists p. rewrite put_row_ends. split; [right; split; [done|]|done].
    by apply (parse_run _ _ _ _ _ _ Hc Hparse).
Qed.

Context `{!PcapOk}.

Lemma on_packet_absorbs h header packet c t :
  CaptureCxx.protocol c = true -> inv c ->
  wlp (on_packet h header packet)
    (fun _ c' _ => absorbs [(CapHandle.DataLink h, (header, packet))] c c') c t.
Proof.
  intros Hp Hc. unfold on_packet. do 2 wp_step. rewrite Hp. wp_step.
  set (f := (CapHandle.DataLink h, (header, packet))).
  eapply wpx_mono with (Q := fun _ c' _ => absorbs [f] c c'); [|by intros [? ?]].
  apply Parse_hands. unfold hands_over.
  destruct (dissect _ _ _) as [[[kind e] payload]|] eqn:Hd.
  2: { apply AbsorbsNone; [|apply AbsorbsNil]. unfold f, resolve. by rewrite Hd. }
  eapply wpx_mono; [by apply handler_absorbs|]. intros ret c' t' [_ Hc'].
  assert (resolve (CaptureCxx.devices c) (CaptureCxx.helper c) f = resolve_segment
    (CaptureCxx.devices c) (CaptureCxx.helper c) kind e header payload) as Hf
    by (unfold f, resolve; by rewrite Hd).
  destruct (resolve_segment _ _ _ _ _ _) as [a|].
  - destruct Hc' as (p & Hent & ->). eapply AbsorbsSome; [done..|apply AbsorbsNil].
  - subst c'. apply AbsorbsNone; [done|apply AbsorbsNil].
Qed.

(** ** Dispatches *)

(** The frames a dispatch of a capture delivers at an instant. *)
Definition batch_at (cnt : Z) (h : CapHandle.t) (p : pcap_t) (u : nat) : list frame :=
  map (pair (CapHandle.linktype h)) (snd (pcap_dispatch u p cnt)).

(** One dispatch of each handle, in turn, each at an instant of its own between
    [t] and [t']. *)
Inductive delivered (cnt : Z) : nat -> nat -> list CapHandle.t -> list (list frame) -> Prop :=
  | DeliveredNil t t' : (t <= t')%nat -> delivered cnt t t' [] []
  | DeliveredCons t u t' h p hs batches :
      (t <= u)%nat -> CapHandle.handle h = Some p -> delivered cnt (S u) t' hs batches ->
      delivered cnt t t' (h :: hs) (batch_at cnt h p u :: batches).

Lemma delivered_between cnt t0 t t' t1 hs batches :
  (t0 <= t)%nat -> (t' <= t1)%nat -> delivered cnt t t' hs batches -> delivered cnt t0 t1 hs batches.
Proof.
  intros Ht Ht' Hd. revert t0 Ht. induction Hd as [t t' Hle|t u t' h p hs bs Hu Hp _ IH]; intros t0 Ht.
  - constructor. lia.
  - econstructor; [|done|by apply IH]. lia.
Qed.

(** The value of a dispatch: an error, or the number of its frames. *)
Definition counts (ret : Z) (batch : list frame) : Prop :=
  ret < 2 ^ 31 /\ (ret < 0 \/ ret = Z.of_nat (length batch)).

(** The value of the last dispatch, [ret] when there is none. *)
Definition last_counts (ret0 ret : Z) (batches : list (list frame)) : Prop :=
  match last batches with Some batch => counts ret batch | None => ret = ret0 end.

(** The state while a handle delivers its packets: [fs] so far. *)
Definition following (c0 : CaptureCxx.t) (h0 : CapHandle.t) (fs : list frame) (h : CapHandle.t)
    (c : CaptureCxx.t) : Prop :=
  usable h /\ CapHandle.linktype h = CapHandle.linktype h0 /\ inv c /\ packet_frame c0 c /\
  absorbs fs c0 c.

Lemma on_packet_follows c0 h0 fs hdr packet h c t :
  CaptureCxx.protocol c0 = true -> word32 (len hdr) -> following c0 h0 fs h c ->
  wlp (on_packet h hdr packet)
    (fun h' c' _ => following c0 h0 (fs ++ [(CapHandle.linktype h0, (hdr, packet))]) h' c') c t.
Proof.
  intros Hp0 Hw (Hu & Hl & Hc & Hf & Ha). pose proof Hf as (_ & _ & Hp & _).
  assert (CaptureCxx.protocol c = true) as Hpc by congruence.
  eapply wpx_mono.
  - apply wpx_and; [apply (on_packet_inv (fun _ => True) host_ok_any c0); auto|].
    by apply on_packet_absorbs.
  - intros h' c' t' ((Hs & Hc' & Hf') & Ha'). unfold CapHandle.DataLink in Ha'. rewrite Hl in Ha'.
    split; [by eapply same_handle_usable|]. unfold same_handle in Hs. rewrite Hs. simpl.
    split; [done|]. split; [done|]. split; [done|]. by eapply absorbs_app.
Qed.

Lemma foldl_snoc {A B} (g : A -> B) (l : list A) (x : list B) :
  foldl (fun x y => x ++ [g y]) x l = x ++ map g l.
Proof.
  revert x. induction l as [|y l IH]; intros x; simpl; [by rewrite app_nil_r|].
  by rewrite IH, <- app_assoc.
Qed.

Lemma dispatch_follows c h cnt t :
  CaptureCxx.protocol c = true -> inv c -> usable h ->
  wlp (CapHandle.Dispatch on_packet cnt h)
    (fun '(ret, h') c' t' => (S t <= t')%nat /\ exists p, CapHandle.handle h = Some p /\
       counts ret (batch_at cnt h p t) /\ following c h (batch_at cnt h p t) h' c') c t.
Proof.
  intros Hp Hc Hu. pose proof Hu as [(p & Hh & Hl) _].
  eapply wpx_mono; [apply wpx_and; [apply (wpx_Dispatch_fold _ _
    (fun fs pkt => fs ++ [(CapHandle.linktype h, pkt)]) (following c h)) with (p := p) (x := [])|
    by apply Dispatch_time]|].
  - by intros L h1 c1 [[_ ?] _].
  - do 3 (split; [done|]). split; [apply packet_frame_refl|apply AbsorbsNil].
  - done.
  - intros fs hdr pkt h1 c1 t1 Hin Hfol. apply on_packet_follows; [done| |done].
    destruct (pcap_dispatch t p cnt) as [r pkts] eqn:Hd.
    pose proof (dispatch_packets _ _ _ _ _ Hd) as Hpk. rewrite Forall_forall in Hpk.
    by destruct (Hpk _ Hin) as (_ & _ & _ & ?).
  - intros [ret h'] c' t' [[-> Hfol] Ht]. rewrite foldl_snoc in Hfol. split; [done|]. exists p.
    split; [done|]. split; [|exact Hfol]. unfold counts, batch_at. destruct (pcap_dispatch t p cnt) as [r pkts] eqn:Hd. simpl.
    rewrite length_map. split; [by apply (dispatch_range _ _ _ _ _ Hd)|].
    destruct (Z.lt_ge_cases r 0); [by left|]. right. by apply (dispatch_count _ _ _ _ _ Hd).
Qed.

Lemma drop_set_nth {A} i (x : A) l : (i < length l)%nat -> drop (S i) (set_nth i x l) = drop (S i) l.
Proof.
  intros. unfold set_nth. rewrite drop_app_ge; rewrite length_take; [|lia].
  by replace (S i - i `min` length l)%nat with 1%nat by lia.
Qed.

(** The dispatch of all handles absorbs what each of them delivers, in order. *)
Lemma dispatch_all_absorbs cnt n idx ret c t :
  inv c -> (idx + n = length (CaptureCxx.handles c))%nat ->
  wlp (dispatch_all cnt n idx ret)
    (fun r c' t' => inv c' /\ exists batches, last_counts ret r batches /\
       delivered cnt t t' (drop idx (CaptureCxx.handles c)) batches /\
       absorbs (concat batches) c c') c t.
Proof.
  revert idx ret c t. induction n as [|n IH]; intros idx ret c t Hc Hn.
  { simpl. rewrite drop_ge by lia. split; [done|]. exists []. split; [done|].
    split; [by constructor|apply AbsorbsNil]. }
  simpl. do 2 wp_step.
  destruct (lookup_lt_is_Some_2 (CaptureCxx.handles c) idx ltac:(lia)) as [h Hh]. rewrite Hh. wp_step.
  pose proof (inv_handles c Hc) as Hall. rewrite Forall_forall in Hall.
  assert (CaptureCxx.protocol c = true) as Hp
    by (destruct (inv_protocol c Hc) as [|E]; [done|]; by rewrite E in Hh).
  assert (usable h) as Huse by by apply Hall, (list_elem_of_lookup_2 _ idx).
  eapply wpx_mono; [by apply dispatch_follows|].
  intros [ret' h'] c' t' (Ht & p & Hpcap & Hcnt & Hu & _ & Hc' & Hf & Ha). do 2 wp_step.
  pose proof Hf as (_ & Hhs & Hpr & _). set (c1 := CaptureCxx.set_handles _ c').
  assert (inv c1) as Hc1.
  { destruct Hc'. constructor; simpl; auto; [by apply Forall_set_nth|]. left. congruence. }
  assert (idx < length (CaptureCxx.handles c))%nat as Hlt by lia.
  eapply wpx_mono; [apply (IH (S idx)); [done|]|].
  { unfold c1. simpl. rewrite Hhs, length_set_nth by done. lia. }
  intros r c2 t2 (Hc2 & bs & Hr & Hbs & Ha2). split; [done|]. exists (batch_at cnt h p t :: bs).
  split; [unfold last_counts in *; rewrite last_cons; destruct (last bs); [done|by subst r]|]. split.
  - rewrite (drop_S _ h idx) by done. econstructor; [done..|].
    unfold c1 in Hbs. simpl in Hbs. rewrite Hhs, drop_set_nth in Hbs by done.
    by apply (delivered_between _ _ t' t2 t2).
  - simpl. eapply absorbs_app; [exact Ha|]. by eapply AbsorbsHandles.
Qed.
End absorbs.
