(* ===== verification/Rows.v ===== *)
(** The table of packets: what a sequence of frames makes of it. *)

From S2P Require Import Prelude Cstring Inet Stream Scanf OrdMap Pod Device Packet Inode Process.
From S2P Require Import Handle Logger Transport Protocol Capture Api Frame.

(** ** The table as a function of what arrived

    The rows there are are overwritten from the first on, all of them as TCP;
    when they are used up, rows of the segment's own kind are added.  What is
    not reached stays from an earlier update. *)

Definition arrival_row `{Ntop6} (family : PacketType) (a : arrival) : Packet_t :=
  CaptureCxx.packet_row family (ar_packet a) (ar_header a) None.

Fixpoint fill `{Ntop6} (arrived : list arrival) (old : list Packet_t) : list Packet_t :=
  match arrived, old with
  | [], _ => old
  | a :: arrived, _ :: old => arrival_row P_TCP a :: fill arrived old
  | a :: arrived, [] => arrival_row (ar_kind a) a :: fill arrived []
  end.

(** What arrives of a sequence of frames. *)
Definition arrivals `{Ntop6} (devices : list CapDevice.t) (helper : CapInodeHelper.t)
    (fs : list frame) : list arrival :=
  omap (resolve devices helper) fs.

(** The table after what arrived, for a host that listens to packets or not;
    the index of a table of 2^64 rows would wrap. *)
Definition stored `{Ntop6} (listens : bool) (arrived : list arrival) (old rows : list Packet_t) :
    Prop :=
  if listens then Z.of_nat (length arrived) < 2 ^ 64 -> rows = fill arrived old else rows = old.

Section fill.
Context `{Ntop6}.

Lemma arrivals_length devices helper fs : (length (arrivals devices helper fs) <= length fs)%nat.
Proof.
  induction fs as [|f fs IH]; [done|]. unfold arrivals in *. csimpl.
  destruct (resolve devices helper f); csimpl; lia.
Qed.

Lemma fill_length arrived old : length (fill arrived old) = (length arrived `max` length old)%nat.
Proof.
  revert old. induction arrived as [|a arrived IH]; intros [|r old]; simpl; rewrite ?IH; simpl; lia.
Qed.

Lemma fill_spec arrived old :
  fill arrived old =
    map (arrival_row P_TCP) (take (length old) arrived) ++
    map (fun a => arrival_row (ar_kind a) a) (drop (length old) arrived) ++
    drop (length arrived) old.
Proof.
  revert old. induction arrived as [|a arrived IH]; intros [|r old]; simpl; try done.
  - rewrite IH. simpl. by rewrite ?take_0, ?drop_0, ?drop_nil.
  - by rewrite IH.
Qed.

(** One more arrival goes to the next row. *)
Lemma fill_snoc arrived a old :
  fill (arrived ++ [a]) old =
    if (length arrived <? length old)%nat
    then set_nth (length arrived) (arrival_row P_TCP a) (fill arrived old)
    else fill arrived old ++ [arrival_row (ar_kind a) a].
Proof.
  revert old. induction arrived as [|b arrived IH]; intros [|r old]; simpl; try done.
  - rewrite IH. simpl. done.
  - rewrite IH. change (S (length arrived) <? S (length old))%nat with (length arrived <? length old)%nat.
    by destruct (_ <? _)%nat.
Qed.
End fill.

Section rows.
Context `{Pcap} `{Ntop6} `{Env}.

(** The table while frames are absorbed: [arrived] so far, onto the rows
    [old]. *)
Definition filled (arrived : list arrival) (old : list Packet_t) (c : CaptureCxx.t) : Prop :=
  CaptureCxx.packetData c = fill arrived old /\
  CaptureCxx.packetIdx c = Z.of_nat (length arrived).

Lemma accept_filled arrived old a p c :
  CaptureCxx.packetCallback c = true -> Z.of_nat (S (length arrived)) < 2 ^ 64 ->
  filled arrived old c -> filled (arrived ++ [a]) old (accept a p c).
Proof.
  intros Hcb Hlen [Hd Hi]. unfold accept. simpl. rewrite Hcb. unfold filled, put_row. simpl.
  rewrite Hd, Hi, fill_snoc, fill_length, length_app, u64_id by lia. split; [|simpl; lia].
  rewrite Nat2Z.id. unfold arrival_row.
  destruct (Nat.ltb_spec (length arrived) (length old)), (Z.ltb_spec (Z.of_nat (length arrived))
    (Z.of_nat (length arrived `max` length old))); done || lia.
Qed.

Lemma absorbs_filled fs arrived old c c' :
  absorbs fs c c' -> CaptureCxx.packetCallback c = true ->
  let arrived' := arrived ++ arrivals (CaptureCxx.devices c) (CaptureCxx.helper c) fs in
  Z.of_nat (length arrived') < 2 ^ 64 ->
  filled arrived old c -> filled arrived' old c'.
Proof.
  intros Ha. revert arrived.
  induction Ha as [c|hs fs c c' _ IH|f fs c c' Hf _ IH|f fs a p c c' Hf Hp _ IH];
    intros arrived Hcb arrived' Hlen Hc; subst arrived'; simpl in *.
  - by rewrite app_nil_r.
  - by apply IH.
  - rewrite Hf in *. by apply IH.
  - rewrite Hf in *. pose proof (accept_view a p c) as (Hd & Hh & _ & Hcb').
    rewrite cons_middle, app_assoc in *. rewrite <- Hd, <- Hh in *. apply IH; [congruence|done|].
    apply accept_filled; [done| |done]. rewrite !length_app in Hlen. simpl in Hlen. lia.
Qed.

(** Without a packet callback the table is left alone. *)
Lemma absorbs_no_rows fs c c' :
  absorbs fs c c' -> CaptureCxx.packetCallback c = false ->
  CaptureCxx.packetData c' = CaptureCxx.packetData c /\
  CaptureCxx.packetIdx c' = CaptureCxx.packetIdx c.
Proof.
  induction 1 as [c|hs fs c c' _ IH|f fs c c' _ _ IH|f fs a p c c' _ _ _ IH]; intros Hcb; [done|by apply IH..|].
  destruct IH as [-> ->]; [by pose proof (accept_view a p c) as (_ & _ & _ & ->)|].
  unfold accept. simpl. by rewrite Hcb.
Qed.
End rows.
