(* ===== verification/Ledger.v ===== *)
(** The specification of the capture as a whole: a ledger of the bytes every
    process has sent and received, what a frame that arrives does to it, and that
    the calls of the library are steps of it. *)

From stdpp Require Import sorting relations fin_maps fin_map_dom gmap.
From S2P Require Import Prelude Cstring Inet Stream Scanf OrdMap Pod Device Packet Inode Process.
From S2P Require Import Handle Logger Transport Protocol Capture Api Clock Frame Rows.

(** ** The ledger

    For every process, the bytes it has sent and received, modulo 2^64. *)

Abbreviation ledger := (gmap Z (Z * Z)).

Definition charge (pid : Z) (out : bool) (n : Z) (L : ledger) : ledger :=
  let '(sent, received) := default (0, 0) (L !! pid) in
  <[pid := if out then (u64 (sent + n), received) else (sent, u64 (received + n))]> L.

(** What one frame does: its length on the wire is charged to the process it
    arrives at. *)
Definition credit `{Ntop6} (devices : list CapDevice.t) (helper : CapInodeHelper.t) (L : ledger)
    (f : frame) : ledger :=
  match resolve devices helper f with
  | Some a => charge (ar_pid a) (ar_out a) (ar_len a) L
  | None => L
  end.

(** The pids that are left when the table is compared with the living: nothing
    is removed when there are as many of either. *)
Definition pids_of (L : ledger) : list Z := merge_sort Z.le (map fst (map_to_list L)).

Definition survivors (living : list Z) (L : ledger) : list Z :=
  if (length living =? length (pids_of L))%nat then pids_of L
  else fst (merged living (pids_of L)).

Definition departed (living : list Z) (L : ledger) : list Z :=
  if (length living =? length (pids_of L))%nat then [] else snd (merged living (pids_of L)).

Definition prune (living : list Z) (L : ledger) : ledger :=
  filter (fun kv => kv.1 ∈ survivors living L) L.

(** The ledger of a table of processes. *)
Definition ledger_of (processes : list (Z * CapProcess.t)) : ledger :=
  list_to_map (traffic_of processes).

Lemma ledger_of_lookup m k :
  ledger_of m !! k = option_map (fun p => (CapProcess.send p, CapProcess.recv p)) (map_find k m).
Proof.
  unfold ledger_of. induction m as [|[x p] m IH]; simpl; [apply lookup_empty|].
  change (list_to_map (traffic_of ((x, p) :: m)) : ledger)
    with (<[x := (CapProcess.send p, CapProcess.recv p)]> (ledger_of m)).
  destruct (Z.eqb_spec k x) as [->|]; [apply lookup_insert_eq|].
  rewrite lookup_insert_ne by congruence. apply IH.
Qed.

Lemma ledger_of_set k p m :
  ledger_of (map_set k p m) = <[k := (CapProcess.send p, CapProcess.recv p)]> (ledger_of m).
Proof.
  apply map_eq. intros i. rewrite ledger_of_lookup. destruct (decide (i = k)) as [->|].
  - by rewrite map_find_set_eq, lookup_insert_eq.
  - by rewrite map_find_set_ne, lookup_insert_ne, ledger_of_lookup.
Qed.

Lemma elem_of_pids_of L k : k ∈ pids_of L <-> is_Some (L !! k).
Proof.
  unfold pids_of. rewrite merge_sort_Permutation, list_elem_of_fmap. split.
  - intros ([k' v] & -> & Hin%elem_of_map_to_list). by exists v.
  - intros [v Hv]. exists (k, v). split; [done|]. by apply elem_of_map_to_list.
Qed.

Lemma pids_of_ascending L : ascending (pids_of L).
Proof.
  assert (NoDup (pids_of L)) as Hnd
    by (unfold pids_of; rewrite merge_sort_Permutation; apply NoDup_fst_map_to_list).
  assert (Sorted.StronglySorted Z.le (pids_of L)) as Hs by apply (StronglySorted_merge_sort Z.le).
  unfold ascending. induction Hs as [|x l Hs IH Hx]; constructor; inversion Hnd as [|? ? Hn Hd]; subst.
  - by apply IH.
  - rewrite Forall_forall in Hx |- *. intros y Hy. specialize (Hx y Hy).
    assert (x <> y) by (intros ->; done). lia.
Qed.

(** The keys of the table are the pids of its ledger. *)
Lemma pids_of_ledger m : ascending (keys m) -> pids_of (ledger_of m) = keys m.
Proof.
  intros Hm. apply ascending_ext; [apply pids_of_ascending|done|].
  intros k. rewrite elem_of_pids_of, ledger_of_lookup.
  pose proof (map_find_None k m) as Hn. destruct (map_find k m); simpl.
  - split; [|by eexists]. intros _. destruct (decide (k ∈ keys m)); [done|]. by apply Hn in n.
  - split; [by intros []|]. intros Hin. by destruct (proj1 Hn eq_refl).
Qed.

(** What is left of a table when entries are removed from it. *)
Lemma ledger_of_sublist m m' :
  ascending (keys m) -> traffic_of m' `sublist_of` traffic_of m ->
  ledger_of m' = filter (fun kv => kv.1 ∈ keys m') (ledger_of m).
Proof.
  intros Hm Hs.
  assert (forall l : list (Z * CapProcess.t), (traffic_of l).*1 = keys l) as Hfst.
  { intros l. unfold traffic_of, keys. rewrite <- list_fmap_compose. by apply list_fmap_ext. }
  assert (NoDup (traffic_of m).*1) as Hnd by (rewrite Hfst; by apply ascending_NoDup).
  assert (NoDup (traffic_of m').*1) as Hnd'.
  { eapply sublist_NoDup; [exact Hnd|]. by apply (fmap_sublist fst). }
  apply map_eq. intros k. apply option_eq. intros v. unfold ledger_of.
  rewrite map_lookup_filter_Some, <- !elem_of_list_to_map by done. split.
  - intros Hin. split; [by eapply elem_of_sublist|]. simpl. rewrite <- Hfst.
    by apply (list_elem_of_fmap_2 fst _ (k, v)).
  - intros [Hin Hk]. simpl in Hk. rewrite <- Hfst in Hk.
    apply list_elem_of_fmap in Hk as ([k' v'] & -> & Hin'). simpl in *.
    assert ((k', v') ∈ traffic_of m) as Hin2 by by eapply elem_of_sublist.
    replace v with v'; [done|].
    apply elem_of_list_to_map in Hin, Hin2; try done. congruence.
Qed.

(** ** What the capture absorbs *)

Section refinement.
Context `{Pcap} `{Ntop6} `{Env} `{!PcapOk}.

Definition table (c : CaptureCxx.t) : ledger := ledger_of (CaptureCxx.processes c).

Lemma accept_processes a p c :
  CaptureCxx.processes (accept a p c) =
    map_set (ar_pid a) (add_traffic (ar_out a) (ar_len a) p) (CaptureCxx.processes c).
Proof. unfold accept. by destruct (CaptureCxx.packetCallback _). Qed.

Lemma add_traffic_pair out n p :
  (CapProcess.send (add_traffic out n p), CapProcess.recv (add_traffic out n p)) =
    if out then (u64 (CapProcess.send p + n), CapProcess.recv p)
    else (CapProcess.send p, u64 (CapProcess.recv p + n)).
Proof. by destruct out. Qed.

Lemma table_charge pid out n p c :
  default (0, 0) (table c !! pid) = (CapProcess.send p, CapProcess.recv p) ->
  ledger_of (map_set pid (add_traffic out n p) (CaptureCxx.processes c)) =
    charge pid out n (table c).
Proof. intros Hp. by rewrite ledger_of_set, add_traffic_pair; unfold charge; rewrite Hp. Qed.

Lemma accept_table a p c :
  entry_for c (ar_pid a) p ->
  table (accept a p c) = charge (ar_pid a) (ar_out a) (ar_len a) (table c).
Proof.
  intros Hp. unfold table at 1. rewrite accept_processes. apply table_charge.
  unfold table. rewrite ledger_of_lookup. destruct Hp as [->|[-> (_ & Hr & Hs)]]; [done|].
  by rewrite Hr, Hs.
Qed.

Lemma absorbs_table fs c c' :
  absorbs fs c c' ->
  table c' = foldl (credit (CaptureCxx.devices c) (CaptureCxx.helper c)) (table c) fs.
Proof.
  induction 1 as [c|hs fs c c' _ IH|f fs c c' Hf _ IH|f fs a p c c' Hf Hp _ IH]; [done|exact IH| |].
  - simpl. unfold credit at 2. by rewrite Hf.
  - simpl. unfold credit at 2. rewrite Hf, <- accept_table with (p := p) by done.
    pose proof (accept_view a p c) as (Hd & Hh & _). by rewrite <- Hd, <- Hh.
Qed.

(** ** The figures of a process

    Everything but its traffic.  A packet changes none of those a process of the
    table has. *)


(** The same process, but for its traffic. *)
Definition same_figures (p p' : CapProcess.t) : Prop :=
  exists s r, p' = CapProcess.set_send s (CapProcess.set_recv r p).

Lemma same_figures_refl p : same_figures p p.
Proof. exists (CapProcess.send p), (CapProcess.recv p). by destruct p. Qed.

Lemma same_figures_trans p1 p2 p3 :
  same_figures p1 p2 -> same_figures p2 p3 -> same_figures p1 p3.
Proof. intros (s & r & ->) (s' & r' & ->). by exists s', r'. Qed.

(** Every process is still there with its figures, and those that joined have
    a socket in the table. *)
Definition carried (c c' : CaptureCxx.t) : Prop :=
  (forall k p, map_find k (CaptureCxx.processes c) = Some p ->
     exists p', map_find k (CaptureCxx.processes c') = Some p' /\ same_figures p p') /\
  (forall k, k ∈ keys (CaptureCxx.processes c') -> k ∈ keys (CaptureCxx.processes c) \/
     exists i, CapInodeHelper.inodeToPids (CaptureCxx.helper c) !! i = Some k).

Lemma carried_refl c : carried c c.
Proof. split; [|by left]. intros k p Hp. exists p. split; [done|apply same_figures_refl]. Qed.

Lemma carried_set c0 c pid out n p :
  carried c0 c -> (exists i, CapInodeHelper.inodeToPids (CaptureCxx.helper c0) !! i = Some pid) ->
  map_find pid (CaptureCxx.processes c) = Some p \/ map_find pid (CaptureCxx.processes c) = None ->
  carried c0 (CaptureCxx.set_processes
    (map_set pid (add_traffic out n p) (CaptureCxx.processes c)) c).
Proof.
  intros [Hf Hk] Hi Hp. split; simpl.
  - intros k q Hq. destruct (Hf k q Hq) as (q' & Hq' & Hs). destruct (decide (k = pid)) as [->|].
    + rewrite map_find_set_eq. eexists. split; [done|]. destruct Hp as [Hp|Hp]; [|congruence].
      assert (q' = p) as -> by congruence. eapply same_figures_trans; [exact Hs|].
      unfold add_traffic. destruct out.
      * exists (u64 (CapProcess.send p + n)), (CapProcess.recv p). by destruct p.
      * exists (CapProcess.send p), (u64 (CapProcess.recv p + n)). by destruct p.
    + rewrite map_find_set_ne by done. by exists q'.
  - intros k [->|Hin]%elem_of_keys_set; auto.
Qed.

Lemma carried_trans c0 c1 c2 :
  CaptureCxx.helper c1 = CaptureCxx.helper c0 -> carried c0 c1 -> carried c1 c2 -> carried c0 c2.
Proof.
  intros Hh [Hf1 Hk1] [Hf2 Hk2]. rewrite Hh in Hk2. split.
  - intros k p Hp. destruct (Hf1 k p Hp) as (p1 & Hp1 & Hs1). destruct (Hf2 k p1 Hp1) as (p2 & Hp2 & Hs2).
    exists p2. split; [done|by eapply same_figures_trans].
  - intros k [Hk|?]%Hk2; auto.
Qed.

Lemma accept_carried a p c :
  (exists i, CapInodeHelper.inodeToPids (CaptureCxx.helper c) !! i = Some (ar_pid a)) ->
  entry_for c (ar_pid a) p -> carried c (accept a p c).
Proof.
  intros Hi Hp. pose proof (carried_set c c (ar_pid a) (ar_out a) (ar_len a) p (carried_refl c) Hi
    ltac:(destruct Hp as [|[]]; auto)) as [Hf Hk].
  split; intros k; rewrite accept_processes; [apply Hf|apply Hk].
Qed.

Lemma absorbs_carried fs c c' : absorbs fs c c' -> carried c c'.
Proof.
  induction 1 as [c|hs fs c c' _ IH|f fs c c' _ _ IH|f fs a p c c' Hf Hp _ IH];
    [apply carried_refl|exact IH|exact IH|].
  apply resolve_owner in Hf as [_ Hi]. pose proof (accept_view a p c) as (_ & Hh & _).
  eapply carried_trans; [exact Hh|by apply accept_carried|exact IH].
Qed.

(** ** The comparison with the living, and the reports *)

Lemma prune_all living L :
  length living = length (pids_of L) -> prune living L = L.
Proof.
  intros Hlen. unfold prune, survivors. rewrite Hlen, Nat.eqb_refl. apply map_filter_id.
  intros k v Hk. simpl. apply elem_of_pids_of. by exists v.
Qed.

Lemma pids_of_table c : inv c -> pids_of (table c) = keys (CaptureCxx.processes c).
Proof. intros Hc. apply pids_of_ledger, inv_keys, Hc. Qed.

(** What the calls of an update leave alone around the dispatch. *)
Definition same_rows (c c' : CaptureCxx.t) : Prop :=
  CaptureCxx.packetData c' = CaptureCxx.packetData c /\
  CaptureCxx.packetIdx c' = CaptureCxx.packetIdx c.

(** The comparison with the living, [c] before it. *)
Record synced (c c' : CaptureCxx.t) : Prop := {
  sy_view : same_view c c';
  sy_rows : same_rows c c';
  sy_table : table c' = prune (CaptureCxx.pids c) (table c);
  sy_kept : length (CaptureCxx.pids c) = length (CaptureCxx.processes c) ->
    CaptureCxx.processes c' = CaptureCxx.processes c;
  sy_host : CaptureCxx.processCallback c' = CaptureCxx.processCallback c;
  sy_events : CaptureCxx.events c' =
    CaptureCxx.events c ++ removals c (departed (CaptureCxx.pids c) (table c))
}.

Lemma sync_ledger c t : inv c -> wlp sync_processes (fun _ c' _ => synced c c') c t.
Proof.
  intros Hc. eapply wpx_mono with (Q := fun _ c' _ => (same_rows c c' -> synced c c') /\
    exists ps es, c' = CaptureCxx.set_events es (CaptureCxx.set_processes ps c)).
  2: { intros _ c' t' [Hs (ps & es & ->)]. by apply Hs. }
  apply wpx_and; [|apply sync_processes_frame]. unfold sync_processes. do 2 wp_step.
  assert (length (pids_of (table c)) = length (CaptureCxx.processes c)) as Hlen
    by (rewrite pids_of_table by done; apply length_map).
  destruct (Nat.eqb_spec (length (CaptureCxx.pids c)) (length (CaptureCxx.processes c))) as [E|E];
    cbn [negb].
  { constructor; try done; [rewrite prune_all; [done|congruence]|].
    unfold departed, removals. rewrite Hlen, E, Nat.eqb_refl.
    by destruct (CaptureCxx.processCallback c); rewrite app_nil_r. }
  eapply wpx_mono; [by apply (merge_spec (fun _ => True) host_ok_any)|].
  intros _ c' t' (_ & Hk & He & Hp & Hcb & Hkb & Hh & Hd & Hs) Hrows.
  apply Nat.eqb_neq in E as E'. constructor; [by repeat split|done| |done|done|].
  - unfold table at 1. rewrite (ledger_of_sublist _ _ (inv_keys _ Hc) Hs), Hk.
    unfold prune, survivors. by rewrite Hlen, E', pids_of_table.
  - unfold departed. by rewrite Hlen, E', pids_of_table.
Qed.

(** What the host is told at the end: the processes that have gone, one call
    each, then the table of processes, then the packets. *)
Definition announced (r : Z) (c2 c' : CaptureCxx.t) : list event :=
  removals c2 (departed (CaptureCxx.pids c2) (table c2)) ++
  (if CaptureCxx.processCallback c2 then
     [ProcessEvent ACTION_UPDATE (CaptureCxx.processData c')
        (u32 (Z.of_nat (length (CaptureCxx.processes c'))))]
   else []) ++
  (if CaptureCxx.packetCallback c2 && (0 <? r) && negb (length (CaptureCxx.packetData c2) =? 0)%nat
   then [PacketEvent (CaptureCxx.packetData c2) (u32 r)] else []).

(** The end of an update: [r] is the value of the last dispatch, [c2] the state
    after it. *)
Record finished (r : Z) (c2 : CaptureCxx.t) (ret : Z) (c' : CaptureCxx.t) : Prop := {
  fin_view : same_view c2 c';
  fin_rows : same_rows c2 c';
  fin_failed : ret <> 0 -> CaptureCxx.processes c' = CaptureCxx.processes c2;
  fin_pruned : ret = 0 -> table c' = prune (CaptureCxx.pids c2) (table c2);
  fin_kept : ret = 0 -> length (CaptureCxx.pids c2) = length (CaptureCxx.processes c2) ->
    CaptureCxx.processes c' = CaptureCxx.processes c2;
  fin_host : CaptureCxx.processCallback c' = CaptureCxx.processCallback c2;
  fin_silent : ret <> 0 -> CaptureCxx.events c' = CaptureCxx.events c2;
  fin_announced : ret = 0 -> CaptureCxx.events c' = CaptureCxx.events c2 ++ announced r c2 c';
  fin_told : ret = 0 -> CaptureCxx.processCallback c2 = true ->
    take (length (CaptureCxx.processes c')) (CaptureCxx.processData c') =
      map (fun kp => process_row kp.2) (CaptureCxx.processes c')
}.

Lemma report_finished r c2 c t :
  synced c2 c ->
  wlp (report_processes;; report_packets r;; mret 0) (fun ret c' _ => finished r c2 ret c') c t.
Proof.
  intros [Hv [Hd Hi] Ht Hk Hcb He]. unfold wpx.
  rewrite (bind_Done _ _ _ _ _ _ _ (report_processes_spec c t)).
  rewrite (bind_Done _ _ _ _ _ _ _ (report_packets_spec r _ t)). cbn [mret M_ret].
  set (c1 := if CaptureCxx.processCallback c then _ else c).
  pose proof Hv as (Hvd & Hvh & Hvp & Hvc).
  assert (CaptureCxx.packetCallback c1 = CaptureCxx.packetCallback c /\
    CaptureCxx.packetData c1 = CaptureCxx.packetData c) as [-> ->]
    by (unfold c1; by destruct (CaptureCxx.processCallback c)).
  unfold c1. destruct (CaptureCxx.processCallback c) eqn:Ep, (_ && _ && _) eqn:Eb;
    (constructor; [done|done|done|done|done|simpl; congruence|done| |]); intros _; unfold announced;
    rewrite <- ?Hcb, <- ?Hvc, <- ?Hd, ?Ep, ?Eb; simpl; try done; try (intros _; exact (take_process_rows c));
    by rewrite ?He, <- ?app_assoc, ?app_nil_r.
Qed.

Lemma finish_update r c2 t :
  inv c2 ->
  wlp (tmp ← GetCpuTotal;
       if negb (tmp =? 0) then mret tmp else
       sync_processes;; report_processes;; report_packets r;; mret 0)
    (fun ret c' _ => finished r c2 ret c') c2 t.
Proof.
  intros Hc. wp_step. eapply wpx_mono;
    [apply wpx_and; [apply (GetCpuTotal_inv _ host_ok_any c2 c2)|apply GetCpuTotal_frame]|].
  { split; [done|apply host_frame_refl]. }
  intros tmp c3 t3 [[[Hc3 _] Htmp] (x & y & ->)].
  destruct Htmp as [->| ->]; cbn [Z.eqb negb]; [|by constructor].
  wp_step. eapply wpx_mono; [by apply sync_ledger|]. intros u c4 t4 Hsync. cbv beta in Hsync.
  assert (forall c3, c3 = CaptureCxx.set_cpu x (CaptureCxx.set_deltaCpu y c2) ->
    synced c3 c4 -> synced c2 c4) as Hc2 by (intros ? -> []; by constructor).
  by eapply report_finished, Hc2.
Qed.

(** The comparison of an update, from the state the dispatches leave: with the
    time of its own that the update has just found. *)
Definition swept (c2 : CaptureCxx.t) (ret : Z) (c' : CaptureCxx.t) : Prop :=
  ret = 0 -> exists x y c4 t3 t4,
    sync_processes (CaptureCxx.set_cpu x (CaptureCxx.set_deltaCpu y c2)) t3 = Done ((), c4, t4) /\
    CaptureCxx.processes c' = CaptureCxx.processes c4 /\
    CaptureCxx.deltaCpu c' = y /\ CaptureCxx.memory c' = CaptureCxx.memory c2.

Lemma report_sweeps r c t :
  wlp (report_processes;; report_packets r;; mret 0)
    (fun _ c' _ => CaptureCxx.processes c' = CaptureCxx.processes c /\
       CaptureCxx.deltaCpu c' = CaptureCxx.deltaCpu c /\ CaptureCxx.memory c' = CaptureCxx.memory c) c t.
Proof.
  unfold wpx. rewrite (bind_Done _ _ _ _ _ _ _ (report_processes_spec c t)).
  rewrite (bind_Done _ _ _ _ _ _ _ (report_packets_spec r _ t)). cbn [mret M_ret].
  by destruct (CaptureCxx.processCallback c), (_ && _ && _).
Qed.

Lemma finish_sweeps r c2 t :
  wlp (tmp ← GetCpuTotal;
       if negb (tmp =? 0) then mret tmp else
       sync_processes;; report_processes;; report_packets r;; mret 0)
    (fun ret c' _ => swept c2 ret c') c2 t.
Proof.
  wp_step. eapply wpx_mono; [apply GetCpuTotal_frame|]. intros tmp c3 t3 (x & y & ->).
  destruct (Z.eqb_spec tmp 0) as [->|Hne]; cbn [negb]; [|by intros ?].
  wp_step. eapply wpx_mono; [apply wlp_run, sync_processes_frame|].
  intros [] c4 t4 [(ps & es & Hc4) Hrun]. eapply wpx_mono; [apply report_sweeps|].
  intros ret c' t' (Hp & Hd & Hm) _. exists x, y, c4, t3, t4. subst c4. by rewrite Hd, Hm.
Qed.

(** The pids of the state are those that a listing of the processes left. *)
Definition listed_by (c : CaptureCxx.t) : Prop :=
  exists r c1 c2 t1 t2, UpdatePids c1 t1 = Done (r, c2, t2) /\ CaptureCxx.pids c2 = CaptureCxx.pids c.

(** A socket table that was read for the pids. *)
Definition read_for (devices : list CapDevice.t) (pids : list Z) (h' : CapInodeHelper.t) : Prop :=
  exists r h t t', CapInodeHelper.Refresh devices pids h t = Done (r, h', t').

(** The start of an update: the state [c1] the dispatches begin in. *)
Record started (c c1 : CaptureCxx.t) : Prop := {
  st_devices : CaptureCxx.devices c1 = CaptureCxx.devices c;
  st_processes : CaptureCxx.processes c1 = CaptureCxx.processes c;
  st_callback : CaptureCxx.packetCallback c1 = CaptureCxx.packetCallback c;
  st_host : same_host c c1;
  st_handles : CaptureCxx.handles c1 = CaptureCxx.handles c;
  st_rows : filled [] (CaptureCxx.packetData c) c1;
  st_listed : listed_by c1;
  st_refreshed : exists r t1 t2, CapInodeHelper.Refresh (CaptureCxx.devices c) (CaptureCxx.pids c1)
    (CaptureCxx.helper c) t1 = Done (r, CaptureCxx.helper c1, t2)
}.

(** The phases of an update that returns: from [c1] the dispatches lead to
    [c2], with the value [r] of the last. *)
Record updated (cnt : Z) (t t' : nat) (c c1 c2 : CaptureCxx.t) (batches : list (list frame)) (r ret : Z)
    (c' : CaptureCxx.t) : Prop := {
  up_started : started c c1;
  up_inv : inv c2;
  up_batches : delivered cnt t t' (CaptureCxx.handles c) batches;
  up_absorbs : absorbs (concat batches) c1 c2;
  up_counts : last_counts 0 r batches;
  up_finished : finished r c2 ret c';
  up_swept : swept c2 ret c'
}.

(** A step that is known to have run. *)
Lemma bind_run {S A B} (m : M S A) (f : A -> M S B) (I : S -> Prop) Q c t :
  wlp m (fun _ c' _ => I c') c t ->
  (forall a c' t', I c' -> m c t = Done (a, c', t') -> wlp (f a) Q c' t') -> wlp (m ≫= f) Q c t.
Proof.
  intros Hm Hf. apply wpx_bind. eapply wpx_mono; [by apply wlp_run|].
  intros a c' t' [? ?]. by apply Hf.
Qed.

Lemma Update_phases cnt icaptureAll c t :
  inv c ->
  wlp (Update cnt icaptureAll)
    (fun ret c' t' => exists c1 c2 bs r, updated cnt t t' c c1 c2 bs r ret c') c t.
Proof.
  intros Hc. unfold Update. do 2 wp_step.
  assert (okay c (CaptureCxx.set_packetIdx 0 c)) as Hc1.
  { split; [|exact (host_frame_refl c)]. destruct Hc; constructor; simpl; auto; lia. }
  apply (bind_run _ _ (okay c)); [by apply (UpdatePids_inv _ host_ok_any c)|]. intros lst c2 t2 Hc2 Hlist.
  apply (bind_run _ _ (okay c)); [by apply (refresh_inodes_inv _ host_ok_any c)|].
  intros ref c3 t3 [Hc3 _] Href.
  pose proof (advances _ _ _ _ _ Hlist). pose proof (advances _ _ _ _ _ Href).
  destruct (wlp_elim _ _ _ _ _ _ _ (UpdatePids_frame _ _) Hlist) as [ps Hps].
  destruct (wlp_elim _ _ _ _ _ _ _ (refresh_inodes_frame _ _) Href) as (h & t3' & Hh & Hrun).
  do 3 wp_step. eapply wpx_mono; [by apply (dispatch_all_absorbs cnt _ 0)|].
  intros r c4 t4 (Hc4 & batches & Hr & Hbs & Ha). cbv beta.
  eapply wpx_mono; [apply wpx_and; [by apply (finish_update r)|apply wpx_and;
    [apply finish_sweeps|apply (advances_wlp _)]]|].
  intros ret c' t' (Hfin & Hswept & Hle). exists c3, c4, batches, r.
  assert (started c c3) as Hst.
  { subst c3 c2. constructor; [done..|by eexists lst, _, (CaptureCxx.set_pids ps _), t, t2|].
    by exists ref, t2, t3'. }
  constructor; try done. rewrite <- (st_handles _ _ Hst).
  eapply delivered_between; [|exact Hle|exact Hbs]. lia.
Qed.

(** The ledger after an update, from the phases. *)
Lemma updated_table cnt t t' c c1 c2 batches r ret c' :
  updated cnt t t' c c1 c2 batches r ret c' ->
  let L := foldl (credit (CaptureCxx.devices c) (CaptureCxx.helper c1)) (table c) (concat batches) in
  table c' = (if ret =? 0 then prune (CaptureCxx.pids c1) L else L) /\
  CaptureCxx.helper c' = CaptureCxx.helper c1 /\ CaptureCxx.pids c' = CaptureCxx.pids c1.
Proof.
  intros [Hst _ _ Ha _ [(_ & Hh & Hp & _) _ Hfail Hpr _ _ _ _ _]].
  pose proof (absorbs_view _ _ _ Ha) as (_ & Hh2 & Hp2 & _).
  apply absorbs_table in Ha. rewrite (st_devices _ _ Hst) in Ha.
  unfold table at 2 in Ha. rewrite (st_processes _ _ Hst) in Ha.
  split; [|split; congruence]. destruct (Z.eqb_spec ret 0) as [E|E].
  - by rewrite (Hpr E), Ha, Hp2.
  - unfold table at 1. by rewrite (Hfail E).
Qed.

(** ** The ledger the host is told *)

Definition row_ledger (rows : list Process_t) : ledger :=
  list_to_map (map (fun r => (p_pid r, (p_send r, p_recv r))) rows).

Lemma row_ledger_rows m :
  Forall process_entry m -> row_ledger (map (fun kp => process_row kp.2) m) = ledger_of m.
Proof.
  intros Hm. unfold row_ledger, ledger_of. f_equal. unfold traffic_of. rewrite map_map.
  rewrite Forall_forall in Hm. apply map_ext_in. intros [k p] Hin%list_elem_of_In.
  destruct (Hm _ Hin) as [Hk _]. simpl in *. by rewrite <- Hk.
Qed.

(** The last call of the process callback announces a table. *)
Definition told (c c' : CaptureCxx.t) : Prop :=
  exists es rows k tail,
    CaptureCxx.events c' = CaptureCxx.events c ++ es ++
      ProcessEvent ACTION_UPDATE rows (u32 (Z.of_nat k)) :: tail /\
    (tail = [] \/ exists data n, tail = [PacketEvent data n]) /\
    row_ledger (take k rows) = table c'.

Lemma reported_told cnt c c' :
  inv c' -> reported cnt c c' -> CaptureCxx.processCallback c = true -> told c c'.
Proof.
  intros Hc' (es & ret & He & _ & _ & Hrows) Hcb. rewrite Hcb in He.
  exists es, (CaptureCxx.processData c'), (length (CaptureCxx.processes c')). eexists.
  split; [exact He|]. split; [destruct (_ && _ && _); [right; by eexists _, _|by left]|].
  rewrite (Hrows Hcb). apply row_ledger_rows, inv_processes, Hc'.
Qed.

(** C8: an update is one step of the ledger.  Whatever libpcap delivers and
    whatever the system answers, the ledger after an update that returns is a
    function of the ledger before it, of the frames every handle delivered, in
    the order of the handles, of the local addresses, of the socket table the
    update read, and of the pids it found: every frame is credited in turn, and
    the comparison with the living removes what it removes.  An update that
    fails to read the CPU total has credited every frame, and removes none.
    After one that succeeds the ledger is the one the process callback has just
    been told, row by row. *)
Theorem Update_refines cnt icaptureAll c t ret c' t' :
  inv c -> Update cnt icaptureAll c t = Done (ret, c', t') ->
  exists batches, delivered cnt t t' (CaptureCxx.handles c) batches /\
    let L := foldl (credit (CaptureCxx.devices c) (CaptureCxx.helper c')) (table c) (concat batches) in
    table c' = (if ret =? 0 then prune (CaptureCxx.pids c') L else L) /\
    (ret = 0 -> CaptureCxx.processCallback c = true -> told c c').
Proof.
  intros Hc Hrun.
  destruct (wlp_elim _ _ _ _ _ _ _ (update_spec (fun _ => True) host_ok_any
    c cnt icaptureAll t Hc) Hrun) as ([Hc' _] & _ & Hrep).
  destruct (wlp_elim _ _ _ _ _ _ _ (Update_phases cnt icaptureAll c t Hc) Hrun)
    as (c1 & c2 & batches & r & Hup).
  exists batches. split; [apply Hup|]. destruct (updated_table _ _ _ _ _ _ _ _ _ _ Hup) as (Ht & -> & ->).
  split; [exact Ht|]. intros E. eapply reported_told; [done|by apply Hrep].
Qed.

(** When the table has the pids an update finds, nobody joins it. *)
Lemma updated_joins cnt t t' c c1 c2 batches r ret c' :
  inv c -> updated cnt t t' c c1 c2 batches r ret c' ->
  (forall pid, pid ∈ CaptureCxx.pids c1 -> pid ∈ keys (CaptureCxx.processes c)) ->
  keys (CaptureCxx.processes c2) = keys (CaptureCxx.processes c) /\
  forall pid p, map_find pid (CaptureCxx.processes c) = Some p ->
    exists p', map_find pid (CaptureCxx.processes c2) = Some p' /\ same_figures p p'.
Proof.
  intros Hc [Hst Hc2 _ Ha _ _ _] Hpids. apply absorbs_carried in Ha as [Hcar Hkeys].
  destruct (st_refreshed _ _ Hst) as (rr & u1 & u2 & Href).
  destruct (wlp_elim _ _ _ _ _ _ _ (Refresh_wlp _ _ _ u1) Href) as (_ & Hsock & _).
  rewrite (st_processes _ _ Hst) in *.
  split; [|done]. apply ascending_ext; [apply Hc2|apply Hc|]. intros k. split.
  - intros [|(i & Hi)]%Hkeys; [done|]. apply Hpids. by apply (Hsock i).
  - intros Hk. destruct (map_find k (CaptureCxx.processes c)) as [p|] eqn:E.
    + destruct (Hcar k p E) as (p' & Hp' & _).
      destruct (decide (k ∈ keys (CaptureCxx.processes c2))) as [|Hn]; [done|].
      apply map_find_None in Hn. congruence.
    + by apply map_find_None in E.
Qed.

(** When they are those of the table, nobody leaves either. *)
Lemma updated_keys cnt t t' c c1 c2 batches r ret c' :
  inv c -> updated cnt t t' c c1 c2 batches r ret c' ->
  CaptureCxx.pids c1 = keys (CaptureCxx.processes c) ->
  keys (CaptureCxx.processes c2) = keys (CaptureCxx.processes c) /\
  CaptureCxx.processes c' = CaptureCxx.processes c2.
Proof.
  intros Hc Hup Hpids.
  destruct (updated_joins _ _ _ _ _ _ _ _ _ _ Hc Hup) as [Hk _]; [by rewrite Hpids|].
  destruct Hup as [_ _ _ Ha _ Hfin _]. pose proof (absorbs_view _ _ _ Ha) as (_ & _ & Hp1 & _).
  split; [done|]. destruct (Z.eq_dec ret 0) as [E|E]; [|by apply (fin_failed _ _ _ _ Hfin)].
  apply (fin_kept _ _ _ _ Hfin E). rewrite Hp1, Hpids, <- Hk. apply length_map.
Qed.

(** C16: the figures of the living are not read again.  When the pids an update
    finds are those of the table, the table keeps its keys, and every process
    keeps the name, owner, command line, memory, CPU time, percentages, open
    files and IO counters it had: only its traffic is updated. *)
Theorem Update_keeps_figures cnt icaptureAll c t c' t' :
  inv c -> Update cnt icaptureAll c t = Done (0, c', t') ->
  CaptureCxx.pids c' = keys (CaptureCxx.processes c) ->
  keys (CaptureCxx.processes c') = keys (CaptureCxx.processes c) /\
  forall pid p, map_find pid (CaptureCxx.processes c) = Some p ->
    exists sent received, map_find pid (CaptureCxx.processes c') =
      Some (CapProcess.set_send sent (CapProcess.set_recv received p)).
Proof.
  intros Hc Hrun Hpids.
  destruct (wlp_elim _ _ _ _ _ _ _ (Update_phases cnt icaptureAll c t Hc) Hrun)
    as (c1 & c2 & batches & r & Hup).
  destruct (updated_table _ _ _ _ _ _ _ _ _ _ Hup) as (_ & _ & Hp).
  destruct (updated_keys _ _ _ _ _ _ _ _ _ _ Hc Hup) as [Hk ->]; [congruence|].
  split; [done|]. intros pid p Hfind. destruct Hup as [Hst _ _ Ha _ _].
  apply absorbs_carried in Ha as [Hcar _]. rewrite (st_processes _ _ Hst) in Hcar.
  destruct (Hcar pid p Hfind) as (p' & Hp' & sd & rc & ->). by exists sd, rc.
Qed.

(** ** The account of a process *)

(** The bytes of the frames that arrive at a process in one direction. *)
Definition arriving (pid : Z) (out : bool) (arrived : list arrival) : Z :=
  foldr (fun a n => (if (ar_pid a =? pid) && Bool.eqb (ar_out a) out then ar_len a else 0) + n)
    0 arrived.

Lemma charge_lookup pid k out n L s r :
  default (0, 0) (L !! k) = (s, r) -> 0 <= s < 2 ^ 64 -> 0 <= r < 2 ^ 64 ->
  let part o := if (pid =? k) && Bool.eqb out o then n else 0 in
  default (0, 0) (charge pid out n L !! k) = (u64 (s + part true), u64 (r + part false)).
Proof.
  intros HL Hs Hr part. unfold part, charge. destruct (Z.eqb_spec pid k) as [->|Hne].
  - rewrite HL, lookup_insert_eq. destruct out; simpl; by rewrite Z.add_0_r, (u64_id s) || rewrite Z.add_0_r, (u64_id r).
  - destruct (default (0, 0) (L !! pid)). rewrite lookup_insert_ne by done. simpl.
    by rewrite !Z.add_0_r, HL, !u64_id.
Qed.

Lemma u64_add_idemp a b : u64 (u64 a + b) = u64 (a + b).
Proof. apply Zplus_mod_idemp_l. Qed.

Lemma credits_lookup devices helper fs L k s r :
  default (0, 0) (L !! k) = (s, r) -> 0 <= s < 2 ^ 64 -> 0 <= r < 2 ^ 64 ->
  let arrived := arrivals devices helper fs in
  default (0, 0) (foldl (credit devices helper) L fs !! k) =
    (u64 (s + arriving k true arrived), u64 (r + arriving k false arrived)).
Proof.
  unfold arrivals. revert L s r. induction fs as [|f fs IH]; intros L s r HL Hs Hr; simpl.
  { by rewrite !Z.add_0_r, !u64_id. }
  unfold credit at 2. destruct (resolve devices helper f) as [a|]; [|by apply IH].
  erewrite IH; [|by apply charge_lookup|apply u64_range..].
  rewrite !u64_add_idemp. simpl. by rewrite !Z.add_assoc.
Qed.

Lemma table_range c k :
  inv c -> let v := default (0, 0) (table c !! k) in 0 <= v.1 < 2 ^ 64 /\ 0 <= v.2 < 2 ^ 64.
Proof.
  intros Hc. unfold table. rewrite ledger_of_lookup.
  destruct (map_find k (CaptureCxx.processes c)) as [p|] eqn:E; simpl; [|lia].
  apply map_find_elem in E. pose proof (inv_processes _ Hc) as Hp. rewrite Forall_forall in Hp.
  destruct (Hp _ E) as [_ Hwf]. by destruct (wf_net _ Hwf).
Qed.

Lemma prune_lookup living L k v : prune living L !! k = Some v -> L !! k = Some v.
Proof. unfold prune. by intros [? _]%map_lookup_filter_Some. Qed.

(** C10: the account of a process.  After an update that returns, the bytes of
    every process of the table, sent and received, are what it had before, or
    nothing when it was not in the table, and those of the frames the update
    was delivered, from each handle once and at an instant during the update,
    that arrive at it in that direction, each once, modulo 2^64. *)
Theorem Update_accounts cnt icaptureAll c t ret c' t' :
  inv c -> Update cnt icaptureAll c t = Done (ret, c', t') ->
  exists batches, delivered cnt t t' (CaptureCxx.handles c) batches /\
    let arrived := arrivals (CaptureCxx.devices c) (CaptureCxx.helper c') (concat batches) in
    forall pid p, map_find pid (CaptureCxx.processes c') = Some p ->
      let '(sent, received) := default (0, 0) (table c !! pid) in
      CapProcess.send p = u64 (sent + arriving pid true arrived) /\
      CapProcess.recv p = u64 (received + arriving pid false arrived).
Proof.
  intros Hc Hrun.
  destruct (wlp_elim _ _ _ _ _ _ _ (Update_phases cnt icaptureAll c t Hc) Hrun)
    as (c1 & c2 & batches & r & Hup).
  exists batches. split; [apply Hup|]. intros arrived pid p Hp.
  destruct (updated_table _ _ _ _ _ _ _ _ _ _ Hup) as (Ht & Hh & _). rewrite <- Hh in Ht.
  destruct (table_range c pid Hc) as [Hs Hr].
  destruct (default (0, 0) (table c !! pid)) as [sent received] eqn:Hv. simpl in Hs, Hr.
  pose proof (credits_lookup (CaptureCxx.devices c) (CaptureCxx.helper c') (concat batches)
    _ _ _ _ Hv Hs Hr) as Hl.
  assert (table c' !! pid = Some (CapProcess.send p, CapProcess.recv p)) as Hk
    by (unfold table; by rewrite ledger_of_lookup, Hp).
  rewrite Ht in Hk.
  assert (foldl (credit (CaptureCxx.devices c) (CaptureCxx.helper c')) (table c) (concat batches) !! pid
    = Some (CapProcess.send p, CapProcess.recv p)) as Hk2
    by (destruct (ret =? 0); [by eapply prune_lookup|done]).
  rewrite Hk2 in Hl. cbn in Hl. by injection Hl.
Qed.

(** ** The packets the host is told *)

Lemma updated_rows cnt t t' c c1 c2 batches r ret c' :
  updated cnt t t' c c1 c2 batches r ret c' -> CaptureCxx.packetCallback c = true ->
  let arrived := arrivals (CaptureCxx.devices c) (CaptureCxx.helper c') (concat batches) in
  Z.of_nat (length arrived) < 2 ^ 64 ->
  CaptureCxx.packetData c' = fill arrived (CaptureCxx.packetData c) /\
  CaptureCxx.packetIdx c' = Z.of_nat (length arrived).
Proof.
  intros Hup Hcb. destruct (updated_table _ _ _ _ _ _ _ _ _ _ Hup) as (_ & -> & _).
  destruct Hup as [Hst _ _ Ha _ [_ [-> ->] _ _ _ _ _ _ _]]. rewrite <- (st_devices _ _ Hst).
  intros arrived Hlen. apply (absorbs_filled _ [] (CaptureCxx.packetData c) _ _ Ha); [|done|apply Hst].
  by rewrite (st_callback _ _ Hst).
Qed.

Lemma updated_stored cnt t t' c c1 c2 batches r ret c' :
  updated cnt t t' c c1 c2 batches r ret c' ->
  stored (CaptureCxx.packetCallback c)
    (arrivals (CaptureCxx.devices c) (CaptureCxx.helper c') (concat batches))
    (CaptureCxx.packetData c) (CaptureCxx.packetData c').
Proof.
  intros Hup. unfold stored. destruct (CaptureCxx.packetCallback c) eqn:E.
  { intros Hlen. by apply (updated_rows _ _ _ _ _ _ _ _ _ _ Hup). }
  destruct Hup as [Hst _ _ Ha _ Hfin _]. destruct (fin_rows _ _ _ _ Hfin) as [-> _].
  destruct (absorbs_no_rows _ _ _ Ha) as [-> _]; [by rewrite (st_callback _ _ Hst)|].
  by destruct (st_rows _ _ Hst) as [-> _].
Qed.

(** A call of the process callback. *)
Definition for_processes (e : event) : Prop :=
  match e with ProcessEvent _ _ _ => True | PacketEvent _ _ => False end.

(** What an update announces before the packets is for the process callback. *)
Lemma announced_split r c2 c' :
  exists es, Forall for_processes es /\ announced r c2 c' = es ++
    if CaptureCxx.packetCallback c2 && (0 <? r) && negb (length (CaptureCxx.packetData c2) =? 0)%nat
    then [PacketEvent (CaptureCxx.packetData c2) (u32 r)] else [].
Proof.
  unfold announced, removals. rewrite app_assoc. eexists. split; [|done]. apply Forall_app.
  destruct (CaptureCxx.processCallback c2); [|done].
  split; [by apply Forall_map, Forall_true|by repeat constructor].
Qed.

(** C9: what the packet callback is told.  An update writes one row for every
    frame that reaches a process, in the order of delivery, from the first row
    of the table on: over the rows of earlier updates, which then say TCP, and
    after them, with the segment's own kind; a row that is not reached stays as
    an earlier update left it.  The packet callback is called once, after all
    calls of the process callback, with the whole table and the number of frames
    the last handle was given, whether or not they made a row and whatever the
    other handles were given; it is not called when that number is not positive
    or the table is empty, and an update that fails calls nothing. *)
Theorem Update_packet_table cnt icaptureAll c t ret c' t' :
  inv c -> Update cnt icaptureAll c t = Done (ret, c', t') ->
  CaptureCxx.packetCallback c = true ->
  exists batches r, delivered cnt t t' (CaptureCxx.handles c) batches /\
    last_counts 0 r batches /\
    (let arrived := arrivals (CaptureCxx.devices c) (CaptureCxx.helper c') (concat batches) in
     Z.of_nat (length arrived) < 2 ^ 64 ->
     CaptureCxx.packetData c' = fill arrived (CaptureCxx.packetData c)) /\
    (ret <> 0 -> CaptureCxx.events c' = CaptureCxx.events c) /\
    (ret = 0 -> exists es, Forall for_processes es /\
       CaptureCxx.events c' = CaptureCxx.events c ++ es ++
         if (0 <? r) && negb (length (CaptureCxx.packetData c') =? 0)%nat
         then [PacketEvent (CaptureCxx.packetData c') r] else []).
Proof.
  intros Hc Hrun Hcb.
  destruct (wlp_elim _ _ _ _ _ _ _ (Update_phases cnt icaptureAll c t Hc) Hrun)
    as (c1 & c2 & batches & r & Hup).
  exists batches, r. split; [apply Hup|]. split; [apply Hup|].
  split; [intros arrived Hlen; by apply (updated_rows _ _ _ _ _ _ _ _ _ _ Hup)|].
  destruct Hup as [Hst _ _ Ha Hr [_ [-> _] _ _ _ _ Hsilent Hann _] _].
  destruct (absorbs_host _ _ _ Ha) as [He2 _], (st_host _ _ Hst) as [He1 _]. rewrite He1 in He2.
  rewrite He2 in Hsilent, Hann. split; [exact Hsilent|]. intros Hret. rewrite (Hann Hret).
  destruct (announced_split r c2 c') as (es & Hes & ->). exists es. split; [exact Hes|].
  pose proof (absorbs_view _ _ _ Ha) as (_ & _ & _ & ->). rewrite (st_callback _ _ Hst), Hcb. simpl.
  do 2 f_equal. destruct (Z.ltb_spec 0 r) as [Hpos|]; [|done]. rewrite u32_id; [done|].
  unfold last_counts, counts in Hr. destruct (last batches); lia.
Qed.

(** ** Initialisation *)

(** Nor is the host told anything, or what it is told next time changed. *)
Definition told_same (c c' : CaptureCxx.t) : Prop :=
  same_host c c' /\ CaptureCxx.packetCallback c' = CaptureCxx.packetCallback c /\
  CaptureCxx.packetData c' = CaptureCxx.packetData c.

#[export] Instance told_same_preorder : PreOrder told_same.
Proof.
  split; [by intros c|]. intros c c1 c2 (? & ? & ?) (? & ? & ?).
  split; [by etransitivity|split; congruence].
Qed.

Definition same_table (c c' : CaptureCxx.t) : Prop :=
  CaptureCxx.processes c' = CaptureCxx.processes c /\ told_same c c'.

Lemma same_table_trans c c1 c2 : same_table c c1 -> same_table c1 c2 -> same_table c c2.
Proof. intros [? ?] [? ?]. split; by etransitivity. Qed.

Lemma init_logger_table `{Spdlog} config c t :
  wlp (init_logger config) (fun _ c' _ => same_table c c') c t.
Proof.
  unfold init_logger. destruct (ci_logfile config); [|done]. wp_step. by apply wlp_intro.
Qed.

Lemma InitDevice_table c t : wlp InitDevice (fun _ c' _ => same_table c c') c t.
Proof.
  unfold InitDevice, CapIfaddrs.Init. do 3 wp_step. apply wpx_sys.
  destruct (os_getifaddrs _); [|done]. do 3 wp_step. cbn [Z.eqb negb].
  eapply wpx_mono; [apply (wpx_for_each _ (same_table c)); [done|]|done].
  intros it c1 t1 _ Hc1. unfold init_device. destruct (ifa_addr it); [|done]. wp_step. wp_step.
  apply wlp_intro. intros ret d t2 _. by destruct (CapDevice.UpRunning d); wp_steps.
Qed.

Lemma GetMemTotal_table c t : wlp GetMemTotal (fun _ c' _ => same_table c c') c t.
Proof.
  unfold GetMemTotal. wp_step. apply wpx_sys. destruct (os_file _ _); [|done]. wp_step.
  eapply wpx_mono; [apply (wpx_read_lines _ (same_table c)); [by left|done|]|done].
  intros l c1 t1 _ Hc1. unfold mem_line. destruct (sscanf _ _). by wp_steps.
Qed.

Lemma open_handle_table config d c t :
  wlp (open_handle config d) (fun _ c' _ => same_table c c') c t.
Proof.
  unfold open_handle. do 3 wp_step. apply wlp_intro. intros [ret [h open]] c1 t1 Hrun.
  unfold run_on in Hrun. destruct (CapHandle.OpenLive _ _ _) as [[[r ho] t2]| | |]; [|done..].
  injection Hrun as -> -> <- ->. do 2 wp_step. destruct (negb _); [by unfold release; wp_step|].
  wp_step. apply wlp_intro. intros code c2 t3 Hset.
  assert (c2 = CaptureCxx.set_captures open c) as ->.
  { unfold CapHandle.SetNonBlock in Hset. destruct (CapHandle.handle _); by injection Hset. }
  destruct (negb _); [by unfold release; wp_step|by wp_step].
Qed.

(** A process that is read anew starts with no traffic. *)
Definition reset (L : ledger) (pid : Z) : ledger := <[pid := (0, 0)]> L.

Lemma add_processes_ledger c0 ps c t :
  Forall pid_ok ps -> okay c0 c ->
  wlp (for_each ps add_process)
    (fun _ c' _ => table c' = foldl reset (table c) ps /\
       CaptureCxx.pids c' = CaptureCxx.pids c /\ told_same c c') c t.
Proof.
  intros Hps. revert c t. induction Hps as [|pid ps Hpid _ IH]; intros c t Hc; [done|].
  simpl. wp_step. eapply wpx_mono with (Q := fun _ c1 _ =>
    okay c0 c1 /\ table c1 = reset (table c) pid /\ CaptureCxx.pids c1 = CaptureCxx.pids c /\
    told_same c c1).
  - apply wpx_and; [by apply (add_process_inv _ host_ok_any)|].
    unfold add_process. do 4 wp_step. destruct (inv_totals c (proj1 Hc)) as (Hm & _ & Hd).
    eapply wpx_mono; [apply parse_entry; [apply files_ok_any|done..]|].
    intros _ p t' [(_ & Hr & Hs) _]. wp_step. split; [|done].
    unfold table. simpl. by rewrite ledger_of_set, Hr, Hs.
  - intros _ c1 t1 (Hc1 & Ht & Hp & Hh). eapply wpx_mono; [by apply IH|].
    intros _ c2 t2 (-> & -> & ?). rewrite Ht. repeat (split; [done|]). by etransitivity.
Qed.

Lemma init_ledger `{Spdlog} config pcb kcb c t :
  inv c ->
  wlp (Init config pcb kcb)
    (fun ret c' _ =>
       table c' = (if ret =? 0 then foldl reset (table c) (CaptureCxx.pids c') else table c) /\
       told_same (CaptureCxx.set_packetCallback kcb (CaptureCxx.set_processCallback pcb c)) c' /\
       (ret = 0 -> listed_by c')) c t.
Proof.
  intros Hinv. unfold Init. do 4 wp_step.
  set (c0 := CaptureCxx.set_packetCallback kcb (CaptureCxx.set_processCallback pcb c)).
  assert (okay c0 c0) as Hc0.
  { split; [destruct Hinv; constructor; simpl; auto|apply host_frame_refl]. }
  change (table c) with (table c0). clearbody c0.
  eapply (okay_bind_frame _ c0);
    [apply (init_logger_inv _ c0); [by left|by left|done]|apply init_logger_table|].
  intros [] c1 t1 Hc1 Ht1. eapply (okay_bind_frame _ c0);
    [by apply (InitDevice_inv _ c0)|apply InitDevice_table|].
  intros [] c2 t2 Hc2 Ht2. eapply (okay_bind_frame _ c0);
    [by apply (GetMemTotal_inv _ host_ok_any c0)|apply GetMemTotal_table|].
  intros code c3 t3 Hc3 Ht3. do 2 wp_step.
  assert (same_table c0 c3) as Ht by (eapply same_table_trans; [|exact Ht3]; by eapply same_table_trans).
  destruct (decide _). { wp_step. destruct Ht as [Hp ?]. split; [unfold table; by rewrite Hp|]. by split. }
  do 3 wp_step. eapply wpx_mono; [apply (wpx_for_each _ (fun c4 =>
    (okay c0 c4 /\ CaptureCxx.protocol c4 = true) /\ same_table c0 c4))|].
  { split; [|exact Ht]. split; [|done]. destruct Hc3 as [Hc3 Hf3].
    split; [destruct Hc3; constructor; simpl; auto|done]. }
  { intros d c4 t4 _ [[Hc4 Hp4] Ht4].
    eapply wpx_mono; [apply wpx_and; [by apply (open_handle_inv _ c0); [left|..]|apply open_handle_table]|].
    intros [] c5 t5 [? ?]. split; [done|]. by eapply same_table_trans. }
  intros [] c4 t4 [[Hc4 _] [Hp4 Hh4]].
  eapply (okay_bind_frame _ c0 (fun a c5 => (exists ps, c5 = CaptureCxx.set_pids ps _) /\
    exists t5, UpdatePids c4 t4 = Done (a, c5, t5))); [by apply (UpdatePids_inv _ host_ok_any c0)| |].
  { eapply wpx_mono; [apply wlp_run, UpdatePids_frame|]. intros a c5 t5 [? ?]. split; [done|]. by exists t5. }
  intros code2 c5 t5 Hc5 [[ps ->] [t5' Hlist]].
  eapply (okay_bind_frame _ c0); [by apply (refresh_inodes_inv _ host_ok_any c0)|apply refresh_inodes_frame|].
  intros code3 c6 t6 Hc6 (h & ? & -> & _). do 3 wp_step.
  eapply wpx_mono; [apply (add_processes_ledger c0); [|exact Hc6]|].
  { exact (inv_pid_ok _ (proj1 Hc6)). }
  intros [] c7 t7 (Ht7 & Hp7 & Hh7). wp_step. rewrite Ht7, Hp7. unfold table. simpl. rewrite Hp4.
  split; [done|]. split; [by etransitivity; [exact Hh4|]|]. intros _.
  exists code2, c4, (CaptureCxx.set_pids ps c4), t4, t5'. by rewrite Hp7.
Qed.

(** C18: initialisation is a step of the ledger too: with code 0 every pid it found
    starts from nothing, whatever an earlier use of the library left under it,
    and the others keep what they have; with any other code the ledger is as
    before.  The host is told nothing. *)
Theorem Init_refines `{Spdlog} config pcb kcb c t ret c' t' :
  inv c -> Init config pcb kcb c t = Done (ret, c', t') ->
  table c' = (if ret =? 0 then foldl reset (table c) (CaptureCxx.pids c') else table c) /\
  CaptureCxx.events c' = CaptureCxx.events c.
Proof.
  intros Hinv Hrun.
  by destruct (wlp_elim _ _ _ _ _ _ _ (init_ledger config pcb kcb c t Hinv) Hrun) as (? & [[? _] _] & _).
Qed.
End refinement.

(** ** The sample system *)

(** The two frames: the segment is charged to process 42, the ARP packet to
    nobody. *)
Example sample_credit :
  foldl (@credit full_ntop6 (CaptureCxx.devices app_capture) sample_helper) {[42 := (7, 0)]} (map (pair 1) app_batch)
    = {[42 := (67, 0)]}.
Proof. vm_compute. reflexivity. Qed.

Example sample_arriving :
  arriving 42 true (@arrivals full_ntop6 (CaptureCxx.devices app_capture) sample_helper (map (pair 1) app_batch))
    = 60.
Proof. vm_compute. reflexivity. Qed.

Lemma app_capture_updated :
  exists ret c t, @Update app_pcap full_ntop6 app_env (-1) false app_capture 0%nat = Done (ret, c, t) /\
    (ret = 0 /\ CaptureCxx.pids c = [42]).
Proof. apply returns_inv. vm_compute. done. Qed.

Lemma Update_refines_witness :
  exists c' t', @Update app_pcap full_ntop6 app_env (-1) false app_capture 0%nat = Done (0, c', t') /\
    table c' = prune [42] (foldl (@credit full_ntop6 (CaptureCxx.devices app_capture) (CaptureCxx.helper c'))
      (table app_capture) (map (pair 1) app_batch)) /\ told app_capture c'.
Proof.
  destruct app_capture_updated as (ret & c' & t' & Hrun & -> & Hp). exists c', t'. split; [exact Hrun|].
  destruct (@Update_refines app_pcap full_ntop6 app_env app_pcap_ok (-1) false app_capture 0%nat 0 c' t'
    app_capture_inv Hrun) as (bs & Hbs & Ht & Htold).
  split; [|exact (Htold eq_refl eq_refl)].
  rewrite Hp in Ht. inversion Hbs as [|t0 u t1 h p hs bs' _ Hh Hrest]; subst.
  inversion Hrest; subst. exact Ht.
Defined.

Lemma app_capture_accounts :
  exists ret c t, @Update app_pcap full_ntop6 app_env (-1) false app_capture 0%nat = Done (ret, c, t) /\
    is_Some (map_find 42 (CaptureCxx.processes c)).
Proof. apply (returns_inv _ (fun _ c => is_Some (map_find 42 (CaptureCxx.processes c)))). vm_compute. by eexists. Qed.

(** Process 42 had sent nothing yet. *)
Lemma Update_accounts_witness :
  exists c' t' p ret, @Update app_pcap full_ntop6 app_env (-1) false app_capture 0%nat = Done (ret, c', t') /\
    map_find 42 (CaptureCxx.processes c') = Some p /\
    CapProcess.send p = u64 (0 + arriving 42 true
      (@arrivals full_ntop6 (CaptureCxx.devices app_capture) (CaptureCxx.helper c')
         (map (pair 1) app_batch))).
Proof.
  destruct app_capture_accounts as (ret & c' & t' & Hrun & [p Hp]). exists c', t', p, ret.
  split; [exact Hrun|]. split; [exact Hp|].
  destruct (@Update_accounts app_pcap full_ntop6 app_env app_pcap_ok (-1) false app_capture 0%nat ret c' t'
    app_capture_inv Hrun) as (bs & Hbs & Hacc).
  inversion Hbs as [|t0 u t1 h q hs bs' _ Hh Hrest]; subst. inversion Hrest; subst.
  change (concat _) with (map (pair 1) app_batch) in Hacc. specialize (Hacc 42 p Hp). cbv zeta in Hacc.
  change (default _ (table app_capture !! 42)) with (0, 0) in Hacc. exact (proj1 Hacc).
Defined.

(** Two frames are delivered, one of them has a row. *)
Lemma Update_packet_table_witness :
  exists c' t' a, @Update app_pcap full_ntop6 app_env (-1) false app_capture 0%nat = Done (0, c', t') /\
    @arrivals full_ntop6 (CaptureCxx.devices app_capture) (CaptureCxx.helper c')
      (map (pair 1) app_batch) = [a] /\
    CaptureCxx.packetData c' = [@arrival_row full_ntop6 (ar_kind a) a].
Proof.
  destruct app_capture_returns as (ret & c' & t' & Hrun & -> & Hlen).
  destruct (@Update_packet_table app_pcap full_ntop6 app_env app_pcap_ok (-1) false app_capture 0%nat 0 c' t'
    app_capture_inv Hrun eq_refl) as (bs & r & Hbs & _ & Hrows & _).
  inversion Hbs as [|t0 u t1 h p hs bs' _ Hh Hrest]; subst. inversion Hrest; subst.
  clear Hbs Hrest. change (concat _) with (map (pair 1) app_batch) in Hrows.
  pose proof (@arrivals_length full_ntop6 (CaptureCxx.devices app_capture) (CaptureCxx.helper c')
    (map (pair 1) app_batch)) as Hle. change (length (map (pair 1) app_batch)) with 2%nat in Hle.
  specialize (Hrows ltac:(lia)). change (CaptureCxx.packetData app_capture) with (@nil Packet_t) in Hrows.
  rewrite Hrows, fill_length in Hlen. destruct (arrivals _ _ _) as [|a [|b l]] eqn:Harr; simpl in Hlen; try lia.
  exists c', t', a. split; [exact Hrun|]. split; [exact Harr|exact Hrows].
Defined.

Lemma Update_keeps_figures_witness :
  exists c' t', @Update app_pcap full_ntop6 app_env (-1) false app_capture 0%nat = Done (0, c', t') /\
    exists sent received, map_find 42 (CaptureCxx.processes c') =
      Some (CapProcess.set_send sent (CapProcess.set_recv received (CapProcess.new 42))).
Proof.
  destruct app_capture_updated as (ret & c' & t' & Hrun & -> & Hp). exists c', t'. split; [exact Hrun|].
  exact (proj2 (@Update_keeps_figures app_pcap full_ntop6 app_env app_pcap_ok (-1) false app_capture
    0%nat c' t' app_capture_inv Hrun Hp) 42 (CapProcess.new 42) eq_refl).
Defined.

Lemma app_init_zero :
  exists ret c t, @Init app_pcap full_ntop6 app_env app_log app_config true true
      (@CaptureCxx.new app_pcap) 0%nat = Done (ret, c, t) /\ (ret = 0 /\ CaptureCxx.pids c = [42]).
Proof. apply returns_inv. vm_compute. done. Qed.

Lemma Init_refines_witness :
  exists c' t', @Init app_pcap full_ntop6 app_env app_log app_config true true
      (@CaptureCxx.new app_pcap) 0%nat = Done (0, c', t') /\ table c' = {[42 := (0, 0)]}.
Proof.
  destruct app_init_zero as (ret & c' & t' & Hrun & -> & Hp). exists c', t'. split; [exact Hrun|].
  pose proof (@Init_refines app_pcap full_ntop6 app_env app_log app_config true true
    (@CaptureCxx.new app_pcap) 0%nat 0 c' t' inv_new Hrun) as [Ht _].
  rewrite Hp in Ht. exact Ht.
Defined.
