(* ===== verification/Figures.v ===== *)
(** The figures of the processes over an update that compares the table with the
    living: every process that lives is read again. *)

From stdpp Require Import gmap.
From S2P Require Import Prelude Cstring Inet Stream Scanf OrdMap Pod Device Packet Inode Process.
From S2P Require Import Handle Logger Transport Protocol Capture Api Frame Rows Ledger.

Section figures.
Context `{Pcap} `{Ntop6} `{Env} `{!PcapOk}.

(** ** The comparison loop *)

(** What the system serves for every process. *)
Context (os : Os) (view : Z -> proc_view).

Definition served (pid : Z) : Prop := view_ok (view pid) /\ serves os pid (view pid) /\ pid <> -1.

(** What the loop makes of the processes the iterator has not passed. *)
Fixpoint reread (memory deltaCpu : Z) (P : list Z) (after : list (Z * CapProcess.t)) :
    list (Z * CapProcess.t) :=
  match P, after with
  | pid :: P', (key, p) :: after' =>
      if pid =? key
      then (key, read_process os (view key) memory deltaCpu p) :: reread memory deltaCpu P' after'
      else reread memory deltaCpu P after'
  | _, _ => after
  end.

Lemma merge_rereads P before after c t :
  steady os -> Forall process_entry after -> Forall served P ->
  CaptureCxx.processes c = before ++ after ->
  wlp (merge P before after)
    (fun _ c' _ => CaptureCxx.processes c' =
       before ++ reread (CaptureCxx.memory c) (CaptureCxx.deltaCpu c) P after) c t.
Proof.
  intros Hos Hafter. revert P before c t.
  induction Hafter as [|[key p] after [Hpid Hwf] _ IH]; intros P before c t HP Hc;
    [by destruct P|destruct P as [|pid P]; [done|]].
  cbn [merge reread]. do 2 wp_step. destruct (Z.eqb_spec pid key) as [->|Hne]; cbn [negb].
  - inversion HP as [|? ? (Hv & Hs & Hk) HP']; subst. simpl in Hpid.
    wp_step. apply wpx_run_on. apply wlp_intro. intros r p' t' Hrun.
    assert (serves os (CapProcess.pid p) (view key) /\ CapProcess.pid p <> -1) as [Hs' Hk']
      by (by rewrite Hpid).
    unfold CapProcess.Parse in Hrun.
    erewrite ParseProc_reads in Hrun; [|exact Hv|intros; apply Hos|exact Hs'|exact Hk'].
    injection Hrun as _ <- _. do 2 wp_step. eapply wpx_mono; [apply IH; [done|simpl; by rewrite <- app_assoc]|].
    intros _ c' t1 ->. simpl. by rewrite <- app_assoc.
  - wp_step. eapply wpx_mono with (Q := fun _ c1 _ => exists es, c1 = CaptureCxx.set_events es c).
    { destruct (CaptureCxx.processCallback c); [by eexists|]. exists (CaptureCxx.events c). by destruct c. }
    intros _ c1 t1 [es ->]. do 2 wp_step. eapply wpx_mono; [by apply IH|done].
Qed.

Lemma reread_lookup m d P after k p :
  ascending P -> ascending (keys after) -> (forall x, x ∈ P -> x ∈ keys after) ->
  k ∈ P -> map_find k after = Some p ->
  map_find k (reread m d P after) = Some (read_process os (view k) m d p).
Proof.
  revert P. induction after as [|[key q] after IH]; intros P HP Hk Hsub Hin Hfind; [done|].
  apply ascending_cons in Hk as [Hlow Hk]. fold (keys after) in *.
  destruct P as [|pid P]; [by apply elem_of_nil in Hin|]. cbn [reread].
  apply ascending_cons in HP as HP'. destruct HP' as [Hhigh HP'].
  assert (forall x, x ∈ pid :: P -> x <> key -> x ∈ keys after) as Hrest.
  { intros x Hx Hne. by apply Hsub in Hx as [->|]%elem_of_cons. }
  destruct (Z.eqb_spec pid key) as [->|Hne].
  - simpl in *. destruct (Z.eqb_spec k key) as [->|Hkk]; [by injection Hfind as ->|].
    apply IH; [done|done| |by apply elem_of_cons in Hin as [|]|done].
    intros x Hx. apply Hrest; [by right|]. specialize (Hhigh x Hx). lia.
  - assert (key < pid) as Hlt by (apply Hlow, Hrest; [by left|done]).
    assert (forall x, x ∈ pid :: P -> key < x) as Habove
      by (intros x [->|Hx]%elem_of_cons; [done|]; specialize (Hhigh x Hx); lia).
    apply IH; [done|done| |done|].
    + intros x Hx. apply Hrest; [done|]. specialize (Habove x Hx). lia.
    + simpl in Hfind. specialize (Habove k Hin). destruct (Z.eqb_spec k key); [lia|done].
Qed.

(** ** The update *)

(** C17: an update that compares the table with the living reads every living
    process again.  On a host that does not change meanwhile, when the update
    finds no process that the table lacks, and not as many as it has, each of
    those it finds has, after an update that succeeds, the figures its files
    give, with the total memory and with the CPU time the update found: its CPU
    percentage is the time it used since it was last read, however many updates
    ago, over the time of this update alone.  Only its traffic is carried on. *)
Theorem Update_rereads cnt icaptureAll c t c' t' :
  steady os -> inv c -> Update cnt icaptureAll c t = Done (0, c', t') ->
  Forall served (CaptureCxx.pids c') ->
  (forall pid, pid ∈ CaptureCxx.pids c' -> pid ∈ keys (CaptureCxx.processes c)) ->
  length (CaptureCxx.pids c') <> length (CaptureCxx.processes c) ->
  forall pid p, pid ∈ CaptureCxx.pids c' -> map_find pid (CaptureCxx.processes c) = Some p ->
    exists sent received, map_find pid (CaptureCxx.processes c') =
      Some (read_process os (view pid) (CaptureCxx.memory c') (CaptureCxx.deltaCpu c')
        (CapProcess.set_send sent (CapProcess.set_recv received p))).
Proof.
  intros Hos Hc Hrun Hserved Hknown Hlen pid p Hin Hfind.
  destruct (wlp_elim _ _ _ _ _ _ _ (Update_phases cnt icaptureAll c t Hc) Hrun)
    as (c1 & c2 & batches & r & Hup).
  destruct (updated_table _ _ _ _ _ _ _ _ _ _ Hup) as (_ & _ & Hp1).
  destruct (updated_joins _ _ _ _ _ _ _ _ _ _ Hc Hup) as [Hk Hfig]; [by rewrite <- Hp1|].
  destruct (Hfig pid p Hfind) as (p2 & Hfind2 & sent & received & ->).
  pose proof Hup as [_ Hc2 _ Ha _ _ Hswept]. pose proof (absorbs_view _ _ _ Ha) as (_ & _ & Hp2 & _).
  destruct (Hswept eq_refl) as (x & y & c4 & t3 & t4 & Hsync & -> & -> & ->).
  rewrite Hp1, <- Hp2 in *. exists sent, received. clear Hswept Hup.
  assert (length (CaptureCxx.processes c2) = length (CaptureCxx.processes c)) as Hl
    by (rewrite <- (length_map fst (CaptureCxx.processes c2)); fold (keys (CaptureCxx.processes c2));
        rewrite Hk; apply length_map).
  unfold sync_processes in Hsync. rewrite (bind_Done get _ _ _ _ _ t3) in Hsync by done.
  cbn [CaptureCxx.pids CaptureCxx.processes CaptureCxx.set_cpu CaptureCxx.set_deltaCpu] in Hsync.
  rewrite Hl in Hsync. apply Nat.eqb_neq in Hlen. rewrite Hlen in Hsync. cbn [negb] in Hsync.
  rewrite (wlp_elim _ _ _ _ _ _ _ (merge_rereads _ [] (CaptureCxx.processes c2)
    (CaptureCxx.set_cpu x (CaptureCxx.set_deltaCpu y c2)) t3 Hos (inv_processes _ Hc2) Hserved eq_refl) Hsync).
  apply reread_lookup; [apply Hc2|apply Hc2| |done|done]. intros k Hkin. rewrite Hk. by apply Hknown.
Qed.
End figures.

(** ** The sample system

    Processes 42 and 50 are in the table, and only 42 lives. *)

Lemma two_updated :
  exists ret c t, @Update app_pcap full_ntop6 app_env (-1) false
      (sample_capture app_batch true [(42, CapProcess.new 42); (50, CapProcess.new 50)] []) 0%nat
      = Done (ret, c, t) /\ (ret = 0 /\ CaptureCxx.pids c = [42]).
Proof. apply returns_inv. vm_compute. done. Qed.

Definition app_view : proc_view :=
  mk_proc_view (v_status sample_view) (v_cmdline sample_view) (v_io sample_view)
    (Some [mk_dirent "3" DT_LNK]) (v_stat sample_view).

Lemma app_served : served app_os (fun _ => app_view) 42.
Proof.
  split; [exact sample_view_ok|]. split; [|done].
  split; [vm_compute; reflexivity|]. split; [vm_compute; reflexivity|].
  split; [vm_compute; reflexivity|]. split; vm_compute; reflexivity.
Qed.

Lemma Update_rereads_witness :
  exists c' t' p, @Update app_pcap full_ntop6 app_env (-1) false
      (sample_capture app_batch true [(42, CapProcess.new 42); (50, CapProcess.new 50)] []) 0%nat
      = Done (0, c', t') /\
    map_find 42 (CaptureCxx.processes c') = Some p /\
    CapProcess.name p = "sshd" /\ CapProcess.deltaCpu p = 100.
Proof.
  destruct two_updated as (ret & c' & t' & Hrun & -> & Hp).
  destruct (@Update_rereads app_pcap full_ntop6 app_env app_pcap_ok app_os (fun _ => app_view)
    (-1) false _ 0%nat c' t' (fun _ => eq_refl) two_inv Hrun) with (pid := 42) (p := CapProcess.new 42)
    as (sent & received & Hfind).
  - rewrite Hp. constructor; [exact app_served|constructor].
  - intros pid Hpid. rewrite Hp in Hpid. apply list_elem_of_singleton in Hpid as ->. left.
  - rewrite Hp. discriminate.
  - rewrite Hp. left.
  - reflexivity.
  - exists c', t'. eexists. split; [exact Hrun|]. split; [exact Hfind|]. split; reflexivity.
Defined.
