(* ===== verification/Session.v ===== *)
(** Whole uses of the library: the book a sequence of calls keeps, that every run
    of the code is a run of it, and what follows for everything the host is ever
    told. *)

From stdpp Require Import relations fin_maps gmap.
From S2P Require Import Prelude Cstring Inet Stream Scanf OrdMap Pod Device Packet Inode Process.
From S2P Require Import Handle Logger Transport Protocol Capture Api Frame Rows Ledger.

(** ** The book

    The ledger, the rows of the last packets, what the callbacks have been told
    so far, and which of them there are. *)

(** A call of the process callback, that a process has gone or that the ledger is
    this; a call of the packet callback, with its rows and their number. *)
Inductive notice :=
  | Gone (pid : Z)
  | Told (L : ledger)
  | Listed (rows : list Packet_t) (size : Z).

Record book := mk_book {
  bk_ledger : ledger;
  bk_rows : list Packet_t;
  bk_notices : list notice;
  bk_processes : bool;
  bk_packets : bool
}.

Definition book_new : book := mk_book ∅ [] [] false false.

Section book.
Context `{Ntop6}.

(** What an update tells: who has gone and what the ledger [L] is without them;
    then the rows, if there are any, with the value [r] of the last dispatch,
    if it is positive. *)
Definition notices (b : book) (living : list Z) (L : ledger) (rows : list Packet_t) (r : Z) :
    list notice :=
  (if bk_processes b then map Gone (departed living L) ++ [Told (prune living L)] else []) ++
  (if bk_packets b && (0 <? r) && negb (length rows =? 0)%nat then [Listed rows r] else []).

(** What a call did: its code, the processes it found, the callbacks an
    initialisation was given; for an update also the local addresses and the
    socket table it had, what each handle delivered, and the value of the last
    dispatch. *)
Inductive deed :=
  | Initialised (ret : Z) (living : list Z) (processes packets : bool)
  | Updated (ret : Z) (devices : list CapDevice.t) (helper : CapInodeHelper.t) (living : list Z)
      (batches : list (list frame)) (r : Z)
  | Ended.

Definition frames_of (d : deed) : list frame :=
  match d with Updated _ _ _ _ batches _ => concat batches | _ => [] end.

(** The book before and after it. *)
Inductive entry : deed -> book -> book -> Prop :=
  | EntryInit ret living processes packets b :
      entry (Initialised ret living processes packets) b
        (mk_book (if ret =? 0 then foldl reset (bk_ledger b) living else bk_ledger b) (bk_rows b)
           (bk_notices b) processes packets)
  | EntryUpdate ret devices helper living batches r b L rows :
      L = foldl (credit devices helper) (bk_ledger b) (concat batches) ->
      stored (bk_packets b) (arrivals devices helper (concat batches)) (bk_rows b) rows ->
      entry (Updated ret devices helper living batches r) b
        (mk_book (if ret =? 0 then prune living L else L) rows
           (bk_notices b ++ if ret =? 0 then notices b living L rows r else [])
           (bk_processes b) (bk_packets b))
  | EntryEnd b : entry Ended b b.

(** ** Sums

    The bytes of a ledger, and of the frames on the wire. *)

Definition total (L : ledger) : Z :=
  map_fold (fun _ (v : Z * Z) n => v.1 + v.2 + n) 0 L.

Definition bytes (fs : list frame) : Z := foldr (fun (f : frame) n => len f.2.1 + n) 0 fs.

Definition counted (L : ledger) : Prop := map_Forall (fun _ v => 0 <= v.1 /\ 0 <= v.2) L.

Definition sized (f : frame) : Prop := 0 <= len f.2.1.

Lemma bytes_app fs gs : bytes (fs ++ gs) = bytes fs + bytes gs.
Proof. induction fs as [|f fs IH]; simpl; [done|]. rewrite IH. lia. Qed.

Lemma total_insert k v L : L !! k = None -> total (<[k := v]> L) = v.1 + v.2 + total L.
Proof. intros Hk. unfold total. rewrite map_fold_insert_L; [done|intros; lia|done]. Qed.

Lemma total_delete k v L : L !! k = Some v -> total L = v.1 + v.2 + total (delete k L).
Proof.
  intros Hk. rewrite <- (insert_delete_id L k v Hk) at 1. apply total_insert, lookup_delete_eq.
Qed.

(** A ledger with another pair for one pid. *)
Lemma total_set k v L :
  total (<[k := v]> L) = total L - (default (0, 0) (L !! k)).1 - (default (0, 0) (L !! k)).2 + v.1 + v.2.
Proof.
  destruct (L !! k) as [w|] eqn:E; simpl; [|rewrite total_insert by done; lia].
  rewrite <- insert_delete_eq, total_insert by apply lookup_delete_eq.
  rewrite (total_delete k w L E). lia.
Qed.

Lemma counted_lookup L k :
  counted L -> 0 <= (default (0, 0) (L !! k)).1 /\ 0 <= (default (0, 0) (L !! k)).2.
Proof. intros HL. destruct (L !! k) as [v|] eqn:E; simpl; [by apply (HL k v)|lia]. Qed.

Lemma total_charge pid out n L :
  counted L -> 0 <= n -> counted (charge pid out n L) /\ total (charge pid out n L) <= total L + n.
Proof.
  intros HL Hn. pose proof (counted_lookup L pid HL) as [Hs Hr]. unfold charge.
  destruct (default (0, 0) (L !! pid)) as [s r] eqn:E. simpl in *.
  assert (forall z, 0 <= z -> 0 <= u64 z <= z) as Hu
    by (intros z Hz; unfold u64; pose proof (Z.mod_le z (2 ^ 64)); pose proof (Z.mod_pos_bound z (2 ^ 64)); lia).
  pose proof (Hu (s + n) ltac:(lia)). pose proof (Hu (r + n) ltac:(lia)).
  split; [apply map_Forall_insert_2; [destruct out; simpl; lia|done]|].
  rewrite total_set, E. destruct out; simpl; lia.
Qed.

Lemma credits_total devices helper fs L :
  Forall sized fs -> counted L ->
  counted (foldl (credit devices helper) L fs) /\
  total (foldl (credit devices helper) L fs) <= total L + bytes fs.
Proof.
  intros Hfs. revert L. induction Hfs as [|f fs Hf _ IH]; intros L HL; simpl; [split; [done|lia]|].
  assert (counted (credit devices helper L f) /\
    total (credit devices helper L f) <= total L + len f.2.1) as [HL1 Ht].
  { unfold credit. destruct (resolve devices helper f) as [a|] eqn:Ha; [|split; [done|unfold sized in *; lia]].
    apply resolve_owner in Ha as [E _]. unfold ar_len. rewrite E. by apply total_charge. }
  destruct (IH _ HL1). split; [done|lia].
Qed.

Lemma total_filter (P : Z * (Z * Z) -> Prop) `{forall x, Decision (P x)} L :
  counted L -> counted (filter P L) /\ total (filter P L) <= total L.
Proof.
  intros HL. split; [intros k v [Hk _]%map_lookup_filter_Some; by apply (HL k)|].
  induction L as [|k v L Hk IH] using map_ind; [by rewrite map_filter_empty|].
  apply map_Forall_insert in HL as [Hv HL]; [|done]. specialize (IH HL).
  rewrite map_filter_insert, total_insert by done. case_decide.
  - rewrite total_insert; [lia|]. apply map_lookup_filter_None. by left.
  - rewrite delete_id by done. simpl in Hv. lia.
Qed.

Lemma total_resets pids L :
  counted L -> counted (foldl reset L pids) /\ total (foldl reset L pids) <= total L.
Proof.
  revert L. induction pids as [|pid pids IH]; intros L HL; simpl; [split; [done|lia]|].
  assert (counted (reset L pid)) as Hr by by apply map_Forall_insert_2.
  pose proof (counted_lookup L pid HL).
  assert (total (reset L pid) <= total L) by (unfold reset; rewrite total_set; simpl; lia).
  destruct (IH _ Hr). split; [done|lia].
Qed.

(** Nothing in a book exceeds the bytes of the frames so far. *)
Definition within (n : Z) (b : book) : Prop :=
  (counted (bk_ledger b) /\ total (bk_ledger b) <= n) /\
  Forall (fun x => match x with Told L => total L <= n | _ => True end) (bk_notices b).

Lemma within_grow n ns b L rows processes packets :
  within n b -> 0 <= ns -> counted L -> total L <= n + ns ->
  within (n + ns) (mk_book L rows (bk_notices b) processes packets).
Proof.
  intros [_ Hn] Hns Hc Ht. split; [done|]. eapply Forall_impl; [exact Hn|].
  intros []; [done|lia|done].
Qed.

Lemma bytes_nonneg fs : Forall sized fs -> 0 <= bytes fs.
Proof. induction 1 as [|f fs Hf _ IH]; simpl; [done|]. unfold sized in Hf. lia. Qed.

Lemma entry_within n d b b' :
  entry d b b' -> Forall sized (frames_of d) -> within n b -> within (n + bytes (frames_of d)) b'.
Proof.
  intros He Hfs Hb. pose proof (bytes_nonneg _ Hfs) as Hz. pose proof Hb as [[HL Ht] Hn].
  destruct He as [ret living pcb kcb b|ret devices helper living bs r b L rows -> _|b];
    simpl in *; [| |by rewrite Z.add_0_r].
  - destruct (total_resets living _ HL). apply within_grow; destruct (ret =? 0); done || lia.
  - destruct (credits_total devices helper _ _ Hfs HL) as [HL1 Ht1].
    set (L := foldl _ _ _) in *. destruct (total_filter (fun kv => kv.1 ∈ survivors living L) L HL1) as [HL2 Ht2].
    change (filter _ L) with (prune living L) in *.
    destruct (ret =? 0); [|rewrite app_nil_r; apply within_grow; done || lia].
    split; [split; [done|simpl; lia]|]. simpl. apply Forall_app. split.
    + eapply Forall_impl; [exact Hn|]. intros []; [done|lia|done].
    + unfold notices. apply Forall_app. split; [|by destruct (_ && _ && _); repeat constructor].
      destruct (bk_processes b); [|constructor]. apply Forall_app.
      split; [by apply Forall_map, Forall_true|]. constructor; [lia|constructor].
Qed.
End book.

(** ** The host

    What the calls of its callbacks say. *)
Inductive says : list event -> list notice -> Prop :=
  | SaysNil : says [] []
  | SaysGone pid es ns : says es ns -> says (removal pid :: es) (Gone pid :: ns)
  | SaysTold rows k es ns :
      says es ns ->
      says (ProcessEvent ACTION_UPDATE rows (u32 (Z.of_nat k)) :: es)
        (Told (row_ledger (take k rows)) :: ns)
  | SaysListed rows n es ns : says es ns -> says (PacketEvent rows n :: es) (Listed rows n :: ns).

Lemma says_app es fs ns ms : says es ns -> says fs ms -> says (es ++ fs) (ns ++ ms).
Proof. intros He Hf. induction He; simpl; by try constructor. Qed.

Lemma says_removals gone : says (map removal gone) (map Gone gone).
Proof. induction gone; simpl; by constructor. Qed.

Section session.
Context `{Pcap} `{Ntop6} `{Env} `{Spdlog} `{!PcapOk}.

(** The state of the library is that of the book. *)
Definition keeps (c : CaptureCxx.t) (b : book) : Prop :=
  table c = bk_ledger b /\ says (CaptureCxx.events c) (bk_notices b) /\
  CaptureCxx.packetData c = bk_rows b /\
  CaptureCxx.processCallback c = bk_processes b /\ CaptureCxx.packetCallback c = bk_packets b.

Lemma announced_says r c2 c' b :
  inv c' -> table c' = prune (CaptureCxx.pids c2) (table c2) -> r < 2 ^ 31 ->
  CaptureCxx.processCallback c2 = bk_processes b -> CaptureCxx.packetCallback c2 = bk_packets b ->
  (CaptureCxx.processCallback c2 = true ->
   take (length (CaptureCxx.processes c')) (CaptureCxx.processData c') =
     map (fun kp => process_row kp.2) (CaptureCxx.processes c')) ->
  says (announced r c2 c')
    (notices b (CaptureCxx.pids c2) (table c2) (CaptureCxx.packetData c2) r).
Proof.
  intros Hc' Ht Hr Hp Hk Htold. unfold announced, removals, notices. rewrite Hk, app_assoc.
  apply says_app.
  - rewrite <- Hp. destruct (CaptureCxx.processCallback c2); [|constructor].
    apply says_app; [apply says_removals|]. rewrite <- Ht. unfold table.
    rewrite <- (row_ledger_rows _ (inv_processes _ Hc')), <- (Htold eq_refl).
    apply SaysTold, SaysNil.
  - destruct (bk_packets b), (Z.ltb_spec 0 r), (negb _); simpl; try constructor.
    rewrite u32_id by lia. apply SaysListed, SaysNil.
Qed.

(** A run, and the frames it got from the wire: an update has one delivery of
    every handle. *)
Inductive wired : list frame -> CaptureCxx.t * nat -> CaptureCxx.t * nat -> Prop :=
  | WiredNil ct : wired [] ct ct
  | WiredTime c t t' fs ct : (t <= t')%nat -> wired fs (c, t') ct -> wired fs (c, t) ct
  | WiredCall k c t ret c' t' batches fs ct :
      exec k c t = Done (ret, c', t') ->
      match k with
      | UpdateCall cnt => delivered cnt t t' (CaptureCxx.handles c) batches
      | _ => batches = []
      end ->
      wired fs (c', t') ct -> wired (concat batches ++ fs) (c, t) ct.

Lemma delivered_sized cnt t t' hs batches :
  delivered cnt t t' hs batches -> Forall sized (concat batches).
Proof.
  induction 1 as [|t u t' h p hs batches _ _ _ IH]; simpl; [constructor|].
  apply Forall_app. split; [|exact IH]. apply Forall_forall. intros f. unfold batch_at.
  rewrite list_elem_of_fmap. intros ([hdr packet] & -> & Hin).
  destruct (pcap_dispatch u p cnt) as [r pkts] eqn:Hd.
  pose proof (dispatch_packets _ _ _ _ _ Hd) as Hpk. rewrite Forall_forall in Hpk.
  destruct (Hpk _ Hin) as (_ & _ & _ & Hw). unfold sized. simpl. unfold word32 in Hw. lia.
Qed.

Lemma wired_sized fs ct ct' : wired fs ct ct' -> Forall sized fs.
Proof.
  induction 1 as [|c t t' fs ct _ _ IH|k c t ret c' t' bs fs ct _ Hbs _ IH]; [constructor|exact IH|].
  apply Forall_app. split; [|exact IH].
  destruct k; [by subst bs; constructor|by eapply delivered_sized|by subst bs; constructor].
Qed.

(** A call of the library that returns, and what it did. *)
Inductive performs : call -> CaptureCxx.t * nat -> deed -> CaptureCxx.t * nat -> Prop :=
  | PerformsInit config pcb kcb c t ret c' t' :
      CaptureInit config pcb kcb c t = Done (ret, c', t') -> (ret = 0 -> listed_by c') ->
      performs (InitCall config pcb kcb) (c, t) (Initialised ret (CaptureCxx.pids c') pcb kcb) (c', t')
  | PerformsUpdate cnt c t ret c' t' batches r :
      CaptureUpdate cnt c t = Done (ret, c', t') ->
      delivered cnt t t' (CaptureCxx.handles c) batches -> last_counts 0 r batches ->
      listed_by c' -> read_for (CaptureCxx.devices c) (CaptureCxx.pids c') (CaptureCxx.helper c') ->
      performs (UpdateCall cnt) (c, t)
        (Updated ret (CaptureCxx.devices c) (CaptureCxx.helper c') (CaptureCxx.pids c') batches r) (c', t')
  | PerformsExit c t ret c' t' :
      CaptureExit c t = Done (ret, c', t') -> performs ExitCall (c, t) Ended (c', t').

(** A run of the library and its book side by side: every call makes the entry of
    what it did, and after it the state is that of the book. *)
Inductive booked : list deed -> CaptureCxx.t * nat -> book -> CaptureCxx.t * nat -> book -> Prop :=
  | BookedNil ct b : booked [] ct b ct b
  | BookedTime ds c t t' b ct b' :
      (t <= t')%nat -> booked ds (c, t') b ct b' -> booked ds (c, t) b ct b'
  | BookedCall k d ds ct b ct1 b1 ct2 b2 :
      performs k ct d ct1 -> entry d b b1 -> keeps ct1.1 b1 ->
      booked ds ct1 b1 ct2 b2 -> booked (d :: ds) ct b ct2 b2.

(** One call of the library makes one entry. *)
Lemma update_books cnt t t' c c1 c2 batches r ret c' b :
  updated cnt t t' c c1 c2 batches r ret c' -> inv c' -> keeps c b ->
  exists b', entry (Updated ret (CaptureCxx.devices c) (CaptureCxx.helper c') (CaptureCxx.pids c')
    batches r) b b' /\ keeps c' b'.
Proof.
  intros Hup Hc' (HL & Hsays & Hrows & Hcb & Hkb).
  pose proof (updated_stored _ _ _ _ _ _ _ _ _ _ Hup) as Hstored. rewrite Hrows, Hkb in Hstored.
  eexists. split; [by eapply EntryUpdate|].
  destruct (updated_table _ _ _ _ _ _ _ _ _ _ Hup) as (Ht & Hh & Hpids).
  rewrite <- Hh, <- Hpids, HL in Ht. split; [exact Ht|]. destruct Hup as [Hst _ _ Ha Hr Hfin _].
  pose proof (absorbs_host _ _ _ Ha) as [He2 Hp2]. destruct (st_host _ _ Hst) as [He1 Hp1].
  pose proof (absorbs_view _ _ _ Ha) as (_ & _ & Hpv & Hk2).
  pose proof (absorbs_table _ _ _ Ha) as Ht2. rewrite (st_devices _ _ Hst), <- Hh in Ht2.
  replace (table c1) with (bk_ledger b) in Ht2
    by (rewrite <- HL; unfold table; by rewrite (st_processes _ _ Hst)).
  pose proof (st_callback _ _ Hst) as Hk1. destruct (fin_rows _ _ _ _ Hfin) as [Hd _].
  pose proof (fin_host _ _ _ _ Hfin) as Hp'. destruct (fin_view _ _ _ _ Hfin) as (_ & _ & _ & Hk').
  split; [|simpl; split; [done|split; congruence]].
  destruct (Z.eqb_spec ret 0) as [E|E];
    [|by simpl; rewrite app_nil_r, (fin_silent _ _ _ _ Hfin E), He2, He1].
  rewrite (fin_announced _ _ _ _ Hfin E), He2, He1. apply says_app; [done|].
  rewrite <- Ht2, Hpids, <- Hpv, Hd.
  apply announced_says; [done|by apply (fin_pruned _ _ _ _ Hfin)| |congruence..|by apply (fin_told _ _ _ _ Hfin)].
  unfold last_counts, counts in Hr. destruct (last batches); lia.
Qed.

Lemma exec_books k c t ret c' t' b :
  inv c -> exec k c t = Done (ret, c', t') -> keeps c b ->
  exists d b', performs k (c, t) d (c', t') /\ entry d b b' /\ keeps c' b'.
Proof.
  intros Hc Hrun Hb. pose proof Hb as (HL & Hsays & Hrows & _).
  destruct k as [config pcb kcb|cnt|]; simpl in Hrun.
  - destruct (wlp_elim _ _ _ _ _ _ _ (init_ledger config pcb kcb c t Hc) Hrun)
      as (Ht & [[He Hp] [Hk Hd]] & Hl).
    eexists _, _. split; [by apply PerformsInit|]. split; [apply EntryInit|].
    split; [by rewrite Ht, HL|]. split; [by rewrite He|]. split; [by rewrite Hd|done].
  - destruct (wlp_elim _ _ _ _ _ _ _ (Update_phases cnt false c t Hc) Hrun)
      as (c1 & c2 & batches & r & Hup).
    destruct (wlp_elim _ _ _ _ _ _ _ (update_spec (fun _ => True) host_ok_any c cnt false t Hc) Hrun)
      as ([Hc' _] & _).
    destruct (update_books _ _ _ _ _ _ _ _ _ _ b Hup Hc' Hb) as (b' & Hb' & Hk).
    destruct (updated_table _ _ _ _ _ _ _ _ _ _ Hup) as (_ & Hh & Hp).
    pose proof (up_started _ _ _ _ _ _ _ _ _ _ Hup) as Hst.
    destruct (st_refreshed _ _ Hst) as (rr & u1 & u2 & Href).
    eexists _, b'. split; [|by split]. apply PerformsUpdate; [done|apply Hup..| |].
    + unfold listed_by. rewrite Hp. apply Hst.
    + rewrite Hh, Hp. by exists rr, (CaptureCxx.helper c), u1, u2.
  - injection Hrun as _ <- <-. exists Ended, b. split; [by eapply PerformsExit|].
    by split; [apply EntryEnd|].
Qed.

(** The library keeps a book, in every state a host can bring it to. *)
Lemma run_books ct ct' :
  rtc step ct ct' -> inv ct.1 -> forall b, keeps ct.1 b ->
  exists ds b', booked ds ct b ct' b' /\ keeps ct'.1 b'.
Proof.
  induction 1 as [ct|ct ct1 ct2 Hstep _ IH]; intros Hc b Hb.
  { exists [], b. by split; [apply BookedNil|]. }
  pose proof (reachable_from_inv _ _ (rtc_once _ _ Hstep) Hc) as Hc1.
  destruct Hstep as [k c t ret c1 t1 Hrun|c t t1 Ht]; simpl in *.
  - destruct (exec_books _ _ _ _ _ _ _ Hc Hrun Hb) as (d & b1 & Hd & He & Hb1).
    destruct (IH Hc1 b1 Hb1) as (ds & b2 & Hw & Hb2). exists (d :: ds), b2.
    by split; [eapply BookedCall|].
  - destruct (IH Hc b Hb) as (ds & b2 & Hw & Hb2). exists ds, b2. by split; [eapply BookedTime|].
Qed.

(** The frames of a book came from the wire, and it counts no byte besides. *)
Lemma booked_wired ds ct b ct' b' :
  booked ds ct b ct' b' -> wired (concat (map frames_of ds)) ct ct'.
Proof.
  induction 1 as [|ds c t t' b ct b' Ht _ IH|k d ds ct b ct1 b1 ct2 b2 Hd _ _ _ IH];
    [apply WiredNil|by eapply WiredTime|].
  simpl. destruct Hd as [config pcb kcb c t ret c' t' Hrun _|cnt c t ret c' t' bs r Hrun Hbs _ _ _|c t ret c' t' Hrun].
  - by apply (WiredCall (InitCall config pcb kcb) c t ret c' t' []).
  - by apply (WiredCall (UpdateCall cnt) c t ret c' t' bs).
  - by apply (WiredCall ExitCall c t ret c' t' []).
Qed.

Lemma booked_within n ds ct b ct' b' :
  booked ds ct b ct' b' -> Forall sized (concat (map frames_of ds)) -> within n b ->
  within (n + bytes (concat (map frames_of ds))) b'.
Proof.
  intros Hb. revert n.
  induction Hb as [|ds c t t' b ct b' _ _ IH|k d ds ct b ct1 b1 ct2 b2 _ He _ _ IH]; intros n Hfs Hn.
  - simpl. by rewrite Z.add_0_r.
  - by apply IH.
  - simpl in *. apply Forall_app in Hfs as [Hf Hg]. rewrite bytes_app, Z.add_assoc.
    by apply IH, (entry_within n d b).
Qed.

Lemma keeps_new : keeps CaptureCxx.new book_new.
Proof. split; [done|]. split; [constructor|by split]. Qed.

(** C3: the library refines the book.  A host that brings the library to a state,
    by any calls in any order, brings the book there call by call: each call
    makes one entry, of its own code, of the callbacks it was given, of the pids
    it found and, for an update, of its local addresses, its socket table and
    what its handles delivered; and after each call the table of processes is the
    ledger, the table of packets has the book's rows, the calls that the two
    callbacks have had are the notices, in order, and the callbacks there are
    are the book's.  An initialisation resets pids if its code is 0, sets the
    callbacks and says nothing; an update credits its frames, writes a row for
    each that arrived at a process if the host listens to packets, and then, if
    its code is 0, says which processes have gone, what the ledger is without
    them, and what the rows are; a callback that the host did not give is told
    nothing. *)
Theorem runs_refine c t :
  reachable (c, t) ->
  exists ds b, booked ds (CaptureCxx.new, 0%nat) book_new (c, t) b /\
    table c = bk_ledger b /\ says (CaptureCxx.events c) (bk_notices b) /\
    CaptureCxx.packetData c = bk_rows b /\
    CaptureCxx.processCallback c = bk_processes b /\ CaptureCxx.packetCallback c = bk_packets b.
Proof. intros Hr. exact (run_books _ _ Hr inv_new book_new keeps_new). Qed.

(** C4: no byte is counted that was not on the wire, nor twice.  In every state
    that a host can bring the library to, the bytes of all processes together,
    sent and received, are at most those of the frames that libpcap has
    delivered on the way; and so are those of every table that the process
    callback has ever been given. *)
Theorem reports_accounted c t :
  reachable (c, t) ->
  exists fs, wired fs (CaptureCxx.new, 0%nat) (c, t) /\ total (table c) <= bytes fs /\
    exists told, says (CaptureCxx.events c) told /\
      forall L, Told L ∈ told -> total L <= bytes fs.
Proof.
  intros Hr. destruct (run_books _ _ Hr inv_new book_new keeps_new) as (ds & b & Hbk & HL & Hs & _).
  pose proof (booked_wired _ _ _ _ _ Hbk) as Hw.
  assert (within 0 book_new) as Hnew by (split; [|constructor]; split; [apply map_Forall_empty|done]).
  destruct (booked_within 0 _ _ _ _ _ Hbk (wired_sized _ _ _ Hw) Hnew) as [[_ Ht] Hn].
  simpl in HL. eexists. split; [done|]. rewrite HL. split; [exact Ht|]. exists (bk_notices b).
  split; [exact Hs|]. intros L Hin. rewrite Forall_forall in Hn. exact (Hn _ Hin).
Qed.
End session.

(** ** The sample system *)

Lemma app_reaches :
  exists c t, @reachable app_pcap full_ntop6 app_env app_log (c, t) /\
    length (CaptureCxx.events c) = 4%nat.
Proof.
  destruct app_run_returns as (rets & c & t & Hrun & Hlen). exists c, t.
  split; [|exact Hlen]. exact (session_reachable app_calls _ _ _ _ _ Hrun).
Qed.

(** Two updates: two tables of processes and two of packets. *)
Lemma runs_refine_witness :
  exists c t ds b, length (CaptureCxx.events c) = 4%nat /\
    @booked app_pcap full_ntop6 app_env app_log ds (@CaptureCxx.new app_pcap, 0%nat) book_new (c, t) b /\
    says (CaptureCxx.events c) (bk_notices b).
Proof.
  destruct app_reaches as (c & t & Hr & Hlen).
  destruct (@runs_refine app_pcap full_ntop6 app_env app_log app_pcap_ok c t Hr)
    as (ds & b & Hb & _ & Hs & _).
  exists c, t, ds, b. split; [exact Hlen|]. split; [exact Hb|exact Hs].
Defined.

Lemma reports_accounted_witness :
  exists c t fs, length (CaptureCxx.events c) = 4%nat /\
    @wired app_pcap full_ntop6 app_env app_log fs (@CaptureCxx.new app_pcap, 0%nat) (c, t) /\
    total (table c) <= bytes fs.
Proof.
  destruct app_reaches as (c & t & Hr & Hlen).
  destruct (@reports_accounted app_pcap full_ntop6 app_env app_log app_pcap_ok c t Hr)
    as (fs & Hw & Ht & _).
  exists c, t, fs. split; [exact Hlen|]. split; [exact Hw|exact Ht].
Defined.
