(* ===== verification/Connection.v ===== *)
(** From a connection to the ledger: in a system that does not change, every
    frame of a connection is charged to the process that holds its socket, and
    to nobody when none does.  The
    theorem composes the parser, the key of a packet, the socket table, the
    scan of the processes' descriptors and the update. *)

From stdpp Require Import gmap.
From S2P Require Import Prelude Cstring Inet Stream Scanf OrdMap Pod Device Packet Inode Process.
From S2P Require Import Handle Logger Transport Protocol Capture Api Frame Rows Ledger.

(** ** The frames of a connection *)

Definition ip_ends (p : ip_packet) : ends :=
  match p with V4 p => Ends4 (i4_src p) (i4_dst p) | V6 p => Ends6 (i6_src p) (i6_dst p) end.

Definition no_options (p : ip_packet) : Prop := match p with V4 p => i4_options p = [] | V6 _ => True end.

(** The start of a transport header: the ports in network order. *)
Definition print_ports (sport dport : Z) : list Z :=
  [sport / 256; sport mod 256; dport / 256; dport mod 256].

Lemma ports_print sport dport rest : ports (print_ports sport dport ++ rest) = Some (sport, dport).
Proof.
  simpl. unfold ntohs. pose proof (Z.div_mod sport 256). pose proof (Z.div_mod dport 256).
  do 2 f_equal; lia.
Qed.

(** A frame of the connection between the ends [e], this host's first, with the
    ports [lport] and [rport]: a TCP or UDP segment from one end to the other
    ([out]: from this host), over Ethernet or bare, cut anywhere after the
    ports. *)
Inductive carries (e : ends) (lport rport : Z) (out : bool) : frame -> Prop :=
  | Carries linktype l p kind header rest :
      link_ok l linktype -> ip_ok p -> no_options p -> 1 <= len header ->
      segment_kind (ip_proto p) = Some kind ->
      ip_ends p = (if out then e else swap_ends e) ->
      carries e lport rport out (linktype, (header, print_frame l p
        ((if out then print_ports lport rport else print_ports rport lport) ++ rest))).

(** A printed frame, taken apart. *)
Lemma dissect4_print p seg :
  ip_ok (V4 p) -> dissect4 (print_ip4 p seg) =
    (kind ← segment_kind (i4_proto p); Some (kind, ip_ends (V4 p), i4_options p ++ seg)).
Proof.
  intros Hp. destruct (print_ip4_fields p seg Hp) as (_ & H9 & Hs & Hd & Hr).
  unfold dissect4. by rewrite H9, Hs, Hd, Hr.
Qed.

Lemma dissect6_print p seg :
  ip_ok (V6 p) -> dissect6 (print_ip6 p seg) =
    (kind ← segment_kind (i6_proto p); Some (kind, ip_ends (V6 p), seg)).
Proof.
  intros Hp. destruct (print_ip6_fields p seg Hp) as (_ & H6 & Hs & Hd & Hr).
  unfold dissect6. by rewrite H6, Hs, Hd, Hr.
Qed.

Lemma dissect_print linktype header l p seg :
  link_ok l linktype -> ip_ok p -> 1 <= len header ->
  dissect linktype header (print_frame l p seg) =
    (kind ← segment_kind (ip_proto p); Some (kind, ip_ends p, ip_rest p seg)).
Proof.
  intros Hl Hp Hlen. unfold dissect. destruct l as [macs|].
  - destruct Hl as [Hm ->]. change (DLT_EN10MB =? DLT_EN10MB) with true. cbv iota zeta.
    do 12 (destruct macs as [|? macs]; [done|]). destruct macs; [|done].
    destruct p as [p|p].
    + change (drop ETHER_SIZE _) with (print_ip4 p seg). change (ntohs _ _) with ETHERTYPE_IP.
      change (_ =? ETHERTYPE_IP) with true. cbv iota. by apply dissect4_print.
    + change (drop ETHER_SIZE _) with (print_ip6 p seg). change (ntohs _ _) with ETHERTYPE_IPV6.
      change (ETHERTYPE_IPV6 =? ETHERTYPE_IP) with false. rewrite Z.eqb_refl. cbv iota.
      by apply dissect6_print.
  - simpl in Hl. rewrite Hl. change (DLT_RAW =? DLT_EN10MB) with false.
    change (DLT_RAW =? DLT_RAW) with true. cbv iota zeta.
    destruct (Z.ltb_spec (len header) 1); [lia|]. cbn [print_frame].
    rewrite print_ip_version by done.
    destruct p as [p|p]; simpl; [by apply dissect4_print|by apply dissect6_print].
Qed.

Section charged.
Context `{Pcap} `{Ntop6Ok} `{Env} `{!PcapOk}.

Lemma ends_outgoing devices e header sp dp :
  CapPacket.outgoing devices (ends_packet e header sp dp) = from_device devices e.
Proof. by destruct e. Qed.

Lemma ends_key_of devices e header sp dp :
  CapPacket.key_of devices (ends_packet e header sp dp) =
    if from_device devices e then ends_key e sp dp else ends_key (swap_ends e) dp sp.
Proof.
  unfold CapPacket.key_of, ends_key. rewrite ends_outgoing. destruct e; simpl;
    rewrite ?CapPacket.source_text_v4, ?CapPacket.dest_text_v4, ?CapPacket.source_text_v6,
      ?CapPacket.dest_text_v6 by done; done.
Qed.

Lemma swap_ends_twice e : swap_ends (swap_ends e) = e.
Proof. by destruct e. Qed.

(** A frame of a connection arrives where its key leads.  The end that counts as
    the host's is the source of the frame if it is a device's address, and else
    its destination. *)
Lemma carries_resolve devices helper e lp rp (out : bool) f :
  from_device devices (if out then e else swap_ends e) = out -> carries e lp rp out f ->
  exists kind p, resolve devices helper f =
    let '(ret, pid) := CapInodeHelper.GetPidByIp helper (ends_key e lp rp) (-1) in
    if ret =? 0 then Some (mk_arrival kind p f.2.1 pid out) else None.
Proof.
  intros Hout [linktype l p kind header rest Hlink Hp Hno Hlen Hkind Hends].
  exists kind. unfold resolve. rewrite dissect_print, Hkind by done. cbn [mbind option_bind].
  assert (forall seg, ip_rest p seg = seg) as -> by (destruct p as [p|p]; [intros; simpl in *; by rewrite Hno|done]).
  rewrite Hends. unfold resolve_segment.
  destruct out; rewrite ports_print; cbn [mbind option_bind]; rewrite ends_outgoing, ends_key_of;
    rewrite Hout, ?swap_ends_twice; by eexists.
Qed.

(** ** What every frame is worth

    A frame of a connection that a process holds is charged to the process; a
    frame of a connection that nobody holds, or that is no TCP or UDP segment
    over IP with its ports, to nobody.  A connection between two addresses of the
    host is held from both ends, and each of its frames is charged to the process
    at the sending end alone: no frame of it is ever received. *)
Inductive attributed (os : Os) (devices : list CapDevice.t) (pids : list Z) :
    frame -> (ledger -> ledger) -> Prop :=
  | AttributedTo e lport rport pid (out : bool) f :
      from_device devices (if out then e else swap_ends e) = out ->
      holds os devices pids e lport rport pid -> carries e lport rport out f ->
      attributed os devices pids f (charge pid out (len f.2.1))
  | AttributedNobody e lport rport (out : bool) f :
      from_device devices (if out then e else swap_ends e) = out ->
      unheld os devices pids e lport rport -> carries e lport rport out f ->
      attributed os devices pids f id
  | AttributedNone linktype header packet :
      ('(_, _, payload) ← dissect linktype header packet; ports payload) = None ->
      attributed os devices pids (linktype, (header, packet)) id.

Definition apply_all (gs : list (ledger -> ledger)) (L : ledger) : ledger :=
  foldl (fun L g => g L) L gs.

(** The socket table answers as the files of the system say. *)
Record resolves (os : Os) (devices : list CapDevice.t) (pids : list Z)
    (helper : CapInodeHelper.t) : Prop := {
  resolves_held e lp rp pid : holds os devices pids e lp rp pid ->
    CapInodeHelper.GetPidByIp helper (ends_key e lp rp) (-1) = (0, pid);
  resolves_unheld e lp rp : unheld os devices pids e lp rp ->
    fst (CapInodeHelper.GetPidByIp helper (ends_key e lp rp) (-1)) <> 0
}.

Lemma refreshed_resolves os devices pids h t r helper t' :
  steady os -> inspectable os pids ->
  CapInodeHelper.Refresh devices pids h t = Done (r, helper, t') -> resolves os devices pids helper.
Proof.
  intros Hos Hinsp Hrun. split.
  - intros e lp rp pid Hh.
    destruct (refreshed_holds os _ _ e lp rp pid h t Hos Hinsp Hh) as (h' & t1 & Hrun' & Hget).
    rewrite Hrun in Hrun'. injection Hrun' as _ -> _. apply Hget.
  - intros e lp rp Hh.
    destruct (refreshed_unheld os _ _ e lp rp h t Hos Hinsp Hh) as (h' & t1 & Hrun' & Hget).
    rewrite Hrun in Hrun'. injection Hrun' as _ -> _. apply Hget.
Qed.

Lemma credit_attributed os devices pids helper f g L :
  resolves os devices pids helper -> attributed os devices pids f g ->
  credit devices helper L f = g L.
Proof.
  intros [Hheld Hun] [e lp rp pid out f' Hout Hh Hc|e lp rp out f' Hout Hh Hc|lt hdr pk Hd]; unfold credit.
  - destruct (carries_resolve devices helper e lp rp out f' Hout Hc) as (kind & p & ->).
    by rewrite (Hheld _ _ _ _ Hh).
  - destruct (carries_resolve devices helper e lp rp out f' Hout Hc) as (kind & p & ->).
    specialize (Hun _ _ _ Hh). destruct (CapInodeHelper.GetPidByIp _ _ _) as [ret pid].
    by destruct (Z.eqb_spec ret 0).
  - unfold resolve. destruct (dissect lt hdr pk) as [[[kind e] payload]|]; [|done].
    simpl in *. unfold resolve_segment. by rewrite Hd.
Qed.

Lemma credits_attributed os devices pids helper fs gs L :
  resolves os devices pids helper ->
  Forall2 (attributed os devices pids) fs gs ->
  foldl (credit devices helper) L fs = apply_all gs L.
Proof.
  intros Hres Hfs. revert L. induction Hfs as [|f g fs gs Hf _ IH]; intros L; [done|].
  unfold apply_all in *. simpl. by rewrite <- IH, (credit_attributed _ _ _ _ _ _ _ Hres Hf).
Qed.

(** The processes the system lists. *)
Definition listed (entries : list dirent) (pids : list Z) : Prop :=
  ascending pids /\ forall x, x ∈ pids <-> exists e, e ∈ entries /\ entry_pid e x.

Lemma listed_unique entries pids pids' : listed entries pids -> listed entries pids' -> pids = pids'.
Proof.
  intros [Ha Hp] [Ha' Hp']. apply ascending_ext; [done..|]. intros k. by rewrite Hp, Hp'.
Qed.

(** C5: from the files of the system and the bytes of the frames to the ledger.
    On a host that is as the library expects it and does not change meanwhile,
    an update returns, and each handle is dispatched once, at an instant of its
    own during the update.  When every frame delivered is a TCP or UDP segment,
    over Ethernet or bare IP and without IPv4 options, of a connection that one
    process holds or that nobody holds, or is no segment with ports at all,
    the ledger after the update is the one before it with every frame of the
    first kind charged to the process, in its direction and with its length on
    the wire, in the order of delivery, and the others charged to nobody; then
    the comparison with the listed processes removes what it removes.  After an
    update that succeeds this ledger is what the process callback has just been
    told, row by row. *)
Theorem connections_charged os entries pids cnt icaptureAll c t :
  steady os -> steady_host -> os_opendir os "/proc" = Some entries -> listed entries pids ->
  inspectable os pids -> inv c ->
  exists ret c' t' batches,
    Update cnt icaptureAll c t = Done (ret, c', t') /\
    delivered cnt t t' (CaptureCxx.handles c) batches /\
    (ret = 0 -> CaptureCxx.processCallback c = true -> told c c') /\
    forall gs, Forall2 (attributed os (CaptureCxx.devices c) pids) (concat batches) gs ->
      table c' = if ret =? 0 then prune pids (apply_all gs (table c)) else apply_all gs (table c).
Proof.
  intros Hos Hhost Hdir Hpids Hinsp Hc.
  destruct (wp_elim _ _ _ _ (update_spec _ (steady_host_ok (fun _ => False) Hhost) c cnt icaptureAll t Hc))
    as (ret & c' & t' & Hrun & [Hc' _] & _ & Hrep).
  destruct (wlp_elim _ _ _ _ _ _ _ (Update_phases cnt icaptureAll c t Hc) Hrun)
    as (c1 & c2 & batches & r & Hup). pose proof (up_started _ _ _ _ _ _ _ _ _ _ Hup) as Hst.
  destruct (st_listed _ _ Hst) as (rl & cl0 & cl & t1 & t2 & Hlist & Hl1).
  destruct (st_refreshed _ _ Hst) as (rr & u1 & u2 & Href).
  exists ret, c', t', batches. split; [done|]. split; [apply Hup|].
  split; [intros E; eapply reported_told; [done|by apply Hrep]|]. intros gs Hgs.
  destruct (UpdatePids_run entries cl0 t1) as (ps & Hrun' & Hps).
  { by rewrite Hos. }
  { apply (steady_listing Hhost t1). by rewrite Hos. }
  rewrite Hlist in Hrun'. injection Hrun' as -> -> ->. simpl in Hl1.
  assert (pids = CaptureCxx.pids c1) as ->.
  { rewrite <- Hl1. by eapply listed_unique. }
  destruct (updated_table _ _ _ _ _ _ _ _ _ _ Hup) as (-> & _).
  by rewrite (credits_attributed _ _ _ _ _ _ _ (refreshed_resolves _ _ _ _ _ _ _ _ Hos Hinsp Href) Hgs).
Qed.
End charged.

(** ** The sample system *)

Lemma app_holds :
  @holds full_ntop6 app_os (CaptureCxx.devices app_capture) [42] (Ends4 16777343 33554442) 8080 80 42.
Proof.
  apply (sample_holds _ _ ["  sl  local_address rem_address"]).
  - vm_compute. reflexivity.
  - by left.
  - exists (mk_dirent "3" DT_LNK). split; [left|vm_compute; reflexivity].
  - intros p Hp _. by apply list_elem_of_singleton in Hp.
Qed.

(** No row of its tables is that of a connection from port 8081. *)
Example app_unheld :
  @unheld full_ntop6 app_os (CaptureCxx.devices app_capture) [42] (Ends4 16777343 33554442) 8081 80.
Proof.
  eapply UnheldNoRow; [vm_compute; reflexivity|].
  apply (bool_decide_unpack _). vm_compute. exact I.
Qed.

(** The two frames of the sample: a segment of the connection, an ARP packet. *)
Lemma app_attributed :
  Forall2 (@attributed full_ntop6 app_os (CaptureCxx.devices app_capture) [42])
    (map (pair 1) app_batch) [charge 42 true 60; id].
Proof.
  constructor; [|constructor; [|constructor]].
  - apply (@AttributedTo full_ntop6 _ _ _ (Ends4 16777343 33554442) 8080 80 42 true
      (1, (mk_pkthdr (0, 0) 42 60, sample_frame))); [reflexivity|apply app_holds|].
    unfold sample_frame. change sample_segment with (print_ports 8080 80 ++ [0; 0; 0; 1]).
    apply (Carries _ _ _ true 1 (Ethernet (repeat 2 12)) (V4 (sample_ip4 6 [])) P_TCP
      (mk_pkthdr (0, 0) 42 60) [0; 0; 0; 1]); try done.
  - apply AttributedNone. vm_compute. reflexivity.
Qed.

Lemma app_listed : listed sample_dirs [42].
Proof.
  destruct (@UpdatePids_run app_pcap app_env sample_dirs CaptureCxx.new 0%nat eq_refl sample_dirs_ok)
    as (ps & Hrun & Hps).
  assert (ps = [42]) as <-; [|exact Hps]. vm_compute in Hrun. by injection Hrun as <-.
Qed.

(** Process 42 is charged the 60 bytes of its segment. *)
Lemma connections_charged_witness :
  exists c' t', @Update app_pcap full_ntop6 app_env (-1) false app_capture 0%nat = Done (0, c', t') /\
    table c' = {[42 := (60, 0)]} /\ told app_capture c'.
Proof.
  destruct (@connections_charged app_pcap full_ntop6 full_ntop6_ok app_env app_pcap_ok app_os sample_dirs
    [42] (-1) false app_capture 0%nat (fun _ => eq_refl) app_steady eq_refl app_listed
    ltac:(repeat constructor; by eexists) app_capture_inv)
    as (ret & c' & t' & bs & Hrun & Hbs & Htold & Ht).
  destruct app_capture_updated as (ret' & c2 & t2 & Hrun' & Hz & _).
  rewrite Hz, Hrun in Hrun'. injection Hrun' as -> _ _. exists c', t'. split; [exact Hrun|].
  split; [|exact (Htold eq_refl eq_refl)].
  inversion Hbs as [|t0 u t1 h p hs bs' _ Hh Hrest]; subst. inversion Hrest; subst.
  rewrite (Ht _ app_attributed). vm_compute. reflexivity.
Defined.
