(* ===== verification/Stable.v ===== *)
(** A host whose processes do not change: nobody is lost, every byte that arrives
    stays in the table, and when its sockets do not change either, every
    connection is counted to the byte over a whole use of the library. *)

From stdpp Require Import gmap.
From S2P Require Import Prelude Cstring Inet Stream Scanf OrdMap Pod Device Packet Inode Process.
From S2P Require Import Handle Logger Transport Protocol Capture Api Frame Rows Ledger Connection.

Section stable.
Context `{Pcap} `{Ntop6} `{Env} `{Spdlog} `{!PcapOk}.

(** ** Successive updates

    The frames that the handles deliver during each, and what arrives at a
    process: with the local addresses and the socket table of that update. *)
Inductive updates :
    list Z -> list frame -> list arrival -> CaptureCxx.t * nat -> CaptureCxx.t * nat -> Prop :=
  | UpdatesNil ct : updates [] [] [] ct ct
  | UpdatesCons cnt cnts c t ret c1 t1 batches fs arrived ct :
      CaptureUpdate cnt c t = Done (ret, c1, t1) ->
      delivered cnt t t1 (CaptureCxx.handles c) batches ->
      updates cnts fs arrived (c1, t1) ct ->
      updates (cnt :: cnts) (concat batches ++ fs)
        (arrivals (CaptureCxx.devices c) (CaptureCxx.helper c1) (concat batches) ++ arrived)
        (c, t) ct.

Lemma arriving_app pid out arrived arrived' :
  arriving pid out (arrived ++ arrived') = arriving pid out arrived + arriving pid out arrived'.
Proof. induction arrived as [|a arrived IH]; simpl; [done|]. rewrite IH. lia. Qed.

(** ** A listing that does not change *)

Context (entries : list dirent) (Hentries : Forall entry_ok entries)
  (Hproc : forall t, os_opendir (env_at t) "/proc" = Some entries).

Lemma listed_by_listed c : listed_by c -> listed entries (CaptureCxx.pids c).
Proof.
  intros (r & c1 & c2 & t1 & t2 & Hrun & <-).
  destruct (UpdatePids_run entries c1 t1 (Hproc t1) Hentries) as (ps & Hrun' & Hps).
  rewrite Hrun in Hrun'. by injection Hrun' as -> -> ->.
Qed.

(** The table holds the processes of the listing. *)
Definition populated (pids : list Z) (c : CaptureCxx.t) : Prop :=
  inv c /\ keys (CaptureCxx.processes c) = pids.

Definition figures_of (c : CaptureCxx.t) (pid : Z) : Z * Z := default (0, 0) (table c !! pid).

Definition nobody_gone (es : list event) : Prop := forall pid, removal pid ∉ es.

Lemma nobody_gone_app es es' : nobody_gone es -> nobody_gone es' -> nobody_gone (es ++ es').
Proof. intros He He' pid [Hin|Hin]%elem_of_app; [by apply (He pid)|by apply (He' pid)]. Qed.

Lemma announced_nobody r c2 c' :
  inv c2 -> length (CaptureCxx.pids c2) = length (CaptureCxx.processes c2) ->
  nobody_gone (announced r c2 c').
Proof.
  intros Hc2 Hlen pid. unfold announced, departed. rewrite pids_of_table by done.
  unfold keys. rewrite length_map, Hlen, Nat.eqb_refl. unfold removals, removal.
  destruct (CaptureCxx.processCallback c2), (_ && _ && _); set_solver.
Qed.

Definition refreshed (pids : list Z) (c c' : CaptureCxx.t) : Prop :=
  CaptureCxx.devices c' = CaptureCxx.devices c /\
  read_for (CaptureCxx.devices c) pids (CaptureCxx.helper c').

(** One update. *)
Lemma stable_update pids cnt c t ret c' t' :
  listed entries pids -> populated pids c -> CaptureUpdate cnt c t = Done (ret, c', t') ->
  exists batches, delivered cnt t t' (CaptureCxx.handles c) batches /\ populated pids c' /\
    refreshed pids c c' /\
    table c' = foldl (credit (CaptureCxx.devices c) (CaptureCxx.helper c')) (table c) (concat batches) /\
    let arrived := arrivals (CaptureCxx.devices c) (CaptureCxx.helper c') (concat batches) in
    Forall (fun a => ar_pid a ∈ pids) arrived /\
    exists es, CaptureCxx.events c' = CaptureCxx.events c ++ es /\ nobody_gone es.
Proof.
  intros Hpids [Hc Hk] Hrun. unfold CaptureUpdate in Hrun.
  destruct (wlp_elim _ _ _ _ _ _ _ (Update_phases cnt false c t Hc) Hrun)
    as (c1 & c2 & batches & r & Hup).
  destruct (wlp_elim _ _ _ _ _ _ _ (update_spec (fun _ => True) host_ok_any c cnt false t Hc) Hrun)
    as ([Hc' _] & _).
  pose proof Hup as [Hst Hc2 Hbs Ha _ Hfin].
  assert (CaptureCxx.pids c1 = pids) as Hp1.
  { eapply listed_unique; [|exact Hpids]. apply listed_by_listed, Hst. }
  destruct (updated_keys _ _ _ _ _ _ _ _ _ _ Hc Hup) as [Hk2 Hp2]; [congruence|].
  destruct (updated_table _ _ _ _ _ _ _ _ _ _ Hup) as (Ht & Hh & _).
  pose proof (absorbs_view _ _ _ Ha) as (_ & _ & Hpv & _).
  assert (length (CaptureCxx.pids c2) = length (CaptureCxx.processes c2)) as Hlen.
  { rewrite Hpv, Hp1, <- Hk, <- Hk2. apply length_map. }
  destruct (st_refreshed _ _ Hst) as (rr & u1 & u2 & Href).
  exists batches. split; [done|]. split; [split; [done|congruence]|].
  split; [split|]; [|by exists rr, (CaptureCxx.helper c), u1, u2; rewrite Hh, <- Hp1|].
  { destruct (fin_view _ _ _ _ Hfin) as (-> & _), (absorbs_view _ _ _ Ha) as (-> & _).
    apply (st_devices _ _ Hst). }
  assert (table c' = foldl (credit (CaptureCxx.devices c) (CaptureCxx.helper c')) (table c) (concat batches))
    as Ht'.
  { rewrite Hh. destruct (Z.eqb_spec ret 0) as [E|E]; [|exact Ht].
    unfold table at 1. rewrite Hp2. fold (table c2).
    rewrite (absorbs_table _ _ _ Ha), (st_devices _ _ Hst). unfold table at 1.
    by rewrite (st_processes _ _ Hst). }
  split; [exact Ht'|]. intros arrived. split.
  - apply Forall_forall. intros a (f & _ & Hf)%list_elem_of_omap. rewrite Hh in Hf.
    apply resolve_owner in Hf as [_ [i Hi]].
    destruct (wlp_elim _ _ _ _ _ _ _ (Refresh_wlp _ _ _ u1) Href) as (_ & Hsock & _).
    rewrite <- Hp1. by apply (Hsock i).
  - destruct (absorbs_host _ _ _ Ha) as [He2 _]. destruct (st_host _ _ Hst) as [He1 _].
    destruct (Z.eq_dec ret 0) as [E|E].
    + exists (announced r c2 c'). split; [|by apply announced_nobody].
      by rewrite (fin_announced _ _ _ _ Hfin E), He2, He1.
    + exists []. rewrite app_nil_r. split; [|by intros pid ?%elem_of_nil].
      by rewrite (fin_silent _ _ _ _ Hfin E), He2, He1.
Qed.

(** The figures after some arrivals. *)
Definition credited (arrived : list arrival) (v : Z * Z) (pid : Z) : Z * Z :=
  (u64 (v.1 + arriving pid true arrived), u64 (v.2 + arriving pid false arrived)).

Lemma credited_app arrived arrived' v pid :
  credited (arrived ++ arrived') v pid = credited arrived' (credited arrived v pid) pid.
Proof. unfold credited. simpl. by rewrite !arriving_app, !u64_add_idemp, !Z.add_assoc. Qed.

Lemma credited_nil c pid : inv c -> credited [] (figures_of c pid) pid = figures_of c pid.
Proof.
  intros Hc. destruct (table_range c pid Hc). unfold credited, figures_of in *. simpl.
  rewrite !Z.add_0_r, !u64_id by done. by destruct (default _ _).
Qed.

Lemma credited_table devices helper fs c L pid :
  inv c -> L = foldl (credit devices helper) (table c) fs ->
  default (0, 0) (L !! pid) = credited (arrivals devices helper fs) (figures_of c pid) pid.
Proof.
  intros Hc ->. destruct (table_range c pid Hc).
  apply credits_lookup; [|done..]. unfold figures_of. by destruct (default _ _).
Qed.

(** The ledger after several updates: each with a socket table of its own. *)
Definition credited_by (pids : list Z) (c : CaptureCxx.t) (fs : list frame) (c' : CaptureCxx.t) : Prop :=
  exists parts : list (CapInodeHelper.t * list frame),
    concat (map snd parts) = fs /\
    Forall (fun x => read_for (CaptureCxx.devices c) pids x.1) parts /\
    table c' = foldl (fun L x => foldl (credit (CaptureCxx.devices c) x.1) L x.2) (table c) parts.

Lemma credited_by_step pids c c1 c2 batch fs :
  refreshed pids c c1 ->
  table c1 = foldl (credit (CaptureCxx.devices c) (CaptureCxx.helper c1)) (table c) batch ->
  credited_by pids c1 fs c2 -> credited_by pids c (batch ++ fs) c2.
Proof.
  intros [Hd Hr] Ht (parts & <- & Hp & Ht2). exists ((CaptureCxx.helper c1, batch) :: parts).
  rewrite Hd in Hp. split; [done|]. split; [by constructor|].
  simpl. by rewrite Ht2, Hd, Ht.
Qed.

Lemma stable_updates pids cnts c t rets c' t' :
  listed entries pids -> populated pids c -> session (map UpdateCall cnts) c t = Done (rets, c', t') ->
  exists fs arrived, updates cnts fs arrived (c, t) (c', t') /\ populated pids c' /\
    credited_by pids c fs c' /\
    Forall (fun a => ar_pid a ∈ pids) arrived /\
    (forall pid, figures_of c' pid = credited arrived (figures_of c pid) pid) /\
    exists es, CaptureCxx.events c' = CaptureCxx.events c ++ es /\ nobody_gone es.
Proof.
  intros Hpids. revert c t rets. induction cnts as [|cnt cnts IH]; intros c t rets Hc; cbn [map session].
  { intros [= _ <- <-]. exists [], []. split; [apply UpdatesNil|]. split; [done|].
    split; [by exists []|]. split; [constructor|].
    split; [intros pid; symmetry; by apply credited_nil, Hc|]. exists []. rewrite app_nil_r.
    split; [done|]. by intros pid ?%elem_of_nil. }
  cbv [mbind M_bind]. cbn [exec]. destruct (CaptureUpdate cnt c t) as [[[ret c1] t1]| | |] eqn:E; try done.
  destruct (session _ c1 t1) as [[[rs c2] t2]| | |] eqn:Es; try done. intros [= _ <- <-].
  destruct (stable_update _ _ _ _ _ _ _ Hpids Hc E) as (bs & Hbs & Hc1 & Href & Ht & Harr & es & He & Hn).
  destruct (IH c1 t1 rs Hc1 Es) as (fs & arrived & Hup & Hc2 & Hcr & Harr2 & Hfig2 & es2 & He2 & Hn2).
  eexists _, _. split; [by eapply UpdatesCons|]. split; [done|].
  split; [by eapply credited_by_step|]. split; [by apply Forall_app|].
  split.
  { intros pid. rewrite Hfig2, credited_app. f_equal. by apply credited_table; [apply Hc|]. }
  exists (es ++ es2). split; [by rewrite He2, He, app_assoc|]. by apply nobody_gone_app.
Qed.

(** The state an initialisation leaves. *)
Lemma foldl_reset_lookup pids L pid :
  foldl reset L pids !! pid = if decide (pid ∈ pids) then Some (0, 0) else L !! pid.
Proof.
  revert L. induction pids as [|p pids IH]; intros L; simpl; [done|]. rewrite IH. unfold reset.
  destruct (decide (pid = p)) as [->|Hne].
  - rewrite (decide_True (P := p ∈ p :: pids)) by left. rewrite lookup_insert_eq. by case_decide.
  - rewrite lookup_insert_ne by done. repeat case_decide; set_solver.
Qed.

Lemma stable_init config pcb kcb c t :
  CaptureInit config pcb kcb CaptureCxx.new 0%nat = Done (0, c, t) ->
  listed entries (CaptureCxx.pids c) /\ populated (CaptureCxx.pids c) c /\
  (forall pid, figures_of c pid = (0, 0)) /\ CaptureCxx.events c = [].
Proof.
  intros Hrun. unfold CaptureInit in Hrun.
  destruct (wlp_elim _ _ _ _ _ _ _ (init_ledger config pcb kcb _ _ inv_new) Hrun) as (Ht & [[He _] _] & Hl).
  pose proof (init_spec (fun _ => True) host_ok_any config pcb kcb _ 0%nat (or_introl (fun _ => I))
    (or_introl I) inv_new) as Hspec.
  destruct (wlp_elim _ _ _ _ _ _ _ Hspec Hrun) as (Hc & _). cbn [Z.eqb] in Ht.
  assert (forall pid, table c !! pid = if decide (pid ∈ CaptureCxx.pids c) then Some (0, 0) else None)
    as Hlook by (intros pid; rewrite Ht; apply foldl_reset_lookup).
  split; [by apply listed_by_listed, Hl|]. split; [split; [done|]|split; [|done]].
  - rewrite <- pids_of_table by done. apply ascending_ext; [apply pids_of_ascending|apply Hc|].
    intros k. rewrite elem_of_pids_of, Hlook. case_decide; [split; [done|by eexists]|].
    split; [by intros []|done].
  - intros pid. unfold figures_of. rewrite Hlook. by case_decide.
Qed.

(** C6: on a host whose processes do not change, nothing is lost.  Whatever else
    changes, the frames, the sockets, the files and whether they can be read,
    after an initialisation with code 0 and any number of updates, with any
    codes: the table holds exactly the processes that the system lists; every
    frame that arrived at a process during any of the updates arrived at one of
    these, and the bytes of each, sent and received, are the sums of what
    arrived at it since the initialisation, modulo 2^64; and the host was never
    told that one of them has gone. *)
Theorem living_processes_kept config pcb kcb cnts rets c t :
  session (InitCall config pcb kcb :: map UpdateCall cnts) CaptureCxx.new 0%nat
    = Done (0 :: rets, c, t) ->
  exists pids c1 t1 fs arrived,
    CaptureInit config pcb kcb CaptureCxx.new 0%nat = Done (0, c1, t1) /\
    updates cnts fs arrived (c1, t1) (c, t) /\
    listed entries pids /\ keys (CaptureCxx.processes c) = pids /\
    Forall (fun a => ar_pid a ∈ pids) arrived /\
    (forall pid p, map_find pid (CaptureCxx.processes c) = Some p ->
       CapProcess.send p = u64 (arriving pid true arrived) /\
       CapProcess.recv p = u64 (arriving pid false arrived)) /\
    nobody_gone (CaptureCxx.events c).
Proof.
  cbn [session]. cbv [mbind M_bind]. cbn [exec].
  destruct (CaptureInit _ _ _ _ _) as [[[ret c1] t1]| | |] eqn:E; try done.
  destruct (session _ c1 t1) as [[[rs c2] t2]| | |] eqn:Es; try done. intros [= -> <- <- <-].
  destruct (stable_init _ _ _ _ _ E) as (Hl & Hpop & Hz & He).
  destruct (stable_updates _ _ _ _ _ _ _ Hl Hpop Es) as (fs & arrived & Hup & [_ Hk] & _ & Harr & Hfig & es & He2 & Hn).
  exists (CaptureCxx.pids c1), c1, t1, fs, arrived. repeat (split; [done|]). split.
  - intros pid p Hp. specialize (Hfig pid). unfold figures_of at 1, table in Hfig.
    rewrite ledger_of_lookup, Hp, Hz in Hfig. by injection Hfig.
  - by rewrite He2, He.
Qed.
End stable.

(** ** Connections over several updates *)

Section counted.
Context `{Pcap} `{Ntop6Ok} `{Env} `{Spdlog} `{!PcapOk}.

Lemma apply_all_app gs gs' L : apply_all (gs ++ gs') L = apply_all gs' (apply_all gs L).
Proof. apply foldl_app. Qed.

Lemma credited_attributed os pids c fs c' gs :
  steady os -> inspectable os pids -> credited_by pids c fs c' ->
  Forall2 (attributed os (CaptureCxx.devices c) pids) fs gs -> table c' = apply_all gs (table c).
Proof.
  intros Hos Hinsp (parts & <- & Hparts & ->). generalize (table c). revert gs.
  induction Hparts as [|[h batch] parts Hh _ IH]; intros gs L Hgs; simpl in *; [by inversion Hgs|].
  apply Forall2_app_inv_l in Hgs as (gs1 & gs2 & H1g & H2g & ->).
  rewrite apply_all_app, <- IH by done. f_equal.
  destruct Hh as (r & h0 & t & t' & Hrun). eapply credits_attributed; [|exact H1g].
  by eapply refreshed_resolves.
Qed.

(** C7: every connection is counted to the byte, over a whole use of the library.
    On a host that is as the library expects it and does not change, an
    initialisation and any number of updates return.  If the initialisation has
    code 0, and every frame delivered in any of the updates is a TCP or UDP
    segment, over Ethernet or bare IP and without IPv4 options, of a connection
    that one process holds or that nobody holds, or is no segment with ports at
    all, then the ledger after them has nothing for every listed process but
    the frames of its connections, each charged once, in its direction and with
    its length on the wire.  Nothing is removed, and the host is never told that
    a process has gone. *)
Theorem connections_counted os entries pids config pcb kcb cnts :
  steady os -> steady_host -> os_opendir os "/proc" = Some entries -> listed entries pids ->
  inspectable os pids ->
  well_called (InitCall config pcb kcb) -> log_usable (InitCall config pcb kcb) ->
  exists ret rets c t,
    session (InitCall config pcb kcb :: map UpdateCall cnts) CaptureCxx.new 0%nat
      = Done (ret :: rets, c, t) /\
    (ret = 0 -> exists c1 t1 fs arrived,
       CaptureInit config pcb kcb CaptureCxx.new 0%nat = Done (0, c1, t1) /\
       updates cnts fs arrived (c1, t1) (c, t) /\ nobody_gone (CaptureCxx.events c) /\
       forall gs, Forall2 (attributed os (CaptureCxx.devices c1) pids) fs gs ->
         table c = apply_all gs (foldl reset ∅ pids)).
Proof.
  intros Hos Hhost Hdir Hpids Hinsp Hcall Hlog.
  assert (forall t, os_opendir (env_at t) "/proc" = Some entries) as Hproc by (intros t; by rewrite Hos).
  pose proof (steady_listing Hhost 0%nat entries (Hproc 0%nat)) as Hentries.
  set (ks := InitCall config pcb kcb :: map UpdateCall cnts).
  assert (Forall well_called ks /\ Forall log_usable ks) as [Hcalls Hlogs]
    by (split; (constructor; [done|by apply Forall_map, Forall_true])).
  destruct (wp_elim _ _ _ _ (session_returns ks CaptureCxx.new 0%nat Hhost Hcalls Hlogs inv_new))
    as (rets & c & t & Hrun & _ & Hlen & _). subst ks.
  destruct rets as [|ret rets]; [done|]. exists ret, rets, c, t. split; [exact Hrun|]. intros ->.
  cbn [session] in Hrun. cbv [mbind M_bind] in Hrun. cbn [exec] in Hrun.
  destruct (CaptureInit _ _ _ _ _) as [[[ret c1] t1]| | |] eqn:E; try done.
  destruct (session _ c1 t1) as [[[rs c2] t2]| | |] eqn:Es; try done. injection Hrun as -> _ -> ->.
  destruct (stable_init entries Hentries Hproc _ _ _ _ _ E) as (Hl & Hpop & _ & He).
  destruct (stable_updates entries Hentries Hproc _ _ _ _ _ _ _ Hl Hpop Es)
    as (fs & arrived & Hup & _ & Hcr & _ & _ & es & He2 & Hn).
  exists c1, t1, fs, arrived. split; [done|]. split; [done|]. split; [by rewrite He2, He|].
  rewrite (listed_unique _ _ _ Hl Hpids) in *. intros gs Hgs.
  rewrite (credited_attributed os _ _ _ _ _ Hos Hinsp Hcr Hgs). f_equal.
  destruct (wlp_elim _ _ _ _ _ _ _ (init_ledger config pcb kcb _ _ inv_new) E) as (Ht & _).
  cbn [Z.eqb] in Ht. by rewrite Ht, (listed_unique _ _ _ Hl Hpids).
Qed.
End counted.

(** ** The sample system

    Process 42 sends 60 bytes during each of two updates. *)

Abbreviation app_session :=
  (@session app_pcap full_ntop6 app_env app_log
    (InitCall app_config true true :: map UpdateCall [-1; -1])).

Lemma app_session_returns :
  exists rets c t, app_session (@CaptureCxx.new app_pcap) 0%nat = Done (rets, c, t) /\
    (rets = [0; 0; 0] /\ option_map CapProcess.send (map_find 42 (CaptureCxx.processes c)) = Some 120).
Proof.
  apply (returns_inv _ (fun rets c => rets = [0; 0; 0] /\
    option_map CapProcess.send (map_find 42 (CaptureCxx.processes c)) = Some 120)).
  vm_compute. done.
Qed.

Lemma living_processes_kept_witness :
  exists rets c t arrived, app_session (@CaptureCxx.new app_pcap) 0%nat = Done (0 :: rets, c, t) /\
    nobody_gone (CaptureCxx.events c) /\ u64 (arriving 42 true arrived) = 120 /\
    Forall (fun a => ar_pid a ∈ keys (CaptureCxx.processes c)) arrived.
Proof.
  destruct app_session_returns as (rets & c & t & Hrun & -> & Hsend).
  destruct (@living_processes_kept app_pcap full_ntop6 app_env app_log app_pcap_ok sample_dirs
    sample_dirs_ok (fun _ => eq_refl) app_config true true [-1; -1] [0; 0] c t Hrun)
    as (pids & c1 & t1 & fs & arrived & _ & _ & _ & <- & Harr & Hfig & Hn).
  exists [0; 0], c, t, arrived. split; [exact Hrun|]. split; [exact Hn|]. split; [|exact Harr].
  destruct (map_find 42 (CaptureCxx.processes c)) as [p|] eqn:E; [|discriminate].
  destruct (Hfig 42 p E) as [<- _]. by injection Hsend.
Defined.

Lemma connections_counted_witness :
  exists rets c t c1 t1 fs arrived,
    app_session (@CaptureCxx.new app_pcap) 0%nat = Done (0 :: rets, c, t) /\
    @updates app_pcap full_ntop6 app_env [-1; -1] fs arrived (c1, t1) (c, t) /\
    forall gs, Forall2 (@attributed full_ntop6 app_os (CaptureCxx.devices c1) [42]) fs gs ->
      table c = apply_all gs {[42 := (0, 0)]}.
Proof.
  destruct (@connections_counted app_pcap full_ntop6 full_ntop6_ok app_env app_log app_pcap_ok app_os
    sample_dirs [42] app_config true true [-1; -1] (fun _ => eq_refl) app_steady eq_refl app_listed
    ltac:(repeat constructor; by eexists) ltac:(split; [done|by left]) ltac:(done))
    as (ret & rets & c & t & Hrun & Hres).
  destruct app_session_returns as (rets' & c' & t' & Hrun' & -> & _).
  pose proof (eq_trans (eq_sym Hrun) Hrun') as Heq. injection Heq as -> -> -> ->.
  destruct (Hres eq_refl) as (c1 & t1 & fs & arrived & _ & Hup & _ & Htable).
  exists [0; 0], c', t', c1, t1, fs, arrived. split; [exact Hrun|]. split; [exact Hup|exact Htable].
Defined.
