(* ===== verification/Client.v ===== *)
(** [examples/exa_capture.cpp]: a program that uses the library.  Its two
    callbacks, what they print, and its main loop over the three calls.  The
    packet printer of [README.md], and the tests that call the library. *)

From S2P Require Import Prelude Cstring Inet Stream Scanf OrdMap Pod Ostream Device Packet Inode.
From S2P Require Import Process Handle Logger Transport Protocol Capture Api.

(** ** The callbacks

    [processes] points to an array: an element beyond its end is out of
    bounds. *)

Definition load_row {S A} (rows : list A) (idx : nat) : M S A :=
  match rows !! idx with Some r => mret r | None => undef OobRead end.

Definition print_process (r : Process_t) : M string () :=
  put_str "name:";; put_array (p_name r);; put_str " cmdline:";; put_array (p_cmdline r);;
  put_str " user:";; put_array (p_user r);; put_str " group:";; put_array (p_group r);;
  put_str " pid:";; put_int (p_pid r);; put_str " uid:";; put_int (p_uid r);;
  put_str " gid:";; put_int (p_gid r);; put_str " fdCnt:";; put_int (p_fdCnt r);;
  put_str " memory:";; put_int (p_memory r);; put_str " cpuPercent:";; put_double (p_cpuPercent r);;
  put_str " memPercent:";; put_double (p_memPercent r);;
  put_str " ioRead:";; put_int (p_ioRead r);; put_str " ioWrite:";; put_int (p_ioWrite r);;
  put_str " recv:";; put_int (p_recv r);; put_str " send:";; put_int (p_send r);;
  endl.

(** [for (idx = 0; idx < tmp; idx++)], with [n] turns left. *)
Fixpoint print_processes (rows : list Process_t) (n idx : nat) : M string () :=
  match n with
  | O => mret ()
  | S n => r ← load_row rows idx; print_process r;; print_processes rows n (S idx)
  end.

Definition Process (action : CaptureAction) (processes : list Process_t) (size : Z) : M string () :=
  match action with
  | ACTION_REMOVE =>
      r ← load_row processes 0; put_str "remove pid:";; put_int (p_pid r);; endl
  | ACTION_UPDATE => print_processes processes (Z.to_nat size) 0
  end.

(** The body of the loop is commented out: no row is looked at. *)
Fixpoint skip_packets (n : nat) : M string () :=
  match n with O => mret () | S n => skip_packets n end.

Definition Packet (packets : list Packet_t) (size : Z) : M string () :=
  skip_packets (Z.to_nat size).

(** The README prints each row. *)
Definition print_packet (r : Packet_t) : M string () :=
  put_str "hash:";; put_array (k_hash r);;
  put_str " family:";; put_int (match k_family r with P_TCP => 0 | P_UDP => 1 end);;
  put_str " packetSize:";; put_int (k_packetSize r);; endl.

Fixpoint print_packets (rows : list Packet_t) (n idx : nat) : M string () :=
  match n with
  | O => mret ()
  | S n => r ← load_row rows idx; print_packet r;; print_packets rows n (S idx)
  end.

Definition Packet_readme (packets : list Packet_t) (size : Z) : M string () :=
  print_packets packets (Z.to_nat size) 0.

(** A pair of callbacks, and one call of them. *)
Record callbacks := mk_callbacks {
  cb_process : CaptureAction -> list Process_t -> Z -> M string ();
  cb_packet : list Packet_t -> Z -> M string ()
}.

Definition exa_callbacks : callbacks := mk_callbacks Process Packet.
Definition readme_callbacks : callbacks := mk_callbacks Process Packet_readme.

Definition call_back (cb : callbacks) (e : event) : M string () :=
  match e with
  | ProcessEvent action rows size => cb_process cb action rows size
  | PacketEvent rows size => cb_packet cb rows size
  end.

(** ** The main loop *)

Section client.
Context `{Pcap} `{Ntop6} `{Env} `{Spdlog} (cb : callbacks).

(** The library's singleton, and what was printed. *)
Record world := mk_world { library : CaptureCxx.t; cout : string }.

Definition set_library (c : CaptureCxx.t) (w : world) : world := mk_world c (cout w).
Definition set_cout (s : string) (w : world) : world := mk_world (library w) s.

(** A call of the library: its callbacks print.  They touch nothing of the
    library, so they are run in order when it returns. *)
Definition host_call (k : call) : M world Z :=
  w ← get;
  ret ← zoom library set_library (exec k);
  w' ← get;
  zoom cout set_cout
    (for_each (drop (length (CaptureCxx.events (library w))) (CaptureCxx.events (library w')))
       (call_back cb));;
  mret ret.

(** The zeroed configuration with its three assignments. *)
Definition exa_config : CaptureInitt :=
  mk_CaptureInitt (Some "./logs/exa_capture.log") 100 100 0 None None SELECT.

(** [n] turns of the endless loop.  What the system answers may change between
    any two calls, so [sleep(3)] adds nothing. *)
Fixpoint turns (n : nat) : M world () :=
  match n with
  | O => mret ()
  | S n => _ ← host_call (UpdateCall (-1)); turns n
  end.

Definition main (n : nat) : M world () :=
  ret ← host_call (InitCall exa_config true true);
  zoom cout set_cout (put_str "ret:";; put_int ret;; endl);;
  turns n.
End client.

(** ** The text of a callback *)

(** The line of a process, from its fields. *)
Definition report_text (name cmdline user group : string) (pid uid gid fdCnt memory : Z)
    (cpuPercent memPercent : double) (ioRead ioWrite recv send : Z) : string :=
  "name:" +:+ name +:+ " cmdline:" +:+ cmdline +:+ " user:" +:+ user +:+ " group:" +:+ group +:+
  " pid:" +:+ to_string pid +:+ " uid:" +:+ to_string uid +:+ " gid:" +:+ to_string gid +:+
  " fdCnt:" +:+ to_string fdCnt +:+ " memory:" +:+ to_string memory +:+
  " cpuPercent:" +:+ double_text cpuPercent +:+ " memPercent:" +:+ double_text memPercent +:+
  " ioRead:" +:+ to_string ioRead +:+ " ioWrite:" +:+ to_string ioWrite +:+
  " recv:" +:+ to_string recv +:+ " send:" +:+ to_string send +:+ String NEWLINE "".

Definition row_line (r : Process_t) : string :=
  report_text (array_str (p_name r)) (array_str (p_cmdline r)) (array_str (p_user r))
    (array_str (p_group r)) (p_pid r) (p_uid r) (p_gid r) (p_fdCnt r) (p_memory r)
    (p_cpuPercent r) (p_memPercent r) (p_ioRead r) (p_ioWrite r) (p_recv r) (p_send r).

Lemma Info_text p out t :
  CapProcess.Info p out t = Done ((), out +:+
    report_text (CapProcess.name p) (CapProcess.cmdline p) (CapProcess.user p) (CapProcess.group p)
      (CapProcess.pid p) (CapProcess.uid p) (CapProcess.gid p) (CapProcess.fdCnt p)
      (CapProcess.memory p) (CapProcess.cpuPercent p) (CapProcess.memPercent p)
      (CapProcess.ioRead p) (CapProcess.ioWrite p) (CapProcess.recv p) (CapProcess.send p), t).
Proof.
  unfold CapProcess.Info, put_int, put_double, endl. rewrite !put_then.
  unfold put_str, modify, report_text. by rewrite !str_app_assoc.
Qed.

Lemma terminated_nul n a : terminated n a -> NUL ∈ a.
Proof. intros [_ Ha]. by apply (list_elem_of_lookup_2 _ (n - 1)). Qed.

Lemma print_process_line r out t :
  NUL ∈ p_name r -> NUL ∈ p_cmdline r -> NUL ∈ p_user r -> NUL ∈ p_group r ->
  print_process r out t = Done ((), out +:+ row_line r, t).
Proof.
  intros. unfold print_process, put_int, put_double, endl.
  do 4 (rewrite !put_then; erewrite bind_Done by (by apply put_array_ok)).
  rewrite !put_then. unfold put_str, modify, row_line, report_text. by rewrite !str_app_assoc.
Qed.

Lemma print_process_text r out t :
  process_row_ok r -> print_process r out t = Done ((), out +:+ row_line r, t).
Proof. intros []. apply print_process_line; by eapply terminated_nul. Qed.

Definition text_of {A} (f : A -> string) (l : list A) : string :=
  foldr (fun x s => f x +:+ s) "" l.

Definition event_text (e : event) : string :=
  match e with
  | ProcessEvent ACTION_REMOVE (r :: _) _ => "remove pid:" +:+ to_string (p_pid r) +:+ String NEWLINE ""
  | ProcessEvent ACTION_UPDATE rows size => text_of row_line (take (Z.to_nat size) rows)
  | _ => ""
  end.

Lemma print_processes_text rows n idx out t :
  Forall process_row_ok rows -> (idx + n <= length rows)%nat ->
  print_processes rows n idx out t = Done ((), out +:+ text_of row_line (take n (drop idx rows)), t).
Proof.
  intros Hrows. revert idx out. induction n as [|n IH]; intros idx out Hn.
  { simpl. by rewrite str_app_nil_r. }
  destruct (lookup_lt_is_Some_2 rows idx ltac:(lia)) as [r Hr]. cbn [print_processes].
  erewrite bind_Done by (unfold load_row; by rewrite Hr).
  erewrite bind_Done by (apply print_process_text; by eapply Forall_lookup_1).
  rewrite IH by lia. rewrite (drop_S _ r idx) by done. simpl. by rewrite str_app_assoc.
Qed.

Lemma skip_packets_done n out t : skip_packets n out t = Done ((), out, t).
Proof. induction n as [|n IH]; [done|exact IH]. Qed.

(** Of a call whose rows are well formed the example reads the rows that are
    announced and no others, each array up to its terminator. *)
Lemma call_back_text e out t :
  event_ok e -> call_back exa_callbacks e out t = Done ((), out +:+ event_text e, t).
Proof.
  destruct e as [[|] rows n|rows n]; cbn [event_ok call_back].
  - intros (Hrows & Hn & _). cbn -[take]. unfold Process.
    rewrite print_processes_text by (done || lia). done.
  - intros (_ & Hn & Hrem). specialize (Hrem eq_refl). subst n.
    destruct rows as [|r rows]; [simpl in Hn; lia|]. simpl.
    unfold Process. erewrite bind_Done by reflexivity. unfold put_int, endl. rewrite !put_then.
    unfold put_str, modify. by rewrite !str_app_assoc.
  - intros _. simpl. unfold Packet. rewrite skip_packets_done. by rewrite str_app_nil_r.
Qed.

Lemma call_backs_text es out t :
  Forall event_ok es ->
  for_each es (call_back exa_callbacks) out t = Done ((), out +:+ text_of event_text es, t).
Proof.
  intros Hes. revert out. induction Hes as [|e es He _ IH]; intros out; cbn [for_each].
  { by rewrite str_app_nil_r. }
  rewrite (bind_Done _ _ _ _ _ _ _ (call_back_text e out t He)), IH. simpl. by rewrite str_app_assoc.
Qed.

(** ** The program *)

Section run.
Context `{Pcap} `{Ntop6} `{Env} `{Spdlog} `{!PcapOk}.

(** A call prints the text of the events it adds. *)
Lemma host_call_text bad k w t :
  host_ok bad -> well_called k -> bad (Threw SpdlogEx) \/ log_usable k -> inv (library w) ->
  wpx bad (host_call exa_callbacks k)
    (fun ret w' _ => inv (library w') /\ code_ok ret /\ exists es,
       CaptureCxx.events (library w') = CaptureCxx.events (library w) ++ es /\
       cout w' = cout w +:+ text_of event_text es) w t.
Proof.
  intros Hhost Hcall Hlog Hc. unfold host_call. do 4 wp_step.
  eapply wpx_mono; [apply exec_spec; auto|]. intros ret c' t' (Hc' & Hret & es & Hes).
  do 4 wp_step. simpl. rewrite Hes, drop_app_length. unfold wpx.
  assert (Forall event_ok es) as Hok.
  { pose proof (inv_events c' Hc') as Hall. rewrite Hes in Hall. by apply Forall_app in Hall as [_ ?]. }
  rewrite (call_backs_text es (cout w) t' Hok). simpl. split; [done|]. split; [done|]. by exists es.
Qed.

Lemma turns_text bad n w t :
  host_ok bad -> inv (library w) ->
  wpx bad (turns exa_callbacks n)
    (fun _ w' _ => inv (library w') /\ exists es,
       CaptureCxx.events (library w') = CaptureCxx.events (library w) ++ es /\
       cout w' = cout w +:+ text_of event_text es) w t.
Proof.
  intros Hhost. revert w t. induction n as [|n IH]; intros w t Hc.
  { split; [done|]. exists []. simpl. by rewrite app_nil_r, str_app_nil_r. }
  cbn [turns]. wp_step. eapply wpx_mono; [apply host_call_text; simpl; auto|].
  intros ret w1 t1 (Hc1 & _ & es & He & Ho). eapply wpx_mono; [by apply IH|].
  intros _ w2 t2 (Hc2 & es' & He' & Ho'). split; [done|]. exists (es ++ es').
  rewrite He', He, Ho', Ho, app_assoc. split; [done|]. rewrite str_app_assoc. f_equal.
  clear. induction es as [|e es IH]; [done|]. simpl. by rewrite str_app_assoc, IH.
Qed.

(** C19: the example runs on.  On a host that is as the library expects it, where
    its log file can be opened, the program completes any number of turns: no
    call of the library fails to return, and the callbacks read no row and no
    character beyond the arrays they are given.  What it has printed is the
    lines of the events of the initialisation, its code, which is one of
    three, and the lines of the events of the updates. *)
Theorem main_runs n :
  steady_host -> openable "./logs/exa_capture.log" = true ->
  exists c out t, main exa_callbacks n (mk_world CaptureCxx.new "") 0%nat = Done ((), mk_world c out, t) /\
    exists ret es es', code_ok ret /\ CaptureCxx.events c = es ++ es' /\
      out = text_of event_text es +:+ "ret:" +:+ to_string ret +:+ String NEWLINE (text_of event_text es').
Proof.
  intros Hhost Hlog. pose proof (steady_host_ok (fun _ => False) Hhost) as Hok.
  destruct (wp_elim (main exa_callbacks n) (fun _ w' _ => exists ret es es', code_ok ret /\
    CaptureCxx.events (library w') = es ++ es' /\
    cout w' = text_of event_text es +:+ "ret:" +:+ to_string ret +:+ String NEWLINE (text_of event_text es'))
    (mk_world CaptureCxx.new "") 0%nat) as ([] & [c out] & t & Hrun & Hpost); [|by exists c, out, t].
  unfold main. wp_step. eapply wpx_mono; [apply host_call_text; [done|split; [done|by left]| |apply inv_new]|].
  { right. by intros f [= <-]. }
  intros ret w1 t1 (Hc1 & Hret & es & He & Ho). do 2 wp_step. unfold put_int, endl. unfold wpx at 1.
  rewrite !put_then. cbn [put_str modify].
  eapply wpx_mono; [by apply turns_text|]. intros _ w2 t2 (_ & es' & He' & Ho').
  exists ret, es, es'. split; [done|]. simpl in *. rewrite He', Ho', Ho, He, !str_app_assoc. done.
Qed.
End run.

(** ** The tests

    [test/test_capprocess.cpp] prints one process; [test/test_capturecxx.cpp]
    drives the capture itself, without callbacks. *)

Section tests.
Context `{Pcap} `{Ntop6} `{Env} `{Spdlog}.

Definition test_parse : M string () :=
  '(ret, ptr) ← run_on (CapProcess.new 414673) (CapProcess.Parse 0 0);
  put_str "ret:";; put_int ret;; endl;;
  CapProcess.Info ptr.

Definition test_config : CaptureInitt :=
  mk_CaptureInitt (Some "./logs/test_capturecxx.log") 100 100 0 None None SELECT.

Fixpoint test_updates (n : nat) : M CaptureCxx.t () :=
  match n with
  | O => mret ()
  | S n => _ ← Update (-1) false; test_updates n
  end.

Definition test_ctor : M CaptureCxx.t () :=
  _ ← Init test_config false false;
  test_updates 100.

(** Both tests finish on a host that is as the library expects it; the first
    says whether there is such a process. *)
Lemma test_parse_finishes t :
  steady_host -> exists out t', test_parse "" t = Done ((), out, t').
Proof.
  intros Hhost. destruct (wp_elim test_parse (fun _ _ _ => True) "" t) as ([] & out & t' & Hrun & _);
    [|by exists out, t'].
  unfold test_parse. do 2 wp_step.
  eapply wpx_mono; [apply (parse_entry (fun _ => False));
    [apply (steady_host_ok _ Hhost)|unfold in64; lia|unfold in64; lia]|].
  intros ret p t1 _. unfold wpx, put_int, endl. rewrite !put_then. by rewrite Info_text.
Qed.

Lemma test_ctor_finishes `{!PcapOk} c t :
  steady_host -> openable "./logs/test_capturecxx.log" = true -> inv c ->
  exists c' t', test_ctor c t = Done ((), c', t') /\ inv c'.
Proof.
  intros Hhost Hlog Hc. pose proof (steady_host_ok (fun _ => False) Hhost) as Hok.
  destruct (wp_elim test_ctor (fun _ c' _ => inv c') c t) as ([] & c' & t' & Hrun & Hc');
    [|by exists c', t'].
  unfold test_ctor. wp_step.
  eapply wpx_mono;
    [apply (exec_spec _ (InitCall test_config false false)); [done|right; split; [done|by left]|right|done]|].
  { by intros f [= <-]. }
  intros _ c1 t1 (Hc1 & _). generalize 100%nat as n. intros n. revert c1 t1 Hc1.
  induction n as [|n IH]; intros c1 t1 Hc1; [done|]. cbn [test_updates]. wp_step.
  eapply wpx_mono; [apply (exec_spec _ (UpdateCall (-1))); simpl; auto|].
  intros _ c2 t2 (Hc2 & _). by apply IH.
Qed.
End tests.

(** ** What the two printers show *)

(** A text that an array of [n] characters holds. *)
Definition text_fits (n : nat) (s : string) : Prop :=
  str_forall not_nul s = true /\ (String.length s < n)%nat.

Lemma strncpy_text n s :
  text_fits (S n) s -> array_str (strncpy (zeroed (S n)) s n) = s.
Proof.
  intros [Hs Hlen]. pose proof (c_str_id s Hs) as Hid. rewrite strncpy_fits; [done| |lia].
  rewrite Hid. lia.
Qed.

(** The line the example prints for a reported process is the line the
    library's own [Info] prints for the process itself, when its texts fit the
    arrays of the row: no field is lost or exchanged between the two. *)
Theorem report_line_is_Info p out t :
  text_fits CAPTURE_COMMAN_SIZE (CapProcess.name p) ->
  text_fits CAPTURE_CMDLINE_SIZE (CapProcess.cmdline p) ->
  text_fits CAPTURE_COMMAN_SIZE (CapProcess.user p) ->
  text_fits CAPTURE_COMMAN_SIZE (CapProcess.group p) ->
  print_process (process_row p) out t = CapProcess.Info p out t.
Proof.
  intros Hn Hc Hu Hg. rewrite Info_text, print_process_line.
  - do 4 f_equal. unfold row_line.
    f_equal; first [by apply (strncpy_text 127) | by apply (strncpy_text 511)].
  - apply (terminated_nul CAPTURE_COMMAN_SIZE), strncpy_terminated; unfold CAPTURE_COMMAN_SIZE; lia.
  - apply (terminated_nul CAPTURE_CMDLINE_SIZE), strncpy_terminated; unfold CAPTURE_CMDLINE_SIZE; lia.
  - apply (terminated_nul CAPTURE_COMMAN_SIZE), strncpy_terminated; unfold CAPTURE_COMMAN_SIZE; lia.
  - apply (terminated_nul CAPTURE_COMMAN_SIZE), strncpy_terminated; unfold CAPTURE_COMMAN_SIZE; lia.
Qed.

Lemma print_packet_runs r out t :
  NUL ∈ k_hash r -> exists out', print_packet r out t = Done ((), out', t).
Proof.
  intros Hh. unfold print_packet, put_int, endl. rewrite put_then.
  erewrite bind_Done by (by apply put_array_ok). rewrite !put_then. by eexists.
Qed.

Lemma print_packets_short rows n idx out t :
  Forall packet_row_ok rows -> (idx <= length rows)%nat ->
  (exists out', print_packets rows n idx out t = Done ((), out', t) /\ (idx + n <= length rows)%nat) \/
  (print_packets rows n idx out t = Undef OobRead /\ (length rows < idx + n)%nat).
Proof.
  intros Hrows. revert idx out. induction n as [|n IH]; intros idx out Hidx; cbn [print_packets].
  { left. exists out. split; [done|lia]. }
  destruct (Nat.lt_ge_cases idx (length rows)) as [Hlt|Hge].
  - destruct (lookup_lt_is_Some_2 rows idx Hlt) as [r Hr].
    erewrite bind_Done by (unfold load_row; by rewrite Hr).
    destruct (Forall_lookup_1 _ _ _ _ Hrows Hr) as [Hh _].
    destruct (print_packet_runs r out t (terminated_nul _ _ Hh)) as [out1 Hr1].
    erewrite bind_Done by exact Hr1.
    destruct (IH (S idx) out1 ltac:(lia)) as [(out' & Hrun & Hle)|[Hrun Hle]].
    + left. exists out'. split; [exact Hrun|lia].
    + right. split; [exact Hrun|lia].
  - right. unfold load_row, mbind, M_bind. rewrite lookup_ge_None_2 by done. split; [done|lia].
Qed.

(** The packet printer of the README reads beyond the table exactly when the
    size it is given exceeds the rows there are, as it does when a frame left no
    row. *)
Theorem Packet_readme_overreads rows size out t :
  Forall packet_row_ok rows -> 0 <= size ->
  Packet_readme rows size out t = Undef OobRead <-> Z.of_nat (length rows) < size.
Proof.
  intros Hrows Hsize. unfold Packet_readme.
  destruct (print_packets_short rows (Z.to_nat size) 0 out t Hrows ltac:(lia))
    as [(out' & -> & Hle)|[-> Hle]]; split; first [done|lia].
Qed.

(** ** Runs *)

Definition app_world : @world app_pcap := @mk_world app_pcap (@CaptureCxx.new app_pcap) "".

Lemma main_runs_witness :
  exists c out t, @main app_pcap full_ntop6 app_env app_log exa_callbacks 2 app_world 0%nat =
    Done ((), @mk_world app_pcap c out, t).
Proof.
  destruct (@main_runs app_pcap full_ntop6 app_env app_log app_pcap_ok 2 app_steady eq_refl)
    as (c & out & t & Hrun & _).
  by exists c, out, t.
Defined.

(** One turn on the sample system: the code, and one line for the process. *)
Example app_main_output :
  match @main app_pcap full_ntop6 app_env app_log exa_callbacks 1 app_world 0%nat with
  | Done (_, w, _) => @cout app_pcap w =
      "ret:0" +:+ String NEWLINE
      ("name:sshd cmdline:/usr/sbin/sshd user:root group:root pid:42 uid:1000 gid:1000 fdCnt:1 " +:+
       "memory:2048 cpuPercent:0 memPercent:25 ioRead:10 ioWrite:20 recv:0 send:60" +:+
       String NEWLINE "")
  | _ => False
  end.
Proof. vm_compute. reflexivity. Qed.

(** The same turn with the printer of the README. *)
Example app_readme_overreads :
  @main app_pcap full_ntop6 app_env app_log readme_callbacks 1 app_world 0%nat = Undef OobRead.
Proof. vm_compute. reflexivity. Qed.

Lemma report_line_is_Info_witness :
  print_process (process_row (CapProcess.set_name "sshd" (CapProcess.new 42))) "" 0%nat =
    CapProcess.Info (CapProcess.set_name "sshd" (CapProcess.new 42)) "" 0%nat.
Proof. apply report_line_is_Info; split; vm_compute; (reflexivity || lia). Defined.

Lemma Packet_readme_overreads_witness :
  Packet_readme [Packet_zero] 2 "" 0%nat = Undef OobRead.
Proof.
  apply Packet_readme_overreads; [|lia|done].
  apply List.Forall_cons; [by repeat split|apply List.Forall_nil].
Defined.
